(** * deploy-ftp: a shallow embedding of the synchronisation engine

    The development follows [FtpDeploy] (class of the TypeScript source):
    the preserve matcher, the retry executor, the remote manifest store,
    the remote tree scanner and the [deploy] orchestrator.

    Modelling decisions, all visible in the definitions below:
    - JavaScript strings are [string]s (sequences of bytes); the plain
      objects [localHashes] and [remoteHashes] are kept as the [gmap] of
      their own string-valued properties, read and written through
      [Js.get] and [Js.set], which follow the prototype chain;
    - [async] code runs one call at a time, so it is a state-and-exception
      monad over a [state] that holds the remote tree, the connection flag,
      the trace of transport calls and [this.stats];
    - the FTP server is an in-memory tree; any transport call may in
      addition fail with an error chosen by [net], a schedule indexed by the
      number of calls issued so far;
    - remote paths are kept relative to [remote_dir]: the source always
      builds them with [path.posix.join(remote_dir, p)] and reads them back
      with [path.posix.relative(remote_dir, _)];
    - [console.log] output, [printAnalysis] and [printSummary] only print and
      are left out. *)

From Stdlib Require Import ZArith Ascii.
From stdpp Require Import base strings list gmap pretty.

Local Open Scope Z_scope.
Local Open Scope nat_scope.

(** ** JavaScript string primitives used by the source *)

Module Js.

(** [s.replace(/\\/g, '/')] *)
Fixpoint replace_backslash (s : string) : string :=
  match s with
  | EmptyString => EmptyString
  | String c s' =>
      String (if Ascii.eqb c "\" then "/"%char else c) (replace_backslash s')
  end.

(** [s.startsWith(p)] *)
Fixpoint startsWith (p s : string) : bool :=
  match p, s with
  | EmptyString, _ => true
  | String _ _, EmptyString => false
  | String a p', String b s' => Ascii.eqb a b && startsWith p' s'
  end.

(** [s.endsWith('/')] *)
Fixpoint endsWith_slash (s : string) : bool :=
  match s with
  | EmptyString => false
  | String c EmptyString => Ascii.eqb c "/"
  | String _ s' => endsWith_slash s'
  end.

(** [s.slice(0, -1)] *)
Fixpoint slice_0_m1 (s : string) : string :=
  match s with
  | EmptyString => EmptyString
  | String _ EmptyString => EmptyString
  | String c s' => String c (slice_0_m1 s')
  end.

(** [s.includes(sub)] *)
Fixpoint includes (sub s : string) : bool :=
  startsWith sub s ||
  match s with
  | EmptyString => false
  | String _ s' => includes sub s'
  end.

(** A value used as a condition: [undefined] and the empty string are falsy. *)
Definition truthy (v : option string) : bool :=
  match v with
  | Some s => negb (String.eqb s "")
  | None => false
  end.

(** [a === b] where [a] is a property read (possibly [undefined]) and [b] a
    string. *)
Definition strict_eq (a : option string) (b : string) : bool :=
  match a with
  | Some s => String.eqb s b
  | None => false
  end.

(** *** Plain objects used as maps

    [localHashes] and [remoteHashes] start as [{}] and are filled by
    assignments; their prototype is [Object.prototype]. Such an object is
    kept as the finite map of its own properties that hold a string. *)

(** The property names of [Object.prototype]. *)
Definition prototype_members : list string :=
  ["constructor"; "__defineGetter__"; "__defineSetter__"; "hasOwnProperty";
   "__lookupGetter__"; "__lookupSetter__"; "isPrototypeOf";
   "propertyIsEnumerable"; "toString"; "valueOf"; "__proto__"; "toLocaleString"].

(** What a property read yields: [undefined], a string, or the member
    [name] of [Object.prototype] (a function; [Object.prototype] itself for
    [__proto__]). Two such values are [===] exactly when they are equal. *)
Inductive value :=
| Undefined
| Str (s : string)
| Inherited (name : string).

#[global] Instance value_eq_dec : EqDecision value.
Proof. solve_decision. Defined.

(** [obj[key]]: the own property, else what the prototype holds. *)
Definition get (obj : gmap string string) (key : string) : value :=
  match obj !! key with
  | Some s => Str s
  | None => if bool_decide (key ∈ prototype_members) then Inherited key else Undefined
  end.

(** [obj[key] = s] for a string [s]: an own property is overwritten;
    without one, the assignment to [__proto__] reaches the accessor of
    [Object.prototype], which ignores a string, and every other name gets a
    new own property. *)
Definition set (key s : string) (obj : gmap string string) : gmap string string :=
  match obj !! key with
  | Some _ => <[key := s]> obj
  | None => if String.eqb key "__proto__" then obj else <[key := s]> obj
  end.

(** [Object.assign(target, source)]: one assignment per own property of
    [source]. *)
Definition assign (target source : gmap string string) : gmap string string :=
  map_fold set target source.

(** A value read from an object, used as a condition. *)
Definition is_truthy (v : value) : bool :=
  match v with
  | Undefined => false
  | Str s => negb (String.eqb s "")
  | Inherited _ => true
  end.

End Js.

(** ** Configuration and statistics *)

(** [FtpDeployConfig] after the constructor has merged the defaults; a
    missing [preserve] is the empty list (the source tests
    [!preserve || preserve.length === 0]). *)
Record FtpDeployConfig := {
  local_dir : string;
  remote_dir : string;
  clean_remote_files : bool;
  clear_destination : bool;
  dry_run : bool;
  preserve : list string;
  reconnect : bool;
  max_retries : Z;
  retry_delay : Z
}.

Record DeployStats := {
  uploaded : list string;
  removed : list string;
  unchanged : list string;
  errors : list string
}.

Definition HASH_FILE_NAME : string := ".deploy_ftp_hash.json".

(** ** PathMatcher *)

(** The callback of [preserve.some(...)] in [shouldPreserve]. *)
Definition preserve_matches (filePath preservePath : string) : bool :=
  let normalizedFile := Js.replace_backslash filePath in
  let normalizedPreserve := Js.replace_backslash preservePath in
  let cleanPreservePath :=
    if Js.endsWith_slash normalizedPreserve
    then Js.slice_0_m1 normalizedPreserve else normalizedPreserve in
  String.eqb normalizedFile cleanPreservePath
  || Js.startsWith (cleanPreservePath +:+ "/") normalizedFile.

Definition shouldPreserve (cfg : FtpDeployConfig) (filePath : string) : bool :=
  match preserve cfg with
  | [] => false
  | ps => existsb (preserve_matches filePath) ps
  end.

(** ** Errors *)

(** A thrown value: [err.name], [err.code] (absent on plain [Error]s) and
    [err.message]. *)
Record error := {
  err_name : string;
  err_code : option string;
  err_message : string
}.

(** [new Error(msg)] *)
Definition mkError (msg : string) : error :=
  {| err_name := "Error"; err_code := None; err_message := msg |}.

(** The text of [`${err}`], by [Error.prototype.toString]. *)
Definition err_to_string (e : error) : string :=
  if String.eqb (err_name e) "" then err_message e
  else if String.eqb (err_message e) "" then err_name e
  else err_name e +:+ ": " +:+ err_message e.

(** The classification computed in the [catch] of [executeWithRetry]. *)
Definition isConnectionError (err : error) : bool :=
  Js.strict_eq (err_code err) "ECONNRESET"
  || Js.strict_eq (err_code err) "ENOTFOUND"
  || Js.strict_eq (err_code err) "ETIMEDOUT"
  || Js.strict_eq (err_code err) "ECONNREFUSED"
  || Js.includes "connection" (err_message err).

(** [new Error(`Operation failed after ${retries} attempts`)]; [retries] is
    printed in decimal, as JavaScript prints an integer of magnitude below
    [10^21]. *)
Definition exhausted_error (retries : Z) : error :=
  mkError ("Operation failed after " +:+ pretty retries +:+ " attempts").

(** What the server answers when a path does not denote what the command
    needs (FTP reply 550, an [FTPError] of the transport library); its
    numeric code equals none of the string codes tested by
    [isConnectionError]. *)
Definition ftp_error (msg : string) : error :=
  {| err_name := "FTPError"; err_code := Some "550"; err_message := msg |}.

(** [JSON.parse] on a text that is not JSON. *)
Definition syntax_error : error :=
  {| err_name := "SyntaxError"; err_code := None;
     err_message := "Unexpected token in JSON" |}.

(** ** The remote tree *)

(** The content of a remote file: the JSON text of a manifest, or any other
    bytes (identified by their digest). *)
Inductive fcontent :=
| Blob (digest : string)
| Json (m : gmap string string).

(** An entry of a listing: a regular file, a directory, or something that is
    neither ([isFile] and [isDirectory] both false, e.g. a symbolic link). *)
#[warnings="-register-all"]
Inductive rnode :=
| RFile (c : fcontent)
| RDir (es : list (string * rnode))
| RLink.

Abbreviation rdir := (list (string * rnode)).

Definition isDirectory (n : rnode) : bool :=
  match n with RDir _ => true | _ => false end.

Definition isFile (n : rnode) : bool :=
  match n with RFile _ => true | _ => false end.

(** A relative path is split at every [/] to walk the tree. *)
Fixpoint split_slash (s : string) : list string :=
  match s with
  | EmptyString => [EmptyString]
  | String c s' =>
      if Ascii.eqb c "/" then EmptyString :: split_slash s'
      else match split_slash s' with
           | h :: t => String c h :: t
           | [] => [String c EmptyString]
           end
  end.

(** [path.posix.relative(remote_dir, path.posix.join(remoteDir, name))] for
    [remoteDir] given relative to [remote_dir] (the root itself is [""]). *)
Definition rel_join (remoteDir name : string) : string :=
  if String.eqb remoteDir "" then name else remoteDir +:+ "/" +:+ name.

Fixpoint lookup_entry (name : string) (es : rdir) : option rnode :=
  match es with
  | [] => None
  | (n, x) :: rest => if String.eqb n name then Some x else lookup_entry name rest
  end.

(** Apply [f] to the first entry called [name]: [f] fails ([None]), deletes
    the entry ([Some None]) or replaces it. A missing entry is a failure. *)
Fixpoint update_entry (name : string) (f : rnode -> option (option rnode))
    (es : rdir) : option rdir :=
  match es with
  | [] => None
  | (n, x) :: rest =>
      if String.eqb n name then
        match f x with
        | None => None
        | Some None => Some rest
        | Some (Some x') => Some ((n, x') :: rest)
        end
      else cons (n, x) <$> update_entry name f rest
  end.

Fixpoint node_at (segs : list string) (es : rdir) : option rnode :=
  match segs with
  | [] => Some (RDir es)
  | name :: rest =>
      match lookup_entry name es, rest with
      | Some x, [] => Some x
      | Some (RDir sub), _ => node_at rest sub
      | _, _ => None
      end
  end.

(** [DELE]: the path must denote a regular file. *)
Fixpoint tree_remove (segs : list string) (es : rdir) : option rdir :=
  match segs with
  | [] => None
  | [name] =>
      update_entry name
        (fun x => match x with RFile _ => Some None | _ => None end) es
  | name :: rest =>
      update_entry name
        (fun x => match x with
                  | RDir sub => (fun sub' => Some (RDir sub')) <$> tree_remove rest sub
                  | _ => None
                  end) es
  end.

Fixpoint mkdirs (segs : list string) : rdir :=
  match segs with
  | [] => []
  | name :: rest => [(name, RDir (mkdirs rest))]
  end.

(** [ensureDir]: walk down, creating the directories that are missing; a
    component that exists and is not a directory is a failure. *)
Fixpoint tree_ensureDir (segs : list string) (es : rdir) : option rdir :=
  match segs with
  | [] => Some es
  | name :: rest =>
      match lookup_entry name es with
      | None => Some (es ++ [(name, RDir (mkdirs rest))])
      | Some _ =>
          update_entry name
            (fun x => match x with
                      | RDir sub => (fun sub' => Some (RDir sub')) <$> tree_ensureDir rest sub
                      | _ => None
                      end) es
      end
  end.

(** [STOR]: the parent directory must exist; a regular file of that name is
    overwritten; a directory or link of that name is a failure. *)
Fixpoint tree_upload (segs : list string) (c : fcontent) (es : rdir) : option rdir :=
  match segs with
  | [] => None
  | [name] =>
      match lookup_entry name es with
      | None => Some (es ++ [(name, RFile c)])
      | Some _ =>
          update_entry name
            (fun x => match x with RFile _ => Some (Some (RFile c)) | _ => None end) es
      end
  | name :: rest =>
      update_entry name
        (fun x => match x with
                  | RDir sub => (fun sub' => Some (RDir sub')) <$> tree_upload rest c sub
                  | _ => None
                  end) es
  end.

(** ** Transport calls and the state of a run *)

(** One event per call on [this.client] (and per [sleep]). Calls that take a
    remote path carry it relative to [remote_dir]; [EvEnsureDir p] is
    [ensureDir(path.posix.dirname(remoteFile))] for the file [p]. *)
Inductive event :=
| EvAccess
| EvClose
| EvSleep (ms : Z)
| EvSize (p : string)
| EvList (remoteDir : string)
| EvDownloadTo (p : string)
| EvEnsureDir (p : string)
| EvUploadFrom (c : fcontent) (p : string)
| EvRemove (p : string)
| EvRemoveDir (remoteDir : string).

(** The calls that change remote content. *)
Definition mutating (ev : event) : bool :=
  match ev with
  | EvEnsureDir _ | EvUploadFrom _ _ | EvRemove _ | EvRemoveDir _ => true
  | _ => false
  end.

Record state := {
  remote : rdir;                (* the entries of the remote root *)
  connected : bool;             (* [this.client] holds an open session *)
  calls : nat;                  (* transport calls issued so far *)
  trace : list event;           (* their history, oldest first *)
  stats : DeployStats;          (* [this.stats] *)
  net : nat -> option error     (* the failure, if any, of the n-th call *)
}.

Definition set_remote (t : rdir) (s : state) : state :=
  {| remote := t; connected := connected s; calls := calls s;
     trace := trace s; stats := stats s; net := net s |}.

Definition set_connected (b : bool) (s : state) : state :=
  {| remote := remote s; connected := b; calls := calls s;
     trace := trace s; stats := stats s; net := net s |}.

Definition set_stats (st : DeployStats) (s : state) : state :=
  {| remote := remote s; connected := connected s; calls := calls s;
     trace := trace s; stats := st; net := net s |}.

Definition log_event (ev : event) (s : state) : state :=
  {| remote := remote s; connected := connected s; calls := calls s;
     trace := trace s ++ [ev]; stats := stats s; net := net s |}.

Definition tick (s : state) : state :=
  {| remote := remote s; connected := connected s; calls := S (calls s);
     trace := trace s; stats := stats s; net := net s |}.

(** The outcome of a computation: a value or a thrown error. The state
    reached is kept in both cases: JavaScript does not undo effects. *)
Inductive res (A : Type) :=
| Ok (a : A)
| Throw (e : error).
Arguments Ok {A} a.
Arguments Throw {A} e.

Definition M (A : Type) : Type := state -> res A * state.

Definition ret {A} (a : A) : M A := fun s => (Ok a, s).

Definition throw {A} (e : error) : M A := fun s => (Throw e, s).

Definition bind {A B} (m : M A) (k : A -> M B) : M B := fun s =>
  match m s with
  | (Ok a, s') => k a s'
  | (Throw e, s') => (Throw e, s')
  end.

(** [try { m } catch (err) { h err }] *)
Definition try_catch {A} (m : M A) (h : error -> M A) : M A := fun s =>
  match m s with
  | (Ok a, s') => (Ok a, s')
  | (Throw e, s') => h e s'
  end.

(** [try { m } finally { f }] for an [f] that cannot throw. *)
Definition try_finally {A} (m : M A) (f : state -> state) : M A := fun s =>
  let (r, s') := m s in (r, f s').

Definition modify (f : state -> state) : M unit := fun s => (Ok tt, f s).

Declare Scope monad_scope.
Delimit Scope monad_scope with M.
Bind Scope monad_scope with M.
Notation "'let!' x := m 'in' k" := (bind m (fun x => k))
  (at level 10, x name, m at level 100, k at level 200,
   format "'[v' 'let!'  x  :=  m  'in' '/' k ']'") : monad_scope.
Notation "m >> k" := (bind m (fun _ => k))
  (at level 65, right associativity) : monad_scope.
Local Open Scope monad_scope.

(** A call on the client. The network decides first; if it lets the call
    through, the server runs [op] on the tree. *)
Definition call {A} (ev : event) (op : rdir -> error + A * rdir) : M A := fun s =>
  let s1 := tick (log_event ev s) in
  match net s (calls s) with
  | Some e => (Throw e, s1)
  | None =>
      match op (remote s) with
      | inl e => (Throw e, s1)
      | inr (a, t) => (Ok a, set_remote t s1)
      end
  end.

(** A call that only reads. *)
Definition query (ev : event) : M unit := call ev (fun t => inr (tt, t)).

Definition of_option {A} (msg : string) (o : option A) : error + A :=
  match o with
  | Some a => inr a
  | None => inl (ftp_error msg)
  end.

Definition client_access : M unit :=
  query EvAccess >> modify (set_connected true).

Definition client_close (s : state) : state :=
  set_connected false (log_event EvClose s).

Definition client_size (p : string) : M unit :=
  call (EvSize p) (fun t =>
    match node_at (split_slash p) t with
    | Some (RFile _) => inr (tt, t)
    | _ => inl (ftp_error "No such file")
    end).

Definition client_downloadTo (p : string) : M fcontent :=
  call (EvDownloadTo p) (fun t =>
    match node_at (split_slash p) t with
    | Some (RFile c) => inr (c, t)
    | _ => inl (ftp_error "No such file")
    end).

Definition client_ensureDir (p : string) : M unit :=
  call (EvEnsureDir p) (fun t =>
    of_option "Not a directory"
      (pair tt <$> tree_ensureDir (removelast (split_slash p)) t)).

Definition client_uploadFrom (c : fcontent) (p : string) : M unit :=
  call (EvUploadFrom c p) (fun t =>
    of_option "Cannot store file" (pair tt <$> tree_upload (split_slash p) c t)).

Definition client_remove (p : string) : M unit :=
  call (EvRemove p) (fun t =>
    of_option "No such file" (pair tt <$> tree_remove (split_slash p) t)).

(** [this.sleep(ms)] *)
Definition sleep (ms : Z) : M unit := modify (log_event (EvSleep ms)).

(** Updates of [this.stats]. *)
Definition push_uploaded (p : string) : M unit := modify (fun s =>
  set_stats {| uploaded := uploaded (stats s) ++ [p]; removed := removed (stats s);
               unchanged := unchanged (stats s); errors := errors (stats s) |} s).

Definition push_removed (p : string) : M unit := modify (fun s =>
  set_stats {| uploaded := uploaded (stats s); removed := removed (stats s) ++ [p];
               unchanged := unchanged (stats s); errors := errors (stats s) |} s).

Definition push_unchanged (p : string) : M unit := modify (fun s =>
  set_stats {| uploaded := uploaded (stats s); removed := removed (stats s);
               unchanged := unchanged (stats s) ++ [p]; errors := errors (stats s) |} s).

Definition push_error (msg : string) : M unit := modify (fun s =>
  set_stats {| uploaded := uploaded (stats s); removed := removed (stats s);
               unchanged := unchanged (stats s); errors := errors (stats s) ++ [msg] |} s).

Definition get_stats : M DeployStats := fun s => (Ok (stats s), s).

(** ** RetryExecutor *)

(** [reconnect()]: close, take a fresh client, open a session; a failure is
    logged and rethrown. *)
Definition reconnect_session : M unit :=
  modify client_close >> client_access.

(** [x || d] on numbers. *)
Definition or_default (x d : Z) : Z := if (x =? 0)%Z then d else x.

(** The [for] loop of [executeWithRetry]. [fuel] counts the iterations that
    remain, [retries - attempt + 1]; when none remains the loop condition
    [attempt <= retries] is false and the statement after the loop runs. *)
Fixpoint retry_loop {A} (cfg : FtpDeployConfig) (operation : M A)
    (retries : Z) (fuel : nat) (attempt : Z) : M A :=
  match fuel with
  | O => throw (exhausted_error retries)
  | S fuel' =>
      try_catch operation (fun err =>
        if isConnectionError err && reconnect cfg && (attempt <? retries)%Z then
          sleep (or_default (retry_delay cfg) 1000) >>
          try_catch reconnect_session
            (fun reconnectErr =>
               if (attempt =? retries)%Z then throw err else ret tt) >>
          retry_loop cfg operation retries fuel' (attempt + 1)%Z
        else throw err)
  end.

Definition executeWithRetry_n {A} (cfg : FtpDeployConfig) (operation : M A)
    (retries : Z) : M A :=
  retry_loop cfg operation retries (Z.to_nat retries) 1%Z.

(** Every caller leaves [retries] to its default, [max_retries || 3]. *)
Definition executeWithRetry {A} (cfg : FtpDeployConfig) (operation : M A) : M A :=
  executeWithRetry_n cfg operation (or_default (max_retries cfg) 3).

(** ** RemoteManifestStore and TreeScanner *)

Definition remoteFileExists (remotePath : string) : M bool :=
  try_catch (client_size remotePath >> ret true) (fun _ => ret false).

Definition is_dot (name : string) : bool :=
  String.eqb name "." || String.eqb name "..".

(** [getRemoteFiles(remoteDir)], by recursion on the directory that
    [client.list(remoteDir)] reads. The loop body raises nothing (the
    recursive call catches its own errors), so [files] is still empty
    whenever the handler runs. *)
Fixpoint getRemoteFiles (remoteDir : string) (n : rnode) {struct n}
    : M (list string) :=
  match n with
  | RDir es =>
      try_catch
        (query (EvList remoteDir) >>
         (fix scan (items : rdir) : M (list string) :=
            match items with
            | [] => ret []
            | (name, item) :: rest =>
                if is_dot name then scan rest
                else match item with
                     | RDir _ =>
                         let! subFiles := getRemoteFiles (rel_join remoteDir name) item in
                         let! files := scan rest in
                         ret (subFiles ++ files)
                     | RFile _ =>
                         if negb (String.eqb name HASH_FILE_NAME) then
                           let! files := scan rest in
                           ret (rel_join remoteDir name :: files)
                         else scan rest
                     | RLink => scan rest
                     end
            end) es)
        (fun _ => ret [])
  | _ => try_catch (query (EvList remoteDir) >> throw (ftp_error "Not a directory"))
           (fun _ => ret [])
  end.

(** [getRemoteFiles(this.config.remote_dir)] *)
Definition getRemoteFiles_root : M (list string) := fun s =>
  getRemoteFiles "" (RDir (remote s)) s.

(** [updatedList.some(item => name !== '.' && name !== '..' && name !== HASH_FILE_NAME)] *)
Definition hasContent (es : rdir) : bool :=
  existsb (fun e => negb (is_dot (fst e)) && negb (String.eqb (fst e) HASH_FILE_NAME)) es.

(** [removeEmptyDirectories(remoteDir, preserveRoot)], by recursion on the
    directory that [client.list(remoteDir)] reads; the result is what has
    become of that directory: [None] once [removeDir] has deleted it. The
    single [try/catch] of the source is split at its three calls, every
    handler being the same (log and return). *)
Fixpoint removeEmptyDirectories (cfg : FtpDeployConfig) (remoteDir : string)
    (preserveRoot : bool) (n : rnode) {struct n} : M (option rnode) :=
  match n with
  | RDir es =>
      let! listed := try_catch (query (EvList remoteDir) >> ret true) (fun _ => ret false) in
      if negb listed then ret (Some n) else
      let! es' :=
        (fix each (items : rdir) : M rdir :=
           match items with
           | [] => ret []
           | (name, item) :: rest =>
               match item with
               | RDir _ =>
                   if is_dot name then
                     let! rest' := each rest in ret ((name, item) :: rest')
                   else if shouldPreserve cfg (rel_join remoteDir name) then
                     let! rest' := each rest in ret ((name, item) :: rest')
                   else
                     let! r := removeEmptyDirectories cfg (rel_join remoteDir name) false item in
                     let! rest' := each rest in
                     ret (match r with
                          | Some item' => (name, item') :: rest'
                          | None => rest'
                          end)
               | _ => let! rest' := each rest in ret ((name, item) :: rest')
               end
           end) es in
      let! relisted := try_catch (query (EvList remoteDir) >> ret true) (fun _ => ret false) in
      if negb relisted then ret (Some (RDir es')) else
      if negb (hasContent es') && negb preserveRoot then
        if negb (shouldPreserve cfg remoteDir) then
          if dry_run cfg then ret (Some (RDir es'))
          else try_catch (query (EvRemoveDir remoteDir) >> ret None)
                 (fun _ => ret (Some (RDir es')))
        else ret (Some (RDir es'))
      else ret (Some (RDir es'))
  | _ => ret (Some n)
  end.

(** [removeEmptyDirectories(this.config.remote_dir)] *)
Definition removeEmptyDirectories_root (cfg : FtpDeployConfig) : M unit := fun s =>
  match removeEmptyDirectories cfg "" true (RDir (remote s)) s with
  | (Ok (Some (RDir es')), s') => (Ok tt, set_remote es' s')
  | (Ok _, s') => (Ok tt, s')
  | (Throw e, s') => (Throw e, s')
  end.

(** [for (const x of xs) { body }] *)
Fixpoint for_each {A} (xs : list A) (body : A -> M unit) : M unit :=
  match xs with
  | [] => ret tt
  | x :: rest => body x >> for_each rest body
  end.

Definition clear_message (file : string) (err : error) : string :=
  "Failed to clear " +:+ file +:+ ": " +:+ err_to_string err.

(** One iteration of the loop of [clearDestination]. *)
Definition clear_one (cfg : FtpDeployConfig) (file : string) : M unit :=
  try_catch
    (if dry_run cfg then push_removed file
     else client_remove file >> push_removed file)
    (fun err => push_error (clear_message file err)).

Definition clearDestination (cfg : FtpDeployConfig) : M unit :=
  let! remoteFiles := getRemoteFiles_root in
  for_each remoteFiles (clear_one cfg) >>
  removeEmptyDirectories_root cfg.

(** [JSON.parse(hashStr)] of the downloaded text: an object whose own
    properties are the members of the JSON text. *)
Definition parse_manifest (c : fcontent) : M (gmap string string) :=
  match c with
  | Json m => ret m
  | Blob _ => throw syntax_error
  end.

Definition loadRemoteHashes (cfg : FtpDeployConfig) : M (gmap string string) :=
  let remoteHashes : gmap string string := ∅ in
  let! hashFileExists := remoteFileExists HASH_FILE_NAME in
  if hashFileExists then
    try_catch
      (let! hashStr := executeWithRetry cfg (client_downloadTo HASH_FILE_NAME) in
       let! parsed := parse_manifest hashStr in
       ret (Js.assign remoteHashes parsed))
      (fun _ => ret remoteHashes)
  else ret remoteHashes.

Definition saveRemoteHashes (cfg : FtpDeployConfig)
    (remoteHashes : gmap string string) : M unit :=
  executeWithRetry cfg (client_uploadFrom (Json remoteHashes) HASH_FILE_NAME).

(** ** The orchestrator *)

(** The local side of a run: [getLocalFiles] and [calcHash] either fail with
    an I/O error or yield, in scan order, every file as its relative path
    (forward slashes) and the hex digest of its content. *)
Definition local_snapshot : Type := error + list (string * string).

Definition scan_local (l : local_snapshot) : M (list (string * string)) :=
  match l with
  | inl e => throw e
  | inr files => ret files
  end.

(** The loop [localHashes[relativePath] = this.calcHash(localFile)]. *)
Definition build_localHashes (localFiles : list (string * string)) : gmap string string :=
  fold_left (fun m f => Js.set (fst f) (snd f) m) localFiles ∅.

(** [remoteHashes[relativePath] = localHash] with [localHash] read from
    [localHashes]. When [localHash] is not a string it is [undefined] or the
    very member that [remoteHashes] inherits under that name: the own
    property that the assignment creates then reads, serialises and deletes
    like a missing one (for [__proto__] the accessor is given
    [Object.prototype] and changes nothing), so no own string is kept. *)
Definition assign_hash (localHashes : gmap string string) (relativePath : string)
    (remoteHashes : gmap string string) : gmap string string :=
  match Js.get localHashes relativePath with
  | Js.Str localHash => Js.set relativePath localHash remoteHashes
  | _ => delete relativePath remoteHashes
  end.

Definition upload_message (relativePath : string) (err : error) : string :=
  "Failed to upload " +:+ relativePath +:+ ": " +:+ err_to_string err.

Definition remove_message (fileToRemove : string) (err : error) : string :=
  "Failed to remove " +:+ fileToRemove +:+ ": " +:+ err_to_string err.

(** One iteration of "Process local files". *)
Definition upload_one (cfg : FtpDeployConfig) (localHashes : gmap string string)
    (localFile : string * string) (remoteHashes : gmap string string)
    : M (gmap string string) :=
  let relativePath := fst localFile in
  try_catch
    (if bool_decide (Js.get remoteHashes relativePath = Js.get localHashes relativePath) then
       push_unchanged relativePath >> ret remoteHashes
     else if dry_run cfg then
       push_uploaded relativePath >>
       ret (assign_hash localHashes relativePath remoteHashes)
     else
       client_ensureDir relativePath >>
       client_uploadFrom (Blob (snd localFile)) relativePath >>
       push_uploaded relativePath >>
       ret (assign_hash localHashes relativePath remoteHashes))
    (fun err =>
       push_error (upload_message relativePath err) >>
       ret remoteHashes).

(** A loop that threads the manifest working copy. *)
Fixpoint fold_M {A B} (body : A -> B -> M B) (xs : list A) (b : B) : M B :=
  match xs with
  | [] => ret b
  | x :: rest => let! b' := body x b in fold_M body rest b'
  end.

Definition upload_phase (cfg : FtpDeployConfig) (localHashes : gmap string string)
    (localFiles : list (string * string)) (remoteHashes : gmap string string)
    : M (gmap string string) :=
  fold_M (upload_one cfg localHashes) localFiles remoteHashes.

(** [remoteFiles.filter(remotePath => !localHashes[remotePath])] *)
Definition orphanedFiles (localHashes : gmap string string) (remoteFiles : list string)
    : list string :=
  List.filter (fun remotePath => negb (Js.is_truthy (Js.get localHashes remotePath)))
    remoteFiles.

Definition filesToRemove (cfg : FtpDeployConfig) (orphaned : list string) : list string :=
  List.filter (fun remotePath => negb (shouldPreserve cfg remotePath)) orphaned.

Definition preservedFiles (cfg : FtpDeployConfig) (orphaned : list string) : list string :=
  List.filter (fun remotePath => shouldPreserve cfg remotePath) orphaned.

(** [preservedFiles.forEach(file => { if (!remoteHashes[file]) remoteHashes[file] = 'preserved' })] *)
Definition keep_preserved (preserved : list string) (remoteHashes : gmap string string)
    : gmap string string :=
  fold_left (fun m file =>
               if negb (Js.is_truthy (Js.get m file)) then Js.set file "preserved" m else m)
    preserved remoteHashes.

(** One iteration of the removal loop. *)
Definition remove_one (cfg : FtpDeployConfig) (fileToRemove : string)
    (remoteHashes : gmap string string) : M (gmap string string) :=
  try_catch
    (if dry_run cfg then
       push_removed fileToRemove >> ret (delete fileToRemove remoteHashes)
     else
       executeWithRetry cfg (client_remove fileToRemove) >>
       push_removed fileToRemove >>
       ret (delete fileToRemove remoteHashes))
    (fun err =>
       push_error (remove_message fileToRemove err) >>
       ret remoteHashes).

(** "Clean remote files": the block guarded by
    [clean_remote_files && !clear_destination && remoteFiles]. *)
Definition clean_phase (cfg : FtpDeployConfig) (localHashes : gmap string string)
    (remoteFiles : option (list string)) (remoteHashes : gmap string string)
    : M (gmap string string) :=
  match remoteFiles with
  | Some remoteFiles =>
      if clean_remote_files cfg && negb (clear_destination cfg) then
        let orphaned := orphanedFiles localHashes remoteFiles in
        let toRemove := filesToRemove cfg orphaned in
        let preserved := preservedFiles cfg orphaned in
        let remoteHashes := keep_preserved preserved remoteHashes in
        let! remoteHashes := fold_M (remove_one cfg) toRemove remoteHashes in
        (if (0 <? length toRemove)%nat then removeEmptyDirectories_root cfg else ret tt) >>
        ret remoteHashes
      else ret remoteHashes
  | None => ret remoteHashes
  end.

(** The first half of the [try] block of [deploy]: connect, clear the
    destination if asked to, load the manifest, scan the local tree, and scan
    the remote one in clean mode. Its value is what the second half works
    from: [remoteHashes], the local files and [remoteFiles] ([undefined]
    when no remote scan was made). *)
Definition gather (cfg : FtpDeployConfig) (l : local_snapshot)
    : M (gmap string string * list (string * string) * option (list string)) :=
  client_access >>
  (if clear_destination cfg then clearDestination cfg else ret tt) >>
  let! remoteHashes := loadRemoteHashes cfg in
  let! localFiles := scan_local l in
  let! remoteFiles :=
    (if clean_remote_files cfg && negb (clear_destination cfg)
     then let! fs := getRemoteFiles_root in ret (Some fs)
     else ret None) in
  ret (remoteHashes, localFiles, remoteFiles).

(** The body of [deploy] up to the end of the clean phase; its value is the
    manifest working copy [remoteHashes]. *)
Definition deploy_plan (cfg : FtpDeployConfig) (l : local_snapshot)
    : M (gmap string string) :=
  let! inputs := gather cfg l in
  let remoteHashes := fst (fst inputs) in
  let localFiles := snd (fst inputs) in
  let remoteFiles := snd inputs in
  let localHashes := build_localHashes localFiles in
  let! remoteHashes := upload_phase cfg localHashes localFiles remoteHashes in
  clean_phase cfg localHashes remoteFiles remoteHashes.

(** "Update remote hash file". *)
Definition persist (cfg : FtpDeployConfig) (remoteHashes : gmap string string) : M unit :=
  if dry_run cfg then ret tt else saveRemoteHashes cfg remoteHashes.

(** The [try] block of [deploy]. *)
Definition deploy_body (cfg : FtpDeployConfig) (l : local_snapshot) : M DeployStats :=
  let! remoteHashes := deploy_plan cfg l in
  persist cfg remoteHashes >>
  get_stats.

Definition critical_message (err : error) : string :=
  "Critical error: " +:+ err_to_string err.

Definition deploy (cfg : FtpDeployConfig) (l : local_snapshot) : M DeployStats :=
  try_finally
    (try_catch (deploy_body cfg l)
       (fun err => push_error (critical_message err) >> get_stats))
    client_close.

(** A fresh [FtpDeploy] object facing a server: empty [stats], no session. *)
Definition initial (t : rdir) (failures : nat -> option error) : state :=
  {| remote := t; connected := false; calls := 0; trace := [];
     stats := {| uploaded := []; removed := []; unchanged := []; errors := [] |};
     net := failures |}.

(** ** Specification-level vocabulary used by the theorems *)

(** "Normalizing all path separators to forward slash", character by
    character. *)
Definition to_forward_slashes (s : string) : string :=
  String.string_of_list_ascii
    (map (fun c : ascii => if decide (c = "\"%char) then "/"%char else c)
       (String.list_ascii_of_string s)).

(** [c] is [e] "with any trailing slash stripped". *)
Definition stripped_of (e c : string) : Prop :=
  e = c +:+ "/" ∨ (c = e ∧ ∀ c', e ≠ c' +:+ "/").

(** The matching rule of the PathMatcher, in the words of its contract. *)
Definition preserve_rule (path entry : string) : Prop :=
  ∃ c, stripped_of (to_forward_slashes entry) c ∧
       (to_forward_slashes path = c ∨
        ∃ rest, to_forward_slashes path = c +:+ "/" +:+ rest).

Definition with_preserve (ps : list string) (cfg : FtpDeployConfig) : FtpDeployConfig :=
  {| local_dir := local_dir cfg; remote_dir := remote_dir cfg;
     clean_remote_files := clean_remote_files cfg;
     clear_destination := clear_destination cfg; dry_run := dry_run cfg;
     preserve := ps; reconnect := reconnect cfg;
     max_retries := max_retries cfg; retry_delay := retry_delay cfg |}.

(** What happens between two attempts of [executeWithRetry]: the delay and
    the reconnection, whose own failure is ignored. *)
Definition between_attempts (cfg : FtpDeployConfig) (s : state) : state :=
  snd ((sleep (or_default (retry_delay cfg) 1000) >>
        try_catch reconnect_session (fun _ => ret tt)) s).

(** The state in which attempt number [k + 1] starts, when every earlier
    attempt was followed by a retry. *)
Fixpoint attempt_state {A} (cfg : FtpDeployConfig) (operation : M A)
    (s : state) (k : nat) : state :=
  match k with
  | O => s
  | S k' => between_attempts cfg (snd (operation (attempt_state cfg operation s k')))
  end.

(** [operation] fails with a connection-classified error on attempt [k + 1]. *)
Definition transient_failure {A} (cfg : FtpDeployConfig) (operation : M A)
    (s : state) (k : nat) : Prop :=
  ∃ e, fst (operation (attempt_state cfg operation s k)) = Throw e ∧
       isConnectionError e = true.

(** Sample data. *)
Definition sample_config : FtpDeployConfig :=
  {| local_dir := "dist"; remote_dir := "/public_html";
     clean_remote_files := false; clear_destination := false; dry_run := false;
     preserve := []; reconnect := true; max_retries := 3; retry_delay := 1000 |}.

Definition reliable : nat -> option error := fun _ => None.

Definition econnreset : error :=
  {| err_name := "Error"; err_code := Some "ECONNRESET";
     err_message := "read ECONNRESET" |}.

Definition unreachable : nat -> option error := fun _ => Some econnreset.

Definition with_clean (b : bool) (cfg : FtpDeployConfig) : FtpDeployConfig :=
  {| local_dir := local_dir cfg; remote_dir := remote_dir cfg;
     clean_remote_files := b;
     clear_destination := clear_destination cfg; dry_run := dry_run cfg;
     preserve := preserve cfg; reconnect := reconnect cfg;
     max_retries := max_retries cfg; retry_delay := retry_delay cfg |}.

Definition with_clear (b : bool) (cfg : FtpDeployConfig) : FtpDeployConfig :=
  {| local_dir := local_dir cfg; remote_dir := remote_dir cfg;
     clean_remote_files := clean_remote_files cfg;
     clear_destination := b; dry_run := dry_run cfg;
     preserve := preserve cfg; reconnect := reconnect cfg;
     max_retries := max_retries cfg; retry_delay := retry_delay cfg |}.

Definition with_dry_run (b : bool) (cfg : FtpDeployConfig) : FtpDeployConfig :=
  {| local_dir := local_dir cfg; remote_dir := remote_dir cfg;
     clean_remote_files := clean_remote_files cfg;
     clear_destination := clear_destination cfg; dry_run := b;
     preserve := preserve cfg; reconnect := reconnect cfg;
     max_retries := max_retries cfg; retry_delay := retry_delay cfg |}.

(** The network fails exactly once, at call number [k]. *)
Definition fails_at (k : nat) (e : error) : nat -> option error :=
  fun n => if Nat.eqb n k then Some e else None.

(** The tree [n] with every regular file called [HASH_FILE_NAME] taken out,
    at every depth. *)
Fixpoint without_manifest (n : rnode) : rnode :=
  match n with
  | RDir es =>
      RDir ((fix go (items : rdir) : rdir :=
               match items with
               | [] => []
               | (name, item) :: rest =>
                   match item with
                   | RFile _ =>
                       if String.eqb name HASH_FILE_NAME then go rest
                       else (name, item) :: go rest
                   | _ => (name, without_manifest item) :: go rest
                   end
               end) es)
  | _ => n
  end.

(** The file name the specification gives to the manifest. *)
Definition spec_manifest_name : string := ".deploy_hash_manifest.json".

(** A small deployment: a server that holds [a.txt] and an orphan, with the
    manifest of a previous run, and a local tree with [a.txt] unchanged and
    [b.txt] new. *)
Definition sample_manifest : gmap string string := {["a.txt" := "h1"]}.

Definition sample_tree : rdir :=
  [("a.txt", RFile (Blob "h1"));
   ("old.txt", RFile (Blob "h0"));
   (HASH_FILE_NAME, RFile (Json sample_manifest))].

Definition sample_files : list (string * string) :=
  [("a.txt", "h1"); ("b.txt", "h2")].

(** ** Reasoning vocabulary for runs *)

(** [m] cannot raise: from every state it ends with a value. *)
Definition never_throws {A} (m : M A) : Prop :=
  ∀ s, ∃ a, fst (m s) = Ok a.

(** [m] relates the state it starts in to the state it ends in by [R],
    whether it returns or raises. *)
Definition preserves (R : relation state) {A} (m : M A) : Prop :=
  ∀ s, R s (snd (m s)).

(** A frame: a preorder on states that every session-level step respects,
    as long as the transport calls it sees are among the [quiet] ones. *)
Class Frame (R : relation state) : Type := {
  quiet : event → Prop;
  frame_preorder :: PreOrder R;
  frame_issue : ∀ ev s, quiet ev → R s (tick (log_event ev s));
  frame_log : ∀ ev s, quiet ev → R s (log_event ev s);
  frame_conn : ∀ b s, R s (set_connected b s)
}.

(** The session events of a retry - the delay and the reconnection - are
    quiet. *)
Definition quiet_session (R : relation state) `{!Frame R} : Prop :=
  quiet EvAccess ∧ quiet EvClose ∧ ∀ ms, quiet (EvSleep ms).

(** Frames that tolerate a change of the remote tree, or an update of one of
    the four lists of [this.stats]. *)
Class AllowsRemote (R : relation state) : Prop :=
  allows_remote : ∀ t s, R s (set_remote t s).
Class AllowsUploaded (R : relation state) : Prop :=
  allows_uploaded : ∀ p s, R s (snd (push_uploaded p s)).
Class AllowsRemoved (R : relation state) : Prop :=
  allows_removed : ∀ p s, R s (snd (push_removed p s)).
Class AllowsUnchanged (R : relation state) : Prop :=
  allows_unchanged : ∀ p s, R s (snd (push_unchanged p s)).
Class AllowsError (R : relation state) : Prop :=
  allows_error : ∀ msg s, R s (snd (push_error msg s)).

(** A server call that only reads. *)
Definition read_only {A} (op : rdir → error + A * rdir) : Prop :=
  ∀ t a t', op t = inr (a, t') → t' = t.

(** The network schedule is never touched. *)
Definition same_net : relation state := fun s s' => net s' = net s.

(** [s] contains the character [c]. *)
Fixpoint mentions (c : ascii) (s : string) : bool :=
  match s with
  | EmptyString => false
  | String a s' => Ascii.eqb c a || mentions c s'
  end.


(** The events logged between [s] and [s'] all satisfy [P]. *)
Definition trace_extends (P : event → Prop) : relation state := fun s s' =>
  ∃ evs, trace s' = trace s ++ evs ∧ Forall P evs.

(** What a dry run may do: log calls that do not change remote content, and
    leave the remote tree as it is. *)
Definition dry_frame : relation state := fun s s' =>
  remote s' = remote s ∧ trace_extends (fun ev => mutating ev = false) s s'.

(** [this.stats] is left as it is. *)
Definition same_stats : relation state := fun s s' => stats s' = stats s.

(** A transport write issued for the deployable file [p]: the creation of
    its directory, the upload of a local file to it, or its deletion. (The
    final upload of the manifest text is not a write for a deployable
    file.) *)
Definition file_write (p : string) (ev : event) : Prop :=
  match ev with
  | EvEnsureDir q | EvRemove q | EvUploadFrom (Blob _) q => q = p
  | _ => False
  end.

(** Each list of [this.stats] only grows, at its end. *)
Definition stats_grow : relation state := fun s s' =>
  (∃ l, uploaded (stats s') = uploaded (stats s) ++ l) ∧
  (∃ l, removed (stats s') = removed (stats s) ++ l) ∧
  (∃ l, unchanged (stats s') = unchanged (stats s) ++ l) ∧
  (∃ l, errors (stats s') = errors (stats s) ++ l).

(** No write is issued for [p], and the history kept in [this.stats] is
    not rewritten. *)
Definition untouched (p : string) : relation state := fun s s' =>
  trace_extends (fun ev => ¬ file_write p ev) s s' ∧ stats_grow s s'.

(** The [removed] list is left as it is. *)
Definition same_removed : relation state := fun s s' =>
  removed (stats s') = removed (stats s).

(** The [uploaded] list is left as it is. *)
Definition same_uploaded : relation state := fun s s' =>
  uploaded (stats s') = uploaded (stats s).

(** The [errors] list only grows. *)
Definition errors_grow : relation state := fun s s' =>
  ∃ l, errors (stats s') = errors (stats s) ++ l.

(** What the upload loop does for one local path. *)
Definition upload_outcome (cfg : FtpDeployConfig) (p h : string)
    (m m' : gmap string string) (s s' : state) : Prop :=
  (m !! p = Some h →
     p ∈ unchanged (stats s') ∧ untouched p s s' ∧ m' !! p = Some h) ∧
  (m !! p ≠ Some h →
     (p ∈ uploaded (stats s') ∧ m' !! p = Some h) ∨
     (dry_run cfg = false ∧ (∃ e, upload_message p e ∈ errors (stats s')) ∧
      m' !! p = m !! p)).


(** ** The remote tree as a set of paths *)

(** The relative path of the entry reached from directory [remoteDir] by
    the names [segs]: [rel_join] applied name after name. *)
Definition join_path (remoteDir : string) (segs : list string) : string :=
  fold_left rel_join segs remoteDir.

(** The deployable files of a tree, each as the list of names that leads to
    it: what a recursive listing that never fails reports. *)
Fixpoint all_paths (n : rnode) : list (list string) :=
  match n with
  | RDir es =>
      (fix go (items : rdir) : list (list string) :=
         match items with
         | [] => []
         | (name, item) :: rest =>
             (if is_dot name then []
              else match item with
                   | RDir _ => map (cons name) (all_paths item)
                   | RFile _ =>
                       if negb (String.eqb name HASH_FILE_NAME) then [[name]] else []
                   | RLink => []
                   end) ++ go rest
         end) es
  | _ => []
  end.

(** The paths contributed by one entry of a directory. *)
Definition entry_paths (e : string * rnode) : list (list string) :=
  if is_dot (fst e) then []
  else match snd e with
       | RDir _ => map (cons (fst e)) (all_paths (snd e))
       | RFile _ => if negb (String.eqb (fst e) HASH_FILE_NAME) then [[fst e]] else []
       | RLink => []
       end.

(** A name a server can give to an entry: not empty, without [/]. *)
Definition name_ok (name : string) : Prop :=
  name ≠ "" ∧ mentions "/" name = false.

(** A well-formed tree: in every directory the names are proper and
    distinct. *)
Fixpoint wf_node (n : rnode) : Prop :=
  match n with
  | RDir es =>
      NoDup (map fst es) ∧
      (fix each (items : rdir) : Prop :=
         match items with
         | [] => True
         | (name, item) :: rest => name_ok name ∧ wf_node item ∧ each rest
         end) es
  | _ => True
  end.

Definition wf_tree (t : rdir) : Prop := wf_node (RDir t).

(** A local relative path as [path.relative] produces them: no empty
    segment. *)
Definition wf_local_path (p : string) : Prop :=
  Forall (fun seg => seg ≠ "") (split_slash p).

(** The listing of the whole tree [t], as relative paths. *)
Definition files_of (t : rdir) : list string :=
  join_path "" <$> all_paths (RDir t).

(** A network that never fails. *)
Definition reliable_net (s : state) : Prop := ∀ k, net s k = None.

(** The remote tree is left as it is. *)
Definition same_remote : relation state := fun s s' => remote s' = remote s.

(** Between [s] and [s'] a well-formed tree stays well-formed and its
    listing gains no path outside of [L]. *)
Definition grows_by (L : list string) : relation state := fun s s' =>
  wf_tree (remote s) →
  wf_tree (remote s') ∧
  ∀ r, r ∈ files_of (remote s') → r ∈ files_of (remote s) ∨ r ∈ L.

(** The listing gains no path. *)
Definition no_new_files : relation state := fun s s' =>
  ∀ r, r ∈ files_of (remote s') → r ∈ files_of (remote s).

(** A server on which a deployment of [files] has settled: the manifest
    stored there, once loaded, reads for every local path what
    [localHashes] reads, and every listed file is one that [localHashes]
    answers for or is preserved. *)
Definition settled (cfg : FtpDeployConfig) (files : list (string * string))
    (t : rdir) : Prop :=
  ∃ M, lookup_entry HASH_FILE_NAME t = Some (RFile (Json M)) ∧
       (∀ p, p ∈ (fst <$> files) →
          Js.get (Js.assign ∅ M) p = Js.get (build_localHashes files) p) ∧
       (∀ r, r ∈ files_of t →
          Js.is_truthy (Js.get (build_localHashes files) r) = true ∨
          shouldPreserve cfg r = true).

(** ** Further vocabulary: the retry executor *)

(** The outcome of attempt [k + 1] ends the loop of [executeWithRetry]
    whatever the number of attempts left: a value, or an error that the
    [catch] does not retry (not connection-classified, or reconnection
    disabled). *)
Definition settles_at {A} (cfg : FtpDeployConfig) (operation : M A)
    (s : state) (k : nat) : Prop :=
  match fst (operation (attempt_state cfg operation s k)) with
  | Ok _ => True
  | Throw e => isConnectionError e && reconnect cfg = false
  end.

Definition with_max_retries (n : Z) (cfg : FtpDeployConfig) : FtpDeployConfig :=
  {| local_dir := local_dir cfg; remote_dir := remote_dir cfg;
     clean_remote_files := clean_remote_files cfg;
     clear_destination := clear_destination cfg; dry_run := dry_run cfg;
     preserve := preserve cfg; reconnect := reconnect cfg;
     max_retries := n; retry_delay := retry_delay cfg |}.

(** ** Further vocabulary: pruning and clearing *)

(** No directory of the tree bears the name of the manifest file. *)
Fixpoint no_manifest_dir (n : rnode) : Prop :=
  match n with
  | RDir es =>
      (fix each (items : rdir) : Prop :=
         match items with
         | [] => True
         | (name, item) :: rest =>
             (isDirectory item = true → name ≠ HASH_FILE_NAME) ∧
             no_manifest_dir item ∧ each rest
         end) es
  | _ => True
  end.

(** The calls that [removeEmptyDirectories] may issue: listings, and the
    removal of a directory that is not preserved, outside of a dry run. *)
Definition prune_event (cfg : FtpDeployConfig) (ev : event) : Prop :=
  match ev with
  | EvList _ => True
  | EvRemoveDir d => shouldPreserve cfg d = false ∧ dry_run cfg = false
  | _ => False
  end.

(** ** Further vocabulary: the orchestrator *)

(** The calls that delete something on the server. *)
Definition deletion (ev : event) : bool :=
  match ev with
  | EvRemove _ | EvRemoveDir _ => true
  | _ => false
  end.

(** The calls that store something on the server. *)
Definition storing (ev : event) : bool :=
  match ev with
  | EvEnsureDir _ | EvUploadFrom _ _ => true
  | _ => false
  end.

(** The lists [uploaded] and [unchanged] are left as they are. *)
Definition same_transfers : relation state := fun s s' =>
  uploaded (stats s') = uploaded (stats s) ∧ unchanged (stats s') = unchanged (stats s).

(** The record [this.stats] with one more message in [errors]. *)
Definition with_error (msg : string) (st : DeployStats) : DeployStats :=
  {| uploaded := uploaded st; removed := removed st; unchanged := unchanged st;
     errors := errors st ++ [msg] |}.

(** ** The command line *)

(** The [options] object that the argument parser hands to the action. *)
Record CLIConfig := {
  opt_config : option string;
  opt_host : option string;
  opt_user : option string;
  opt_password : option string;
  opt_port : option Z;
  opt_secure : option bool;
  opt_localDir : option string;
  opt_remoteDir : option string;
  opt_clean : option bool;
  opt_clearDestination : option bool;
  opt_dryRun : option bool;
  opt_preserve : option string;
  opt_reconnect : option bool;
  opt_maxRetries : option Z;
  opt_retryDelay : option Z
}.

(** [Partial<FtpDeployConfig>]: what a configuration file provides, and the
    merged object passed to the constructor. A field is [None] when its key
    is missing. *)
Record PartialConfig := {
  pc_host : option string;
  pc_user : option string;
  pc_password : option string;
  pc_port : option Z;
  pc_secure : option bool;
  pc_local_dir : option string;
  pc_remote_dir : option string;
  pc_clean_remote_files : option bool;
  pc_clear_destination : option bool;
  pc_dry_run : option bool;
  pc_preserve : option (list string);
  pc_reconnect : option bool;
  pc_max_retries : option Z;
  pc_retry_delay : option Z
}.

(** [let config = {}] *)
Definition no_config : PartialConfig :=
  {| pc_host := None; pc_user := None; pc_password := None; pc_port := None;
     pc_secure := None; pc_local_dir := None; pc_remote_dir := None;
     pc_clean_remote_files := None; pc_clear_destination := None; pc_dry_run := None;
     pc_preserve := None; pc_reconnect := None; pc_max_retries := None;
     pc_retry_delay := None |}.

(** A number used as a condition: [undefined], [NaN] (both [None]) and zero
    are falsy. *)
Definition truthy_num (v : option Z) : bool :=
  match v with
  | Some n => negb (n =? 0)%Z
  | None => false
  end.

(** [{...{k: old}, ...(v && {k: v})}] for a string [v]. *)
Definition spread_str (v old : option string) : option string :=
  if Js.truthy v then v else old.

(** [{...{k: old}, ...(v && {k: v})}] for a number [v]. *)
Definition spread_num (v old : option Z) : option Z :=
  if truthy_num v then v else old.

(** [{...{k: old}, ...(v !== undefined && {k: v})}] *)
Definition spread_defined {A} (v old : option A) : option A :=
  match v with
  | Some _ => v
  | None => old
  end.

(** [s.split(',')] *)
Fixpoint split_comma (s : string) : list string :=
  match s with
  | EmptyString => [EmptyString]
  | String c s' =>
      if Ascii.eqb c "," then EmptyString :: split_comma s'
      else match split_comma s' with
           | h :: t => String c h :: t
           | [] => [String c EmptyString]
           end
  end.

(** Why the command line stops before deploying. *)
Inductive refusal :=
| ConfigFileError
| HostRequired
| UserRequired
| PasswordRequired
| LocalDirRequired
| RemoteDirRequired
| LocalDirMissing.

(** What the action does before it deploys: [process.exit(1)] with a
    message, or a configuration to deploy with. *)
Inductive prepared :=
| Refuse (why : refusal)
| Run (final : PartialConfig).

(** The constructor of [FtpDeploy]: the defaults, overridden by the keys of
    the configuration it is given. *)
Definition construct (config : PartialConfig) : FtpDeployConfig :=
  {| local_dir := default "" (pc_local_dir config);
     remote_dir := default "" (pc_remote_dir config);
     clean_remote_files := default false (pc_clean_remote_files config);
     clear_destination := default false (pc_clear_destination config);
     dry_run := default false (pc_dry_run config);
     preserve := default [] (pc_preserve config);
     reconnect := default true (pc_reconnect config);
     max_retries := default 3%Z (pc_max_retries config);
     retry_delay := default 1000%Z (pc_retry_delay config) |}.

(** [stats.errors.length > 0 ? 1 : 0] *)
Definition exit_code (st : DeployStats) : Z :=
  if (0 <? length (errors st))%nat then 1%Z else 0%Z.

Section CommandLine.
(** The surroundings of the process: [path.resolve], [String.prototype.trim],
    [fs.existsSync], the reading and parsing of a configuration file ([None]
    when it is missing or is not JSON), the scan of a local directory, and
    the server with its network. *)
Variable resolve : string -> string.
Variable trim : string -> string.
Variable existsSync : string -> bool.
Variable readConfig : string -> option PartialConfig.
Variable scan : string -> local_snapshot.
Variable server : rdir.
Variable failures : nat -> option error.

(** [loadConfigFile(configPath)]; [None] stands for [process.exit(1)]. *)
Definition loadConfigFile (configPath : string) : option PartialConfig :=
  if existsSync (resolve configPath) then readConfig (resolve configPath) else None.

(** "Override config file values with CLI arguments". *)
Definition finalConfig (config : PartialConfig) (options : CLIConfig) : PartialConfig :=
  {| pc_host := spread_str (opt_host options) (pc_host config);
     pc_user := spread_str (opt_user options) (pc_user config);
     pc_password := spread_str (opt_password options) (pc_password config);
     pc_port := spread_num (opt_port options) (pc_port config);
     pc_secure := spread_defined (opt_secure options) (pc_secure config);
     pc_local_dir :=
       if Js.truthy (opt_localDir options)
       then resolve <$> opt_localDir options else pc_local_dir config;
     pc_remote_dir := spread_str (opt_remoteDir options) (pc_remote_dir config);
     pc_clean_remote_files :=
       spread_defined (opt_clean options) (pc_clean_remote_files config);
     pc_clear_destination :=
       spread_defined (opt_clearDestination options) (pc_clear_destination config);
     pc_dry_run := spread_defined (opt_dryRun options) (pc_dry_run config);
     pc_preserve :=
       if Js.truthy (opt_preserve options)
       then (fun p => map trim (split_comma p)) <$> opt_preserve options
       else pc_preserve config;
     pc_reconnect := spread_defined (opt_reconnect options) (pc_reconnect config);
     pc_max_retries := spread_num (opt_maxRetries options) (pc_max_retries config);
     pc_retry_delay := spread_num (opt_retryDelay options) (pc_retry_delay config) |}.

(** The action up to [new FtpDeploy(finalConfig)]. *)
Definition prepare (options : CLIConfig) : prepared :=
  match (if Js.truthy (opt_config options)
         then loadConfigFile (default "" (opt_config options))
         else Some no_config) with
  | None => Refuse ConfigFileError
  | Some config =>
      let final := finalConfig config options in
      if negb (Js.truthy (pc_host final)) then Refuse HostRequired
      else if negb (Js.truthy (pc_user final)) then Refuse UserRequired
      else if negb (Js.truthy (pc_password final)) then Refuse PasswordRequired
      else if negb (Js.truthy (pc_local_dir final)) then Refuse LocalDirRequired
      else if negb (Js.truthy (pc_remote_dir final)) then Refuse RemoteDirRequired
      else if negb (existsSync (default "" (pc_local_dir final))) then Refuse LocalDirMissing
      else Run final
  end.

(** The whole action: the exit code of the process. *)
Definition main (options : CLIConfig) : Z :=
  match prepare options with
  | Refuse _ => 1%Z
  | Run final =>
      match fst (deploy (construct final) (scan (default "" (pc_local_dir final)))
                   (initial server failures)) with
      | Ok st => exit_code st
      | Throw _ => 1%Z
      end
  end.

End CommandLine.

(** The options when only the configuration file is named on the command
    line: the argument parser fills in the defaults it was given for the
    flags ([false], and [true] for [--reconnect]) and for [--preserve] (the
    empty string). *)
Definition only_config_option (file : string) : CLIConfig :=
  {| opt_config := Some file; opt_host := None; opt_user := None; opt_password := None;
     opt_port := None; opt_secure := Some false; opt_localDir := None;
     opt_remoteDir := None; opt_clean := Some false; opt_clearDestination := Some false;
     opt_dryRun := Some false; opt_preserve := Some ""; opt_reconnect := Some true;
     opt_maxRetries := None; opt_retryDelay := None |}.

(** The configuration file of the documentation, with its dry run enabled. *)
Definition documented_config : PartialConfig :=
  {| pc_host := Some "your-server.com"; pc_user := Some "username";
     pc_password := Some "password"; pc_port := Some 21%Z; pc_secure := Some true;
     pc_local_dir := Some "./dist"; pc_remote_dir := Some "/public_html";
     pc_clean_remote_files := Some true; pc_clear_destination := None;
     pc_dry_run := Some true; pc_preserve := Some ["uploads/"; "cache/"];
     pc_reconnect := None; pc_max_retries := None; pc_retry_delay := None |}.

(** ** Further vocabulary: what a run spares *)

(** A call that deletes nothing that the preserve list protects. *)
Definition spares_preserved (cfg : FtpDeployConfig) (ev : event) : Prop :=
  match ev with
  | EvRemove p | EvRemoveDir p => shouldPreserve cfg p = false
  | _ => True
  end.

(** No directory that pruning visits is left without content: below [n],
    every directory whose name is not [.] or [..] holds an entry that
    counts, and so on downwards. *)
Fixpoint pruned (n : rnode) : Prop :=
  match n with
  | RDir es =>
      (fix each (items : rdir) : Prop :=
         match items with
         | [] => True
         | (name, item) :: rest =>
             match item with
             | RDir sub => is_dot name = false → hasContent sub = true ∧ pruned item
             | _ => True
             end ∧ each rest
         end) es
  | _ => True
  end.

(** ** Further vocabulary: what is stored *)

(** The regular files that satisfy [P] are kept, with their content, from
    the tree [t] to the tree [t']. *)
Definition keeps (P : list string → Prop) (t t' : rdir) : Prop :=
  ∀ q c, P q → node_at q t = Some (RFile c) → node_at q t' = Some (RFile c).

(** A path that the listing and the pruning treat as an ordinary one: no
    segment is [.], [..] or the name of the manifest file. *)
Definition plain_path (segs : list string) : Prop :=
  Forall (fun seg => is_dot seg = false ∧ seg ≠ HASH_FILE_NAME) segs.

(** The file at [x], if there is one, is kept with its content. *)
Definition keeps_file (x : list string) : relation state := fun s s' =>
  ∀ c, node_at x (remote s) = Some (RFile c) → node_at x (remote s') = Some (RFile c).

(** What [loadRemoteHashes] returns from the tree [t] when no transport call
    fails: the stored manifest, assigned onto an empty object, when a
    regular file of that name with an object as its JSON text is at the
    root and the retry budget allows one attempt; an empty object
    otherwise. *)
Definition stored_manifest (cfg : FtpDeployConfig) (t : rdir) : gmap string string :=
  match lookup_entry HASH_FILE_NAME t with
  | Some (RFile (Json m)) =>
      if (0 <? or_default (max_retries cfg) 3)%Z then Js.assign ∅ m else ∅
  | _ => ∅
  end.

(** The trees [t] and [t'] hold the same regular file, or none, under the
    name [k] at their root. *)
Definition same_root_file (k : string) (t t' : rdir) : Prop :=
  ∀ c, lookup_entry k t = Some (RFile c) ↔ lookup_entry k t' = Some (RFile c).


(** * Properties *)

(** ** PathMatcher *)

#[local] Arguments String.append !s1 s2 : simpl nomatch.

Section StringFacts.

Lemma ascii_eqb_eq (a b : ascii) : Ascii.eqb a b = true ↔ a = b.
Proof. apply Ascii.eqb_eq. Qed.

Lemma startsWith_iff (p s : string) :
Js.startsWith p s = true ↔ ∃ r, s = p +:+ r.
Proof.
revert s. induction p as [|a p IH]; intros s; simpl.
- split; [intros _; by exists s | done].
- destruct s as [|b s]; simpl.
  + split; [done | intros [r Hr]; discriminate].
  + rewrite andb_true_iff, ascii_eqb_eq, IH. split.
    * intros [-> [r ->]]. by exists r.
    * intros [r Hr]. injection Hr as -> ->. eauto.
Qed.

Lemma endsWith_slash_iff (s : string) :
Js.endsWith_slash s = true ↔ ∃ c, s = c +:+ "/".
Proof.
induction s as [|a s IH]; simpl.
- split; [done | intros [[|??] ?]; discriminate].
- destruct s as [|b s].
  + rewrite ascii_eqb_eq. split.
    * intros ->. by exists "".
    * intros [[|c [|??]] Hc]; simpl in Hc; congruence.
  + rewrite IH. split.
    * intros [c ->]. by exists (String a c).
    * intros [[|c0 c] Hc]; simpl in Hc; [discriminate|].
      injection Hc as -> Hc. eauto.
Qed.

Lemma slice_0_m1_snoc (c : string) (x : ascii) :
Js.slice_0_m1 (c +:+ String x "") = c.
Proof.
induction c as [|a c IH]; simpl; [done|].
rewrite IH. destruct c; simpl; done.
Qed.

Lemma append_slash_inj (c c' : string) : c +:+ "/" = c' +:+ "/" → c = c'.
Proof.
revert c'. induction c as [|a c IH]; intros [|a' c']; simpl; try done.
- destruct c'; discriminate.
- destruct c; discriminate.
- intros H. injection H as -> H. f_equal. by apply IH.
Qed.

Lemma replace_backslash_spec (s : string) :
Js.replace_backslash s = to_forward_slashes s.
Proof.
unfold to_forward_slashes. induction s as [|a s IH]; simpl; [done|].
rewrite IH. f_equal. destruct (Ascii.eqb_spec a "\"); by case_decide.
Qed.

Lemma string_eqb_iff (a b : string) : String.eqb a b = true ↔ a = b.
Proof. apply String.eqb_eq. Qed.

Lemma append_assoc (a b c : string) : (a +:+ b) +:+ c = a +:+ b +:+ c.
Proof. induction a; simpl; congruence. Qed.

End StringFacts.

Lemma preserve_matches_iff (path entry : string) :
  preserve_matches path entry = true ↔ preserve_rule path entry.
Proof.
  unfold preserve_matches, preserve_rule.
  rewrite !replace_backslash_spec.
  set (f := to_forward_slashes path). set (e := to_forward_slashes entry).
  rewrite orb_true_iff, string_eqb_iff, startsWith_iff.
  destruct (Js.endsWith_slash e) eqn:He.
  - apply endsWith_slash_iff in He as [c Hc]. rewrite Hc, slice_0_m1_snoc.
    split.
    + intros H. exists c. split; [by left|].
      destruct H as [H|[r H]]; [by left | right; exists r; by rewrite <- append_assoc].
    + intros [c' [[H|[-> H]] Hm]].
      * apply append_slash_inj in H as <-.
        destruct Hm as [H|[r H]]; [by left | right; exists r; by rewrite append_assoc].
      * by destruct (H c).
  - assert (Hno : ∀ c', e ≠ c' +:+ "/").
    { intros c' Hc. assert (Js.endsWith_slash e = true) by (apply endsWith_slash_iff; eauto).
      congruence. }
    split.
    + intros H. exists e. split; [by right|].
      destruct H as [H|[r H]]; [by left | right; exists r; by rewrite <- append_assoc].
    + intros [c' [[H|[-> _]] Hm]]; [by destruct (Hno c')|].
      destruct Hm as [H|[r H]]; [by left | right; exists r; by rewrite append_assoc].
Qed.

(** C7. [shouldPreserve] is true exactly when some preserve entry matches the
    path by the rule of the contract: with separators normalized to forward
    slashes, the path equals the entry stripped of its trailing slash or
    starts with that stripped entry followed by [/]. The entry ["uploads"]
    does not match ["uploads2/file"], and with no preserve entry the
    predicate is false for every path. *)
Theorem shouldPreserve_contract (cfg : FtpDeployConfig) (path : string) :
  (shouldPreserve cfg path = true ↔
     ∃ entry, entry ∈ preserve cfg ∧ preserve_rule path entry) ∧
  shouldPreserve (with_preserve ["uploads"] cfg) "uploads2/file" = false ∧
  shouldPreserve (with_preserve [] cfg) path = false.
Proof.
  split; [|split; reflexivity].
  assert (H : shouldPreserve cfg path = existsb (preserve_matches path) (preserve cfg)).
  { unfold shouldPreserve. by destruct (preserve cfg). }
  rewrite H, existsb_exists. split.
  - intros [e [Hin Hm]]. exists e. split; [by apply list_elem_of_In|].
    by apply preserve_matches_iff.
  - intros [e [Hin Hm]]. exists e. split; [by apply list_elem_of_In|].
    by apply preserve_matches_iff.
Qed.


(** ** Plain objects: reads and assignments *)

Lemma Js_get_own (obj : gmap string string) (k s : string) :
  obj !! k = Some s → Js.get obj k = Js.Str s.
Proof. unfold Js.get. by intros ->. Qed.

Lemma Js_get_Str (obj : gmap string string) (k s : string) :
  Js.get obj k = Js.Str s ↔ obj !! k = Some s.
Proof.
  unfold Js.get. destruct (obj !! k) as [s'|]; [split; congruence|].
  by destruct (bool_decide _).
Qed.

Lemma Js_get_missing (m m' : gmap string string) (k : string) :
  m !! k = None → m' !! k = None → Js.get m k = Js.get m' k.
Proof. unfold Js.get. by intros -> ->. Qed.

Lemma Js_get_same (m m' : gmap string string) (k : string) :
  m !! k = m' !! k → Js.get m k = Js.get m' k.
Proof. unfold Js.get. by intros ->. Qed.

Lemma Js_get_proto (obj : gmap string string) :
  obj !! "__proto__" = None → Js.get obj "__proto__" = Js.Inherited "__proto__".
Proof. unfold Js.get. by intros ->. Qed.

Lemma Js_set_insert (key s : string) (obj : gmap string string) :
  key ≠ "__proto__" → Js.set key s obj = <[key := s]> obj.
Proof.
  intros Hk. unfold Js.set. destruct (obj !! key); [done|].
  by apply String.eqb_neq in Hk as ->.
Qed.

Lemma Js_set_proto (s : string) (obj : gmap string string) :
  obj !! "__proto__" = None → Js.set "__proto__" s obj = obj.
Proof. unfold Js.set. by intros ->. Qed.

Lemma Js_set_lookup_ne (key s k : string) (obj : gmap string string) :
  k ≠ key → Js.set key s obj !! k = obj !! k.
Proof.
  intros Hk. unfold Js.set.
  destruct (obj !! key), (String.eqb key "__proto__"); by rewrite ?lookup_insert_ne.
Qed.

Lemma Js_set_lookup_eq (key s : string) (obj : gmap string string) :
  key ≠ "__proto__" → Js.set key s obj !! key = Some s.
Proof. intros Hk. rewrite Js_set_insert by done. apply lookup_insert_eq. Qed.

Lemma Js_set_no_proto (key s : string) (obj : gmap string string) :
  obj !! "__proto__" = None → Js.set key s obj !! "__proto__" = None.
Proof.
  intros Hobj. destruct (decide (key = "__proto__")) as [->|Hk].
  - by rewrite Js_set_proto.
  - by rewrite Js_set_lookup_ne.
Qed.



Lemma Js_get_delete_ne (key k : string) (obj : gmap string string) :
  k ≠ key → Js.get (delete key obj) k = Js.get obj k.
Proof. intros Hk. apply Js_get_same. by apply lookup_delete_ne. Qed.

(** [Object.assign({}, source)] keeps every own property of [source] but
    [__proto__]. *)
Lemma Js_assign_empty (source : gmap string string) :
  Js.assign ∅ source = delete "__proto__" source.
Proof.
  unfold Js.assign.
  apply (map_fold_weak_ind (fun r m => r = delete "__proto__" m)).
  - by rewrite delete_empty.
  - intros i x m r Hi ->. destruct (decide (i = "__proto__")) as [->|Hne].
    + rewrite Js_set_proto by apply lookup_delete_eq.
      by rewrite delete_insert_eq.
    + rewrite Js_set_insert by done. by rewrite delete_insert_ne.
Qed.

Lemma Js_assign_empty_no_proto (source : gmap string string) :
  Js.assign ∅ source !! "__proto__" = None.
Proof. rewrite Js_assign_empty. apply lookup_delete_eq. Qed.

Lemma Js_assign_empty_id (source : gmap string string) :
  source !! "__proto__" = None → Js.assign ∅ source = source.
Proof. intros H. rewrite Js_assign_empty. by apply delete_id. Qed.

Lemma Js_assign_empty_lookup (source : gmap string string) (k : string) :
  k ≠ "__proto__" → Js.assign ∅ source !! k = source !! k.
Proof. intros Hk. rewrite Js_assign_empty. by apply lookup_delete_ne. Qed.

Lemma Js_truthy_Str (obj : gmap string string) (k s : string) :
  obj !! k = Some s → s ≠ "" → Js.is_truthy (Js.get obj k) = true.
Proof.
  intros Hk Hs. rewrite (Js_get_own _ _ _ Hk). cbn.
  by apply negb_true_iff, String.eqb_neq.
Qed.

Lemma Js_falsy_not_member (obj : gmap string string) (k : string) :
  Js.is_truthy (Js.get obj k) = false →
  k ∉ Js.prototype_members ∨ obj !! k = Some "".
Proof.
  unfold Js.get. destruct (obj !! k) as [s|] eqn:Hk; cbn.
  - intros Hs%negb_false_iff%String.eqb_eq. right. by rewrite Hs.
  - case_bool_decide; [done|]. by left.
Qed.

Lemma Js_falsy_missing (obj : gmap string string) (k : string) :
  obj !! k = None → k ∉ Js.prototype_members →
  Js.is_truthy (Js.get obj k) = false.
Proof. intros Hk Hm. unfold Js.get. rewrite Hk. by rewrite bool_decide_eq_false_2. Qed.

(** ** Frames: what a run leaves alone *)

Lemma rnode_nested_ind (P : rnode → Prop) :
  (∀ c, P (RFile c)) →
  (∀ es, Forall (fun e => P (snd e)) es → P (RDir es)) →
  P RLink →
  ∀ n, P n.
Proof.
  intros Hf Hd Hl. fix IH 1. intros [c|es|]; [apply Hf| |apply Hl].
  apply Hd. induction es as [|[name x] es IHes]; constructor; [apply IH | apply IHes].
Qed.

Section NeverThrows.

Lemma nt_ret {A} (a : A) : never_throws (ret a).
Proof. intros s. by exists a. Qed.

Lemma nt_modify (f : state → state) : never_throws (modify f).
Proof. intros s. by exists tt. Qed.

Lemma nt_bind {A B} (m : M A) (k : A → M B) :
  never_throws m → (∀ a, never_throws (k a)) → never_throws (bind m k).
Proof.
  intros Hm Hk s. unfold bind. destruct (Hm s) as [a Ha].
  destruct (m s) as [[a'|e] s']; simpl in Ha; [|discriminate].
  apply Hk.
Qed.

Lemma nt_try_catch {A} (m : M A) (h : error → M A) :
  (∀ e, never_throws (h e)) → never_throws (try_catch m h).
Proof.
  intros Hh s. unfold try_catch. destruct (m s) as [[a|e] s']; [by exists a|].
  apply Hh.
Qed.

Lemma nt_fold_M {A B} (body : A → B → M B) (xs : list A) (b : B) :
  (∀ x b, never_throws (body x b)) → never_throws (fold_M body xs b).
Proof.
  intros Hb. revert b. induction xs as [|x xs IH]; intros b; simpl.
  - apply nt_ret.
  - apply nt_bind; [apply Hb | apply IH].
Qed.

Lemma nt_for_each {A} (xs : list A) (body : A → M unit) :
  (∀ x, never_throws (body x)) → never_throws (for_each xs body).
Proof.
  intros Hb. induction xs as [|x xs IH]; simpl.
  - apply nt_ret.
  - apply nt_bind; [apply Hb | intros _; apply IH].
Qed.

Lemma nt_if {A} (b : bool) (m1 m2 : M A) :
  never_throws m1 → never_throws m2 → never_throws (if b then m1 else m2).
Proof. by destruct b. Qed.

Lemma nt_remoteFileExists (p : string) : never_throws (remoteFileExists p).
Proof. apply nt_try_catch. intros _. apply nt_ret. Qed.

Lemma nt_getRemoteFiles (remoteDir : string) (n : rnode) :
  never_throws (getRemoteFiles remoteDir n).
Proof.
  destruct n; simpl; apply nt_try_catch; intros _; apply nt_ret.
Qed.

Lemma nt_getRemoteFiles_root : never_throws getRemoteFiles_root.
Proof. intros s. apply nt_getRemoteFiles. Qed.

Local Ltac nt_step :=
  first [ apply nt_ret | apply nt_modify | apply nt_try_catch; intros ?
        | apply nt_bind; [|intros ?] | apply nt_if ].

Lemma nt_removeEmptyDirectories (cfg : FtpDeployConfig) (n : rnode) :
  ∀ remoteDir preserveRoot,
    never_throws (removeEmptyDirectories cfg remoteDir preserveRoot n).
Proof.
  induction n as [c|es IH|] using rnode_nested_ind; intros remoteDir preserveRoot;
    [apply nt_ret| |apply nt_ret].
  cbn [removeEmptyDirectories].
  apply nt_bind; [repeat nt_step|]. intros listed.
  destruct (negb listed); [apply nt_ret|].
  apply nt_bind.
  - induction es as [|[name item] es IHes]; [apply nt_ret|].
    apply Forall_cons in IH as [Hitem Hes]. specialize (IHes Hes).
    destruct item; try (apply nt_bind; [apply IHes | intros ?; apply nt_ret]).
    repeat (apply nt_if); try (apply nt_bind; [apply IHes | intros ?; apply nt_ret]).
    apply nt_bind; [apply Hitem|]. intros r.
    apply nt_bind; [apply IHes | intros ?; apply nt_ret].
  - intros es'. apply nt_bind; [repeat nt_step|]. intros relisted.
    repeat (apply nt_if); repeat nt_step.
Qed.

Lemma nt_removeEmptyDirectories_root (cfg : FtpDeployConfig) :
  never_throws (removeEmptyDirectories_root cfg).
Proof.
  intros s. unfold removeEmptyDirectories_root.
  destruct (nt_removeEmptyDirectories cfg (RDir (remote s)) "" true s) as [a Ha].
  destruct (removeEmptyDirectories _ _ _ _ _) as [[r|e] s']; simpl in Ha; [|discriminate].
  exists tt. by destruct r as [[| |]|].
Qed.

Lemma nt_clearDestination (cfg : FtpDeployConfig) : never_throws (clearDestination cfg).
Proof.
  unfold clearDestination. apply nt_bind; [apply nt_getRemoteFiles_root|].
  intros fs. apply nt_bind; [|intros _; apply nt_removeEmptyDirectories_root].
  apply nt_for_each. intros f. apply nt_try_catch. intros e. apply nt_modify.
Qed.

Lemma nt_loadRemoteHashes (cfg : FtpDeployConfig) : never_throws (loadRemoteHashes cfg).
Proof.
  unfold loadRemoteHashes. apply nt_bind; [apply nt_remoteFileExists|].
  intros b. apply nt_if; [|apply nt_ret]. apply nt_try_catch. intros _. apply nt_ret.
Qed.

Lemma nt_upload_one cfg lh f m : never_throws (upload_one cfg lh f m).
Proof.
  apply nt_try_catch. intros e. apply nt_bind; [apply nt_modify | intros _; apply nt_ret].
Qed.

Lemma nt_upload_phase cfg lh fs m : never_throws (upload_phase cfg lh fs m).
Proof. apply nt_fold_M. intros. apply nt_upload_one. Qed.

Lemma nt_remove_one cfg f m : never_throws (remove_one cfg f m).
Proof.
  apply nt_try_catch. intros e. apply nt_bind; [apply nt_modify | intros _; apply nt_ret].
Qed.

Lemma nt_clean_phase cfg lh rf m : never_throws (clean_phase cfg lh rf m).
Proof.
  unfold clean_phase. destruct rf as [rf|]; [|apply nt_ret].
  apply nt_if; [|apply nt_ret].
  apply nt_bind; [apply nt_fold_M; intros; apply nt_remove_one|].
  intros m'. apply nt_bind; [|intros _; apply nt_ret].
  apply nt_if; [apply nt_removeEmptyDirectories_root | apply nt_ret].
Qed.

End NeverThrows.

Section Frames.
Context (R : relation state) `{!Frame R}.

Lemma pr_ret {A} (a : A) : preserves R (ret a).
Proof. intros s. reflexivity. Qed.

Lemma pr_throw {A} (e : error) : preserves R (@throw A e).
Proof. intros s. reflexivity. Qed.

Lemma pr_bind {A B} (m : M A) (k : A → M B) :
  preserves R m → (∀ a, preserves R (k a)) → preserves R (bind m k).
Proof.
  intros Hm Hk s. unfold bind. specialize (Hm s).
  destruct (m s) as [[a|e] s']; simpl in *; [|done].
  etrans; [exact Hm | apply Hk].
Qed.

Lemma pr_try_catch {A} (m : M A) (h : error → M A) :
  preserves R m → (∀ e, preserves R (h e)) → preserves R (try_catch m h).
Proof.
  intros Hm Hh s. unfold try_catch. specialize (Hm s).
  destruct (m s) as [[a|e] s']; simpl in *; [done|].
  etrans; [exact Hm | apply Hh].
Qed.

Lemma pr_if {A} (b : bool) (m1 m2 : M A) :
  preserves R m1 → preserves R m2 → preserves R (if b then m1 else m2).
Proof. by destruct b. Qed.

Lemma pr_modify (f : state → state) : (∀ s, R s (f s)) → preserves R (modify f).
Proof. intros Hf s. apply Hf. Qed.

Lemma pr_fold_M {A B} (body : A → B → M B) (xs : list A) (b : B) :
  (∀ x b, x ∈ xs → preserves R (body x b)) → preserves R (fold_M body xs b).
Proof.
  revert b. induction xs as [|x xs IH]; intros b Hb; simpl.
  - apply pr_ret.
  - apply pr_bind; [apply Hb; left | intros b'; apply IH].
    intros y b'' Hy. apply Hb. by right.
Qed.

Lemma pr_for_each {A} (xs : list A) (body : A → M unit) :
  (∀ x, x ∈ xs → preserves R (body x)) → preserves R (for_each xs body).
Proof.
  induction xs as [|x xs IH]; intros Hb; simpl.
  - apply pr_ret.
  - apply pr_bind; [apply Hb; left | intros _; apply IH].
    intros y Hy. apply Hb. by right.
Qed.

Lemma pr_call_read_only {A} (ev : event) (op : rdir → error + A * rdir) :
  quiet ev → read_only op → preserves R (call ev op).
Proof.
  intros Hq Hro s. unfold call. destruct (net s (calls s)); simpl.
  - by apply frame_issue.
  - destruct (op (remote s)) as [e|[a t]] eqn:Hop; simpl.
    + by apply frame_issue.
    + apply Hro in Hop as ->. by apply (frame_issue ev s).
Qed.

Lemma pr_call {A} `{!AllowsRemote R} (ev : event) (op : rdir → error + A * rdir) :
  quiet ev → preserves R (call ev op).
Proof.
  intros Hq s. unfold call. destruct (net s (calls s)); simpl.
  - by apply frame_issue.
  - destruct (op (remote s)) as [e|[a t]]; simpl.
    + by apply frame_issue.
    + etrans; [by apply (frame_issue ev s) | apply allows_remote].
Qed.

Lemma pr_query (ev : event) : quiet ev → preserves R (query ev).
Proof.
  intros Hq. apply pr_call_read_only; [done|]. intros t a t' H. by injection H.
Qed.

Lemma pr_client_access : quiet EvAccess → preserves R client_access.
Proof.
  intros Hq. apply pr_bind; [by apply pr_query|]. intros _.
  apply pr_modify. intros s. apply frame_conn.
Qed.

Lemma pr_client_close s : quiet EvClose → R s (client_close s).
Proof.
  intros Hq. unfold client_close. etrans; [by apply (frame_log EvClose)|].
  apply frame_conn.
Qed.

Lemma pr_sleep ms : quiet (EvSleep ms) → preserves R (sleep ms).
Proof. intros Hq. apply pr_modify. intros s. by apply frame_log. Qed.

Lemma pr_client_size p : quiet (EvSize p) → preserves R (client_size p).
Proof.
  intros Hq. apply pr_call_read_only; [done|]. intros t a t' H.
  destruct (node_at _ _) as [[| |]|]; by simplify_eq.
Qed.

Lemma pr_client_downloadTo p : quiet (EvDownloadTo p) → preserves R (client_downloadTo p).
Proof.
  intros Hq. apply pr_call_read_only; [done|]. intros t a t' H.
  destruct (node_at _ _) as [[| |]|]; by simplify_eq.
Qed.

Lemma pr_remoteFileExists p : quiet (EvSize p) → preserves R (remoteFileExists p).
Proof.
  intros Hq. apply pr_try_catch; [|intros _; apply pr_ret].
  apply pr_bind; [by apply pr_client_size | intros _; apply pr_ret].
Qed.

Lemma pr_reconnect_session : quiet_session R → preserves R reconnect_session.
Proof.
  intros (Ha & Hc & _). apply pr_bind; [|intros _; by apply pr_client_access].
  apply pr_modify. intros s. by apply pr_client_close.
Qed.

Lemma pr_retry_loop {A} cfg (operation : M A) retries fuel attempt :
  quiet_session R → preserves R operation →
  preserves R (retry_loop cfg operation retries fuel attempt).
Proof.
  intros Hq Hop. revert attempt. induction fuel as [|fuel IH]; intros attempt; simpl.
  - apply pr_throw.
  - apply pr_try_catch; [done|]. intros e.
    apply pr_if; [|apply pr_throw].
    apply pr_bind; [apply pr_sleep, Hq | intros _].
    apply pr_bind; [|intros _; apply IH].
    apply pr_try_catch; [by apply pr_reconnect_session|].
    intros _. apply pr_if; [apply pr_throw | apply pr_ret].
Qed.

Lemma pr_executeWithRetry {A} cfg (operation : M A) :
  quiet_session R → preserves R operation →
  preserves R (executeWithRetry cfg operation).
Proof. intros. by apply pr_retry_loop. Qed.

Lemma pr_getRemoteFiles (n : rnode) :
  (∀ d, quiet (EvList d)) → ∀ remoteDir, preserves R (getRemoteFiles remoteDir n).
Proof.
  intros Hq. induction n as [c|es IH|] using rnode_nested_ind; intros remoteDir;
    cbn [getRemoteFiles].
  - apply pr_try_catch; [|intros _; apply pr_ret].
    apply pr_bind; [by apply pr_query | intros _; apply pr_throw].
  - apply pr_try_catch; [|intros _; apply pr_ret].
    apply pr_bind; [by apply pr_query | intros _].
    induction es as [|[name item] es IHes]; [apply pr_ret|].
    apply Forall_cons in IH as [Hitem Hes]. specialize (IHes Hes).
    apply pr_if; [done|].
    destruct item; [| |done].
    + apply pr_if; [|done].
      apply pr_bind; [done | intros ?; apply pr_ret].
    + apply pr_bind; [apply Hitem | intros ?].
      apply pr_bind; [done | intros ?; apply pr_ret].
  - apply pr_try_catch; [|intros _; apply pr_ret].
    apply pr_bind; [by apply pr_query | intros _; apply pr_throw].
Qed.

Lemma pr_getRemoteFiles_root :
  (∀ d, quiet (EvList d)) → preserves R getRemoteFiles_root.
Proof. intros Hq s. by apply pr_getRemoteFiles. Qed.

(** In its recursion [removeEmptyDirectories] only lists, and calls
    [removeDir] outside of a dry run. *)
Lemma pr_removeEmptyDirectories cfg (n : rnode) :
  (∀ d, quiet (EvList d)) →
  (dry_run cfg = false → ∀ d, quiet (EvRemoveDir d)) →
  ∀ remoteDir preserveRoot,
    preserves R (removeEmptyDirectories cfg remoteDir preserveRoot n).
Proof.
  intros Hq Hrm.
  induction n as [c|es IH|] using rnode_nested_ind; intros remoteDir preserveRoot;
    [apply pr_ret| |apply pr_ret].
  cbn [removeEmptyDirectories].
  assert (Hlist : preserves R
            (try_catch (query (EvList remoteDir) >> ret true) (fun _ => ret false))).
  { apply pr_try_catch; [|intros _; apply pr_ret].
    apply pr_bind; [by apply pr_query | intros _; apply pr_ret]. }
  apply pr_bind; [done|]. intros listed.
  apply pr_if; [apply pr_ret|].
  apply pr_bind.
  - induction es as [|[name item] es IHes]; [apply pr_ret|].
    apply Forall_cons in IH as [Hitem Hes]. specialize (IHes Hes).
    destruct item; try (apply pr_bind; [apply IHes | intros ?; apply pr_ret]).
    repeat (apply pr_if); try (apply pr_bind; [apply IHes | intros ?; apply pr_ret]).
    apply pr_bind; [apply Hitem|]. intros r.
    apply pr_bind; [apply IHes | intros ?; apply pr_ret].
  - intros es'. apply pr_bind; [done|]. intros relisted.
    apply pr_if; [apply pr_ret|].
    apply pr_if; [|apply pr_ret]. apply pr_if; [|apply pr_ret].
    destruct (dry_run cfg) eqn:Hdry; [apply pr_ret|].
    apply pr_try_catch; [|intros _; apply pr_ret].
    apply pr_bind; [apply pr_query; by apply Hrm | intros _; apply pr_ret].
Qed.

End Frames.

Lemma same_net_preorder : PreOrder same_net.
Proof. split; [by intros ?|]. intros ??? H1 H2. unfold same_net in *. congruence. Qed.

Global Instance same_net_frame : Frame same_net :=
  Build_Frame same_net (fun _ => True) same_net_preorder
    (fun _ _ _ => eq_refl) (fun _ _ _ => eq_refl) (fun _ _ => eq_refl).
Global Instance same_net_remote : AllowsRemote same_net.
Proof. by intros ??. Qed.
Global Instance same_net_uploaded : AllowsUploaded same_net.
Proof. by intros ??. Qed.
Global Instance same_net_removed : AllowsRemoved same_net.
Proof. by intros ??. Qed.
Global Instance same_net_unchanged : AllowsUnchanged same_net.
Proof. by intros ??. Qed.
Global Instance same_net_error : AllowsError same_net.
Proof. by intros ??. Qed.
(** ** RetryExecutor *)

Lemma mentions_app (c : ascii) (s t : string) :
  mentions c (s +:+ t) = mentions c s || mentions c t.
Proof. induction s as [|a s IH]; simpl; [done|]. by rewrite IH, orb_assoc. Qed.

Lemma includes_mentions (a : ascii) (sub s : string) :
  mentions a s = false → Js.includes (String a sub) s = false.
Proof.
  induction s as [|b s IH]; simpl; [done|].
  intros [Hab Hs]%orb_false_iff. by rewrite Hab, IH.
Qed.

Lemma pretty_N_go_mentions (c : ascii) (x : N) (s : string) :
  mentions c "0123456789" = false → mentions c s = false →
  mentions c (pretty_N_go x s) = false.
Proof.
  intros Hc. revert s. induction (N.lt_wf_0 x) as [x _ IH]; intros s Hs.
  destruct (decide (x = 0%N)) as [->|Hx]; [by rewrite pretty_N_go_0|].
  rewrite pretty_N_go_step by lia. apply IH; [apply N.div_lt; lia|].
  simpl. rewrite Hs, orb_false_r.
  simpl in Hc. repeat apply orb_false_iff in Hc as [? Hc].
  unfold pretty_N_char. by repeat case_match.
Qed.

Lemma pretty_Z_mentions (c : ascii) (z : Z) :
  mentions c "-0123456789" = false → mentions c (pretty z) = false.
Proof.
  intros Hc. simpl in Hc. apply orb_false_iff in Hc as [Hdash Hc].
  assert (Hpos : ∀ p, mentions c (pretty (Zpos p)) = false).
  { intros p. unfold pretty, pretty_Z, pretty, pretty_positive, pretty, pretty_N.
    case_decide; [done|]. by apply pretty_N_go_mentions. }
  destruct z as [|p|p]; [| apply Hpos |].
  - simpl in Hc. apply orb_false_iff in Hc as [H0 _].
    change (pretty 0%Z) with "0". simpl. by rewrite H0.
  - change (pretty (Zneg p)) with ("-" +:+ pretty (Zpos p)).
    rewrite mentions_app, Hpos. simpl. by rewrite Hdash.
Qed.

Lemma exhausted_error_not_transient (n : Z) :
  isConnectionError (exhausted_error n) = false.
Proof.
  unfold isConnectionError, exhausted_error, mkError; simpl.
  apply includes_mentions.
  rewrite !mentions_app, pretty_Z_mentions; reflexivity.
Qed.

Section Retry.
Context {A : Type} (cfg : FtpDeployConfig) (operation : M A).
Hypothesis reconnect_on : reconnect cfg = true.

(** With [m + 1] iterations left, all of which fail with a connection
    error, the loop ends with the outcome of the last one. *)
Lemma retry_loop_all_transient (retries : Z) (s : state) (m k : nat) :
  (Z.of_nat k + 1 + Z.of_nat m = retries)%Z →
  (∀ j, k ≤ j ≤ k + m → transient_failure cfg operation s j) →
  retry_loop cfg operation retries (S m) (Z.of_nat k + 1)
    (attempt_state cfg operation s k)
  = operation (attempt_state cfg operation s (k + m)).
Proof.
  revert k. induction m as [|m IH]; intros k Hn Hfail.
  - destruct (Hfail k) as [e [He Hconn]]; [lia|].
    rewrite Nat.add_0_r. simpl. unfold try_catch.
    destruct (operation (attempt_state cfg operation s k)) as [[a|e'] s'];
      simpl in He; [discriminate|]. injection He as ->.
    replace (Z.of_nat k + 1 <? retries)%Z with false by (symmetry; apply Z.ltb_ge; lia).
    by rewrite andb_false_r.
  - destruct (Hfail k) as [e [He Hconn]]; [lia|].
    specialize (IH (S k)).
    replace (k + S m) with (S k + m) by lia.
    rewrite <- IH; [| lia | intros j Hj; apply Hfail; lia].
    cbn [retry_loop]. unfold try_catch at 1.
    cbn [attempt_state].
    destruct (operation (attempt_state cfg operation s k)) as [[a|e'] s'];
      simpl in He; [discriminate|]. injection He as ->.
    rewrite Hconn, reconnect_on.
    replace (Z.of_nat k + 1 <? retries)%Z with true by (symmetry; apply Z.ltb_lt; lia).
    replace (Z.of_nat k + 1 =? retries)%Z with false by (symmetry; apply Z.eqb_neq; lia).
    replace (Z.of_nat (S k) + 1)%Z with (Z.of_nat k + 1 + 1)%Z by lia.
    cbn [andb snd]. unfold between_attempts, bind, sleep, modify, try_catch.
    by destruct (reconnect_session _) as [[[]|?] ?].
Qed.

(** No iteration at all: the statement after the loop raises the generic
    error. *)
Lemma executeWithRetry_no_attempt (retries : Z) (s : state) :
  (retries ≤ 0)%Z →
  executeWithRetry_n cfg operation retries s = (Throw (exhausted_error retries), s).
Proof.
  intros H. unfold executeWithRetry_n.
  replace (Z.to_nat retries) with 0 by lia. reflexivity.
Qed.

End Retry.

(** C3 (amended). When [maxAttempts >= 1], reconnection is enabled and every
    attempt fails with a connection-classified error, [executeWithRetry]
    ends with the outcome of the last attempt: it raises that attempt's own
    error, which is not the generic "Operation failed after N attempts"
    error. *)
Theorem executeWithRetry_rethrows_last_error {A : Type} (cfg : FtpDeployConfig)
    (operation : M A) (retries : Z) (s : state) :
  (1 ≤ retries)%Z →
  reconnect cfg = true →
  (∀ k, k < Z.to_nat retries → transient_failure cfg operation s k) →
  executeWithRetry_n cfg operation retries s
    = operation (attempt_state cfg operation s (Z.to_nat retries - 1)) ∧
  ∃ e, fst (executeWithRetry_n cfg operation retries s) = Throw e ∧
       isConnectionError e = true ∧
       e ≠ exhausted_error retries.
Proof.
  intros Hn Hrec Hfail.
  assert (Heq : executeWithRetry_n cfg operation retries s
                = operation (attempt_state cfg operation s (Z.to_nat retries - 1))).
  { unfold executeWithRetry_n.
    replace (Z.to_nat retries) with (S (Z.to_nat retries - 1)) at 1 by lia.
    apply (retry_loop_all_transient cfg operation Hrec retries s (Z.to_nat retries - 1) 0).
    - lia.
    - intros j Hj. apply Hfail. lia. }
  split; [done|].
  destruct (Hfail (Z.to_nat retries - 1)) as [e [He Hconn]]; [lia|].
  exists e. rewrite Heq. split; [done|]. split; [done|].
  intros ->. by rewrite exhausted_error_not_transient in Hconn.
Qed.

Lemma between_attempts_net (cfg : FtpDeployConfig) (s : state) :
  net (between_attempts cfg s) = net s.
Proof.
  unfold between_attempts.
  apply (pr_bind same_net); [by apply (pr_sleep same_net) | intros _].
  apply (pr_try_catch same_net); [|intros _; apply (pr_ret same_net)].
  by apply (pr_reconnect_session same_net).
Qed.

Lemma unreachable_always_transient (p : string) (k : nat) :
  transient_failure sample_config (client_size p) (initial [] unreachable) k.
Proof.
  exists econnreset. split; [|reflexivity].
  assert (H : ∀ s, net s = unreachable → fst (client_size p s) = Throw econnreset).
  { intros s Hs. unfold client_size, call. by rewrite Hs. }
  apply H. induction k as [|k IH]; [done|].
  cbn [attempt_state]. rewrite between_attempts_net.
  etrans; [|exact IH]. exact (pr_client_size same_net p I _).
Qed.

Lemma executeWithRetry_rethrows_last_error_witness :
  executeWithRetry_n sample_config (client_size "a.txt") 3 (initial [] unreachable)
    = client_size "a.txt"
        (attempt_state sample_config (client_size "a.txt") (initial [] unreachable) 2) ∧
  ∃ e, fst (executeWithRetry_n sample_config (client_size "a.txt") 3
              (initial [] unreachable)) = Throw e ∧
       isConnectionError e = true ∧
       e ≠ exhausted_error 3.
Proof.
  apply (executeWithRetry_rethrows_last_error sample_config (client_size "a.txt") 3
           (initial [] unreachable)).
  - lia.
  - reflexivity.
  - intros k _. apply unreachable_always_transient.
Defined.

(** C3 (as stated) fails: three attempts that all fail with [ECONNRESET],
    reconnection enabled, end with that [ECONNRESET] error and not with the
    generic one. *)
Lemma executeWithRetry_generic_error_counterexample :
  let operation := client_size "a.txt" in
  let s := initial [] unreachable in
  (∀ k, k < 3 → transient_failure sample_config operation s k) ∧
  reconnect sample_config = true ∧
  fst (executeWithRetry_n sample_config operation 3 s) = Throw econnreset ∧
  fst (executeWithRetry_n sample_config operation 3 s) ≠ Throw (exhausted_error 3).
Proof.
  cbv zeta. split; [intros k _; apply unreachable_always_transient|].
  split; [reflexivity|]. split; [reflexivity|].
  vm_compute. discriminate.
Qed.
(** ** RemoteManifestStore *)

Lemma fold_set_notin (files : list (string * string)) (acc : gmap string string) (p : string) :
  p ∉ (fst <$> files) →
  fold_left (fun m f => Js.set (fst f) (snd f) m) files acc !! p = acc !! p.
Proof.
  revert acc. induction files as [|[q h] files IH]; intros acc Hp; simpl; [done|].
  rewrite fmap_cons in Hp. apply not_elem_of_cons in Hp as [Hne Hp].
  rewrite IH by done. by rewrite Js_set_lookup_ne.
Qed.

Lemma fold_set_no_proto (files : list (string * string)) (acc : gmap string string) :
  acc !! "__proto__" = None →
  fold_left (fun m f => Js.set (fst f) (snd f) m) files acc !! "__proto__" = None.
Proof.
  revert acc. induction files as [|[q h] files IH]; intros acc Hacc; simpl; [done|].
  apply IH. by apply Js_set_no_proto.
Qed.

Lemma build_localHashes_notin (files : list (string * string)) (p : string) :
  p ∉ (fst <$> files) → build_localHashes files !! p = None.
Proof. intros Hp. unfold build_localHashes. by rewrite fold_set_notin. Qed.

(** A local file called [__proto__] leaves no entry in [localHashes]. *)
Lemma build_localHashes_no_proto (files : list (string * string)) :
  build_localHashes files !! "__proto__" = None.
Proof. by apply fold_set_no_proto. Qed.

Lemma build_localHashes_in (files : list (string * string)) (p h : string) :
  NoDup (fst <$> files) → (p, h) ∈ files → p ≠ "__proto__" →
  build_localHashes files !! p = Some h.
Proof.
  intros Hnd Hin Hp. revert Hnd Hin.
  unfold build_localHashes. generalize (∅ : gmap string string).
  induction files as [|[q h'] files IH]; intros acc Hnd Hin; [by apply elem_of_nil in Hin|].
  rewrite fmap_cons in Hnd. apply NoDup_cons in Hnd as [Hq Hnd].
  apply elem_of_cons in Hin as [Heq|Hin]; simpl.
  - injection Heq as -> ->. rewrite fold_set_notin by done. by apply Js_set_lookup_eq.
  - by apply IH.
Qed.

Lemma build_localHashes_is_Some (files : list (string * string)) (p : string) :
  p ∈ (fst <$> files) → p ≠ "__proto__" → is_Some (build_localHashes files !! p).
Proof.
  intros Hin Hp. revert Hin.
  unfold build_localHashes. generalize (∅ : gmap string string).
  induction files as [|[q h'] files IH]; intros acc Hin; [by apply elem_of_nil in Hin|].
  rewrite fmap_cons in Hin. simpl.
  destruct (decide (p ∈ (fst <$> files))) as [Hp'|Hp']; [by apply IH|].
  apply elem_of_cons in Hin as [->|Hin]; [|done].
  rewrite fold_set_notin by done. rewrite Js_set_lookup_eq by done. by eexists.
Qed.

Lemma build_localHashes_get (files : list (string * string)) (p h : string) :
  NoDup (fst <$> files) → (p, h) ∈ files → p ≠ "__proto__" →
  Js.get (build_localHashes files) p = Js.Str h.
Proof. intros. by apply Js_get_own, build_localHashes_in. Qed.

(** What [localHashes] answers for a local file is truthy, whatever its
    name, as long as its hash is not empty. *)
Lemma build_localHashes_truthy files p h :
  NoDup (fst <$> files) → (p, h) ∈ files → h ≠ "" →
  Js.is_truthy (Js.get (build_localHashes files) p) = true.
Proof.
  intros Hnd Hin Hh. destruct (decide (p = "__proto__")) as [->|Hp].
  - by rewrite Js_get_proto by apply build_localHashes_no_proto.
  - by apply (Js_truthy_Str _ _ h); [apply build_localHashes_in|].
Qed.

(** ** The manifest file and the listings *)

Lemma rel_join_not_manifest (remoteDir name : string) :
  name ≠ HASH_FILE_NAME → rel_join remoteDir name ≠ HASH_FILE_NAME.
Proof.
  intros Hname. unfold rel_join. destruct (String.eqb remoteDir "") eqn:Hd; [done|].
  intros Heq. assert (Hm : mentions "/" (remoteDir +:+ "/" +:+ name) = true).
  { rewrite mentions_app. apply orb_true_iff. right. reflexivity. }
  rewrite Heq in Hm. vm_compute in Hm. discriminate.
Qed.

Lemma getRemoteFiles_not_manifest (n : rnode) :
  ∀ remoteDir s fs s',
    getRemoteFiles remoteDir n s = (Ok fs, s') → HASH_FILE_NAME ∉ fs.
Proof.
  induction n as [c|es IH|] using rnode_nested_ind; intros remoteDir s fs s';
    cbn [getRemoteFiles]; unfold try_catch, bind.
  - destruct (query _ s) as [[[]|e] s1]; unfold throw, ret; intros; simplify_eq;
      apply not_elem_of_nil.
  - destruct (query _ s) as [[[]|e] s1]; [|unfold ret; intros; simplify_eq; apply not_elem_of_nil].
    clear s. revert s1 fs s'.
    induction es as [|[name item] es IHes]; intros s fs s'.
    + unfold ret. intros. simplify_eq. apply not_elem_of_nil.
    + apply Forall_cons in IH as [Hitem Hes]. specialize (IHes Hes).
      set (scan := fix scan (items : rdir) : M (list string) := _) in *.
      assert (Hscan : ∀ s fs s',
                match scan es s with
                | (Ok a, s'0) => (Ok a, s'0)
                | (Throw _, s'0) => ret [] s'0
                end = (Ok fs, s') → HASH_FILE_NAME ∉ fs) by exact IHes.
      assert (Hscan' : ∀ s fs s', scan es s = (Ok fs, s') → HASH_FILE_NAME ∉ fs).
      { intros s0 fs0 s0' H0. apply (Hscan s0 fs0 s0'). by rewrite H0. }
      cbn [scan]. fold scan.
      destruct (is_dot name).
      { destruct (scan es s) as [[a|e] s0] eqn:Hs; [|unfold ret; intros; simplify_eq; apply not_elem_of_nil].
        intros. simplify_eq. by eapply Hscan'. }
      destruct item as [c|sub|].
      * destruct (negb (String.eqb name HASH_FILE_NAME)) eqn:Hname.
        -- unfold bind. destruct (scan es s) as [[a|e] s0] eqn:Hs;
             [|unfold ret; intros; simplify_eq; apply not_elem_of_nil].
           unfold ret. intros. simplify_eq. apply not_elem_of_cons. split; [|by eapply Hscan'].
           intros Heq. symmetry in Heq. revert Heq. apply rel_join_not_manifest.
           intros ->. by rewrite String.eqb_refl in Hname.
        -- destruct (scan es s) as [[a|e] s0] eqn:Hs; [|unfold ret; intros; simplify_eq; apply not_elem_of_nil].
           intros. simplify_eq. by eapply Hscan'.
      * unfold bind.
        destruct (getRemoteFiles (rel_join remoteDir name) (RDir sub) s) as [[a|e] s0] eqn:Hsub;
          [|unfold ret; intros; simplify_eq; apply not_elem_of_nil].
        destruct (scan es s0) as [[b|e] s1] eqn:Hs; [|unfold ret; intros; simplify_eq; apply not_elem_of_nil].
        unfold ret. intros. simplify_eq. apply not_elem_of_app. split.
        -- by eapply Hitem.
        -- by eapply Hscan'.
      * destruct (scan es s) as [[a|e] s0] eqn:Hs; [|unfold ret; intros; simplify_eq; apply not_elem_of_nil].
        intros. simplify_eq. by eapply Hscan'.
  - destruct (query _ s) as [[[]|e] s1]; unfold throw, ret; intros; simplify_eq;
      apply not_elem_of_nil.
Qed.

(** ** Single steps *)

(** A call leaves a state that differs from the one it started in by the
    logged event, the call counter and, on success, the remote tree. *)
Lemma call_outcome {A} (ev : event) (op : rdir → error + A * rdir) (s : state) :
  (∃ e, call ev op s = (Throw e, tick (log_event ev s))) ∨
  (∃ a t, op (remote s) = inr (a, t) ∧ net s (calls s) = None ∧
          call ev op s = (Ok a, set_remote t (tick (log_event ev s)))).
Proof.
  unfold call. destruct (net s (calls s)) as [e|]; [left; by exists e|].
  destruct (op (remote s)) as [e|[a t]]; [left; by exists e|].
  right. by exists a, t.
Qed.

Lemma call_stats {A} (ev : event) (op : rdir → error + A * rdir) (s : state) :
  stats (snd (call ev op s)) = stats s.
Proof. destruct (call_outcome ev op s) as [[e ->]|(a & t & _ & _ & ->)]; done. Qed.


(** When [executeWithRetry] returns a value, its last attempt returned it. *)
Lemma retry_loop_returns {A} cfg (operation : M A) retries fuel attempt s a s' :
  retry_loop cfg operation retries fuel attempt s = (Ok a, s') →
  ∃ s0, operation s0 = (Ok a, s').
Proof.
  revert attempt s. induction fuel as [|fuel IH]; intros attempt s; simpl; [done|].
  unfold try_catch at 1. destruct (operation s) as [[a0|e] s1] eqn:Hop.
  - intros. simplify_eq. by exists s.
  - destruct (_ && _); [|done]. unfold bind.
    destruct (sleep _ s1) as [[[]|?] s2]; [|done].
    destruct (try_catch _ _ s2) as [[[]|?] s3]; [|done]. apply IH.
Qed.

(** On a network that lets the next call through, the first attempt is the
    operation itself. *)
Lemma executeWithRetry_first_try {A} cfg (operation : M A) s a s' :
  operation s = (Ok a, s') → executeWithRetry cfg operation s = (Ok a, s') ∨
                              (or_default (max_retries cfg) 3 ≤ 0)%Z.
Proof.
  intros Hop. unfold executeWithRetry, executeWithRetry_n.
  destruct (Z.to_nat (or_default (max_retries cfg) 3)) eqn:Hn; [right; lia|left].
  simpl. unfold try_catch. by rewrite Hop.
Qed.

(** The outcomes of one iteration of the upload loop. *)
Lemma upload_one_cases cfg (lh : gmap string string) (p h : string)
    (m : gmap string string) (s : state) :
  (Js.get m p = Js.get lh p ∧
   upload_one cfg lh (p, h) m s = (Ok m, snd (push_unchanged p s)))
  ∨ (Js.get m p ≠ Js.get lh p ∧ dry_run cfg = true ∧
     upload_one cfg lh (p, h) m s = (Ok (assign_hash lh p m), snd (push_uploaded p s)))
  ∨ (Js.get m p ≠ Js.get lh p ∧ dry_run cfg = false ∧
     ∃ e s1, client_ensureDir p s = (Throw e, s1) ∧
       upload_one cfg lh (p, h) m s = (Ok m, snd (push_error (upload_message p e) s1)))
  ∨ (Js.get m p ≠ Js.get lh p ∧ dry_run cfg = false ∧
     ∃ s1 e s2, client_ensureDir p s = (Ok tt, s1) ∧
       client_uploadFrom (Blob h) p s1 = (Throw e, s2) ∧
       upload_one cfg lh (p, h) m s = (Ok m, snd (push_error (upload_message p e) s2)))
  ∨ (Js.get m p ≠ Js.get lh p ∧ dry_run cfg = false ∧
     ∃ s1 s2, client_ensureDir p s = (Ok tt, s1) ∧
       client_uploadFrom (Blob h) p s1 = (Ok tt, s2) ∧
       upload_one cfg lh (p, h) m s
         = (Ok (assign_hash lh p m), snd (push_uploaded p s2))).
Proof.
  destruct (decide (Js.get m p = Js.get lh p)) as [Heq|Hne].
  { left. split; [done|]. unfold upload_one, try_catch. cbn [fst snd].
    by rewrite bool_decide_eq_true_2. }
  right. destruct (dry_run cfg) eqn:Hdry.
  { left. split; [done|]. split; [done|]. unfold upload_one, try_catch. cbn [fst snd].
    by rewrite bool_decide_eq_false_2, Hdry. }
  right. destruct (client_ensureDir p s) as [[[]|e] s1] eqn:H1.
  - right. destruct (client_uploadFrom (Blob h) p s1) as [[[]|e] s2] eqn:H2.
    + right. split; [done|]. split; [done|]. exists s1, s2.
      split; [done|]. split; [done|].
      unfold upload_one, try_catch, bind. cbn [fst snd].
      by rewrite bool_decide_eq_false_2, Hdry, H1, H2.
    + left. split; [done|]. split; [done|]. exists s1, e, s2.
      split; [done|]. split; [done|].
      unfold upload_one, try_catch, bind. cbn [fst snd].
      by rewrite bool_decide_eq_false_2, Hdry, H1, H2.
  - left. split; [done|]. split; [done|]. exists e, s1. split; [done|].
    unfold upload_one, try_catch, bind. cbn [fst snd].
    by rewrite bool_decide_eq_false_2, Hdry, H1.
Qed.

(** The outcomes of one iteration of the removal loop. *)
Lemma remove_one_cases cfg (f : string) (m : gmap string string) (s : state) :
  (dry_run cfg = true ∧
   remove_one cfg f m s = (Ok (delete f m), snd (push_removed f s)))
  ∨ (dry_run cfg = false ∧
     ∃ e s1, executeWithRetry cfg (client_remove f) s = (Throw e, s1) ∧
       remove_one cfg f m s = (Ok m, snd (push_error (remove_message f e) s1)))
  ∨ (dry_run cfg = false ∧
     ∃ s1, executeWithRetry cfg (client_remove f) s = (Ok tt, s1) ∧
       remove_one cfg f m s = (Ok (delete f m), snd (push_removed f s1))).
Proof.
  destruct (dry_run cfg) eqn:Hdry.
  { left. split; [done|]. unfold remove_one, try_catch. by rewrite Hdry. }
  right. destruct (executeWithRetry cfg (client_remove f) s) as [[[]|e] s1] eqn:H1.
  - right. split; [done|]. exists s1. split; [done|].
    unfold remove_one, try_catch, bind. by rewrite Hdry, H1.
  - left. split; [done|]. exists e, s1. split; [done|].
    unfold remove_one, try_catch, bind. by rewrite Hdry, H1.
Qed.

(** The outcomes of one iteration of the loop of [clearDestination]. *)
Lemma clear_one_cases cfg (f : string) (s : state) :
  (dry_run cfg = true ∧ clear_one cfg f s = (Ok tt, snd (push_removed f s)))
  ∨ (dry_run cfg = false ∧
     ∃ e s1, client_remove f s = (Throw e, s1) ∧
       clear_one cfg f s = (Ok tt, snd (push_error (clear_message f e) s1)))
  ∨ (dry_run cfg = false ∧
     ∃ s1, client_remove f s = (Ok tt, s1) ∧
       clear_one cfg f s = (Ok tt, snd (push_removed f s1))).
Proof.
  destruct (dry_run cfg) eqn:Hdry.
  { left. split; [done|]. unfold clear_one, try_catch. by rewrite Hdry. }
  right. destruct (client_remove f s) as [[[]|e] s1] eqn:H1.
  - right. split; [done|]. exists s1. split; [done|].
    unfold clear_one, try_catch, bind. by rewrite Hdry, H1.
  - left. split; [done|]. exists e, s1. split; [done|].
    unfold clear_one, try_catch, bind. by rewrite Hdry, H1.
Qed.

(** ** The orchestrator never raises *)






Lemma getRemoteFiles_without_manifest (n : rnode) :
  ∀ remoteDir s,
    getRemoteFiles remoteDir (without_manifest n) s = getRemoteFiles remoteDir n s.
Proof.
  induction n as [c|es IH|] using rnode_nested_ind; intros remoteDir s; [done| |done].
  cbn [getRemoteFiles without_manifest]. unfold try_catch, bind.
  destruct (query (EvList remoteDir) s) as [[[]|e] s1]; [|done].
  set (go := fix go (items : rdir) : rdir := _).
  set (scan := fix scan (items : rdir) : M (list string) := _).
  assert (Hscan : ∀ s, scan (go es) s = scan es s); [|by rewrite Hscan].
  clear s s1. induction es as [|[name item] es IHes]; intros s; [done|].
  apply Forall_cons in IH as [Hitem Hes]. specialize (IHes Hes).
  destruct item as [c|sub|].
  - cbn [go]. destruct (String.eqb name HASH_FILE_NAME) eqn:Hname.
    + cbn [scan]. rewrite Hname. cbn [negb].
      destruct (is_dot name); apply IHes.
    + cbn [scan]. rewrite Hname. cbn [negb].
      destruct (is_dot name); [apply IHes|].
      unfold bind. by rewrite IHes.
  - assert (∃ sub', without_manifest (RDir sub) = RDir sub') as [sub' Heq]
      by (eexists; reflexivity).
    cbn [go]. rewrite Heq. cbn [scan]. destruct (is_dot name); [apply IHes|].
    unfold bind. cbn [snd] in Hitem. rewrite <- Heq, Hitem.
    destruct (getRemoteFiles _ _ s) as [[a|e] s1]; [|done]. by rewrite IHes.
  - cbn [go scan]. destruct (is_dot name); apply IHes.
Qed.

Lemma hasContent_ignores_manifest (es : rdir) :
  hasContent (List.filter (fun e => negb (String.eqb (fst e) HASH_FILE_NAME)) es)
  = hasContent es.
Proof.
  unfold hasContent. induction es as [|[name item] es IH]; [done|].
  cbn [List.filter fst]. destruct (String.eqb name HASH_FILE_NAME) eqn:Hname; cbn [negb].
  - cbn [existsb fst]. by rewrite Hname, andb_false_r.
  - cbn [existsb fst]. by rewrite IH.
Qed.

Lemma node_at_root (name : string) (t : rdir) :
  node_at [name] t = lookup_entry name t.
Proof. cbn. by destruct (lookup_entry name t) as [[| |]|]. Qed.

Lemma update_entry_lookup (name : string) (f : rnode → option (option rnode))
    (t t' : rdir) (x' : rnode) :
  update_entry name f t = Some t' →
  (∀ x, f x = None ∨ f x = Some (Some x')) →
  lookup_entry name t' = Some x'.
Proof.
  intros Hup Hf. revert t' Hup. induction t as [|[n x] t IH]; intros t'; simpl; [done|].
  destruct (String.eqb n name) eqn:Hn.
  - destruct (Hf x) as [->| ->]; [done|]. intros [= <-]. simpl. by rewrite Hn.
  - destruct (update_entry name f t) as [t0|]; [|done]. intros [= <-].
    simpl. rewrite Hn. by apply IH.
Qed.

Lemma lookup_entry_app_None (name : string) (t : rdir) (x : rnode) :
  lookup_entry name t = None → lookup_entry name (t ++ [(name, x)]) = Some x.
Proof.
  induction t as [|[n y] t IH]; simpl.
  - by rewrite String.eqb_refl.
  - destruct (String.eqb n name); [done|apply IH].
Qed.

Lemma tree_upload_root_lookup (name : string) (c : fcontent) (t t' : rdir) :
  tree_upload [name] c t = Some t' → lookup_entry name t' = Some (RFile c).
Proof.
  cbn. destruct (lookup_entry name t) eqn:Hl.
  - intros Hup. eapply update_entry_lookup; [exact Hup|].
    intros [| |]; auto.
  - intros [= <-]. by apply lookup_entry_app_None.
Qed.

Lemma saveRemoteHashes_stores cfg (m : gmap string string) (s s' : state) :
  saveRemoteHashes cfg m s = (Ok tt, s') →
  lookup_entry HASH_FILE_NAME (remote s') = Some (RFile (Json m)).
Proof.
  intros Hsave. apply retry_loop_returns in Hsave as [s0 Hop].
  destruct (call_outcome (EvUploadFrom (Json m) HASH_FILE_NAME)
              (fun t => of_option "Cannot store file"
                 (pair tt <$> tree_upload (split_slash HASH_FILE_NAME) (Json m) t)) s0)
    as [[e He]|(a & t & Hok & _ & Hcall)];
    unfold client_uploadFrom in Hop; rewrite Hop in *; [done|].
  injection Hcall as _ ->. cbn [remote set_remote].
  change (split_slash HASH_FILE_NAME) with [HASH_FILE_NAME] in Hok.
  destruct (tree_upload [HASH_FILE_NAME] (Json m) (remote s0)) as [t'|] eqn:Hup; [|done].
  cbn in Hok. injection Hok as _ <-. by eapply tree_upload_root_lookup.
Qed.

Lemma loadRemoteHashes_reads cfg (m : gmap string string) (s : state) :
  lookup_entry HASH_FILE_NAME (remote s) = Some (RFile (Json m)) →
  (∀ k, net s k = None) →
  (0 < or_default (max_retries cfg) 3)%Z →
  fst (loadRemoteHashes cfg s) = Ok (Js.assign ∅ m).
Proof.
  intros Hl Hnet Hretries.
  unfold loadRemoteHashes, bind, remoteFileExists, try_catch at 1, bind, client_size, call.
  rewrite Hnet. change (split_slash HASH_FILE_NAME) with [HASH_FILE_NAME].
  rewrite node_at_root, Hl. cbn [ret].
  set (s1 := set_remote _ _).
  assert (Hd : client_downloadTo HASH_FILE_NAME s1
               = (Ok (Json m), set_remote (remote s1) (tick (log_event (EvDownloadTo HASH_FILE_NAME) s1)))).
  { unfold client_downloadTo, call. subst s1. cbn [net calls remote set_remote tick log_event].
    rewrite Hnet. change (split_slash HASH_FILE_NAME) with [HASH_FILE_NAME].
    by rewrite node_at_root, Hl. }
  destruct (executeWithRetry_first_try cfg _ _ _ _ Hd) as [Hr|?]; [|lia].
  unfold try_catch, bind. by rewrite Hr.
Qed.

(** C9 (amended). The manifest is the file called [.deploy_ftp_hash.json]
    directly under the remote root: that is where [saveRemoteHashes] stores
    it and where [loadRemoteHashes] reads it (the members of the stored
    object are assigned onto an empty one; without a member called
    [__proto__] the result is the stored object). A file of that name is left out
    of every remote listing (the listing is the same with or without such
    files, and never contains the manifest path), never counts as content of
    a directory, and never enters the orphan set. *)
Theorem manifest_file_is_metadata (cfg : FtpDeployConfig) :
  HASH_FILE_NAME = ".deploy_ftp_hash.json" ∧
  (∀ m s s', saveRemoteHashes cfg m s = (Ok tt, s') →
     lookup_entry HASH_FILE_NAME (remote s') = Some (RFile (Json m))) ∧
  (∀ m s, lookup_entry HASH_FILE_NAME (remote s) = Some (RFile (Json m)) →
     (∀ k, net s k = None) → (0 < or_default (max_retries cfg) 3)%Z →
     fst (loadRemoteHashes cfg s) = Ok (Js.assign ∅ m) ∧
     (m !! "__proto__" = None → fst (loadRemoteHashes cfg s) = Ok m)) ∧
  (∀ n remoteDir s,
     getRemoteFiles remoteDir (without_manifest n) s = getRemoteFiles remoteDir n s) ∧
  (∀ n remoteDir s fs s',
     getRemoteFiles remoteDir n s = (Ok fs, s') →
     (HASH_FILE_NAME ∉ fs) ∧ (∀ lh, HASH_FILE_NAME ∉ orphanedFiles lh fs)) ∧
  (∀ es, hasContent (List.filter (fun e => negb (String.eqb (fst e) HASH_FILE_NAME)) es)
         = hasContent es).
Proof.
  split; [reflexivity|]. split; [apply saveRemoteHashes_stores|].
  split.
  { intros m s Hl Hnet Hretries.
    pose proof (loadRemoteHashes_reads cfg m s Hl Hnet Hretries) as Hr.
    split; [done|]. intros Hm. by rewrite Hr, Js_assign_empty_id. }
  split; [apply getRemoteFiles_without_manifest|].
  split; [|apply hasContent_ignores_manifest].
  intros n remoteDir s fs s' Hfs.
  assert (H : HASH_FILE_NAME ∉ fs) by (by eapply getRemoteFiles_not_manifest).
  split; [done|]. intros lh Hin. apply H.
  unfold orphanedFiles in Hin. apply list_elem_of_In, filter_In in Hin as [Hin _].
  by apply list_elem_of_In.
Qed.

(** C9 (as stated) fails: a file called [.deploy_hash_manifest.json] is not
    the manifest. It is listed like any deployable file, and
    [loadRemoteHashes] does not read it. *)
Lemma manifest_name_counterexample :
  let t := [(spec_manifest_name, RFile (Json {["index.html" := "abc"]}))] in
  HASH_FILE_NAME ≠ spec_manifest_name ∧
  fst (getRemoteFiles_root (initial t reliable)) = Ok [spec_manifest_name] ∧
  fst (loadRemoteHashes sample_config (initial t reliable)) = Ok ∅.
Proof. cbv zeta. split; [done|]. split; vm_compute; reflexivity. Qed.

(** ** Dry run *)

Lemma trace_extends_preorder (P : event → Prop) : PreOrder (trace_extends P).
Proof.
  split.
  - intros s. exists []. by rewrite app_nil_r.
  - intros s1 s2 s3 (e1 & H1 & F1) (e2 & H2 & F2). exists (e1 ++ e2).
    split; [by rewrite H2, H1, app_assoc | by apply Forall_app].
Qed.

Lemma dry_frame_preorder : PreOrder dry_frame.
Proof.
  split.
  - intros s. split; [done|]. apply trace_extends_preorder.
  - intros s1 s2 s3 [H1 T1] [H2 T2]. split; [congruence|].
    by eapply (@transitivity _ _ (@PreOrder_Transitive _ _ (trace_extends_preorder _))).
Qed.

Lemma dry_frame_issue ev s : mutating ev = false → dry_frame s (tick (log_event ev s)).
Proof. intros H. split; [done|]. exists [ev]. split; [done|]. by constructor. Qed.

Lemma dry_frame_log ev s : mutating ev = false → dry_frame s (log_event ev s).
Proof. intros H. split; [done|]. exists [ev]. split; [done|]. by constructor. Qed.

Lemma dry_frame_same_trace s s' :
  remote s' = remote s → trace s' = trace s → dry_frame s s'.
Proof. intros H1 H2. split; [done|]. exists []. by rewrite app_nil_r. Qed.

Global Instance dry_frame_frame : Frame dry_frame :=
  Build_Frame dry_frame (fun ev => mutating ev = false) dry_frame_preorder
    dry_frame_issue dry_frame_log (fun _ _ => dry_frame_same_trace _ _ eq_refl eq_refl).
Global Instance dry_frame_uploaded : AllowsUploaded dry_frame.
Proof. intros ??. by apply dry_frame_same_trace. Qed.
Global Instance dry_frame_removed : AllowsRemoved dry_frame.
Proof. intros ??. by apply dry_frame_same_trace. Qed.
Global Instance dry_frame_unchanged : AllowsUnchanged dry_frame.
Proof. intros ??. by apply dry_frame_same_trace. Qed.
Global Instance dry_frame_error : AllowsError dry_frame.
Proof. intros ??. by apply dry_frame_same_trace. Qed.

Lemma same_stats_preorder : PreOrder same_stats.
Proof. split; [by intros ?|]. intros ??? H1 H2. unfold same_stats in *. congruence. Qed.

Global Instance same_stats_frame : Frame same_stats :=
  Build_Frame same_stats (fun _ => True) same_stats_preorder
    (fun _ _ _ => eq_refl) (fun _ _ _ => eq_refl) (fun _ _ => eq_refl).
Global Instance same_stats_remote : AllowsRemote same_stats.
Proof. by intros ??. Qed.

(** In a dry run [removeEmptyDirectories] hands back the directory it was
    given. *)
Lemma removeEmptyDirectories_dry cfg (n : rnode) :
  dry_run cfg = true →
  ∀ remoteDir preserveRoot s,
    fst (removeEmptyDirectories cfg remoteDir preserveRoot n s) = Ok (Some n).
Proof.
  intros Hdry.
  induction n as [c|es IH|] using rnode_nested_ind; intros remoteDir preserveRoot s;
    [done| |done].
  cbn [removeEmptyDirectories]. unfold bind at 1.
  destruct (try_catch _ _ s) as [[listed|e] s1] eqn:Hl.
  2: { revert Hl. unfold try_catch, bind. by destruct (query _ s) as [[[]|?] ?]. }
  destruct listed; cbn [negb]; [|done].
  set (each := fix each (items : rdir) : M rdir := _).
  assert (Heach : ∀ s, fst (each es s) = Ok es).
  { clear s s1 Hl. induction es as [|[name item] es IHes]; intros s; [done|].
    apply Forall_cons in IH as [Hitem Hes]. specialize (IHes Hes).
    assert (Hkeep : fst ((let! rest' := each es in ret ((name, item) :: rest')) s)
                    = Ok ((name, item) :: es)).
    { unfold bind. specialize (IHes s). destruct (each es s) as [[r|?] s']; [|done].
      cbn in *. by injection IHes as ->. }
    cbn [each]. destruct item as [c|sub|]; [done| |done].
    destruct (is_dot name); [done|].
    destruct (shouldPreserve cfg (rel_join remoteDir name)); [done|].
    unfold bind at 1. cbn [snd] in Hitem.
    specialize (Hitem (rel_join remoteDir name) false s).
    destruct (removeEmptyDirectories _ _ _ _ s) as [[r|?] s']; [|done].
    cbn in Hitem. injection Hitem as ->.
    unfold bind. specialize (IHes s'). destruct (each es s') as [[r|?] s'']; [|done].
    cbn in *. by injection IHes as ->. }
  unfold bind at 1. specialize (Heach s1).
  destruct (each es s1) as [[es'|?] s2]; [|done]. cbn in Heach. injection Heach as ->.
  unfold bind at 1. destruct (try_catch _ _ s2) as [[relisted|e] s3] eqn:Hl2.
  2: { revert Hl2. unfold try_catch, bind. by destruct (query _ s2) as [[[]|?] ?]. }
  destruct relisted; cbn [negb]; [|done].
  rewrite Hdry. by repeat case_match.
Qed.

Lemma pr_removeEmptyDirectories_root_dry cfg :
  dry_run cfg = true → preserves dry_frame (removeEmptyDirectories_root cfg).
Proof.
  intros Hdry s. unfold removeEmptyDirectories_root.
  pose proof (removeEmptyDirectories_dry cfg (RDir (remote s)) Hdry "" true s) as Hres.
  pose proof (pr_removeEmptyDirectories dry_frame cfg (RDir (remote s))
                (fun _ => eq_refl) (fun H => ltac:(congruence)) "" true s) as Hfr.
  destruct (removeEmptyDirectories _ _ _ _ s) as [[r|?] s']; [|done].
  cbn in Hres. injection Hres as ->. cbn in *.
  destruct Hfr as [Hrem Htr]. split; [done|]. exact Htr.
Qed.

(** ** Frames of the phases *)

Section PhaseFrames.
Context (R : relation state) `{!Frame R} (cfg : FtpDeployConfig).
Hypothesis quiet_reads : ∀ ev, mutating ev = false → quiet ev.

Lemma quiet_reads_session : quiet_session R.
Proof. repeat split; intros; by apply quiet_reads. Qed.

Lemma pr_loadRemoteHashes : preserves R (loadRemoteHashes cfg).
Proof.
  unfold loadRemoteHashes.
  apply (pr_bind R); [apply (pr_remoteFileExists R); by apply quiet_reads|].
  intros b. apply (pr_if R); [|apply (pr_ret R)].
  apply (pr_try_catch R); [|intros _; apply (pr_ret R)].
  apply (pr_bind R).
  - apply (pr_executeWithRetry R); [apply quiet_reads_session|].
    apply (pr_client_downloadTo R). by apply quiet_reads.
  - intros c. apply (pr_bind R); [|intros ?; apply (pr_ret R)].
    destruct c; [apply (pr_throw R) | apply (pr_ret R)].
Qed.

Lemma pr_scan_local l : preserves R (scan_local l).
Proof. destruct l; [apply (pr_throw R) | apply (pr_ret R)]. Qed.

Lemma pr_clearDestination :
  (∀ f, preserves R (clear_one cfg f)) →
  preserves R (removeEmptyDirectories_root cfg) →
  preserves R (clearDestination cfg).
Proof.
  intros Hone Hprune. unfold clearDestination.
  apply (pr_bind R); [apply (pr_getRemoteFiles_root R); intros; by apply quiet_reads|].
  intros fs. apply (pr_bind R); [|done]. apply (pr_for_each R). intros f _. apply Hone.
Qed.

Lemma pr_gather l :
  (clear_destination cfg = true → preserves R (clearDestination cfg)) →
  preserves R (gather cfg l).
Proof.
  intros Hclear. unfold gather.
  apply (pr_bind R); [apply (pr_client_access R); by apply quiet_reads|]. intros _.
  apply (pr_bind R).
  { destruct (clear_destination cfg); [by apply Hclear | apply (pr_ret R)]. }
  intros _. apply (pr_bind R); [apply pr_loadRemoteHashes|]. intros m.
  apply (pr_bind R); [apply pr_scan_local|]. intros fs.
  apply (pr_bind R); [|intros ?; apply (pr_ret R)].
  apply (pr_if R); [|apply (pr_ret R)].
  apply (pr_bind R); [|intros ?; apply (pr_ret R)].
  apply (pr_getRemoteFiles_root R). intros; by apply quiet_reads.
Qed.

Lemma pr_clean_phase lh rf m :
  (∀ f m, preserves R (remove_one cfg f m)) →
  preserves R (removeEmptyDirectories_root cfg) →
  preserves R (clean_phase cfg lh rf m).
Proof.
  intros Hone Hprune. unfold clean_phase. destruct rf as [rf|]; [|apply (pr_ret R)].
  apply (pr_if R); [|apply (pr_ret R)].
  apply (pr_bind R); [apply (pr_fold_M R); intros; apply Hone|].
  intros m'. apply (pr_bind R); [|intros ?; apply (pr_ret R)].
  apply (pr_if R); [done | apply (pr_ret R)].
Qed.

Lemma pr_deploy `{!AllowsError R} l :
  preserves R (gather cfg l) →
  (∀ lh fs m, preserves R (upload_phase cfg lh fs m)) →
  (∀ lh rf m, preserves R (clean_phase cfg lh rf m)) →
  (∀ m, preserves R (persist cfg m)) →
  preserves R (deploy cfg l).
Proof.
  intros Hg Hu Hc Hp s. unfold deploy, try_finally.
  assert (Hbody : preserves R
            (try_catch (deploy_body cfg l)
               (fun err => push_error (critical_message err) >> get_stats))).
  { apply (pr_try_catch R).
    - unfold deploy_body, deploy_plan.
      apply (pr_bind R).
      + apply (pr_bind R); [done|]. intros inputs.
        apply (pr_bind R); [apply Hu | intros ?; apply Hc].
      + intros m. apply (pr_bind R); [apply Hp | intros _; by intros ?].
    - intros e. apply (pr_bind R); [|intros _; by intros ?].
      intros s0. apply allows_error. }
  specialize (Hbody s). destruct (try_catch _ _ s) as [r s1]. cbn in *.
  etrans; [exact Hbody|]. apply (pr_client_close R). by apply quiet_reads.
Qed.

End PhaseFrames.

Section DryRun.
Context (cfg : FtpDeployConfig).
Hypothesis dry : dry_run cfg = true.

Lemma pr_clear_one_dry f : preserves dry_frame (clear_one cfg f).
Proof.
  intros s. destruct (clear_one_cases cfg f s) as [[_ ->]|[[? _]|[? _]]];
    [|congruence..]. apply allows_removed.
Qed.

Lemma pr_upload_one_dry lh f m : preserves dry_frame (upload_one cfg lh f m).
Proof.
  intros s. destruct f as [p h].
  destruct (upload_one_cases cfg lh p h m s)
    as [[_ ->]|[(_ & _ & ->)|[(_ & ? & _)|[(_ & ? & _)|(_ & ? & _)]]]];
    [apply allows_unchanged | apply allows_uploaded | congruence..].
Qed.

Lemma pr_remove_one_dry f m : preserves dry_frame (remove_one cfg f m).
Proof.
  intros s. destruct (remove_one_cases cfg f m s) as [[_ ->]|[[? _]|[? _]]];
    [|congruence..]. apply allows_removed.
Qed.

Lemma pr_deploy_dry l : preserves dry_frame (deploy cfg l).
Proof.
  assert (Hq : ∀ ev, mutating ev = false → @quiet dry_frame _ ev) by done.
  apply (pr_deploy dry_frame cfg Hq).
  - apply (pr_gather dry_frame cfg Hq). intros _.
    apply (pr_clearDestination dry_frame cfg Hq); [apply pr_clear_one_dry|].
    by apply pr_removeEmptyDirectories_root_dry.
  - intros lh fs m. apply (pr_fold_M dry_frame). intros. apply pr_upload_one_dry.
  - intros lh rf m. apply (pr_clean_phase dry_frame cfg);
      [apply pr_remove_one_dry | by apply pr_removeEmptyDirectories_root_dry].
  - intros m. unfold persist. rewrite dry. apply (pr_ret dry_frame).
Qed.

End DryRun.

Lemma executeWithRetry_stats {A} cfg (operation : M A) :
  preserves same_stats operation → preserves same_stats (executeWithRetry cfg operation).
Proof. apply (pr_executeWithRetry same_stats). by repeat split. Qed.

(** ** Frames of the steps that write *)

Section WritingSteps.
Context (R : relation state) `{!Frame R} `{!AllowsRemote R} (cfg : FtpDeployConfig).
Hypothesis quiet_reads : ∀ ev, mutating ev = false → quiet ev.

Lemma pr_upload_one `{!AllowsUploaded R} `{!AllowsUnchanged R} `{!AllowsError R}
    lh p h m :
  (dry_run cfg = false → quiet (EvEnsureDir p) ∧ quiet (EvUploadFrom (Blob h) p)) →
  preserves R (upload_one cfg lh (p, h) m).
Proof.
  intros Hq. unfold upload_one. cbn [fst snd].
  apply (pr_try_catch R).
  - apply (pr_if R).
    { apply (pr_bind R); [intros s; apply allows_unchanged | intros _; apply (pr_ret R)]. }
    destruct (dry_run cfg).
    { apply (pr_bind R); [intros s; apply allows_uploaded | intros _; apply (pr_ret R)]. }
    destruct Hq as [Hq1 Hq2]; [done|].
    apply (pr_bind R); [by apply (pr_call R)|]. intros _.
    apply (pr_bind R); [by apply (pr_call R)|]. intros _.
    apply (pr_bind R); [intros s; apply allows_uploaded | intros _; apply (pr_ret R)].
  - intros e. apply (pr_bind R); [intros s; apply allows_error | intros _; apply (pr_ret R)].
Qed.

Lemma pr_remove_one `{!AllowsRemoved R} `{!AllowsError R} f m :
  (dry_run cfg = false → quiet (EvRemove f)) →
  preserves R (remove_one cfg f m).
Proof.
  intros Hq. unfold remove_one.
  apply (pr_try_catch R).
  - destruct (dry_run cfg).
    { apply (pr_bind R); [intros s; apply allows_removed | intros _; apply (pr_ret R)]. }
    apply (pr_bind R).
    + apply (pr_executeWithRetry R); [by apply quiet_reads_session|].
      apply (pr_call R). by apply Hq.
    + intros _. apply (pr_bind R); [intros s; apply allows_removed | intros _; apply (pr_ret R)].
  - intros e. apply (pr_bind R); [intros s; apply allows_error | intros _; apply (pr_ret R)].
Qed.

Lemma pr_clear_one `{!AllowsRemoved R} `{!AllowsError R} f :
  (dry_run cfg = false → quiet (EvRemove f)) →
  preserves R (clear_one cfg f).
Proof.
  intros Hq. unfold clear_one.
  apply (pr_try_catch R).
  - destruct (dry_run cfg); [intros s; apply allows_removed|].
    apply (pr_bind R); [apply (pr_call R); by apply Hq|].
    intros _ s. apply allows_removed.
  - intros e s. apply allows_error.
Qed.

Lemma pr_removeEmptyDirectories_root :
  (dry_run cfg = false → ∀ d, quiet (EvRemoveDir d)) →
  preserves R (removeEmptyDirectories_root cfg).
Proof.
  intros Hq s. unfold removeEmptyDirectories_root.
  pose proof (pr_removeEmptyDirectories R cfg (RDir (remote s))
                (fun d => quiet_reads (EvList d) eq_refl) Hq "" true s) as Hfr.
  destruct (removeEmptyDirectories _ _ _ _ s) as [[[[c|es'|]|]|?] s']; cbn in *; try done.
  etrans; [exact Hfr | apply allows_remote].
Qed.

Lemma pr_persist m :
  (dry_run cfg = false → quiet (EvUploadFrom (Json m) HASH_FILE_NAME)) →
  preserves R (persist cfg m).
Proof.
  intros Hq. unfold persist. destruct (dry_run cfg); [apply (pr_ret R)|].
  apply (pr_executeWithRetry R); [by apply quiet_reads_session|].
  apply (pr_call R). by apply Hq.
Qed.

End WritingSteps.

(** ** Frames used by the claims about the plan *)

Lemma stats_grow_preorder : PreOrder stats_grow.
Proof.
  split.
  - intros s. repeat split; exists []; by rewrite app_nil_r.
  - intros s1 s2 s3 ([a1 A1] & [b1 B1] & [c1 C1] & [d1 D1])
      ([a2 A2] & [b2 B2] & [c2 C2] & [d2 D2]).
    repeat split; [exists (a1 ++ a2)|exists (b1 ++ b2)|exists (c1 ++ c2)|exists (d1 ++ d2)];
      rewrite app_assoc; congruence.
Qed.

Lemma stats_grow_same s s' : stats s' = stats s → stats_grow s s'.
Proof. intros H. unfold stats_grow. rewrite H. repeat split; exists []; by rewrite app_nil_r. Qed.

Lemma untouched_preorder p : PreOrder (untouched p).
Proof.
  split.
  - intros s. split; [apply trace_extends_preorder | apply stats_grow_preorder].
  - intros s1 s2 s3 [T1 G1] [T2 G2]. split.
    + by eapply (@transitivity _ _ (@PreOrder_Transitive _ _ (trace_extends_preorder _))).
    + by eapply (@transitivity _ _ (@PreOrder_Transitive _ _ stats_grow_preorder)).
Qed.

Lemma untouched_issue p ev s : ¬ file_write p ev → untouched p s (tick (log_event ev s)).
Proof.
  intros H. split; [|by apply stats_grow_same].
  exists [ev]. split; [done|]. by constructor.
Qed.

Lemma untouched_log p ev s : ¬ file_write p ev → untouched p s (log_event ev s).
Proof.
  intros H. split; [|by apply stats_grow_same].
  exists [ev]. split; [done|]. by constructor.
Qed.

Lemma untouched_same_trace p s s' :
  trace s' = trace s → stats_grow s s' → untouched p s s'.
Proof. intros H1 H2. split; [|done]. exists []. by rewrite app_nil_r. Qed.

Global Instance untouched_frame p : Frame (untouched p) :=
  Build_Frame (untouched p) (fun ev => ¬ file_write p ev) (untouched_preorder p)
    (untouched_issue p) (untouched_log p)
    (fun _ _ => untouched_same_trace p _ _ eq_refl (stats_grow_same _ _ eq_refl)).
Global Instance untouched_remote p : AllowsRemote (untouched p).
Proof. intros ??. apply untouched_same_trace; [done|by apply stats_grow_same]. Qed.
Global Instance untouched_uploaded p : AllowsUploaded (untouched p).
Proof.
  intros q s. apply untouched_same_trace; [done|].
  repeat split; cbn; first [by eexists | exists []; by rewrite app_nil_r].
Qed.
Global Instance untouched_removed p : AllowsRemoved (untouched p).
Proof.
  intros q s. apply untouched_same_trace; [done|].
  repeat split; cbn; first [by eexists | exists []; by rewrite app_nil_r].
Qed.
Global Instance untouched_unchanged p : AllowsUnchanged (untouched p).
Proof.
  intros q s. apply untouched_same_trace; [done|].
  repeat split; cbn; first [by eexists | exists []; by rewrite app_nil_r].
Qed.
Global Instance untouched_error p : AllowsError (untouched p).
Proof.
  intros q s. apply untouched_same_trace; [done|].
  repeat split; cbn; first [by eexists | exists []; by rewrite app_nil_r].
Qed.

Lemma untouched_reads p ev : mutating ev = false → @quiet (untouched p) _ ev.
Proof. destruct ev; cbn; intros ?; try discriminate; by intros ?. Qed.

Lemma same_removed_preorder : PreOrder same_removed.
Proof. split; [by intros ?|]. intros ??? H1 H2. unfold same_removed in *. congruence. Qed.

Global Instance same_removed_frame : Frame same_removed :=
  Build_Frame same_removed (fun _ => True) same_removed_preorder
    (fun _ _ _ => eq_refl) (fun _ _ _ => eq_refl) (fun _ _ => eq_refl).
Global Instance same_removed_remote : AllowsRemote same_removed.
Proof. by intros ??. Qed.
Global Instance same_removed_uploaded : AllowsUploaded same_removed.
Proof. by intros ??. Qed.
Global Instance same_removed_unchanged : AllowsUnchanged same_removed.
Proof. by intros ??. Qed.
Global Instance same_removed_error : AllowsError same_removed.
Proof. by intros ??. Qed.

Lemma same_uploaded_preorder : PreOrder same_uploaded.
Proof. split; [by intros ?|]. intros ??? H1 H2. unfold same_uploaded in *. congruence. Qed.

Global Instance same_uploaded_frame : Frame same_uploaded :=
  Build_Frame same_uploaded (fun _ => True) same_uploaded_preorder
    (fun _ _ _ => eq_refl) (fun _ _ _ => eq_refl) (fun _ _ => eq_refl).
Global Instance same_uploaded_remote : AllowsRemote same_uploaded.
Proof. by intros ??. Qed.
Global Instance same_uploaded_removed : AllowsRemoved same_uploaded.
Proof. by intros ??. Qed.
Global Instance same_uploaded_unchanged : AllowsUnchanged same_uploaded.
Proof. by intros ??. Qed.
Global Instance same_uploaded_error : AllowsError same_uploaded.
Proof. by intros ??. Qed.

Lemma errors_grow_preorder : PreOrder errors_grow.
Proof.
  split.
  - intros s. exists []. by rewrite app_nil_r.
  - intros s1 s2 s3 [l1 H1] [l2 H2]. exists (l1 ++ l2). rewrite app_assoc. congruence.
Qed.

Lemma errors_grow_same s s' : stats s' = stats s → errors_grow s s'.
Proof. intros H. unfold errors_grow. rewrite H. exists []. by rewrite app_nil_r. Qed.

Global Instance errors_grow_frame : Frame errors_grow :=
  Build_Frame errors_grow (fun _ => True) errors_grow_preorder
    (fun _ _ _ => errors_grow_same _ _ eq_refl) (fun _ _ _ => errors_grow_same _ _ eq_refl)
    (fun _ _ => errors_grow_same _ _ eq_refl).
Global Instance errors_grow_remote : AllowsRemote errors_grow.
Proof. intros ??. by apply errors_grow_same. Qed.
Global Instance errors_grow_uploaded : AllowsUploaded errors_grow.
Proof. intros ??. exists []. by rewrite app_nil_r. Qed.
Global Instance errors_grow_removed : AllowsRemoved errors_grow.
Proof. intros ??. exists []. by rewrite app_nil_r. Qed.
Global Instance errors_grow_unchanged : AllowsUnchanged errors_grow.
Proof. intros ??. exists []. by rewrite app_nil_r. Qed.
Global Instance errors_grow_error : AllowsError errors_grow.
Proof. intros msg s. by exists [msg]. Qed.

(** ** The upload decision *)

Lemma fold_M_ok {A B} (body : A → B → M B) (P : B → Prop) (Q : relation state)
    `{!PreOrder Q} (xs : list A) (b : B) (s : state) :
  (∀ x b s, x ∈ xs → P b → ∃ b' s', body x b s = (Ok b', s') ∧ P b' ∧ Q s s') →
  P b → ∃ b' s', fold_M body xs b s = (Ok b', s') ∧ P b' ∧ Q s s'.
Proof.
  revert b s. induction xs as [|x xs IH]; intros b s Hbody Hb.
  - exists b, s. by repeat split.
  - destruct (Hbody x b s) as (b1 & s1 & H1 & Hb1 & Q1); [left|done|].
    destruct (IH b1 s1) as (b2 & s2 & H2 & Hb2 & Q2); [|done|].
    { intros y b' s' Hy. apply Hbody. by right. }
    exists b2, s2. cbn [fold_M]. unfold bind. rewrite H1. split; [done|].
    split; [done|]. by etrans.
Qed.

Lemma assign_hash_lookup lh p m :
  p ≠ "__proto__" → assign_hash lh p m !! p = lh !! p.
Proof.
  intros Hp. unfold assign_hash, Js.get. destruct (lh !! p) as [h|].
  - by apply Js_set_lookup_eq.
  - destruct (bool_decide _); apply lookup_delete_eq.
Qed.

Lemma assign_hash_lookup_ne lh p q m : p ≠ q → assign_hash lh p m !! q = m !! q.
Proof.
  intros Hne. unfold assign_hash.
  destruct (Js.get lh p); by rewrite ?lookup_delete_ne, ?Js_set_lookup_ne.
Qed.

Lemma assign_hash_get lh p m :
  lh !! "__proto__" = None → Js.get (assign_hash lh p m) p = Js.get lh p.
Proof.
  intros Hlh. destruct (decide (p = "__proto__")) as [->|Hp].
  - unfold assign_hash. rewrite (Js_get_proto lh Hlh).
    apply Js_get_proto, lookup_delete_eq.
  - apply Js_get_same. by apply assign_hash_lookup.
Qed.

Lemma assign_hash_get_ne lh p q m :
  p ≠ q → Js.get (assign_hash lh p m) q = Js.get m q.
Proof. intros Hne. apply Js_get_same. by apply assign_hash_lookup_ne. Qed.

Lemma assign_hash_no_proto lh p m :
  m !! "__proto__" = None → assign_hash lh p m !! "__proto__" = None.
Proof.
  intros Hm. unfold assign_hash. destruct (Js.get lh p).
  - destruct (decide (p = "__proto__")) as [->|Hp];
      [apply lookup_delete_eq | by rewrite lookup_delete_ne].
  - by apply Js_set_no_proto.
  - destruct (decide (p = "__proto__")) as [->|Hp];
      [apply lookup_delete_eq | by rewrite lookup_delete_ne].
Qed.

Lemma upload_one_other cfg lh p q h m s :
  q ≠ p →
  ∃ m' s', upload_one cfg lh (q, h) m s = (Ok m', s') ∧
           m' !! p = m !! p ∧ untouched p s s'.
Proof.
  intros Hne.
  assert (Hfr : untouched p s (snd (upload_one cfg lh (q, h) m s))).
  { apply (pr_upload_one (untouched p) cfg). intros _. by split; cbn. }
  destruct (upload_one_cases cfg lh q h m s)
    as [[_ Hr]|[(_ & _ & Hr)|[(_ & _ & e & s1 & _ & Hr)|
        [(_ & _ & s1 & e & s2 & _ & _ & Hr)|(_ & _ & s1 & s2 & _ & _ & Hr)]]]];
    rewrite Hr in Hfr |- *; eexists _, _; (split; [reflexivity|]); split;
    try done; by apply assign_hash_lookup_ne.
Qed.

Lemma upload_phase_other cfg lh p files m s :
  p ∉ (fst <$> files) →
  ∃ m' s', upload_phase cfg lh files m s = (Ok m', s') ∧
           m' !! p = m !! p ∧ untouched p s s'.
Proof.
  intros Hp. unfold upload_phase.
  destruct (fold_M_ok (upload_one cfg lh) (fun m' => m' !! p = m !! p) (untouched p)
              files m s) as (m' & s' & H & Hm & Hu); [|done|by exists m', s'].
  intros [q h] m0 s0 Hq Hm0.
  destruct (upload_one_other cfg lh p q h m0 s0) as (m1 & s1 & H1 & Hm1 & Hu1).
  { intros ->. apply Hp. apply list_elem_of_fmap. by exists (p, h). }
  exists m1, s1. split; [done|]. split; [congruence|done].
Qed.

Lemma stats_grow_unchanged s s' x :
  stats_grow s s' → x ∈ unchanged (stats s) → x ∈ unchanged (stats s').
Proof. intros (_ & _ & [l ->] & _) Hx. apply elem_of_app. by left. Qed.

Lemma stats_grow_uploaded s s' x :
  stats_grow s s' → x ∈ uploaded (stats s) → x ∈ uploaded (stats s').
Proof. intros ([l ->] & _) Hx. apply elem_of_app. by left. Qed.

Lemma stats_grow_errors s s' x :
  stats_grow s s' → x ∈ errors (stats s) → x ∈ errors (stats s').
Proof. intros (_ & _ & _ & [l ->]) Hx. apply elem_of_app. by left. Qed.

Lemma upload_phase_at cfg lh files p h :
  NoDup (fst <$> files) → (p, h) ∈ files → lh !! p = Some h → p ≠ "__proto__" →
  ∀ m s, ∃ m' s', upload_phase cfg lh files m s = (Ok m', s') ∧
                  upload_outcome cfg p h m m' s s'.
Proof.
  intros Hnd Hin Hlh Hproto. induction files as [|[q hq] files IH]; [by apply elem_of_nil in Hin|].
  intros m s. rewrite fmap_cons in Hnd. apply NoDup_cons in Hnd as [Hq Hnd].
  apply elem_of_cons in Hin as [Heq|Hin].
  - injection Heq as <- <-. cbn [fst] in Hq.
    unfold upload_phase. cbn [fold_M]. unfold bind.
    assert (Hstep : ∃ m1 s1, upload_one cfg lh (p, h) m s = (Ok m1, s1) ∧
              upload_outcome cfg p h m m1 s s1) .
    { destruct (upload_one_cases cfg lh p h m s)
        as [[Hm Hr]|[(Hm & _ & Hr)|[(Hm & Hd & e & s1 & _ & Hr)|
           [(Hm & Hd & s1 & e & s2 & _ & _ & Hr)|(Hm & _ & s1 & s2 & _ & _ & Hr)]]]];
        rewrite Hr; eexists _, _; (split; [reflexivity|]);
        rewrite (Js_get_own _ _ _ Hlh), Js_get_Str in Hm; split;
        try done; intros Hne.
      - split; [cbn; apply elem_of_app; right; by left|]. split; [|done].
        apply allows_unchanged.
      - left. split; [cbn; apply elem_of_app; right; by left|].
        by rewrite assign_hash_lookup.
      - right. split; [done|]. split; [|done]. exists e.
        cbn. apply elem_of_app. right. by left.
      - right. split; [done|]. split; [|done]. exists e.
        cbn. apply elem_of_app. right. by left.
      - left. split; [cbn; apply elem_of_app; right; by left|].
        by rewrite assign_hash_lookup. }
    destruct Hstep as (m1 & s1 & -> & Hout1 & Hout2).
    destruct (upload_phase_other cfg lh p files m1 s1 Hq) as (m' & s' & Hr & Hm' & Hu).
    unfold upload_phase in Hr. rewrite Hr. exists m', s'. split; [done|].
    destruct Hu as [Htr Hgr]. split.
    + intros Hm. destruct (Hout1 Hm) as (A & B & C).
      split; [by eapply stats_grow_unchanged|]. split; [|congruence].
      etrans; [exact B|]. by split.
    + intros Hm. destruct (Hout2 Hm) as [[A B]|(A & [e B] & C)].
      * left. split; [by eapply stats_grow_uploaded | congruence].
      * right. split; [done|]. split; [|congruence]. exists e.
        by eapply stats_grow_errors.
  - assert (q ≠ p) as Hne.
    { intros ->. apply Hq. apply list_elem_of_fmap. by exists (p, h). }
    destruct (upload_one_other cfg lh p q hq m s Hne) as (m1 & s1 & H1 & Hm1 & Hu1).
    destruct (IH Hnd Hin m1 s1) as (m' & s' & Hr & Hout1 & Hout2).
    exists m', s'. unfold upload_phase in *. cbn [fold_M]. unfold bind.
    rewrite H1, Hr. split; [done|]. rewrite Hm1 in Hout1, Hout2. split.
    + intros Hm. destruct (Hout1 Hm) as (A & B & C). split; [done|]. split; [|done].
      by etrans.
    + intros Hm. destruct (Hout2 Hm) as [[A B]|(A & B & C)]; [by left|].
      right. split; [done|]. split; [done|]. congruence.
Qed.

(** ** The clean phase leaves local paths alone *)

Lemma orphanedFiles_spec lh R q :
  q ∈ orphanedFiles lh R ↔ q ∈ R ∧ Js.is_truthy (Js.get lh q) = false.
Proof.
  unfold orphanedFiles. rewrite list_elem_of_In, filter_In, <- list_elem_of_In.
  by rewrite negb_true_iff.
Qed.

Lemma filesToRemove_spec cfg l q :
  q ∈ filesToRemove cfg l ↔ q ∈ l ∧ shouldPreserve cfg q = false.
Proof.
  unfold filesToRemove. rewrite list_elem_of_In, filter_In, <- list_elem_of_In.
  by rewrite negb_true_iff.
Qed.

Lemma preservedFiles_spec cfg l q :
  q ∈ preservedFiles cfg l ↔ q ∈ l ∧ shouldPreserve cfg q = true.
Proof.
  unfold preservedFiles. by rewrite list_elem_of_In, filter_In, <- list_elem_of_In.
Qed.

Lemma keep_preserved_other (l : list string) (m : gmap string string) (p : string) :
  p ∉ l → keep_preserved l m !! p = m !! p.
Proof.
  unfold keep_preserved. revert m. induction l as [|q l IH]; intros m Hp; [done|].
  apply not_elem_of_cons in Hp as [Hne Hp]. cbn [fold_left]. rewrite IH by done.
  destruct (negb _); [by rewrite Js_set_lookup_ne|done].
Qed.

Lemma remove_one_other cfg f p m s :
  f ≠ p →
  ∃ m' s', remove_one cfg f m s = (Ok m', s') ∧ m' !! p = m !! p ∧ untouched p s s'.
Proof.
  intros Hne.
  assert (Hfr : untouched p s (snd (remove_one cfg f m s))).
  { apply (pr_remove_one (untouched p) cfg (untouched_reads p)). by intros _ ?. }
  destruct (remove_one_cases cfg f m s)
    as [[_ Hr]|[(_ & e & s1 & _ & Hr)|(_ & s1 & _ & Hr)]];
    rewrite Hr in Hfr |- *; eexists _, _; (split; [reflexivity|]); split;
    try done; by apply lookup_delete_ne.
Qed.

Lemma clean_phase_other cfg lh R m s p :
  Js.is_truthy (Js.get lh p) = true →
  ∃ m' s', clean_phase cfg lh R m s = (Ok m', s') ∧
           m' !! p = m !! p ∧ untouched p s s'.
Proof.
  intros Hp. unfold clean_phase. destruct R as [R|]; [|by exists m, s].
  destruct (_ && _); [|by exists m, s].
  set (orph := orphanedFiles lh R).
  assert (Hno : p ∉ orph).
  { intros [_ H]%orphanedFiles_spec. congruence. }
  destruct (fold_M_ok (remove_one cfg)
              (fun m' => m' !! p = m !! p) (untouched p)
              (filesToRemove cfg orph) (keep_preserved (preservedFiles cfg orph) m) s)
    as (m1 & s1 & H1 & Hm1 & Hu1).
  { intros f m0 s0 Hf Hm0.
    destruct (remove_one_other cfg f p m0 s0) as (m2 & s2 & H2 & Hm2 & Hu2).
    { intros ->. apply Hno. by apply filesToRemove_spec in Hf as [? _]. }
    exists m2, s2. split; [done|]. split; [congruence|done]. }
  { apply keep_preserved_other. intros [? _]%preservedFiles_spec. done. }
  unfold bind. rewrite H1.
  assert (Hprune : untouched p s1
            (snd ((if (0 <? length (filesToRemove cfg orph))%nat
                   then removeEmptyDirectories_root cfg else ret tt) s1))).
  { apply (pr_if (untouched p)); [|apply (pr_ret (untouched p))].
    apply (pr_removeEmptyDirectories_root (untouched p) cfg (untouched_reads p)).
    by intros _ d ?. }
  assert (Hnt : never_throws (if (0 <? length (filesToRemove cfg orph))%nat
                   then removeEmptyDirectories_root cfg else ret tt)).
  { apply nt_if; [apply nt_removeEmptyDirectories_root | apply nt_ret]. }
  destruct (Hnt s1) as [[] Hok].
  destruct ((if (0 <? length (filesToRemove cfg orph))%nat
             then removeEmptyDirectories_root cfg else ret tt) s1) as [[[]|?] s2];
    [|done]. cbn in *.
  exists m1, s2. split; [done|]. split; [done|]. by etrans.
Qed.







(** ** The clean phase *)

Lemma client_remove_stats f s : stats (snd (client_remove f s)) = stats s.
Proof. unfold client_remove. apply call_stats. Qed.

Lemma executeWithRetry_remove_stats cfg f s :
  stats (snd (executeWithRetry cfg (client_remove f) s)) = stats s.
Proof. apply executeWithRetry_stats. intros s0. apply client_remove_stats. Qed.

(** What the removal loop records, deletion by deletion. *)
Lemma remove_loop_spec cfg (fs : list string) :
  ∀ (m : gmap string string) (s : state),
  ∃ m' s' new,
    fold_M (remove_one cfg) fs m s = (Ok m', s') ∧
    removed (stats s') = removed (stats s) ++ new ∧
    uploaded (stats s') = uploaded (stats s) ∧
    unchanged (stats s') = unchanged (stats s) ∧
    (∀ q, q ∈ new → q ∈ fs ∧ m' !! q = None) ∧
    (∀ q, q ∉ fs → m' !! q = m !! q) ∧
    (∀ q, m !! q = None → m' !! q = None) ∧
    (∀ q, q ∈ fs → q ∈ new ∨ ∃ e, remove_message q e ∈ errors (stats s')) ∧
    (dry_run cfg = true → new = fs) ∧
    (errors (stats s') = errors (stats s) → new = fs) ∧
    errors_grow s s'.
Proof.
  induction fs as [|f fs IH]; intros m s.
  - exists m, s, []. rewrite app_nil_r.
    repeat split; try done; try (intros q Hq; by apply elem_of_nil in Hq);
      try match goal with H : _ ∈ [] |- _ => by apply elem_of_nil in H end.
    all: try (exists []; by rewrite app_nil_r).
  - cbn [fold_M]. unfold bind.
    destruct (remove_one_cases cfg f m s)
      as [[Hdry Hr]|[(Hdry & e & s1 & Hex & Hr)|(Hdry & s1 & Hex & Hr)]]; rewrite Hr.
    + destruct (IH (delete f m) (snd (push_removed f s)))
        as (m' & s' & new & H & Hrem & Hupl & Hunc & Hnew & Hother & Hnone & Hall & Hd & He & Hg).
      exists m', s', (f :: new). rewrite H. split; [done|].
      split; [rewrite Hrem; cbn; by rewrite <- app_assoc|].
      split; [done|]. split; [done|]. split; [|split; [|split; [|split; [|split; [|split]]]]].
      * intros q [->|Hq]%elem_of_cons.
        -- split; [left|]. apply Hnone. apply lookup_delete_eq.
        -- destruct (Hnew q Hq). split; [by right|done].
      * intros q [Hne Hq]%not_elem_of_cons. rewrite Hother by done.
        by apply lookup_delete_ne.
      * intros q Hq. apply Hnone. rewrite lookup_delete_None. by right.
      * intros q [->|Hq]%elem_of_cons; [left; left|].
        destruct (Hall q Hq) as [?|?]; [left; by right | by right].
      * intros Hd'. by rewrite Hd.
      * intros He'. by rewrite He.
      * done.
    + assert (Hs1 : stats s1 = stats s).
      { replace s1 with (snd (executeWithRetry cfg (client_remove f) s)) by (by rewrite Hex).
        apply executeWithRetry_remove_stats. }
      destruct (IH m (snd (push_error (remove_message f e) s1)))
        as (m' & s' & new & H & Hrem & Hupl & Hunc & Hnew & Hother & Hnone & Hall & Hd & He & Hg).
      cbn in Hrem, Hupl, Hunc. rewrite Hs1 in Hrem, Hupl, Hunc.
      destruct Hg as [l Hl]. cbn in Hl. rewrite Hs1 in Hl.
      exists m', s', new. rewrite H. split; [done|]. split; [done|].
      split; [done|]. split; [done|]. split; [|split; [|split; [|split; [|split; [|split]]]]].
      * intros q Hq. destruct (Hnew q Hq). split; [by right|done].
      * intros q [Hne Hq]%not_elem_of_cons. by apply Hother.
      * done.
      * intros q [->|Hq]%elem_of_cons; [|by apply Hall].
        right. exists e. rewrite Hl. apply elem_of_app. left. apply elem_of_app. right. by left.
      * congruence.
      * intros He'. rewrite Hl in He'. rewrite <- app_assoc in He'.
        rewrite <- (app_nil_r (errors (stats s))) in He' at 2.
        by apply app_inv_head in He'.
      * exists ([remove_message f e] ++ l). by rewrite Hl, app_assoc.
    + assert (Hs1 : stats s1 = stats s).
      { replace s1 with (snd (executeWithRetry cfg (client_remove f) s)) by (by rewrite Hex).
        apply executeWithRetry_remove_stats. }
      destruct (IH (delete f m) (snd (push_removed f s1)))
        as (m' & s' & new & H & Hrem & Hupl & Hunc & Hnew & Hother & Hnone & Hall & Hd & He & Hg).
      cbn in Hrem, Hupl, Hunc, He. rewrite Hs1 in Hrem, Hupl, Hunc, He.
      destruct Hg as [l Hl]. cbn in Hl. rewrite Hs1 in Hl.
      exists m', s', (f :: new). rewrite H. split; [done|].
      split; [rewrite Hrem; by rewrite <- app_assoc|].
      split; [done|]. split; [done|]. split; [|split; [|split; [|split; [|split; [|split]]]]].
      * intros q [->|Hq]%elem_of_cons.
        -- split; [left|]. apply Hnone. apply lookup_delete_eq.
        -- destruct (Hnew q Hq). split; [by right|done].
      * intros q [Hne Hq]%not_elem_of_cons. rewrite Hother by done.
        by apply lookup_delete_ne.
      * intros q Hq. apply Hnone. rewrite lookup_delete_None. by right.
      * intros q [->|Hq]%elem_of_cons; [left; left|].
        destruct (Hall q Hq) as [?|?]; [left; by right | by right].
      * congruence.
      * intros He'. by rewrite He.
      * by exists l.
Qed.



Lemma keep_preserved_no_proto (l : list string) (m : gmap string string) :
  m !! "__proto__" = None → keep_preserved l m !! "__proto__" = None.
Proof.
  unfold keep_preserved. revert m. induction l as [|x l IH]; intros m Hm; [done|].
  cbn [fold_left]. apply IH. destruct (negb _); [by apply Js_set_no_proto|done].
Qed.

(** [localHashes] answers with a falsy value exactly for the names that are
    neither a local path nor a member of [Object.prototype]. *)
Lemma fold_set_empty_hash (files : list (string * string)) (q : string) :
  ∀ acc : gmap string string,
    fold_left (fun m f => Js.set (fst f) (snd f) m) files acc !! q = Some "" →
    acc !! q = Some "" ∨ ∃ f, f ∈ files ∧ snd f = "".
Proof.
  induction files as [|[x hx] files IH]; intros acc H; [by left|].
  cbn [fold_left] in H. destruct (IH _ H) as [H'|(f & Hf & Hs)].
  - cbn [fst snd] in H'. destruct (decide (x = q)) as [->|?].
    + destruct (decide (acc !! q = Some "")) as [?|Hacc]; [by left|].
      right. exists (q, hx). split; [left|]. cbn.
      revert H'. unfold Js.set. destruct (acc !! q) eqn:Hq.
      * rewrite lookup_insert_eq. congruence.
      * destruct (String.eqb q "__proto__"); [congruence|].
        rewrite lookup_insert_eq. congruence.
    + rewrite Js_set_lookup_ne in H' by done. by left.
  - right. exists f. split; [by right|done].
Qed.

Lemma falsy_local files q :
  Forall (fun f => snd f ≠ "") files →
  Js.is_truthy (Js.get (build_localHashes files) q) = false ↔
  (q ∉ (fst <$> files)) ∧ (q ∉ Js.prototype_members).
Proof.
  intros Hne.
  assert (Hno : build_localHashes files !! q ≠ Some "").
  { intros Hh. destruct (fold_set_empty_hash files q ∅ Hh) as [H|(f & Hf & Hs)]; [done|].
    rewrite Forall_forall in Hne. by apply (Hne f). }
  split.
  - intros Hf. destruct (Js_falsy_not_member _ _ Hf) as [Hm|?]; [|done].
    split; [|done]. intros Hin.
    assert (Hq : q ≠ "__proto__").
    { intros ->. apply Hm. apply (bool_decide_unpack _). by vm_compute. }
    destruct (build_localHashes_is_Some files q Hin Hq) as [h Hh].
    rewrite (Js_get_own _ _ _ Hh) in Hf. cbn in Hf.
    apply negb_false_iff, String.eqb_eq in Hf as ->. done.
  - intros [Hq Hm]. apply Js_falsy_missing; [|done]. by apply build_localHashes_notin.
Qed.




Lemma removeEmptyDirectories_root_stats cfg s :
  stats (snd (removeEmptyDirectories_root cfg s)) = stats s.
Proof. by apply (pr_removeEmptyDirectories_root same_stats cfg). Qed.

(** C5. The orphan set is not the remote listing minus the local paths: a
    remote file whose name is a member of [Object.prototype] is never an
    orphan, because [!localHashes[remotePath]] reads the inherited member.
    In clean mode, with [constructor] and [old.txt] on the server and
    neither among the local files (and no preserve entry), the run removes
    [old.txt] only and [constructor] is still on the server at the end. *)
Lemma clean_phase_prototype_name :
  let cfg := with_clean true sample_config in
  let t := [("constructor", RFile (Blob "h9")); ("old.txt", RFile (Blob "h0"))] in
  let r := deploy cfg (inr sample_files) (initial t reliable) in
  fst (getRemoteFiles_root (initial t reliable)) = Ok ["constructor"; "old.txt"] ∧
  ("constructor" ∉ (fst <$> sample_files)) ∧
  shouldPreserve cfg "constructor" = false ∧
  orphanedFiles (build_localHashes sample_files) ["constructor"; "old.txt"] = ["old.txt"] ∧
  fst r = Ok {| uploaded := ["a.txt"; "b.txt"]; removed := ["old.txt"];
                unchanged := []; errors := [] |} ∧
  node_at ["constructor"] (remote (snd r)) = Some (RFile (Blob "h9")) ∧
  node_at ["old.txt"] (remote (snd r)) = None.
Proof.
  cbv zeta. split; [by vm_compute|]. split.
  { apply (bool_decide_unpack _). by vm_compute. }
  repeat split; by vm_compute.
Qed.

#[local] Arguments wf_tree : simpl never.
#[local] Arguments files_of : simpl never.
#[local] Arguments wf_node : simpl never.
#[local] Arguments all_paths : simpl never.

(** ** Paths and their text *)

Lemma split_slash_nonempty (s : string) : split_slash s ≠ [].
Proof.
  induction s as [|c s IH]; simpl; [done|].
  destruct (Ascii.eqb c "/"); [done|]. by destruct (split_slash s).
Qed.

Lemma split_slash_no_slash (s : string) :
  Forall (fun seg => mentions "/" seg = false) (split_slash s).
Proof.
  induction s as [|c s IH]; simpl; [by repeat constructor|].
  destruct (Ascii.eqb c "/") eqn:Hc; [by constructor|].
  pose proof (split_slash_nonempty s).
  destruct (split_slash s) as [|h t]; [done|].
  apply Forall_cons in IH as [Hh Ht]. constructor; [|done].
  cbn [mentions]. rewrite Hh, orb_false_r. destruct (Ascii.eqb_spec "/" c); [|done].
  subst. by rewrite Ascii.eqb_refl in Hc.
Qed.

Lemma concat_split_slash (s : string) : String.concat "/" (split_slash s) = s.
Proof.
  induction s as [|c s IH]; [done|]. cbn [split_slash].
  pose proof (split_slash_nonempty s) as Hne.
  destruct (Ascii.eqb_spec c "/") as [->|Hc].
  - destruct (split_slash s) as [|h t]; [done|].
    change (String.concat "/" ("" :: h :: t))
      with ("" +:+ "/" +:+ String.concat "/" (h :: t)).
    by rewrite IH.
  - destruct (split_slash s) as [|h t]; [done|]. destruct t as [|h' t'].
    + cbn in IH |- *. by rewrite IH.
    + change (String.concat "/" (String c h :: h' :: t'))
        with (String c h +:+ "/" +:+ String.concat "/" (h' :: t')).
      change (String.concat "/" (h :: h' :: t'))
        with (h +:+ "/" +:+ String.concat "/" (h' :: t')) in IH.
      rewrite <- IH. reflexivity.
Qed.

Lemma split_slash_app (a b : string) :
  mentions "/" a = false →
  split_slash (a +:+ "/" +:+ b) = a :: split_slash b.
Proof.
  induction a as [|c a IH]; cbn [mentions]; [done|].
  intros [Hc Ha]%orb_false_iff.
  change (String c a +:+ "/" +:+ b) with (String c (a +:+ "/" +:+ b)).
  cbn [split_slash]. rewrite Ascii.eqb_sym, Hc. by rewrite IH.
Qed.

Lemma split_slash_plain (a : string) :
  mentions "/" a = false → split_slash a = [a].
Proof.
  induction a as [|c a IH]; cbn [mentions]; [done|].
  intros [Hc Ha]%orb_false_iff.
  cbn [split_slash]. rewrite Ascii.eqb_sym, Hc. by rewrite IH.
Qed.

Lemma split_concat (segs : list string) :
  segs ≠ [] → Forall (fun seg => mentions "/" seg = false) segs →
  split_slash (String.concat "/" segs) = segs.
Proof.
  induction segs as [|a segs IH]; [done|]. intros _ [Ha Hs]%Forall_cons.
  destruct segs as [|b segs]; [by apply split_slash_plain|].
  cbn [String.concat]. rewrite split_slash_app by done. f_equal. by apply IH.
Qed.

Lemma rel_join_nonempty (d name : string) : d ≠ "" → rel_join d name = d +:+ "/" +:+ name.
Proof. intros Hd. unfold rel_join. by destruct (String.eqb_spec d ""). Qed.

Lemma rel_join_ne (d name : string) : name ≠ "" → rel_join d name ≠ "".
Proof.
  intros Hn. unfold rel_join. destruct (String.eqb_spec d ""); [done|].
  destruct d; [done|]. simpl. discriminate.
Qed.

Lemma join_path_nonempty_dir (d : string) (segs : list string) :
  d ≠ "" → segs ≠ [] → join_path d segs = d +:+ "/" +:+ String.concat "/" segs.
Proof.
  revert d. induction segs as [|a segs IH]; [done|]. intros d Hd _.
  unfold join_path in *. cbn [fold_left]. rewrite (rel_join_nonempty d a Hd).
  destruct segs as [|b segs]; [done|].
  rewrite IH; [|by destruct d|done].
  cbn [String.concat]. by rewrite !append_assoc.
Qed.

Lemma join_path_root (segs : list string) :
  segs ≠ [] → hd "" segs ≠ "" → join_path "" segs = String.concat "/" segs.
Proof.
  destruct segs as [|a segs]; [done|]. intros _ Ha. cbn [hd] in Ha.
  unfold join_path. cbn [fold_left]. change (rel_join "" a) with a.
  destruct segs as [|b segs]; [done|].
  by apply (join_path_nonempty_dir a (b :: segs)).
Qed.

(** The text of a path of proper names splits back into those names. *)
Lemma split_join_path (segs : list string) :
  segs ≠ [] → Forall name_ok segs → split_slash (join_path "" segs) = segs.
Proof.
  intros Hne Hok. rewrite join_path_root; [|done|].
  - apply split_concat; [done|]. eapply Forall_impl; [exact Hok|]. by intros ? [_ ?].
  - destruct segs as [|a segs]; [done|]. by apply Forall_cons in Hok as [[? _] _].
Qed.

(** A local path without empty segment is the text of its own segments. *)
Lemma join_split_path (p : string) :
  wf_local_path p → join_path "" (split_slash p) = p.
Proof.
  intros Hp. rewrite join_path_root.
  - apply concat_split_slash.
  - apply split_slash_nonempty.
  - pose proof (split_slash_nonempty p). unfold wf_local_path in Hp.
    destruct (split_slash p); [done|]. by apply Forall_cons in Hp as [? _].
Qed.

Lemma wf_local_path_names (p : string) :
  wf_local_path p → Forall name_ok (split_slash p).
Proof.
  intros Hp. pose proof (split_slash_no_slash p) as Hs.
  unfold wf_local_path in Hp. rewrite Forall_forall in *. intros x Hx.
  split; [by apply Hp | by apply Hs].
Qed.

(** ** Listings of a tree *)

Lemma all_paths_dir (es : rdir) :
  all_paths (RDir es) = mjoin (entry_paths <$> es).
Proof.
  induction es as [|[name item] es IH]; [done|].
  change (all_paths (RDir ((name, item) :: es)))
    with (entry_paths (name, item) ++ all_paths (RDir es)).
  by rewrite IH.
Qed.

Lemma wf_node_dir (es : rdir) :
  wf_node (RDir es) ↔
  NoDup (fst <$> es) ∧ Forall (fun e => name_ok (fst e) ∧ wf_node (snd e)) es.
Proof.
  change (fst <$> es) with (map fst es).
  cbn [wf_node]. apply and_iff_compat_l.
  induction es as [|[name item] es IH]; [by split; [constructor|]|].
  rewrite Forall_cons, <- IH. cbn [fst snd]. tauto.
Qed.

Lemma all_paths_names (n : rnode) :
  wf_node n → ∀ segs, segs ∈ all_paths n → segs ≠ [] ∧ Forall name_ok segs.
Proof.
  induction n as [c|es IH|] using rnode_nested_ind; intros Hwf segs Hin;
    [by apply elem_of_nil in Hin| |by apply elem_of_nil in Hin].
  apply wf_node_dir in Hwf as [_ Hwf]. rewrite all_paths_dir in Hin.
  apply list_elem_of_join in Hin as (l & Hin & Hl).
  apply list_elem_of_fmap in Hl as ([name item] & -> & He).
  rewrite Forall_forall in IH, Hwf.
  specialize (IH _ He). destruct (Hwf _ He) as [Hname Hitem]. cbn [fst snd] in *.
  unfold entry_paths in Hin. cbn [fst snd] in Hin.
  destruct (is_dot name); [by apply elem_of_nil in Hin|].
  destruct item as [c|sub|]; [| |by apply elem_of_nil in Hin].
  - destruct (negb _); [|by apply elem_of_nil in Hin].
    apply list_elem_of_singleton in Hin as ->. split; [done|].
    constructor; [done|constructor].
  - apply list_elem_of_fmap in Hin as (segs' & -> & Hs).
    destruct (IH Hitem _ Hs) as [_ Hok]. split; [done|]. by constructor.
Qed.

(** ** Server operations on a well-formed tree *)

Lemma lookup_entry_None (name : string) (es : rdir) :
  lookup_entry name es = None ↔ name ∉ (fst <$> es).
Proof.
  induction es as [|[n x] es IH]; cbn [lookup_entry].
  - split; [intros _; apply not_elem_of_nil|done].
  - rewrite fmap_cons, not_elem_of_cons. cbn [fst].
    destruct (String.eqb_spec n name) as [->|Hne]; [split; [done|by intros [? _]]|].
    rewrite IH. split; [by intros ?; split|by intros [_ ?]].
Qed.

(** [update_entry] acts on the first entry called [name], and only there. *)
Lemma update_entry_split (name : string) (f : rnode → option (option rnode))
    (es es' : rdir) :
  update_entry name f es = Some es' →
  ∃ pre x post,
    es = pre ++ (name, x) :: post ∧ (name ∉ (fst <$> pre)) ∧
    ((f x = Some None ∧ es' = pre ++ post) ∨
     (∃ x', f x = Some (Some x') ∧ es' = pre ++ (name, x') :: post)).
Proof.
  revert es'. induction es as [|[n x] es IH]; intros es'; simpl; [done|].
  destruct (String.eqb_spec n name) as [->|Hne].
  - destruct (f x) as [[x'|]|] eqn:Hf; [| |done]; intros [= <-];
      exists [], x, es; (split; [done|]); (split; [apply not_elem_of_nil|]).
    + right. by exists x'.
    + by left.
  - destruct (update_entry name f es) as [es0|]; [|done]. intros [= <-].
    destruct (IH es0 eq_refl) as (pre & y & post & -> & Hpre & Hcase).
    exists ((n, x) :: pre), y, post. split; [done|]. split.
    { rewrite fmap_cons, not_elem_of_cons. by split. }
    destruct Hcase as [[Hf ->]|(x' & Hf & ->)]; [by left|right; by exists x'].
Qed.

Lemma elem_of_all_paths_dir (es : rdir) (segs : list string) :
  segs ∈ all_paths (RDir es) ↔ ∃ e, e ∈ es ∧ segs ∈ entry_paths e.
Proof.
  rewrite all_paths_dir, list_elem_of_join. split.
  - intros (l & Hin & Hl). apply list_elem_of_fmap in Hl as (e & -> & He). by exists e.
  - intros (e & He & Hin). exists (entry_paths e). split; [done|].
    apply list_elem_of_fmap. by exists e.
Qed.

Lemma entry_paths_head (e : string * rnode) (segs : list string) :
  segs ∈ entry_paths e → ∃ rest, segs = fst e :: rest.
Proof.
  unfold entry_paths. destruct (is_dot (fst e)); [by intros ?%elem_of_nil|].
  destruct (snd e) as [c|sub|]; [| |by intros ?%elem_of_nil].
  - destruct (negb _); [|by intros ?%elem_of_nil].
    intros ->%list_elem_of_singleton. by exists [].
  - intros (rest & -> & _)%list_elem_of_fmap. by exists rest.
Qed.

Lemma entry_paths_file (name : string) (c c' : fcontent) :
  entry_paths (name, RFile c) = entry_paths (name, RFile c').
Proof. done. Qed.

Lemma entry_paths_file_sub (name : string) (c : fcontent) (segs : list string) :
  segs ∈ entry_paths (name, RFile c) → segs = [name].
Proof.
  unfold entry_paths. cbn [fst snd]. destruct (is_dot name); [by intros ?%elem_of_nil|].
  destruct (negb _); [|by intros ?%elem_of_nil]. by intros ->%list_elem_of_singleton.
Qed.

Lemma entry_paths_dir (name : string) (sub : rdir) (segs : list string) :
  segs ∈ entry_paths (name, RDir sub) ↔
  is_dot name = false ∧ ∃ rest, segs = name :: rest ∧ rest ∈ all_paths (RDir sub).
Proof.
  unfold entry_paths. cbn [fst snd]. destruct (is_dot name).
  - split; [by intros ?%elem_of_nil|by intros [? _]].
  - rewrite list_elem_of_fmap. split; [by intros ?|by intros [_ ?]].
Qed.

Lemma NoDup_names_unique (pre post : rdir) (name : string) (x : rnode) (e : string * rnode) :
  NoDup (fst <$> (pre ++ (name, x) :: post)) →
  e ∈ pre ++ (name, x) :: post → fst e = name → e = (name, x).
Proof.
  rewrite fmap_app, fmap_cons. cbn [fst]. intros Hnd He Hfst.
  apply NoDup_app in Hnd as (_ & Hpre & Hpost). apply NoDup_cons in Hpost as [Hpost _].
  apply elem_of_app in He as [He|He].
  - exfalso. apply (Hpre name); [|left]. rewrite <- Hfst. by apply list_elem_of_fmap_2.
  - apply elem_of_cons in He as [->|He]; [done|].
    exfalso. apply Hpost. rewrite <- Hfst. by apply list_elem_of_fmap_2.
Qed.

Lemma wf_dir_replace (pre post : rdir) (name : string) (x x' : rnode) :
  wf_node (RDir (pre ++ (name, x) :: post)) → wf_node x' →
  wf_node (RDir (pre ++ (name, x') :: post)).
Proof.
  rewrite !wf_node_dir, !fmap_app, !fmap_cons, !Forall_app, !Forall_cons. cbn [fst snd].
  intros (Hnd & Hpre & [Hname _] & Hpost) Hx'.
  split; [done|]. split; [done|]. split; [by split|done].
Qed.

Lemma wf_dir_delete (pre post : rdir) (name : string) (x : rnode) :
  wf_node (RDir (pre ++ (name, x) :: post)) → wf_node (RDir (pre ++ post)).
Proof.
  rewrite !wf_node_dir, !fmap_app, !fmap_cons, !Forall_app, !Forall_cons. cbn [fst snd].
  intros (Hnd & Hpre & _ & Hpost). split; [|by split].
  apply NoDup_app in Hnd as (H1 & H2 & H3). apply NoDup_cons in H3 as [_ H3].
  apply NoDup_app. split; [done|]. split; [|done].
  intros y Hy Hy'. apply (H2 y Hy). by right.
Qed.

Lemma wf_dir_entry (pre post : rdir) (name : string) (x : rnode) :
  wf_node (RDir (pre ++ (name, x) :: post)) → name_ok name ∧ wf_node x.
Proof.
  rewrite wf_node_dir, Forall_app, Forall_cons. by intros (_ & _ & ? & _).
Qed.

Lemma wf_dir_snoc (es : rdir) (name : string) (x : rnode) :
  wf_node (RDir es) → name ∉ (fst <$> es) → name_ok name → wf_node x →
  wf_node (RDir (es ++ [(name, x)])).
Proof.
  rewrite !wf_node_dir, fmap_app, Forall_app. cbn. intros [Hnd Hall] Hfresh Hname Hx.
  split; [|split; [done|constructor; [by split|constructor]]].
  apply NoDup_app. split; [done|]. split; [|apply NoDup_singleton].
  intros y Hy ->%list_elem_of_singleton. done.
Qed.

(** Deleting a file takes exactly its path out of the tree. *)
Lemma tree_remove_paths (segs : list string) :
  ∀ es es', wf_node (RDir es) → tree_remove segs es = Some es' →
    wf_node (RDir es') ∧
    (segs ∉ all_paths (RDir es')) ∧
    ∀ x, x ∈ all_paths (RDir es') → x ∈ all_paths (RDir es).
Proof.
  induction segs as [|name rest IH]; intros es es' Hwf Hrm; [done|].
  destruct rest as [|name' rest'].
  - cbn [tree_remove] in Hrm.
    apply update_entry_split in Hrm as (pre & x & post & -> & Hpre & Hcase).
    destruct Hcase as [[Hf ->]|(x' & Hf & _)]; [|by destruct x].
    split; [by eapply wf_dir_delete|]. split.
    + intros (e & He & Hin)%elem_of_all_paths_dir.
      apply entry_paths_head in Hin as (r & [= Hfst _]).
      apply wf_node_dir in Hwf as [Hnd _].
      assert (e = (name, x)) as ->.
      { eapply NoDup_names_unique; [exact Hnd| |done].
        apply elem_of_app in He as [?|?]; apply elem_of_app; [by left|right; by right]. }
      rewrite fmap_app, fmap_cons in Hnd. cbn [fst] in Hnd.
      apply NoDup_app in Hnd as (_ & H2 & H3). apply NoDup_cons in H3 as [H3 _].
      apply elem_of_app in He as [He|He].
      * apply (H2 name); [|left]. by apply (list_elem_of_fmap_2 fst) in He.
      * apply H3. by apply (list_elem_of_fmap_2 fst) in He.
    + intros y (e & He & Hin)%elem_of_all_paths_dir. apply elem_of_all_paths_dir.
      exists e. split; [|done].
      apply elem_of_app in He as [?|?]; apply elem_of_app; [by left|right; by right].
  - change (tree_remove (name :: name' :: rest') es)
      with (update_entry name
              (fun x => match x with
                        | RDir sub => (fun sub' => Some (RDir sub')) <$> tree_remove (name' :: rest') sub
                        | _ => None
                        end) es) in Hrm.
    apply update_entry_split in Hrm as (pre & x & post & -> & Hpre & Hcase).
    destruct x as [c|sub|]; [by destruct Hcase as [[? _]|(? & ? & _)]| |
                             by destruct Hcase as [[? _]|(? & ? & _)]].
    destruct (tree_remove (name' :: rest') sub) as [sub'|] eqn:Hsub;
      [|by destruct Hcase as [[? _]|(? & ? & _)]].
    destruct Hcase as [[[=] _]|(x' & [= <-] & ->)].
    destruct (wf_dir_entry _ _ _ _ Hwf) as [Hname Hwsub].
    destruct (IH sub sub' Hwsub Hsub) as (Hwf' & Hnot & Hsubset).
    split; [by eapply wf_dir_replace|]. split.
    + intros (e & He & Hin)%elem_of_all_paths_dir.
      pose proof (entry_paths_head _ _ Hin) as (r & [= Hfst _]).
      assert (Hwf2 : wf_node (RDir (pre ++ (name, RDir sub') :: post)))
        by (by eapply wf_dir_replace).
      apply wf_node_dir in Hwf2 as [Hnd _].
      assert (e = (name, RDir sub')) as -> by (by eapply NoDup_names_unique).
      apply entry_paths_dir in Hin as (_ & r' & [= <-] & Hr). done.
    + intros y (e & He & Hin)%elem_of_all_paths_dir. apply elem_of_all_paths_dir.
      apply elem_of_app in He as [He|He].
      { exists e. split; [apply elem_of_app; by left|done]. }
      apply elem_of_cons in He as [->|He].
      * exists (name, RDir sub). split; [apply elem_of_app; right; left|].
        apply entry_paths_dir in Hin as (Hdot & r' & -> & Hr).
        apply entry_paths_dir. split; [done|]. exists r'. split; [done|]. by apply Hsubset.
      * exists e. split; [apply elem_of_app; right; by right|done].
Qed.

Lemma all_paths_mkdirs (segs : list string) : all_paths (RDir (mkdirs segs)) = [].
Proof.
  induction segs as [|name rest IH]; [done|].
  cbn [mkdirs]. rewrite all_paths_dir. cbn. unfold entry_paths. cbn [fst snd].
  destruct (is_dot name); [done|]. rewrite IH. done.
Qed.

Lemma wf_mkdirs (segs : list string) : Forall name_ok segs → wf_node (RDir (mkdirs segs)).
Proof.
  induction segs as [|name rest IH]; intros Hok; [by split; [constructor|]|].
  apply Forall_cons in Hok as [Hname Hrest]. cbn [mkdirs]. apply wf_node_dir.
  split; [apply NoDup_singleton|]. constructor; [|constructor]. split; [done|by apply IH].
Qed.

(** Creating directories adds no file. *)
Lemma tree_ensureDir_paths (segs : list string) :
  ∀ es es', wf_node (RDir es) → Forall name_ok segs →
    tree_ensureDir segs es = Some es' →
    wf_node (RDir es') ∧ ∀ x, x ∈ all_paths (RDir es') → x ∈ all_paths (RDir es).
Proof.
  induction segs as [|name rest IH]; intros es es' Hwf Hok Hen.
  - cbn in Hen. by injection Hen as <-.
  - apply Forall_cons in Hok as [Hname Hrest]. cbn [tree_ensureDir] in Hen.
    destruct (lookup_entry name es) as [x0|] eqn:Hl.
    + apply update_entry_split in Hen as (pre & x & post & -> & Hpre & Hcase).
      destruct x as [c|sub|]; [by destruct Hcase as [[? _]|(? & ? & _)]| |
                               by destruct Hcase as [[? _]|(? & ? & _)]].
      destruct (tree_ensureDir rest sub) as [sub'|] eqn:Hsub;
        [|by destruct Hcase as [[? _]|(? & ? & _)]].
      destruct Hcase as [[[=] _]|(x' & [= <-] & ->)].
      destruct (wf_dir_entry _ _ _ _ Hwf) as [_ Hwsub].
      destruct (IH sub sub' Hwsub Hrest Hsub) as (Hwf' & Hsubset).
      split; [by eapply wf_dir_replace|].
      intros y (e & He & Hin)%elem_of_all_paths_dir. apply elem_of_all_paths_dir.
      apply elem_of_app in He as [He|He].
      { exists e. split; [apply elem_of_app; by left|done]. }
      apply elem_of_cons in He as [->|He].
      * exists (name, RDir sub). split; [apply elem_of_app; right; left|].
        apply entry_paths_dir in Hin as (Hdot & r' & -> & Hr).
        apply entry_paths_dir. split; [done|]. exists r'. split; [done|]. by apply Hsubset.
      * exists e. split; [apply elem_of_app; right; by right|done].
    + injection Hen as <-. apply lookup_entry_None in Hl. split.
      * apply wf_dir_snoc; [done..|]. by apply wf_mkdirs.
      * intros y (e & He & Hin)%elem_of_all_paths_dir. apply elem_of_all_paths_dir.
        apply elem_of_app in He as [He|He]; [by exists e|].
        apply list_elem_of_singleton in He as ->.
        apply entry_paths_dir in Hin as (_ & r' & _ & Hr).
        rewrite all_paths_mkdirs in Hr. by apply elem_of_nil in Hr.
Qed.

(** Storing a file adds at most its own path. *)
Lemma tree_upload_paths (segs : list string) (c : fcontent) :
  ∀ es es', wf_node (RDir es) → Forall name_ok segs →
    tree_upload segs c es = Some es' →
    wf_node (RDir es') ∧
    ∀ x, x ∈ all_paths (RDir es') → x ∈ all_paths (RDir es) ∨ x = segs.
Proof.
  induction segs as [|name rest IH]; intros es es' Hwf Hok Hup; [done|].
  apply Forall_cons in Hok as [Hname Hrest].
  destruct rest as [|name' rest'].
  - cbn [tree_upload] in Hup. destruct (lookup_entry name es) as [x0|] eqn:Hl.
    + apply update_entry_split in Hup as (pre & x & post & -> & Hpre & Hcase).
      destruct x as [c0|sub|]; [|by destruct Hcase as [[? _]|(? & ? & _)]..].
      destruct Hcase as [[[=] _]|(x' & [= <-] & ->)].
      split; [by eapply wf_dir_replace|].
      intros y (e & He & Hin)%elem_of_all_paths_dir.
      apply elem_of_app in He as [He|He].
      { left. apply elem_of_all_paths_dir. exists e. split; [apply elem_of_app; by left|done]. }
      apply elem_of_cons in He as [->|He].
      * right. by eapply entry_paths_file_sub.
      * left. apply elem_of_all_paths_dir. exists e.
        split; [apply elem_of_app; right; by right|done].
    + injection Hup as <-. apply lookup_entry_None in Hl. split.
      * by apply wf_dir_snoc.
      * intros y (e & He & Hin)%elem_of_all_paths_dir.
        apply elem_of_app in He as [He|He].
        { left. apply elem_of_all_paths_dir. by exists e. }
        apply list_elem_of_singleton in He as ->. right. by eapply entry_paths_file_sub.
  - change (tree_upload (name :: name' :: rest') c es)
      with (update_entry name
              (fun x => match x with
                        | RDir sub => (fun sub' => Some (RDir sub')) <$> tree_upload (name' :: rest') c sub
                        | _ => None
                        end) es) in Hup.
    apply update_entry_split in Hup as (pre & x & post & -> & Hpre & Hcase).
    destruct x as [c0|sub|]; [by destruct Hcase as [[? _]|(? & ? & _)]| |
                              by destruct Hcase as [[? _]|(? & ? & _)]].
    destruct (tree_upload (name' :: rest') c sub) as [sub'|] eqn:Hsub;
      [|by destruct Hcase as [[? _]|(? & ? & _)]].
    destruct Hcase as [[[=] _]|(x' & [= <-] & ->)].
    destruct (wf_dir_entry _ _ _ _ Hwf) as [_ Hwsub].
    destruct (IH sub sub' Hwsub Hrest Hsub) as (Hwf' & Hsubset).
    split; [by eapply wf_dir_replace|].
    intros y (e & He & Hin)%elem_of_all_paths_dir.
    apply elem_of_app in He as [He|He].
    { left. apply elem_of_all_paths_dir. exists e. split; [apply elem_of_app; by left|done]. }
    apply elem_of_cons in He as [->|He].
    * apply entry_paths_dir in Hin as (Hdot & r' & -> & Hr).
      destruct (Hsubset r' Hr) as [Hold| ->]; [left|by right].
      apply elem_of_all_paths_dir. exists (name, RDir sub).
      split; [apply elem_of_app; right; left|].
      apply entry_paths_dir. split; [done|]. by exists r'.
    * left. apply elem_of_all_paths_dir. exists e.
      split; [apply elem_of_app; right; by right|done].
Qed.

(** ** Listing and pruning on the tree *)

Lemma same_remote_preorder : PreOrder same_remote.
Proof. split; [by intros ?|]. intros ??? H1 H2. unfold same_remote in *. congruence. Qed.

Global Instance same_remote_frame : Frame same_remote :=
  Build_Frame same_remote (fun _ => True) same_remote_preorder
    (fun _ _ _ => eq_refl) (fun _ _ _ => eq_refl) (fun _ _ => eq_refl).
Global Instance same_remote_uploaded : AllowsUploaded same_remote.
Proof. by intros ??. Qed.
Global Instance same_remote_removed : AllowsRemoved same_remote.
Proof. by intros ??. Qed.
Global Instance same_remote_unchanged : AllowsUnchanged same_remote.
Proof. by intros ??. Qed.
Global Instance same_remote_error : AllowsError same_remote.
Proof. by intros ??. Qed.

Lemma reliable_net_preserved {A} (m : M A) s :
  preserves same_net m → reliable_net s → reliable_net (snd (m s)).
Proof. intros Hm Hs k. rewrite (Hm s). apply Hs. Qed.

Lemma query_reliable ev s :
  reliable_net s → query ev s = (Ok tt, tick (log_event ev s)).
Proof. intros Hs. unfold query, call. by rewrite Hs. Qed.

(** With a network that never fails the recursive listing reports every
    deployable file of the tree. *)
Lemma getRemoteFiles_reliable (n : rnode) :
  ∀ remoteDir s, reliable_net s →
    fst (getRemoteFiles remoteDir n s) = Ok (join_path remoteDir <$> all_paths n).
Proof.
  induction n as [c|es IH|] using rnode_nested_ind; intros remoteDir s Hs;
    cbn [getRemoteFiles]; unfold try_catch, bind.
  - rewrite (query_reliable _ _ Hs). reflexivity.
  - rewrite (query_reliable _ _ Hs).
    assert (Hs1 : reliable_net (tick (log_event (EvList remoteDir) s))) by exact Hs.
    revert Hs1. generalize (tick (log_event (EvList remoteDir) s)). clear s Hs.
    set (scan := fix scan (items : rdir) : M (list string) := _).
    assert (Hscan : ∀ s, reliable_net s →
              fst (scan es s) = Ok (join_path remoteDir <$> all_paths (RDir es))).
    { induction es as [|[name item] es IHes]; intros s Hs; [done|].
      apply Forall_cons in IH as [Hitem Hes]. specialize (IHes Hes).
      change (all_paths (RDir ((name, item) :: es)))
        with (entry_paths (name, item) ++ all_paths (RDir es)).
      rewrite fmap_app. unfold entry_paths. cbn [fst snd scan].
      destruct (is_dot name); [by apply IHes|].
      destruct item as [c|sub|]; [| |by apply IHes].
      - destruct (negb _); [|by apply IHes].
        unfold bind. specialize (IHes s Hs).
        destruct (scan es s) as [[fs|?] s1]; [|done]. cbn in *. by injection IHes as ->.
      - unfold bind. cbn [snd] in Hitem.
        pose proof (Hitem (rel_join remoteDir name) s Hs) as Hsub.
        pose proof (reliable_net_preserved _ s
                      (pr_getRemoteFiles same_net (RDir sub) (fun _ => I)
                         (rel_join remoteDir name)) Hs) as Hs1.
        destruct (getRemoteFiles (rel_join remoteDir name) (RDir sub) s) as [[sf|?] s1];
          [|done]. cbn in Hsub, Hs1. injection Hsub as ->.
        specialize (IHes s1 Hs1). destruct (scan es s1) as [[fs|?] s2]; [|done].
        cbn in *. injection IHes as ->. f_equal. f_equal.
        rewrite <- list_fmap_compose. done. }
    intros s Hs. specialize (Hscan s Hs). by destruct (scan es s) as [[fs|?] s1].
  - rewrite (query_reliable _ _ Hs). reflexivity.
Qed.

Lemma getRemoteFiles_root_reliable s :
  reliable_net s → fst (getRemoteFiles_root s) = Ok (files_of (remote s)).
Proof. intros Hs. by apply getRemoteFiles_reliable. Qed.

(** A directory stays a directory, or is removed. *)
Lemma removeEmptyDirectories_dir cfg remoteDir preserveRoot es s n' s' :
  removeEmptyDirectories cfg remoteDir preserveRoot (RDir es) s = (Ok (Some n'), s') →
  ∃ es', n' = RDir es'.
Proof.
  cbn [removeEmptyDirectories]. unfold bind at 1.
  destruct (try_catch _ _ s) as [[listed|e] s1]; [|done].
  destruct listed; cbn [negb]; [|intros [= <- <-]; by eexists].
  set (each := fix each (items : rdir) : M rdir := _).
  unfold bind at 1. destruct (each es s1) as [[es'|?] s2]; [|done].
  unfold bind at 1. destruct (try_catch _ _ s2) as [[relisted|e] s3]; [|done].
  destruct relisted; cbn [negb]; [|intros [= <- <-]; by eexists].
  repeat case_match; try (intros [= <- <-]; by eexists).
  unfold try_catch, bind. destruct (query _ s3) as [[[]|?] ?]; [done|].
  intros [= <- <-]; by eexists.
Qed.

(** Pruning empty directories removes no deployable file. *)
Lemma removeEmptyDirectories_paths cfg (n : rnode) :
  ∀ remoteDir preserveRoot s n' s',
    removeEmptyDirectories cfg remoteDir preserveRoot n s = (Ok (Some n'), s') →
    ∀ x, x ∈ all_paths n' → x ∈ all_paths n.
Proof.
  induction n as [c|es IH|] using rnode_nested_ind;
    intros remoteDir preserveRoot s n' s'; [by intros [= <- <-]| |by intros [= <- <-]].
  cbn [removeEmptyDirectories]. unfold bind at 1.
  destruct (try_catch _ _ s) as [[listed|e] s1]; [|done].
  destruct listed; cbn [negb]; [|by intros [= <- <-]].
  set (each := fix each (items : rdir) : M rdir := _).
  assert (Heach : ∀ s es' s', each es s = (Ok es', s') →
            ∀ x, x ∈ all_paths (RDir es') → x ∈ all_paths (RDir es)).
  { clear s s1 s' n'. induction es as [|[name item] es IHes]; intros s es' s'.
    { by intros [= <- <-]. }
    apply Forall_cons in IH as [Hitem Hes]. specialize (IHes Hes).
    assert (Hkeep : (let! rest' := each es in ret ((name, item) :: rest')) s = (Ok es', s') →
              ∀ x, x ∈ all_paths (RDir es') → x ∈ all_paths (RDir ((name, item) :: es))).
    { unfold bind. destruct (each es s) as [[r|?] s1] eqn:Hr; [|done].
      intros [= <- <-] x (e & He & Hin)%elem_of_all_paths_dir. apply elem_of_all_paths_dir.
      apply elem_of_cons in He as [->|He]; [exists (name, item); split; [left|done]|].
      assert (x ∈ all_paths (RDir es)) as (e' & He' & Hin')%elem_of_all_paths_dir.
      { eapply IHes; [done|]. apply elem_of_all_paths_dir. by exists e. }
      exists e'. split; [by right|done]. }
    cbn [each]. destruct item as [c|sub|]; [done| |done].
    destruct (is_dot name); [done|].
    destruct (shouldPreserve cfg (rel_join remoteDir name)); [done|].
    unfold bind at 1. cbn [snd] in Hitem.
    destruct (removeEmptyDirectories cfg (rel_join remoteDir name) false (RDir sub) s)
      as [[r|?] s1] eqn:Hsub; [|done].
    unfold bind. destruct (each es s1) as [[rest'|?] s2] eqn:Hr; [|done].
    intros [= <- <-] x (e & He & Hin)%elem_of_all_paths_dir. apply elem_of_all_paths_dir.
    assert (Hrest : ∀ e, e ∈ rest' → x ∈ entry_paths e →
              ∃ e', e' ∈ (name, RDir sub) :: es ∧ x ∈ entry_paths e').
    { intros e0 He0 Hin0.
      assert (x ∈ all_paths (RDir es)) as (e' & He' & Hin')%elem_of_all_paths_dir.
      { eapply IHes; [done|]. apply elem_of_all_paths_dir. by exists e0. }
      exists e'. split; [by right|done]. }
    destruct r as [item'|]; [|by eapply Hrest].
    apply elem_of_cons in He as [->|He]; [|by eapply Hrest].
    exists (name, RDir sub). split; [left|].
    specialize (Hitem _ _ _ _ _ Hsub).
    revert Hin. unfold entry_paths. cbn [fst snd]. destruct (is_dot name); [done|].
    destruct (removeEmptyDirectories_dir _ _ _ _ _ _ _ Hsub) as [sub' ->].
    intros (r' & -> & Hr')%list_elem_of_fmap. apply list_elem_of_fmap.
    exists r'. split; [done|]. by apply Hitem. }
  unfold bind at 1. destruct (each es s1) as [[es'|?] s2] eqn:He; [|done].
  specialize (Heach _ _ _ He).
  unfold bind at 1. destruct (try_catch _ _ s2) as [[relisted|e] s3]; [|done].
  destruct relisted; cbn [negb]; [|by intros [= <- <-]].
  repeat case_match; try (by intros [= <- <-]).
  unfold try_catch, bind. destruct (query _ s3) as [[[]|?] ?]; [done|]. by intros [= <- <-].
Qed.

Lemma removeEmptyDirectories_root_paths cfg s :
  ∀ x, x ∈ all_paths (RDir (remote (snd (removeEmptyDirectories_root cfg s)))) →
       x ∈ all_paths (RDir (remote s)).
Proof.
  intros x. unfold removeEmptyDirectories_root.
  pose proof (pr_removeEmptyDirectories same_remote cfg (RDir (remote s))
                (fun _ => I) (fun _ _ => I) "" true s) as Hfr.
  destruct (removeEmptyDirectories cfg "" true (RDir (remote s)) s) as [[r|?] s'] eqn:Hr;
    cbn in Hfr |- *; [|by rewrite Hfr].
  destruct r as [n'|]; [|cbn; by rewrite Hfr].
  destruct (removeEmptyDirectories_dir _ _ _ _ _ _ _ Hr) as [es' ->]. cbn.
  by apply (removeEmptyDirectories_paths cfg _ _ _ _ _ _ Hr).
Qed.

(** ** What a real run does to the tree *)

(** A retried call changes the tree exactly as its successful attempt
    does, and not at all when every attempt fails. *)
Lemma retry_loop_call {A} cfg ev (op : rdir → error + A * rdir) retries fuel :
  ∀ attempt s,
    match retry_loop cfg (call ev op) retries fuel attempt s with
    | (Ok a, s') => ∃ t', op (remote s) = inr (a, t') ∧ remote s' = t'
    | (Throw _, s') => remote s' = remote s
    end.
Proof.
  induction fuel as [|fuel IH]; intros attempt s; [done|].
  cbn [retry_loop]. unfold try_catch at 1.
  destruct (call_outcome ev op s) as [[e ->]|(a & t & Hop & _ & ->)]; [|by exists t].
  destruct (_ && _); [|done].
  set (s1 := tick (log_event ev s)).
  set (pause := sleep (or_default (retry_delay cfg) 1000) >>
                try_catch reconnect_session
                  (fun _ => if (attempt =? retries)%Z then throw e else ret tt)).
  assert (Hpause : same_remote s1 (snd (pause s1))).
  { apply (pr_bind same_remote); [by apply (pr_sleep same_remote)|]. intros _.
    apply (pr_try_catch same_remote); [by apply (pr_reconnect_session same_remote)|].
    intros _. apply (pr_if same_remote); [apply (pr_throw same_remote) | apply (pr_ret same_remote)]. }
  change (match (let! _ := pause in retry_loop cfg (call ev op) retries fuel (attempt + 1)%Z) s1 with
          | (Ok a, s') => ∃ t', op (remote s) = inr (a, t') ∧ remote s' = t'
          | (Throw _, s') => remote s' = remote s
          end).
  unfold bind. destruct (pause s1) as [[[]|?] s2]; cbn in Hpause; [|done].
  specialize (IH (attempt + 1)%Z s2). unfold same_remote in Hpause.
  rewrite Hpause in IH. exact IH.
Qed.

Lemma executeWithRetry_call {A} cfg ev (op : rdir → error + A * rdir) s :
  match executeWithRetry cfg (call ev op) s with
  | (Ok a, s') => ∃ t', op (remote s) = inr (a, t') ∧ remote s' = t'
  | (Throw _, s') => remote s' = remote s
  end.
Proof. apply retry_loop_call. Qed.

Lemma executeWithRetry_positive {A} cfg (operation : M A) s a s' :
  executeWithRetry cfg operation s = (Ok a, s') → (0 < or_default (max_retries cfg) 3)%Z.
Proof.
  unfold executeWithRetry, executeWithRetry_n.
  destruct (Z.to_nat (or_default (max_retries cfg) 3)) eqn:Hn; [done|lia].
Qed.

(** Storing the manifest changes no listing. *)
Lemma tree_upload_manifest_paths (c : fcontent) (t t' : rdir) :
  tree_upload [HASH_FILE_NAME] c t = Some t' →
  all_paths (RDir t') = all_paths (RDir t).
Proof.
  cbn [tree_upload]. destruct (lookup_entry HASH_FILE_NAME t) as [x0|] eqn:Hl.
  - intros (pre & x & post & -> & Hpre & Hcase)%update_entry_split.
    destruct x as [c0|sub|]; [|by destruct Hcase as [[? _]|(? & ? & _)]..].
    destruct Hcase as [[[=] _]|(x' & [= <-] & ->)].
    by rewrite !all_paths_dir, !fmap_app, !fmap_cons.
  - intros [= <-]. rewrite !all_paths_dir, fmap_app, join_app. cbn.
    by rewrite !app_nil_r.
Qed.

Lemma files_of_elem (t : rdir) (r : string) :
  r ∈ files_of t ↔ ∃ x, x ∈ all_paths (RDir t) ∧ r = join_path "" x.
Proof.
  unfold files_of. rewrite list_elem_of_fmap. split; intros (x & ? & ?); by exists x.
Qed.

(** On a well-formed tree a path that was deleted is no longer listed. *)
Lemma tree_remove_files (f : string) (t t' : rdir) :
  wf_tree t → tree_remove (split_slash f) t = Some t' →
  wf_tree t' ∧ (f ∉ files_of t') ∧ ∀ r, r ∈ files_of t' → r ∈ files_of t.
Proof.
  intros Hwf Hrm.
  destruct (tree_remove_paths (split_slash f) t t' Hwf Hrm) as (Hwf' & Hnot & Hsub).
  split; [done|]. split.
  - intros (x & Hx & ->)%files_of_elem. apply Hnot.
    destruct (all_paths_names _ Hwf' x Hx) as [Hne Hok].
    by rewrite split_join_path.
  - intros r (x & Hx & ->)%files_of_elem. apply files_of_elem. exists x.
    split; [by apply Hsub|done].
Qed.

Lemma removelast_Forall {A} (P : A → Prop) (l : list A) :
  Forall P l → Forall P (removelast l).
Proof.
  induction l as [|a l IH]; [done|]. intros [Ha Hl]%Forall_cons.
  cbn [removelast]. destruct l; [constructor|]. constructor; [done|by apply IH].
Qed.

(** Creating the directory of a local path and storing the file there adds
    at most that path to the listing. *)
Lemma tree_ensureDir_files (p : string) (t t' : rdir) :
  wf_tree t → wf_local_path p →
  tree_ensureDir (removelast (split_slash p)) t = Some t' →
  wf_tree t' ∧ ∀ r, r ∈ files_of t' → r ∈ files_of t.
Proof.
  intros Hwf Hp Hen.
  destruct (tree_ensureDir_paths _ t t' Hwf
              (removelast_Forall _ _ (wf_local_path_names p Hp)) Hen) as [Hwf' Hsub].
  split; [done|].
  intros r (x & Hx & ->)%files_of_elem. apply files_of_elem. exists x.
  split; [by apply Hsub|done].
Qed.

Lemma tree_upload_files (p : string) (c : fcontent) (t t' : rdir) :
  wf_tree t → wf_local_path p →
  tree_upload (split_slash p) c t = Some t' →
  wf_tree t' ∧ ∀ r, r ∈ files_of t' → r ∈ files_of t ∨ r = p.
Proof.
  intros Hwf Hp Hup.
  destruct (tree_upload_paths _ c t t' Hwf (wf_local_path_names p Hp) Hup) as [Hwf' Hsub].
  split; [done|].
  intros r (x & Hx & ->)%files_of_elem.
  destruct (Hsub x Hx) as [Hold| ->].
  - left. apply files_of_elem. by exists x.
  - right. by apply join_split_path.
Qed.

Lemma grows_by_preorder L : PreOrder (grows_by L).
Proof.
  split.
  - intros s Hwf. split; [done|]. intros r ?. by left.
  - intros s1 s2 s3 H12 H23 Hwf. destruct (H12 Hwf) as [Hwf2 Hs2].
    destruct (H23 Hwf2) as [Hwf3 Hs3]. split; [done|].
    intros r Hr. destruct (Hs3 r Hr) as [?|?]; [by apply Hs2|by right].
Qed.

Lemma grows_by_same_remote L s s' : remote s' = remote s → grows_by L s s'.
Proof. intros H Hwf. rewrite H. split; [done|]. intros r ?. by left. Qed.

Global Instance grows_by_frame L : Frame (grows_by L) :=
  Build_Frame (grows_by L) (fun _ => True) (grows_by_preorder L)
    (fun _ _ _ => grows_by_same_remote L _ _ eq_refl)
    (fun _ _ _ => grows_by_same_remote L _ _ eq_refl)
    (fun _ _ => grows_by_same_remote L _ _ eq_refl).
Global Instance grows_by_uploaded L : AllowsUploaded (grows_by L).
Proof. intros ??. by apply grows_by_same_remote. Qed.
Global Instance grows_by_removed L : AllowsRemoved (grows_by L).
Proof. intros ??. by apply grows_by_same_remote. Qed.
Global Instance grows_by_unchanged L : AllowsUnchanged (grows_by L).
Proof. intros ??. by apply grows_by_same_remote. Qed.
Global Instance grows_by_error L : AllowsError (grows_by L).
Proof. intros ??. by apply grows_by_same_remote. Qed.

Lemma no_new_files_preorder : PreOrder no_new_files.
Proof.
  split; [by intros s r|]. intros s1 s2 s3 H12 H23 r Hr. by apply H12, H23.
Qed.

Lemma no_new_files_same_remote s s' : remote s' = remote s → no_new_files s s'.
Proof. intros H r. by rewrite H. Qed.

Global Instance no_new_files_frame : Frame no_new_files :=
  Build_Frame no_new_files (fun _ => True) no_new_files_preorder
    (fun _ _ _ => no_new_files_same_remote _ _ eq_refl)
    (fun _ _ _ => no_new_files_same_remote _ _ eq_refl)
    (fun _ _ => no_new_files_same_remote _ _ eq_refl).
Global Instance no_new_files_error : AllowsError no_new_files.
Proof. intros ??. by apply no_new_files_same_remote. Qed.

(** The tree after a call that asks the server for [f]. *)
Lemma call_tree (ev : event) (msg : string) (f : rdir → option rdir) (s : state) :
  let r := call ev (fun t => of_option msg (pair tt <$> f t)) s in
  (∃ e, fst r = Throw e ∧ remote (snd r) = remote s) ∨
  (fst r = Ok tt ∧ f (remote s) = Some (remote (snd r))).
Proof.
  cbv zeta.
  destruct (call_outcome ev (fun t => of_option msg (pair tt <$> f t)) s)
    as [[e ->]|(a & t & Hop & _ & ->)]; [left; by exists e|right].
  destruct a. split; [done|]. cbn. destruct (f (remote s)); cbn in Hop; by simplify_eq.
Qed.

Lemma pr_upload_one_grows cfg lh p h m L :
  p ∈ L → wf_local_path p → preserves (grows_by L) (upload_one cfg lh (p, h) m).
Proof.
  intros HpL Hp s.
  destruct (upload_one_cases cfg lh p h m s)
    as [[_ ->]|[(_ & _ & ->)|[(_ & _ & e & s1 & H1 & ->)|
        [(_ & _ & s1 & e & s2 & H1 & H2 & ->)|(_ & _ & s1 & s2 & H1 & H2 & ->)]]]];
    try (by apply grows_by_same_remote).
  - apply grows_by_same_remote. cbn.
    destruct (call_tree (EvEnsureDir p) "Not a directory"
                (tree_ensureDir (removelast (split_slash p))) s) as [(e' & _ & Hr)|[Hok _]];
      fold (client_ensureDir p s) in *; rewrite H1 in *; [done|done].
  - assert (Hens : grows_by L s s1).
    { destruct (call_tree (EvEnsureDir p) "Not a directory"
                  (tree_ensureDir (removelast (split_slash p))) s) as [(e' & Hf & _)|[_ Hr]];
        fold (client_ensureDir p s) in *; rewrite H1 in *; [done|]. cbn in Hr.
      intros Hwf. destruct (tree_ensureDir_files p _ _ Hwf Hp Hr) as [Hwf' Hsub].
      split; [done|]. intros r Hr'. left. by apply Hsub. }
    etrans; [exact Hens|]. apply grows_by_same_remote. cbn.
    destruct (call_tree (EvUploadFrom (Blob h) p) "Cannot store file"
                (tree_upload (split_slash p) (Blob h)) s1) as [(e' & _ & Hr)|[Hok _]];
      fold (client_uploadFrom (Blob h) p s1) in *; rewrite H2 in *; [done|done].
  - assert (Hens : grows_by L s s1).
    { destruct (call_tree (EvEnsureDir p) "Not a directory"
                  (tree_ensureDir (removelast (split_slash p))) s) as [(e' & Hf & _)|[_ Hr]];
        fold (client_ensureDir p s) in *; rewrite H1 in *; [done|]. cbn in Hr.
      intros Hwf. destruct (tree_ensureDir_files p _ _ Hwf Hp Hr) as [Hwf' Hsub].
      split; [done|]. intros r Hr'. left. by apply Hsub. }
    etrans; [exact Hens|].
    assert (Hupl : grows_by L s1 s2).
    { destruct (call_tree (EvUploadFrom (Blob h) p) "Cannot store file"
                  (tree_upload (split_slash p) (Blob h)) s1) as [(e' & Hf & _)|[_ Hr]];
        fold (client_uploadFrom (Blob h) p s1) in *; rewrite H2 in *; [done|]. cbn in Hr.
      intros Hwf. destruct (tree_upload_files p _ _ _ Hwf Hp Hr) as [Hwf' Hsub].
      split; [done|]. intros r Hr'. destruct (Hsub r Hr') as [?| ->]; [by left|by right]. }
    etrans; [exact Hupl|]. by apply grows_by_same_remote.
Qed.

Lemma upload_phase_grows cfg lh files m :
  Forall (fun f => wf_local_path (fst f)) files →
  preserves (grows_by (fst <$> files)) (upload_phase cfg lh files m).
Proof.
  intros Hwf. apply (pr_fold_M (grows_by (fst <$> files))). intros [p h] m0 Hin.
  apply pr_upload_one_grows.
  - by apply (list_elem_of_fmap_2 fst) in Hin.
  - rewrite Forall_forall in Hwf. by apply (Hwf (p, h)).
Qed.

Lemma no_new_errors_step s s1 s2 :
  errors_grow s s1 → errors_grow s1 s2 →
  errors (stats s2) = errors (stats s) →
  errors (stats s1) = errors (stats s) ∧ errors (stats s2) = errors (stats s1).
Proof.
  intros [l1 H1] [l2 H2] H. rewrite H2, H1, <- app_assoc in H.
  rewrite <- (app_nil_r (errors (stats s))) in H at 2.
  apply app_inv_head, app_eq_nil in H as [-> ->].
  rewrite H2, H1. by rewrite !app_nil_r.
Qed.

Lemma snoc_ne {A} (l : list A) (x : A) : l ++ [x] ≠ l.
Proof.
  intros H. rewrite <- (app_nil_r l) in H at 2. by apply app_inv_head in H.
Qed.

Lemma client_ensureDir_stats p s : stats (snd (client_ensureDir p s)) = stats s.
Proof. unfold client_ensureDir. apply call_stats. Qed.

Lemma client_uploadFrom_stats c p s : stats (snd (client_uploadFrom c p s)) = stats s.
Proof. unfold client_uploadFrom. apply call_stats. Qed.

Lemma upload_phase_errors_grow cfg lh files m :
  preserves errors_grow (upload_phase cfg lh files m).
Proof.
  apply (pr_fold_M errors_grow). intros [p h] m0 _.
  by apply (pr_upload_one errors_grow cfg).
Qed.

(** Without a new error, the upload loop leaves every local path filed
    under its fresh hash. *)
Lemma upload_phase_no_errors cfg lh files :
  lh !! "__proto__" = None →
  ∀ m s, errors (stats (snd (upload_phase cfg lh files m s))) = errors (stats s) →
    ∃ m', fst (upload_phase cfg lh files m s) = Ok m' ∧
      (∀ p, Js.get m p = Js.get lh p → Js.get m' p = Js.get lh p) ∧
      (∀ p, p ∈ (fst <$> files) → Js.get m' p = Js.get lh p).
Proof.
  intros Hlh. induction files as [|[q h] files IH]; intros m s Herr.
  - exists m. split; [done|]. split; [done|]. by intros p ?%elem_of_nil.
  - pose proof (pr_upload_one errors_grow cfg lh q h m (fun _ => conj I I) s) as Hstep.
    revert Herr. unfold upload_phase in *. cbn [fold_M]. unfold bind.
    destruct (upload_one_cases cfg lh q h m s)
      as [[Hm Hr]|[(Hm & _ & Hr)|[(_ & _ & e & s1 & H1 & Hr)|
          [(_ & _ & s1 & e & s2 & H1 & H2 & Hr)|(Hm & _ & s1 & s2 & H1 & H2 & Hr)]]]];
      rewrite Hr in Hstep |- *; cbn [snd] in Hstep; intros Herr;
      match type of Herr with
      | errors (stats (snd (fold_M _ _ ?m1 ?s1'))) = _ =>
          pose proof (upload_phase_errors_grow cfg lh files m1 s1') as Hrest;
          destruct (no_new_errors_step _ _ _ Hstep Hrest Herr) as [Herr1 Herr2]
      end.
    + destruct (IH m _ Herr2) as (m' & Hm' & Hkeep & Hall). exists m'.
      split; [done|]. split; [done|].
      intros p [->|Hp]%elem_of_cons; [by apply Hkeep | by apply Hall].
    + destruct (IH _ _ Herr2) as (m' & Hm' & Hkeep & Hall). exists m'.
      split; [done|]. split.
      * intros p Hp. apply Hkeep. destruct (decide (q = p)) as [->|?];
          [by rewrite assign_hash_get | by rewrite assign_hash_get_ne].
      * intros p [->|Hp]%elem_of_cons; [|by apply Hall].
        apply Hkeep. by rewrite assign_hash_get.
    + exfalso. cbn in Herr1.
      replace s1 with (snd (client_ensureDir q s)) in Herr1 by (by rewrite H1).
      rewrite client_ensureDir_stats in Herr1. by apply snoc_ne in Herr1.
    + exfalso. cbn in Herr1.
      replace s2 with (snd (client_uploadFrom (Blob h) q s1)) in Herr1 by (by rewrite H2).
      rewrite client_uploadFrom_stats in Herr1.
      replace s1 with (snd (client_ensureDir q s)) in Herr1 by (by rewrite H1).
      rewrite client_ensureDir_stats in Herr1. by apply snoc_ne in Herr1.
    + destruct (IH _ _ Herr2) as (m' & Hm' & Hkeep & Hall). exists m'.
      split; [done|]. split.
      * intros p Hp. apply Hkeep. destruct (decide (q = p)) as [->|?];
          [by rewrite assign_hash_get | by rewrite assign_hash_get_ne].
      * intros p [->|Hp]%elem_of_cons; [|by apply Hall].
        apply Hkeep. by rewrite assign_hash_get.
Qed.

Lemma remove_one_errors_grow cfg f m : preserves errors_grow (remove_one cfg f m).
Proof. exact (@pr_remove_one errors_grow errors_grow_frame _ cfg (fun _ _ => I) _ _ f m (fun _ => I)). Qed.

Lemma remove_loop_errors_grow cfg fs m :
  preserves errors_grow (fold_M (remove_one cfg) fs m).
Proof. apply (pr_fold_M errors_grow). intros. apply remove_one_errors_grow. Qed.

(** The tree after one iteration of the removal loop of a real run. *)
Lemma remove_one_tree cfg f m s :
  dry_run cfg = false → wf_tree (remote s) →
  let s' := snd (remove_one cfg f m s) in
  wf_tree (remote s') ∧
  (∀ r, r ∈ files_of (remote s') → r ∈ files_of (remote s)) ∧
  (errors (stats s') = errors (stats s) → f ∉ files_of (remote s')).
Proof.
  intros Hdry Hwf. cbv zeta.
  pose proof (executeWithRetry_call cfg (EvRemove f)
                (fun t => of_option "No such file" (pair tt <$> tree_remove (split_slash f) t)) s)
    as Hcall.
  pose proof (executeWithRetry_remove_stats cfg f s) as Hst.
  fold (client_remove f) in Hcall.
  destruct (remove_one_cases cfg f m s)
    as [[? _]|[(_ & e & s1 & Hex & ->)|(_ & s1 & Hex & ->)]]; [congruence| |];
    rewrite Hex in Hcall, Hst; cbn [snd] in *.
  - cbn. rewrite Hcall. split; [done|]. split; [done|].
    rewrite Hst. intros H. by apply snoc_ne in H.
  - destruct Hcall as (t' & Hop & Hrem). cbn.
    destruct (tree_remove (split_slash f) (remote s)) as [t0|] eqn:Hrm; [|done].
    cbn in Hop. injection Hop as <-.
    destruct (tree_remove_files f _ _ Hwf Hrm) as (Hwf' & Hnot & Hsub).
    rewrite Hrem. split; [done|]. split; [done|]. by intros _.
Qed.

Lemma remove_loop_tree cfg (fs : list string) :
  dry_run cfg = false →
  ∀ m s, wf_tree (remote s) →
    let s' := snd (fold_M (remove_one cfg) fs m s) in
    wf_tree (remote s') ∧
    (∀ r, r ∈ files_of (remote s') → r ∈ files_of (remote s)) ∧
    (errors (stats s') = errors (stats s) → ∀ f, f ∈ fs → f ∉ files_of (remote s')).
Proof.
  intros Hdry. induction fs as [|f fs IH]; intros m s Hwf; cbv zeta.
  - split; [done|]. split; [done|]. by intros _ f ?%elem_of_nil.
  - cbn [fold_M]. unfold bind.
    destruct (remove_one_tree cfg f m s Hdry Hwf) as (Hwf1 & Hsub1 & Hgone1).
    pose proof (remove_one_errors_grow cfg f m s) as Hg1.
    destruct (nt_remove_one cfg f m s) as [m1 Hok].
    destruct (remove_one cfg f m s) as [[m1'|?] s1]; [|done]. cbn in *.
    destruct (IH m1' s1 Hwf1) as (Hwf2 & Hsub2 & Hgone2).
    pose proof (remove_loop_errors_grow cfg fs m1' s1) as Hg2.
    split; [done|]. split; [by intros r Hr; apply Hsub1, Hsub2|].
    intros Herr. destruct (no_new_errors_step _ _ _ Hg1 Hg2 Herr) as [He1 He2].
    intros f' [->|Hf']%elem_of_cons.
    + intros Hin. by apply (Hgone1 He1), Hsub2.
    + by apply Hgone2.
Qed.

(** ** A run on a network that never fails *)

Lemma client_access_reliable s :
  reliable_net s →
  client_access s = (Ok tt, set_connected true (tick (log_event EvAccess s))).
Proof. intros Hs. unfold client_access, bind. by rewrite (query_reliable _ _ Hs). Qed.

(** What [gather] yields in clean mode when nothing fails: the listing of
    the whole tree, and the manifest stored on the server if there is one. *)
Lemma gather_reliable cfg files s :
  reliable_net s → clean_remote_files cfg = true → clear_destination cfg = false →
  ∃ M0 s1,
    gather cfg (inr files) s = (Ok (M0, files, Some (files_of (remote s))), s1) ∧
    remote s1 = remote s ∧ stats s1 = stats s ∧ reliable_net s1 ∧
    (∀ m, lookup_entry HASH_FILE_NAME (remote s) = Some (RFile (Json m)) →
          (0 < or_default (max_retries cfg) 3)%Z → M0 = Js.assign ∅ m).
Proof.
  intros Hs Hclean Hclear.
  set (s0 := set_connected true (tick (log_event EvAccess s))).
  assert (Hs0 : reliable_net s0) by exact Hs.
  pose proof (pr_loadRemoteHashes same_remote cfg (fun _ _ => I) s0) as Hrem.
  pose proof (pr_loadRemoteHashes same_stats cfg (fun _ _ => I) s0) as Hst.
  pose proof (reliable_net_preserved _ s0
                (pr_loadRemoteHashes same_net cfg (fun _ _ => I)) Hs0) as Hnet.
  pose proof (loadRemoteHashes_reads cfg) as Hread.
  destruct (nt_loadRemoteHashes cfg s0) as [M0 Hok].
  destruct (loadRemoteHashes cfg s0) as [[M0'|?] s1] eqn:Hload; [|done].
  cbn in Hok, Hrem, Hst, Hnet. injection Hok as ->.
  pose proof (getRemoteFiles_root_reliable s1 Hnet) as Hlist.
  pose proof (pr_getRemoteFiles_root same_remote (fun _ => I) s1) as Hrem2.
  pose proof (pr_getRemoteFiles_root same_stats (fun _ => I) s1) as Hst2.
  pose proof (reliable_net_preserved _ s1
                (pr_getRemoteFiles_root same_net (fun _ => I)) Hnet) as Hnet2.
  destruct (getRemoteFiles_root s1) as [[fs|?] s2] eqn:Hscan; [|done].
  cbn in Hlist, Hrem2, Hst2, Hnet2. injection Hlist as ->.
  unfold same_remote, same_stats in *.
  exists M0, s2. split.
  { unfold gather, bind. rewrite (client_access_reliable s Hs). fold s0.
    rewrite Hclear, Hclean. cbn [ret andb negb scan_local]. rewrite Hload.
    rewrite Hscan. by rewrite Hrem. }
  split; [by rewrite Hrem2, Hrem|]. split; [by rewrite Hst2, Hst|]. split; [done|].
  intros m Hm Hretries. specialize (Hread m s0 Hm Hs0 Hretries).
  rewrite Hload in Hread. cbn in Hread. by injection Hread.
Qed.

(** When the manifest already files every local path under its fresh hash
    the upload loop records them all as unchanged and does nothing else. *)
Lemma upload_phase_all_unchanged cfg lh files m s :
  (∀ p, p ∈ (fst <$> files) → Js.get m p = Js.get lh p) →
  ∃ s', upload_phase cfg lh files m s = (Ok m, s') ∧
        remote s' = remote s ∧ net s' = net s ∧
        uploaded (stats s') = uploaded (stats s) ∧
        removed (stats s') = removed (stats s) ∧
        errors (stats s') = errors (stats s).
Proof.
  unfold upload_phase. revert s. induction files as [|[p h] files IH]; intros s Hm.
  - by exists s.
  - cbn [fold_M]. unfold bind.
    destruct (upload_one_cases cfg lh p h m s)
      as [[_ ->]|[(Hne & _)|[(Hne & _)|[(Hne & _)|(Hne & _)]]]];
      try (exfalso; apply Hne, Hm; rewrite fmap_cons; left).
    destruct (IH (snd (push_unchanged p s))) as (s' & -> & H1 & H2 & H3 & H4 & H5).
    { intros q Hq. apply Hm. rewrite fmap_cons. by right. }
    by exists s'.
Qed.

(** ** Two runs in a row *)

Lemma errors_grow_nil s s' :
  errors_grow s s' → errors (stats s') = [] → errors (stats s) = [].
Proof. intros [l Hl] H. rewrite H in Hl. symmetry in Hl. by apply app_eq_nil in Hl as [? _]. Qed.

Lemma persist_stats cfg M s : stats (snd (persist cfg M s)) = stats s.
Proof.
  refine (@pr_persist same_stats same_stats_frame _ cfg _ M _ s); [|intros _]; by cbn.
Qed.

(** The manifest working copy never owns a property [__proto__]. *)
Lemma loadRemoteHashes_no_proto cfg s m s' :
  loadRemoteHashes cfg s = (Ok m, s') → m !! "__proto__" = None.
Proof.
  unfold loadRemoteHashes, bind.
  destruct (remoteFileExists HASH_FILE_NAME s) as [[[]|?] s1]; [| |done].
  - unfold try_catch, bind.
    destruct (executeWithRetry cfg _ s1) as [[[h|m0]|?] s2]; cbn.
    + by intros [= <- _].
    + intros [= <- _]. apply Js_assign_empty_no_proto.
    + by intros [= <- _].
  - by intros [= <- _].
Qed.

Lemma upload_phase_no_proto cfg lh files :
  ∀ m s m' s', m !! "__proto__" = None →
    upload_phase cfg lh files m s = (Ok m', s') → m' !! "__proto__" = None.
Proof.
  unfold upload_phase. induction files as [|[p h] files IH]; intros m s m' s' Hm.
  - by intros [= <- _].
  - cbn [fold_M]. unfold bind.
    destruct (upload_one_cases cfg lh p h m s)
      as [[_ ->]|[(_ & _ & ->)|[(_ & _ & e & s1 & _ & ->)|
          [(_ & _ & s1 & e & s2 & _ & _ & ->)|(_ & _ & s1 & s2 & _ & _ & ->)]]]];
      apply IH; try done; by apply assign_hash_no_proto.
Qed.

Lemma gather_no_proto cfg l s M0 lf rf s1 :
  gather cfg l s = (Ok (M0, lf, rf), s1) → M0 !! "__proto__" = None.
Proof.
  unfold gather, bind.
  destruct (client_access s) as [[[]|?] sa]; [|done].
  destruct ((if clear_destination cfg then clearDestination cfg else ret tt) sa)
    as [[[]|?] sb]; [|done].
  destruct (loadRemoteHashes cfg sb) as [[rh|?] sc] eqn:Hload; [|done].
  destruct l as [e|files]; cbn [scan_local ret throw]; [done|].
  destruct (clean_remote_files cfg && negb (clear_destination cfg)).
  - destruct (getRemoteFiles_root sc) as [[fs|?] sd]; [|done]. cbn.
    intros [= <- _ _ _]. by eapply loadRemoteHashes_no_proto.
  - cbn. intros [= <- _ _ _]. by eapply loadRemoteHashes_no_proto.
Qed.

Lemma remove_loop_no_proto cfg (fs : list string) :
  ∀ m s m' s', m !! "__proto__" = None →
    fold_M (remove_one cfg) fs m s = (Ok m', s') → m' !! "__proto__" = None.
Proof.
  induction fs as [|f fs IH]; intros m s m' s' Hm; [by intros [= <- _]|].
  cbn [fold_M]. unfold bind.
  destruct (remove_one_cases cfg f m s)
    as [[_ ->]|[(_ & e & s1 & _ & ->)|(_ & s1 & _ & ->)]];
    apply IH; try done; rewrite lookup_delete_None; by right.
Qed.

Lemma clean_phase_no_proto cfg lh rf m s m' s' :
  m !! "__proto__" = None →
  clean_phase cfg lh rf m s = (Ok m', s') → m' !! "__proto__" = None.
Proof.
  intros Hm. unfold clean_phase. destruct rf as [rf|]; [|by intros [= <- _]].
  destruct (_ && _); [|by intros [= <- _]]. cbv zeta. unfold bind.
  destruct (fold_M _ _ _ s) as [[m1|?] s1] eqn:Hloop; [|done].
  assert (Hm1 : m1 !! "__proto__" = None).
  { eapply remove_loop_no_proto; [|exact Hloop]. by apply keep_preserved_no_proto. }
  destruct (0 <? _)%nat.
  - destruct (removeEmptyDirectories_root cfg s1) as [[[]|?] s2]; [|done].
    cbn. by intros [= <- _].
  - cbn. by intros [= <- _].
Qed.

Lemma deploy_plan_no_proto cfg l s M s1 :
  deploy_plan cfg l s = (Ok M, s1) → M !! "__proto__" = None.
Proof.
  unfold deploy_plan, bind.
  destruct (gather cfg l s) as [[[[M0 lf] rf]|?] sg] eqn:Hg; [|done]. cbn [fst snd].
  destruct (upload_phase _ _ _ _ sg) as [[M1|?] su] eqn:Hup; [|done].
  apply clean_phase_no_proto. eapply upload_phase_no_proto; [|exact Hup].
  by eapply gather_no_proto.
Qed.

Lemma local_path_truthy files p :
  Forall (fun f => snd f ≠ "") files → p ∈ (fst <$> files) →
  Js.is_truthy (Js.get (build_localHashes files) p) = true.
Proof.
  intros Hhash Hp. destruct (Js.is_truthy _) eqn:Htr; [done|].
  by apply (falsy_local files p Hhash) in Htr as [? _].
Qed.

(** How [deploy] ends once the plan has been carried out. *)
Lemma deploy_after_plan cfg l s M s' :
  deploy_plan cfg l s = (Ok M, s') →
  (∃ s'', persist cfg M s' = (Ok tt, s'') ∧ stats s'' = stats s' ∧
          deploy cfg l s = (Ok (stats s''), client_close s'')) ∨
  (∃ e s'' st, persist cfg M s' = (Throw e, s'') ∧
          fst (deploy cfg l s) = Ok st ∧ st = stats (snd (deploy cfg l s)) ∧
          errors st = errors (stats s') ++ [critical_message e] ∧
          uploaded st = uploaded (stats s') ∧ removed st = removed (stats s')).
Proof.
  intros Hplan. pose proof (persist_stats cfg M s') as Hst.
  unfold deploy, try_finally, try_catch, deploy_body, bind. rewrite Hplan.
  destruct (persist cfg M s') as [[[]|e] s''] eqn:Hp; cbn in Hst.
  - left. exists s''. by rewrite <- Hst.
  - right. eexists e, s'', _. cbn. rewrite Hst. by repeat split.
Qed.

Lemma deploy_plan_throws cfg l s e s' :
  deploy_plan cfg l s = (Throw e, s') → errors (stats (snd (deploy cfg l s))) ≠ [].
Proof.
  intros Hplan. unfold deploy, try_finally, try_catch, deploy_body, bind.
  rewrite Hplan. cbn. by destruct (errors (stats s')).
Qed.

Lemma clean_phase_unfold cfg lh R m :
  clean_remote_files cfg = true → clear_destination cfg = false →
  clean_phase cfg lh (Some R) m =
  (let! m' := fold_M (remove_one cfg) (filesToRemove cfg (orphanedFiles lh R))
               (keep_preserved (preservedFiles cfg (orphanedFiles lh R)) m) in
   (if (0 <? length (filesToRemove cfg (orphanedFiles lh R)))%nat
    then removeEmptyDirectories_root cfg else ret tt) >> ret m').
Proof. intros Hclean Hclear. unfold clean_phase. by rewrite Hclean, Hclear. Qed.

(** A first real run in clean mode that reports no error leaves the server
    settled. *)
Lemma first_run_settles cfg files t :
  clean_remote_files cfg = true → clear_destination cfg = false → dry_run cfg = false →
  wf_tree t →
  Forall (fun f => wf_local_path (fst f) ∧ snd f ≠ "") files →
  errors (stats (snd (deploy cfg (inr files) (initial t reliable)))) = [] →
  settled cfg files (remote (snd (deploy cfg (inr files) (initial t reliable)))) ∧
  (0 < or_default (max_retries cfg) 3)%Z.
Proof.
  intros Hclean Hclear Hdry Hwf Hfiles Herr.
  assert (Hpaths : Forall (fun f => wf_local_path (fst f)) files)
    by (eapply Forall_impl; [exact Hfiles|]; by intros ? [? _]).
  assert (Hhash : Forall (fun f => snd f ≠ "") files)
    by (eapply Forall_impl; [exact Hfiles|]; by intros ? [_ ?]).
  set (s0 := initial t reliable) in *.
  set (lh := build_localHashes files).
  (* gathering *)
  destruct (gather_reliable cfg files s0 (fun _ => eq_refl) Hclean Hclear)
    as (M0 & s1 & Hg & Hrem1 & Hst1 & Hnet1 & _).
  change (remote s0) with t in *.
  assert (HM0 : M0 !! "__proto__" = None) by by eapply gather_no_proto.
  (* uploading *)
  pose proof (upload_phase_grows cfg lh files M0 Hpaths s1) as Hgrow.
  pose proof (upload_phase_errors_grow cfg lh files M0 s1) as Hg2.
  destruct (nt_upload_phase cfg lh files M0 s1) as [M1 Hup].
  destruct (upload_phase cfg lh files M0 s1) as [[M1'|?] s2] eqn:Hup'; [|done].
  unfold grows_by in Hgrow. cbn [fst snd] in Hup, Hgrow, Hg2. injection Hup as ->.
  rewrite Hrem1 in Hgrow. destruct (Hgrow Hwf) as [Hwf2 Hsub2].
  (* removing *)
  set (orph := orphanedFiles lh (files_of t)).
  set (M1k := keep_preserved (preservedFiles cfg orph) M1).
  destruct (remove_loop_spec cfg (filesToRemove cfg orph) M1k s2)
    as (M2 & s3 & new & Hloop & _ & _ & _ & _ & Hother & Hkeepnone & _ & _ & _ & Hg3).
  pose proof (remove_loop_tree cfg (filesToRemove cfg orph) Hdry M1k s2 Hwf2) as Htree.
  rewrite Hloop in Htree. cbn in Htree. destruct Htree as (Hwf3 & Hsub3 & Hgone3).
  (* pruning *)
  set (prune := if (0 <? length (filesToRemove cfg orph))%nat
                then removeEmptyDirectories_root cfg else ret tt).
  assert (Hprune : ∃ s4, prune s3 = (Ok tt, s4) ∧ stats s4 = stats s3 ∧
            ∀ r, r ∈ files_of (remote s4) → r ∈ files_of (remote s3)).
  { unfold prune. destruct (0 <? _)%nat; [|by exists s3].
    pose proof (removeEmptyDirectories_root_stats cfg s3) as Hst.
    pose proof (removeEmptyDirectories_root_paths cfg s3) as Hp.
    destruct (nt_removeEmptyDirectories_root cfg s3) as [[] Hok].
    destruct (removeEmptyDirectories_root cfg s3) as [[[]|?] s4]; [|done].
    exists s4. split; [done|]. split; [done|].
    intros r (x & Hx & ->)%files_of_elem. apply files_of_elem. exists x.
    split; [by apply Hp|done]. }
  destruct Hprune as (s4 & Hprune & Hst4 & Hsub4).
  assert (Hplan : deploy_plan cfg (inr files) s0 = (Ok M2, s4)).
  { unfold deploy_plan, bind. rewrite Hg. cbn [fst snd]. fold lh. rewrite Hup'.
    rewrite (clean_phase_unfold cfg lh _ M1 Hclean Hclear). fold orph M1k.
    unfold bind. rewrite Hloop. fold prune. by rewrite Hprune. }
  (* persisting *)
  destruct (deploy_after_plan cfg _ _ _ _ Hplan)
    as [(s5 & Hpersist & Hst5 & Hdeploy)|(e & s5 & st & _ & _ & -> & Herr' & _)].
  2: { rewrite Herr in Herr'. by destruct (errors (stats s4)). }
  rewrite Hdeploy in Herr |- *. cbn [snd] in *.
  change (remote (client_close s5)) with (remote s5).
  change (stats (client_close s5)) with (stats s5) in Herr.
  assert (Herr4 : errors (stats s4) = []) by congruence.
  assert (Herr3 : errors (stats s3) = []) by congruence.
  assert (Herr2 : errors (stats s2) = []) by (by eapply errors_grow_nil).
  assert (Herr1 : errors (stats s1) = []) by (by eapply errors_grow_nil).
  unfold persist in Hpersist. rewrite Hdry in Hpersist.
  pose proof (executeWithRetry_positive _ _ _ _ _ Hpersist) as Hretries.
  pose proof (saveRemoteHashes_stores cfg M2 s4 s5 Hpersist) as Hstored.
  pose proof (executeWithRetry_call cfg (EvUploadFrom (Json M2) HASH_FILE_NAME)
                (fun t => of_option "Cannot store file"
                   (pair tt <$> tree_upload (split_slash HASH_FILE_NAME) (Json M2) t)) s4)
    as Hcall.
  fold (client_uploadFrom (Json M2) HASH_FILE_NAME) in Hcall.
  unfold saveRemoteHashes in Hpersist. rewrite Hpersist in Hcall.
  destruct Hcall as (t5 & Hop & Hrem5).
  change (split_slash HASH_FILE_NAME) with [HASH_FILE_NAME] in Hop.
  destruct (tree_upload [HASH_FILE_NAME] (Json M2) (remote s4)) as [t5'|] eqn:Hup5; [|done].
  cbn in Hop. injection Hop as ->.
  pose proof (tree_upload_manifest_paths _ _ _ Hup5) as Hpaths5.
  split; [|done]. exists M2. split; [done|]. split.
  - (* the manifest *)
    intros p Hp.
    destruct (upload_phase_no_errors cfg lh files (build_localHashes_no_proto files) M0 s1)
      as (M1' & HM1 & _ & Hall).
    { rewrite Hup'. cbn. congruence. }
    rewrite Hup' in HM1. cbn in HM1. injection HM1 as <-.
    assert (HM2 : M2 !! "__proto__" = None).
    { apply Hkeepnone, keep_preserved_no_proto.
      by eapply upload_phase_no_proto. }
    rewrite (Js_assign_empty_id M2 HM2).
    assert (Hlocal : Js.is_truthy (Js.get lh p) = true) by by apply local_path_truthy.
    assert (Hnorph : p ∉ orph).
    { intros [_ ?]%orphanedFiles_spec. congruence. }
    etrans; [|exact (Hall p Hp)]. apply Js_get_same.
    rewrite Hother.
    + unfold M1k. rewrite keep_preserved_other; [done|].
      by intros [? _]%preservedFiles_spec.
    + by intros [? _]%filesToRemove_spec.
  - (* the listing *)
    intros r Hr.
    assert (Hr4 : r ∈ files_of (remote s4)).
    { unfold files_of in *. by rewrite Hrem5, Hpaths5 in Hr. }
    pose proof (Hsub4 r Hr4) as Hr3. pose proof (Hsub3 r Hr3) as Hr2.
    destruct (Hsub2 r Hr2) as [Hrt|?]; [|left; by apply local_path_truthy].
    destruct (Js.is_truthy (Js.get lh r)) eqn:Htr; [by left|right].
    destruct (shouldPreserve cfg r) eqn:Hpres; [done|exfalso].
    apply (Hgone3 ltac:(congruence) r); [|done].
    apply filesToRemove_spec. split; [|done].
    by apply orphanedFiles_spec.
Qed.

(** On a settled server a run in clean mode uploads nothing and removes
    nothing. *)
Lemma settled_run_is_idle cfg files t :
  clean_remote_files cfg = true → clear_destination cfg = false →
  Forall (fun f => snd f ≠ "") files →
  (0 < or_default (max_retries cfg) 3)%Z →
  settled cfg files t →
  ∃ st, fst (deploy cfg (inr files) (initial t reliable)) = Ok st ∧
        uploaded st = [] ∧ removed st = [].
Proof.
  intros Hclean Hclear Hhash Hretries (M & Hstored & Hall & Hlisted).
  set (s0 := initial t reliable) in *.
  set (lh := build_localHashes files).
  destruct (gather_reliable cfg files s0 (fun _ => eq_refl) Hclean Hclear)
    as (M0 & s1 & Hg & Hrem1 & Hst1 & Hnet1 & HM0).
  change (remote s0) with t in *.
  rewrite (HM0 M Hstored Hretries) in Hg. clear HM0.
  destruct (upload_phase_all_unchanged cfg lh files (Js.assign ∅ M) s1 Hall)
    as (s2 & Hup & Hrem2 & _ & Hupl2 & Hrmv2 & _).
  assert (Hnone : filesToRemove cfg (orphanedFiles lh (files_of t)) = []).
  { apply elem_of_nil_inv. intros r [[Hr Htr]%orphanedFiles_spec Hp]%filesToRemove_spec.
    unfold lh in Htr. destruct (Hlisted r Hr) as [?|?]; congruence. }
  assert (Hplan : ∃ M', deploy_plan cfg (inr files) s0 = (Ok M', s2)).
  { eexists. unfold deploy_plan, bind. rewrite Hg. cbn [fst snd]. fold lh. rewrite Hup.
    rewrite (clean_phase_unfold cfg lh _ _ Hclean Hclear). rewrite Hnone. reflexivity. }
  destruct Hplan as [M' Hplan].
  assert (Hupl : uploaded (stats s2) = []) by (by rewrite Hupl2, Hst1).
  assert (Hrmv : removed (stats s2) = []) by (by rewrite Hrmv2, Hst1).
  destruct (deploy_after_plan cfg _ _ _ _ Hplan)
    as [(s3 & _ & Hst3 & Hdeploy)|(e & s3 & st & _ & Hret & _ & _ & Hu & Hr)].
  - exists (stats s3). rewrite Hdeploy. by rewrite Hst3.
  - exists st. split; [done|]. by rewrite Hu, Hr.
Qed.

(** C8 (amended). Idempotence of a real run in clean mode: for every
    well-formed remote tree and every local tree (proper relative paths,
    hashes that are not empty), with [clean_remote_files] on, and
    [clear_destination] and [dry_run] off, over a network on which no call
    fails, if a run ends with [errors] empty and is followed by a second run
    with the same configuration and the same local files, the second run
    returns with [uploaded] and [removed] both empty. *)
Theorem second_run_is_idle (cfg : FtpDeployConfig) (files : list (string * string))
    (t : rdir) :
  clean_remote_files cfg = true → clear_destination cfg = false → dry_run cfg = false →
  wf_tree t →
  Forall (fun f => wf_local_path (fst f) ∧ snd f ≠ "") files →
  errors (stats (snd (deploy cfg (inr files) (initial t reliable)))) = [] →
  ∃ st,
    fst (deploy cfg (inr files)
           (initial (remote (snd (deploy cfg (inr files) (initial t reliable)))) reliable))
      = Ok st ∧
    uploaded st = [] ∧ removed st = [].
Proof.
  intros Hclean Hclear Hdry Hwf Hfiles Herr.
  destruct (first_run_settles cfg files t Hclean Hclear Hdry Hwf Hfiles Herr)
    as [Hsettled Hretries].
  apply settled_run_is_idle; try done.
  eapply Forall_impl; [exact Hfiles|]. by intros ? [_ ?].
Qed.

Lemma sample_tree_wf : wf_tree sample_tree.
Proof.
  split.
  - apply (bool_decide_unpack _). by vm_compute.
  - repeat split; by vm_compute.
Qed.

Lemma sample_files_wf :
  Forall (fun f => wf_local_path (fst f) ∧ snd f ≠ "") sample_files.
Proof.
  repeat constructor; try done; unfold wf_local_path; cbn; by repeat constructor.
Qed.

Lemma second_run_is_idle_witness :
  let cfg := with_clean true sample_config in
  let first := deploy cfg (inr sample_files) (initial sample_tree reliable) in
  uploaded (stats (snd first)) = ["b.txt"] ∧ removed (stats (snd first)) = ["old.txt"] ∧
  ∃ st,
    fst (deploy cfg (inr sample_files) (initial (remote (snd first)) reliable)) = Ok st ∧
    uploaded st = [] ∧ removed st = [].
Proof.
  cbv zeta. split; [by vm_compute|]. split; [by vm_compute|].
  apply (second_run_is_idle (with_clean true sample_config) sample_files sample_tree).
  - reflexivity.
  - reflexivity.
  - reflexivity.
  - exact sample_tree_wf.
  - exact sample_files_wf.
  - by vm_compute.
Defined.

(** C8 as stated fails. (1) A failed remote listing is caught and only
    logged: the first run ends with [errors] empty and removes nothing, and
    the second run, over a network without failure, removes the orphan.
    (2) A dry run changes nothing, so a second dry run lists the same uploads
    and removals again. (3) With [clear_destination] the second run clears
    what the first one uploaded. *)
Lemma second_run_counterexample :
  let twice cfg failures :=
    let first := deploy cfg (inr sample_files) (initial sample_tree failures) in
    let second := deploy cfg (inr sample_files) (initial (remote (snd first)) reliable) in
    (errors (stats (snd first)), fst second) in
  twice (with_clean true sample_config) (fails_at 3 (ftp_error "550 denied"))
    = ([], Ok {| uploaded := []; unchanged := ["a.txt"; "b.txt"];
                 removed := ["old.txt"]; errors := [] |}) ∧
  twice (with_dry_run true (with_clean true sample_config)) reliable
    = ([], Ok {| uploaded := ["b.txt"]; unchanged := ["a.txt"];
                 removed := ["old.txt"]; errors := [] |}) ∧
  twice (with_clear true (with_clean true sample_config)) reliable
    = ([], Ok {| uploaded := []; unchanged := ["a.txt"; "b.txt"];
                 removed := ["b.txt"]; errors := [] |}).
Proof. cbv zeta. repeat split; by vm_compute. Qed.

(** ** Clearing the destination *)

(** What the loop of [clearDestination] records, deletion by deletion. *)
Lemma clear_loop_spec cfg (fs : list string) :
  ∀ s : state,
  ∃ s' new,
    for_each fs (clear_one cfg) s = (Ok tt, s') ∧
    removed (stats s') = removed (stats s) ++ new ∧
    uploaded (stats s') = uploaded (stats s) ∧
    unchanged (stats s') = unchanged (stats s) ∧
    (∀ q, q ∈ new → q ∈ fs) ∧
    (∀ q, q ∈ fs → q ∈ new ∨ ∃ e, clear_message q e ∈ errors (stats s')) ∧
    (dry_run cfg = true → new = fs) ∧
    (errors (stats s') = errors (stats s) → new = fs) ∧
    errors_grow s s'.
Proof.
  induction fs as [|f fs IH]; intros s.
  - exists s, []. rewrite app_nil_r.
    repeat split; try done; try (intros q Hq; by apply elem_of_nil in Hq).
    all: try (exists []; by rewrite app_nil_r).
  - cbn [for_each]. unfold bind.
    destruct (clear_one_cases cfg f s)
      as [[Hdry Hr]|[(Hdry & e & s1 & Hex & Hr)|(Hdry & s1 & Hex & Hr)]]; rewrite Hr.
    + destruct (IH (snd (push_removed f s)))
        as (s' & new & H & Hrem & Hupl & Hunc & Hnew & Hall & Hd & He & Hg).
      exists s', (f :: new). rewrite H. split; [done|].
      split; [rewrite Hrem; cbn; by rewrite <- app_assoc|].
      split; [done|]. split; [done|]. split; [|split; [|split; [|split]]].
      * intros q [->|Hq]%elem_of_cons; [left | right; by apply Hnew].
      * intros q [->|Hq]%elem_of_cons; [left; left|].
        destruct (Hall q Hq) as [?|?]; [left; by right | by right].
      * intros Hd'. by rewrite Hd.
      * intros He'. by rewrite He.
      * done.
    + assert (Hs1 : stats s1 = stats s).
      { replace s1 with (snd (client_remove f s)) by (by rewrite Hex).
        apply client_remove_stats. }
      destruct (IH (snd (push_error (clear_message f e) s1)))
        as (s' & new & H & Hrem & Hupl & Hunc & Hnew & Hall & Hd & He & Hg).
      cbn in Hrem, Hupl, Hunc. rewrite Hs1 in Hrem, Hupl, Hunc.
      destruct Hg as [l Hl]. cbn in Hl. rewrite Hs1 in Hl.
      exists s', new. rewrite H. split; [done|]. split; [done|].
      split; [done|]. split; [done|]. split; [|split; [|split; [|split]]].
      * intros q Hq. right. by apply Hnew.
      * intros q [->|Hq]%elem_of_cons; [|by apply Hall].
        right. exists e. rewrite Hl. apply elem_of_app. left. apply elem_of_app. right. by left.
      * congruence.
      * intros He'. rewrite Hl in He'. rewrite <- app_assoc in He'.
        rewrite <- (app_nil_r (errors (stats s))) in He' at 2.
        by apply app_inv_head in He'.
      * exists ([clear_message f e] ++ l). by rewrite Hl, app_assoc.
    + assert (Hs1 : stats s1 = stats s).
      { replace s1 with (snd (client_remove f s)) by (by rewrite Hex).
        apply client_remove_stats. }
      destruct (IH (snd (push_removed f s1)))
        as (s' & new & H & Hrem & Hupl & Hunc & Hnew & Hall & Hd & He & Hg).
      cbn in Hrem, Hupl, Hunc, He. rewrite Hs1 in Hrem, Hupl, Hunc, He.
      destruct Hg as [l Hl]. cbn in Hl. rewrite Hs1 in Hl.
      exists s', (f :: new). rewrite H. split; [done|].
      split; [rewrite Hrem; by rewrite <- app_assoc|].
      split; [done|]. split; [done|]. split; [|split; [|split; [|split]]].
      * intros q [->|Hq]%elem_of_cons; [left | right; by apply Hnew].
      * intros q [->|Hq]%elem_of_cons; [left; left|].
        destruct (Hall q Hq) as [?|?]; [left; by right | by right].
      * congruence.
      * intros He'. by rewrite He.
      * by exists l.
Qed.

Lemma getRemoteFiles_root_stats s : stats (snd (getRemoteFiles_root s)) = stats s.
Proof. by apply (pr_getRemoteFiles_root same_stats). Qed.

Lemma loadRemoteHashes_stats cfg s : stats (snd (loadRemoteHashes cfg s)) = stats s.
Proof.
  refine (@pr_loadRemoteHashes same_stats same_stats_frame cfg _ s). by cbn.
Qed.

Lemma client_access_stats s : stats (snd (client_access s)) = stats s.
Proof. by apply (pr_client_access same_stats). Qed.

(** [clearDestination] as a whole: it lists, records every deletion that
    went through, reports the others, and prunes. *)
Lemma clearDestination_spec cfg s :
  ∃ listing s' new,
    fst (getRemoteFiles_root s) = Ok listing ∧
    (HASH_FILE_NAME ∉ listing) ∧
    clearDestination cfg s = (Ok tt, s') ∧
    removed (stats s') = removed (stats s) ++ new ∧
    uploaded (stats s') = uploaded (stats s) ∧
    unchanged (stats s') = unchanged (stats s) ∧
    (∀ q, q ∈ new → q ∈ listing) ∧
    (∀ q, q ∈ listing → q ∈ new ∨ ∃ e, clear_message q e ∈ errors (stats s')) ∧
    (dry_run cfg = true → new = listing) ∧
    (errors (stats s') = errors (stats s) → new = listing) ∧
    errors_grow s s'.
Proof.
  pose proof (getRemoteFiles_root_stats s) as Hst0.
  destruct (nt_getRemoteFiles_root s) as [listing Hok].
  destruct (getRemoteFiles_root s) as [[listing'|?] s0] eqn:Hlist; [|done].
  cbn in Hok, Hst0. injection Hok as ->.
  destruct (clear_loop_spec cfg listing s0)
    as (s1 & new & Hloop & Hrem & Hupl & Hunc & Hnew & Hall & Hd & He & Hg).
  pose proof (removeEmptyDirectories_root_stats cfg s1) as Hst2.
  destruct (nt_removeEmptyDirectories_root cfg s1) as [[] Hok].
  destruct (removeEmptyDirectories_root cfg s1) as [[[]|?] s2] eqn:Hprune; [|done].
  cbn in Hst2. exists listing, s2, new. split; [done|]. split.
  { unfold getRemoteFiles_root in Hlist. by eapply getRemoteFiles_not_manifest. }
  split.
  { unfold clearDestination, bind. by rewrite Hlist, Hloop, Hprune. }
  unfold errors_grow. rewrite Hst2, <- Hst0. by repeat split.
Qed.

(** ** [deploy] and its failures *)





(** C1. With [clear_destination] on, the manifest is not treated as empty:
    the clearing deletes [a.txt] and [old.txt] but leaves the manifest of
    the previous run on the server, [loadRemoteHashes] reads it afterwards,
    and the run counts [a.txt] - filed there under its hash - as unchanged.
    [a.txt] is not uploaded and is no longer on the server when the run
    ends without any error. *)
Lemma clear_destination_stale_manifest :
  let cfg := with_clear true sample_config in
  let r := deploy cfg (inr sample_files) (initial sample_tree reliable) in
  ("a.txt", "h1") ∈ sample_files ∧
  fst r = Ok {| uploaded := ["b.txt"]; removed := ["a.txt"; "old.txt"];
                unchanged := ["a.txt"]; errors := [] |} ∧
  node_at ["a.txt"] (remote (snd r)) = None ∧
  node_at ["b.txt"] (remote (snd r)) = Some (RFile (Blob "h2")) ∧
  node_at [HASH_FILE_NAME] (remote (snd r))
  = Some (RFile (Json {["a.txt" := "h1"; "b.txt" := "h2"]})).
Proof. cbv zeta. split; [left|]. repeat split; by vm_compute. Qed.

(** ** A dry run next to the real run *)

Lemma clean_phase_errors_grow cfg lh rf m :
  preserves errors_grow (clean_phase cfg lh rf m).
Proof.
  apply (pr_clean_phase errors_grow cfg); [intros; apply remove_one_errors_grow|].
  intros s. apply errors_grow_same, removeEmptyDirectories_root_stats.
Qed.

Section DryAndReal.
Context (cfg : FtpDeployConfig).
Hypothesis dry : dry_run cfg = true.

Lemma real_errors_grow_upload_one lh q h m :
  preserves errors_grow (upload_one (with_dry_run false cfg) lh (q, h) m).
Proof. by apply (pr_upload_one errors_grow (with_dry_run false cfg)). Qed.

(** The upload loop of a dry run records what the loop of the real run
    records when that one reports no error. *)
Lemma upload_phase_dry_real lh files :
  ∀ m sd sr, stats sd = stats sr →
    errors (stats (snd (upload_phase (with_dry_run false cfg) lh files m sr)))
      = errors (stats sr) →
    fst (upload_phase cfg lh files m sd)
      = fst (upload_phase (with_dry_run false cfg) lh files m sr) ∧
    stats (snd (upload_phase cfg lh files m sd))
      = stats (snd (upload_phase (with_dry_run false cfg) lh files m sr)).
Proof.
  induction files as [|[q h] files IH]; intros m sd sr Hst Herr; [done|].
  pose proof (real_errors_grow_upload_one lh q h m sr) as Hstep.
  revert Herr. unfold upload_phase in *. cbn [fold_M]. unfold bind.
  destruct (upload_one_cases (with_dry_run false cfg) lh q h m sr)
    as [[Hm Hr]|[(_ & ? & _)|[(_ & _ & e & s1 & H1 & Hr)|
        [(_ & _ & s1 & e & s2 & H1 & H2 & Hr)|(Hm & _ & s1 & s2 & H1 & H2 & Hr)]]]];
    [|done|..];
    rewrite Hr in Hstep |- *; cbn [snd] in Hstep; intros Herr;
    match type of Herr with
    | errors (stats (snd (fold_M _ _ ?m1 ?s1'))) = _ =>
        pose proof (upload_phase_errors_grow (with_dry_run false cfg) lh files m1 s1') as Hrest;
        destruct (no_new_errors_step _ _ _ Hstep Hrest Herr) as [Herr1 Herr2]
    end.
  - destruct (upload_one_cases cfg lh q h m sd)
      as [[_ ->]|[(? & _)|[(_ & ? & _)|[(_ & ? & _)|(_ & ? & _)]]]]; [|congruence..].
    apply IH; [cbn; by rewrite Hst | done].
  - exfalso. cbn in Herr1.
    replace s1 with (snd (client_ensureDir q sr)) in Herr1 by (by rewrite H1).
    rewrite client_ensureDir_stats in Herr1. by apply snoc_ne in Herr1.
  - exfalso. cbn in Herr1.
    replace s2 with (snd (client_uploadFrom (Blob h) q s1)) in Herr1 by (by rewrite H2).
    rewrite client_uploadFrom_stats in Herr1.
    replace s1 with (snd (client_ensureDir q sr)) in Herr1 by (by rewrite H1).
    rewrite client_ensureDir_stats in Herr1. by apply snoc_ne in Herr1.
  - assert (Hs2 : stats s2 = stats sr).
    { replace s2 with (snd (client_uploadFrom (Blob h) q s1)) by (by rewrite H2).
      rewrite client_uploadFrom_stats.
      replace s1 with (snd (client_ensureDir q sr)) by (by rewrite H1).
      apply client_ensureDir_stats. }
    destruct (upload_one_cases cfg lh q h m sd)
      as [[? _]|[(_ & _ & ->)|[(_ & ? & _)|[(_ & ? & _)|(_ & ? & _)]]]]; [done| |congruence..].
    apply IH; [cbn; by rewrite Hst, Hs2 | done].
Qed.

(** The same for the removal loop of the clean phase. *)
Lemma remove_loop_dry_real fs :
  ∀ m sd sr, stats sd = stats sr →
    errors (stats (snd (fold_M (remove_one (with_dry_run false cfg)) fs m sr)))
      = errors (stats sr) →
    fst (fold_M (remove_one cfg) fs m sd)
      = fst (fold_M (remove_one (with_dry_run false cfg)) fs m sr) ∧
    stats (snd (fold_M (remove_one cfg) fs m sd))
      = stats (snd (fold_M (remove_one (with_dry_run false cfg)) fs m sr)).
Proof.
  induction fs as [|f fs IH]; intros m sd sr Hst Herr; [done|].
  pose proof (remove_one_errors_grow (with_dry_run false cfg) f m sr) as Hstep.
  pose proof (executeWithRetry_remove_stats (with_dry_run false cfg) f sr) as Hex.
  revert Herr. cbn [fold_M]. unfold bind.
  destruct (remove_one_cases cfg f m sd) as [[_ ->]|[[? _]|[? _]]]; [|congruence..].
  destruct (remove_one_cases (with_dry_run false cfg) f m sr)
    as [[? _]|[(_ & e & s1 & H1 & Hr)|(_ & s1 & H1 & Hr)]]; [done|..];
    rewrite Hr in Hstep |- *; rewrite H1 in Hex; cbn [snd] in Hstep, Hex; intros Herr;
    match type of Herr with
    | errors (stats (snd (fold_M _ _ ?m1 ?s1'))) = _ =>
        pose proof (remove_loop_errors_grow (with_dry_run false cfg) fs m1 s1') as Hrest;
        destruct (no_new_errors_step _ _ _ Hstep Hrest Herr) as [Herr1 Herr2]
    end.
  - exfalso. cbn in Herr1. rewrite Hex in Herr1. by apply snoc_ne in Herr1.
  - apply IH; [cbn; by rewrite Hst, Hex | done].
Qed.

Lemma real_preserve q : shouldPreserve (with_dry_run false cfg) q = shouldPreserve cfg q.
Proof. reflexivity. Qed.

(** The same for the whole clean phase. *)
Lemma clean_phase_dry_real lh R m sd sr :
  stats sd = stats sr →
  errors (stats (snd (clean_phase (with_dry_run false cfg) lh R m sr))) = errors (stats sr) →
  fst (clean_phase cfg lh R m sd) = fst (clean_phase (with_dry_run false cfg) lh R m sr) ∧
  stats (snd (clean_phase cfg lh R m sd))
    = stats (snd (clean_phase (with_dry_run false cfg) lh R m sr)).
Proof.
  intros Hst. unfold clean_phase. destruct R as [R|]; [|done].
  change (clean_remote_files (with_dry_run false cfg)) with (clean_remote_files cfg).
  change (clear_destination (with_dry_run false cfg)) with (clear_destination cfg).
  destruct (clean_remote_files cfg && negb (clear_destination cfg)); [|done].
  cbv zeta.
  change (filesToRemove (with_dry_run false cfg)) with (filesToRemove cfg).
  change (preservedFiles (with_dry_run false cfg)) with (preservedFiles cfg).
  set (fs := filesToRemove cfg (orphanedFiles lh R)).
  set (m0 := keep_preserved (preservedFiles cfg (orphanedFiles lh R)) m).
  pose proof (remove_loop_dry_real fs m0 sd sr Hst) as Hloop.
  unfold bind.
  destruct (nt_fold_M (remove_one cfg) fs m0 (fun f b => nt_remove_one cfg f b) sd) as [md Hd].
  destruct (nt_fold_M (remove_one (with_dry_run false cfg)) fs m0
              (fun f b => nt_remove_one (with_dry_run false cfg) f b) sr) as [mr Hr].
  destruct (fold_M (remove_one cfg) fs m0 sd) as [[md'|?] sd1]; [|done].
  destruct (fold_M (remove_one (with_dry_run false cfg)) fs m0 sr) as [[mr'|?] sr1]; [|done].
  cbn [fst snd] in *. destruct (0 <? length fs)%nat.
  - pose proof (removeEmptyDirectories_root_stats cfg sd1) as Hpd.
    pose proof (removeEmptyDirectories_root_stats (with_dry_run false cfg) sr1) as Hpr.
    destruct (nt_removeEmptyDirectories_root cfg sd1) as [[] Hokd].
    destruct (nt_removeEmptyDirectories_root (with_dry_run false cfg) sr1) as [[] Hokr].
    destruct (removeEmptyDirectories_root cfg sd1) as [[[]|?] sd2]; [|done].
    destruct (removeEmptyDirectories_root (with_dry_run false cfg) sr1) as [[[]|?] sr2]; [|done].
    cbn in *. rewrite Hpd, Hpr. intros Herr. by apply Hloop.
  - cbn. intros Herr. by apply Hloop.
Qed.

Lemma real_retry_loop {A} (operation : M A) retries fuel :
  ∀ attempt s,
    retry_loop (with_dry_run false cfg) operation retries fuel attempt s
    = retry_loop cfg operation retries fuel attempt s.
Proof.
  induction fuel as [|fuel IH]; intros attempt s; [done|].
  cbn [retry_loop]. unfold try_catch. destruct (operation s) as [[a|e] s1]; [done|].
  change (reconnect (with_dry_run false cfg)) with (reconnect cfg).
  change (retry_delay (with_dry_run false cfg)) with (retry_delay cfg).
  destruct (isConnectionError e && reconnect cfg && (attempt <? retries)%Z); [|done].
  unfold bind. destruct (sleep _ s1) as [[[]|?] s2]; [|done].
  destruct (match reconnect_session s2 with
            | (Ok a, s') => (Ok a, s')
            | (Throw e0, s') => (if (attempt =? retries)%Z then throw e else ret ()) s'
            end) as [[[]|?] s3]; [|done].
  apply IH.
Qed.

Lemma real_loadRemoteHashes s :
  loadRemoteHashes (with_dry_run false cfg) s = loadRemoteHashes cfg s.
Proof.
  unfold loadRemoteHashes, bind. destruct (remoteFileExists _ s) as [[[|]|?] s1]; try done.
  unfold try_catch, executeWithRetry, executeWithRetry_n.
  change (max_retries (with_dry_run false cfg)) with (max_retries cfg).
  by rewrite real_retry_loop.
Qed.

Lemma real_gather l s :
  clear_destination cfg = false → gather (with_dry_run false cfg) l s = gather cfg l s.
Proof.
  intros Hclear. unfold gather.
  change (clear_destination (with_dry_run false cfg)) with (clear_destination cfg).
  change (clean_remote_files (with_dry_run false cfg)) with (clean_remote_files cfg).
  rewrite Hclear. unfold bind. destruct (client_access s) as [[[]|?] s1]; [|done].
  cbn. by rewrite real_loadRemoteHashes.
Qed.

(** When both runs gather the same inputs and leave the same [this.stats]
    behind, the manifest working copy and the record of the dry run are
    those of the real run, provided the real run reports no error. *)
Lemma plan_dry_real l s r sd sr :
  gather cfg l s = (r, sd) →
  gather (with_dry_run false cfg) l s = (r, sr) →
  stats sd = stats sr → errors_grow s sr →
  errors (stats (snd (deploy (with_dry_run false cfg) l s))) = errors (stats s) →
  fst (deploy_plan cfg l s) = fst (deploy_plan (with_dry_run false cfg) l s) ∧
  fst (deploy cfg l s) = fst (deploy (with_dry_run false cfg) l s).
Proof.
  intros Hgd Hgr Hst [l0 Hl0] Herr. set (real := with_dry_run false cfg) in *.
  destruct r as [inputs|e].
  2: { exfalso. assert (Hplan : deploy_plan real l s = (Throw e, sr)).
       { unfold deploy_plan, bind. by rewrite Hgr. }
       revert Herr. unfold deploy, try_finally, try_catch, deploy_body, bind.
       rewrite Hplan. cbn. rewrite Hl0. intros Herr.
       apply (f_equal length) in Herr. rewrite !length_app in Herr. cbn in Herr. lia. }
  set (lh := build_localHashes (snd (fst inputs))).
  pose proof (upload_phase_errors_grow real lh (snd (fst inputs)) (fst (fst inputs)) sr) as Hg1.
  pose proof (upload_phase_dry_real lh (snd (fst inputs)) (fst (fst inputs)) sd sr Hst)
    as Hup.
  fold real in Hup.
  destruct (nt_upload_phase real lh (snd (fst inputs)) (fst (fst inputs)) sr) as [M1 Hok].
  destruct (upload_phase real lh (snd (fst inputs)) (fst (fst inputs)) sr)
    as [[M1'|?] s2r] eqn:Hupr; [|done].
  cbn in Hok. injection Hok as ->.
  destruct (upload_phase cfg lh (snd (fst inputs)) (fst (fst inputs)) sd)
    as [r1d s2d] eqn:Hupd.
  cbn [fst snd] in Hup, Hg1.
  pose proof (clean_phase_errors_grow real lh (snd inputs) M1) as Hg2.
  pose proof (clean_phase_dry_real lh (snd inputs) M1 s2d s2r) as Hcl. fold real in Hcl.
  specialize (Hg2 s2r).
  destruct (nt_clean_phase real lh (snd inputs) M1 s2r) as [M2 Hok].
  destruct (clean_phase real lh (snd inputs) M1 s2r) as [[M2'|?] s3r] eqn:Hclr; [|done].
  cbn in Hok. injection Hok as ->. cbn [fst snd] in Hcl, Hg2.
  assert (Hplanr : deploy_plan real l s = (Ok M2, s3r)).
  { unfold deploy_plan, bind. rewrite Hgr. fold lh. by rewrite Hupr. }
  destruct Hg1 as [l1 Hl1]. destruct Hg2 as [l2 Hl2].
  (* the real run reported no error *)
  assert (Hquiet : (l0 = [] ∧ l1 = [] ∧ l2 = [])
                   ∧ persist real M2 s3r = (Ok tt, snd (persist real M2 s3r))).
  { destruct (deploy_after_plan real _ _ _ _ Hplanr)
      as [(s4 & Hp & Hst4 & Hd)|(e & s4 & st & _ & _ & -> & He & _)].
    - rewrite Hd in Herr. cbn in Herr. rewrite Hp. split; [|done].
      rewrite Hst4, Hl2, Hl1, Hl0 in Herr. apply (f_equal length) in Herr.
      rewrite !length_app in Herr.
      destruct l0, l1, l2; cbn in Herr; try lia; done.
    - exfalso. rewrite Herr in He. rewrite Hl2, Hl1, Hl0 in He.
      apply (f_equal length) in He. rewrite !length_app in He. cbn in He. lia. }
  destruct Hquiet as [(-> & -> & ->) Hpersist].
  rewrite app_nil_r in Hl0, Hl1, Hl2.
  destruct (Hup Hl1) as [Hfd Hsd]. subst r1d.
  destruct (Hcl Hsd Hl2) as [Hfc Hsc].
  destruct (clean_phase cfg lh (snd inputs) M1 s2d) as [r2d s3d] eqn:Hcld.
  cbn [fst snd] in Hfc, Hsc. subst r2d.
  assert (Hpland : deploy_plan cfg l s = (Ok M2, s3d)).
  { unfold deploy_plan, bind. rewrite Hgd. fold lh. by rewrite Hupd. }
  rewrite Hpland, Hplanr. split; [done|].
  unfold deploy, try_finally, try_catch, deploy_body, bind.
  rewrite Hpland, Hplanr, Hpersist. unfold persist at 1. rewrite dry. cbn.
  f_equal. rewrite Hsc. symmetry. exact (persist_stats real M2 s3r).
Qed.

(** Without clear-destination both runs gather alike, whatever the network
    does. *)
Lemma deploy_dry_real l s :
  clear_destination cfg = false →
  errors (stats (snd (deploy (with_dry_run false cfg) l s))) = errors (stats s) →
  fst (deploy_plan cfg l s) = fst (deploy_plan (with_dry_run false cfg) l s) ∧
  fst (deploy cfg l s) = fst (deploy (with_dry_run false cfg) l s).
Proof.
  intros Hclear Herr.
  assert (Hg0 : stats (snd (gather cfg l s)) = stats s).
  { refine (@pr_gather same_stats same_stats_frame cfg _ l _ s); [by cbn|congruence]. }
  destruct (gather cfg l s) as [r s1] eqn:Hg; cbn [snd] in Hg0.
  apply (plan_dry_real l s r s1 s1); [done| |done| |done].
  - by rewrite (real_gather l s Hclear).
  - by apply errors_grow_same.
Qed.

End DryAndReal.

(** * Further properties of the code *)

(** ** The retry executor, attempt by attempt *)

Section RetrySteps.
Context {A : Type} (cfg : FtpDeployConfig) (operation : M A) (retries : Z) (s : state).

(** An attempt whose outcome settles ends the loop with that outcome. *)
Lemma retry_loop_settles (m k : nat) (attempt : Z) :
  settles_at cfg operation s k →
  retry_loop cfg operation retries (S m) attempt (attempt_state cfg operation s k)
  = operation (attempt_state cfg operation s k).
Proof.
  unfold settles_at. cbn [retry_loop]. unfold try_catch.
  destruct (operation (attempt_state cfg operation s k)) as [[a|e] s']; cbn [fst]; [done|].
  by intros ->.
Qed.

(** The last attempt ends the loop with its outcome, whatever it is. *)
Lemma retry_loop_last (k : nat) :
  retry_loop cfg operation retries 1 retries (attempt_state cfg operation s k)
  = operation (attempt_state cfg operation s k).
Proof.
  cbn [retry_loop]. unfold try_catch.
  destruct (operation (attempt_state cfg operation s k)) as [[a|e] s']; [done|].
  by rewrite Z.ltb_irrefl, andb_false_r.
Qed.

(** A connection error on an attempt that is not the last one leads to the
    next attempt, after the delay and the reconnection. *)
Lemma retry_loop_retries (m k : nat) :
  transient_failure cfg operation s k → reconnect cfg = true →
  (Z.of_nat k + 1 < retries)%Z →
  retry_loop cfg operation retries (S m) (Z.of_nat k + 1) (attempt_state cfg operation s k)
  = retry_loop cfg operation retries m (Z.of_nat (S k) + 1)
      (attempt_state cfg operation s (S k)).
Proof.
  intros [e [He Hconn]] Hrec Hlt. cbn [retry_loop attempt_state]. unfold try_catch at 1.
  destruct (operation (attempt_state cfg operation s k)) as [[a|e'] s'];
    simpl in He; [discriminate|]. injection He as ->.
  rewrite Hconn, Hrec.
  replace (Z.of_nat k + 1 <? retries)%Z with true by (symmetry; apply Z.ltb_lt; lia).
  replace (Z.of_nat k + 1 =? retries)%Z with false by (symmetry; apply Z.eqb_neq; lia).
  replace (Z.of_nat (S k) + 1)%Z with (Z.of_nat k + 1 + 1)%Z by lia.
  cbn [andb snd]. unfold between_attempts, bind, sleep, modify, try_catch.
  by destruct (reconnect_session _) as [[[]|?] ?].
Qed.

Lemma settles_or_retries (k : nat) :
  settles_at cfg operation s k ∨
  (transient_failure cfg operation s k ∧ reconnect cfg = true).
Proof.
  unfold settles_at, transient_failure.
  destruct (fst (operation (attempt_state cfg operation s k))) as [a|e]; [by left|].
  destruct (isConnectionError e) eqn:Hc, (reconnect cfg) eqn:Hr; try by left.
  right. split; [by exists e|done].
Qed.

(** With [m + 1] iterations left, the loop ends with the outcome of the
    first attempt that settles, or with that of the last attempt. *)
Lemma retry_loop_outcome (m : nat) :
  ∀ k, (Z.of_nat k + 1 + Z.of_nat m = retries)%Z →
    ∃ i, i ≤ m ∧
      (∀ j, k ≤ j < k + i →
         transient_failure cfg operation s j ∧ reconnect cfg = true) ∧
      retry_loop cfg operation retries (S m) (Z.of_nat k + 1)
        (attempt_state cfg operation s k)
      = operation (attempt_state cfg operation s (k + i)) ∧
      (i < m → settles_at cfg operation s (k + i)).
Proof.
  induction m as [|m IH]; intros k Hn.
  - exists 0. rewrite Nat.add_0_r. split; [done|]. split; [intros j Hj; lia|].
    split; [|lia]. replace (Z.of_nat k + 1)%Z with retries by lia. apply retry_loop_last.
  - destruct (settles_or_retries k) as [Hs|[Ht Hrec]].
    + exists 0. rewrite Nat.add_0_r. split; [lia|]. split; [intros j Hj; lia|].
      split; [by apply retry_loop_settles | done].
    + destruct (IH (S k)) as (i & Hi & Hbefore & Heq & Hset); [lia|].
      exists (S i). replace (k + S i) with (S k + i) by lia.
      split; [lia|]. split; [|split].
      * intros j Hj. destruct (decide (j = k)) as [->|?]; [done|]. apply Hbefore. lia.
      * rewrite retry_loop_retries; [done..|lia].
      * intros ?. apply Hset. lia.
Qed.

End RetrySteps.

(** X1. With [N >= 1] attempts allowed, [executeWithRetry] ends with the
    outcome of one of the first [N] attempts of the operation: the first one
    that returns a value or fails with an error that is not retried, or else
    attempt [N]. Every earlier attempt failed with a connection error while
    reconnection was enabled, and was followed by the delay and the
    reconnection. *)
Theorem executeWithRetry_outcome {A : Type} (cfg : FtpDeployConfig) (operation : M A)
    (retries : Z) (s : state) :
  (1 ≤ retries)%Z →
  ∃ k, k < Z.to_nat retries ∧
    (∀ j, j < k → transient_failure cfg operation s j ∧ reconnect cfg = true) ∧
    executeWithRetry_n cfg operation retries s
      = operation (attempt_state cfg operation s k) ∧
    (S k < Z.to_nat retries → settles_at cfg operation s k).
Proof.
  intros Hn. unfold executeWithRetry_n.
  destruct (retry_loop_outcome cfg operation retries s (Z.to_nat retries - 1) 0)
    as (i & Hi & Hbefore & Heq & Hset); [lia|].
  exists i. split; [lia|]. split; [intros j Hj; apply Hbefore; lia|].
  replace (Z.to_nat retries) with (S (Z.to_nat retries - 1)) at 1 by lia.
  split; [exact Heq|]. intros ?. apply Hset. lia.
Qed.

Lemma executeWithRetry_outcome_witness :
  ∃ k, k < 3 ∧
    (∀ j, j < k →
       transient_failure sample_config (client_size "a.txt") (initial [] unreachable) j
       ∧ reconnect sample_config = true) ∧
    executeWithRetry_n sample_config (client_size "a.txt") 3 (initial [] unreachable)
      = client_size "a.txt"
          (attempt_state sample_config (client_size "a.txt") (initial [] unreachable) k) ∧
    (S k < 3 → settles_at sample_config (client_size "a.txt") (initial [] unreachable) k).
Proof.
  apply (executeWithRetry_outcome sample_config (client_size "a.txt") 3
           (initial [] unreachable)). lia.
Defined.

Lemma retry_loop_reaches {A} (cfg : FtpDeployConfig) (operation : M A) (retries : Z)
    (s : state) (k : nat) :
  ∀ m, (Z.of_nat k + 1 + Z.of_nat m = retries)%Z →
    (∀ j, j < k → transient_failure cfg operation s j) →
    (0 < k → reconnect cfg = true) →
    retry_loop cfg operation retries (k + S m) 1 s
    = retry_loop cfg operation retries (S m) (Z.of_nat k + 1)
        (attempt_state cfg operation s k).
Proof.
  induction k as [|k IH]; intros m Hn Hfail Hrec; [done|].
  replace (S k + S m) with (k + S (S m)) by lia.
  rewrite IH; [|lia|intros j Hj; apply Hfail; lia|intros _; apply Hrec; lia].
  apply retry_loop_retries; [apply Hfail; lia|apply Hrec; lia|lia].
Qed.

(** X2. Recovery: when the first [k] attempts ([k < N]) fail with a
    connection error, reconnection being enabled, and attempt [k + 1] returns
    a value, [executeWithRetry] returns that value, in the state that attempt
    left. *)
Theorem executeWithRetry_recovers {A : Type} (cfg : FtpDeployConfig) (operation : M A)
    (retries : Z) (s : state) (k : nat) (a : A) (s' : state) :
  k < Z.to_nat retries →
  reconnect cfg = true →
  (∀ j, j < k → transient_failure cfg operation s j) →
  operation (attempt_state cfg operation s k) = (Ok a, s') →
  executeWithRetry_n cfg operation retries s = (Ok a, s').
Proof.
  intros Hk Hrec Hfail Hok. unfold executeWithRetry_n.
  replace (Z.to_nat retries) with (k + S (Z.to_nat retries - k - 1)) by lia.
  rewrite (retry_loop_reaches cfg operation retries s k); [|lia|done|done].
  rewrite retry_loop_settles; [done|]. unfold settles_at. by rewrite Hok.
Qed.

Lemma executeWithRetry_recovers_witness :
  let s := initial [("a.txt", RFile (Blob "h1"))] (fails_at 0 econnreset) in
  let operation := client_downloadTo "a.txt" in
  fst (operation s) = Throw econnreset ∧
  executeWithRetry_n sample_config operation 3 s
  = (Ok (Blob "h1"), snd (operation (attempt_state sample_config operation s 1))).
Proof.
  cbv zeta. split; [reflexivity|].
  apply (executeWithRetry_recovers sample_config (client_downloadTo "a.txt") 3
           (initial [("a.txt", RFile (Blob "h1"))] (fails_at 0 econnreset)) 1).
  - cbn. lia.
  - reflexivity.
  - intros j Hj. replace j with 0 by lia. exists econnreset. by split.
  - reflexivity.
Defined.

(** X3. An error that is not connection-classified - or any error when
    reconnection is disabled - is rethrown from the first attempt: the
    operation has run once, and neither the delay nor the reconnection
    takes place. *)
Theorem executeWithRetry_permanent_error {A : Type} (cfg : FtpDeployConfig)
    (operation : M A) (retries : Z) (s : state) (e : error) (s' : state) :
  (1 ≤ retries)%Z →
  operation s = (Throw e, s') →
  isConnectionError e && reconnect cfg = false →
  executeWithRetry_n cfg operation retries s = (Throw e, s').
Proof.
  intros Hn Hop Hperm. unfold executeWithRetry_n.
  replace (Z.to_nat retries) with (S (Z.to_nat retries - 1)) by lia.
  rewrite <- Hop. apply (retry_loop_settles cfg operation retries s _ 0).
  unfold settles_at. cbn [attempt_state]. by rewrite Hop.
Qed.

Lemma executeWithRetry_permanent_error_witness :
  executeWithRetry_n sample_config (client_remove "gone.txt") 3 (initial [] reliable)
  = (Throw (ftp_error "No such file"),
     tick (log_event (EvRemove "gone.txt") (initial [] reliable))).
Proof.
  apply (executeWithRetry_permanent_error sample_config (client_remove "gone.txt") 3
           (initial [] reliable)); [lia|reflexivity|reflexivity].
Defined.

(** X4. The bounds of [max_retries]: a value of zero is replaced by the
    default of three attempts, and a negative value runs no attempt at all:
    the operation is not called and the generic error is raised at once. *)
Theorem executeWithRetry_retry_bounds {A : Type} (cfg : FtpDeployConfig)
    (operation : M A) (s : state) :
  (max_retries cfg = 0%Z →
   executeWithRetry cfg operation s = executeWithRetry_n cfg operation 3 s) ∧
  ((max_retries cfg < 0)%Z →
   executeWithRetry cfg operation s = (Throw (exhausted_error (max_retries cfg)), s)).
Proof.
  split; intros H; unfold executeWithRetry, or_default.
  - by rewrite H.
  - replace (max_retries cfg =? 0)%Z with false by (symmetry; apply Z.eqb_neq; lia).
    unfold executeWithRetry_n. by replace (Z.to_nat (max_retries cfg)) with 0 by lia.
Qed.

Lemma executeWithRetry_retry_bounds_witness :
  executeWithRetry (with_max_retries 0 sample_config) (client_size "a.txt") (initial [] reliable)
  = executeWithRetry_n (with_max_retries 0 sample_config) (client_size "a.txt") 3
      (initial [] reliable) ∧
  executeWithRetry (with_max_retries (-1) sample_config) (client_size "a.txt")
    (initial [] reliable)
  = (Throw (exhausted_error (-1)), initial [] reliable).
Proof.
  split.
  - by apply (executeWithRetry_retry_bounds (with_max_retries 0 sample_config)).
  - by apply (executeWithRetry_retry_bounds (with_max_retries (-1) sample_config)).
Defined.

(** ** The preserve matcher, beyond its contract *)

Lemma replace_backslash_app (a b : string) :
  Js.replace_backslash (a +:+ b) = Js.replace_backslash a +:+ Js.replace_backslash b.
Proof. induction a as [|c a IH]; simpl; [done|]. by rewrite IH. Qed.

Lemma replace_backslash_idem (a : string) :
  Js.replace_backslash (Js.replace_backslash a) = Js.replace_backslash a.
Proof.
  induction a as [|c a IH]; simpl; [done|]. rewrite IH. f_equal.
  destruct (Ascii.eqb_spec c "\"); [done|]. by apply Ascii.eqb_neq in n as ->.
Qed.

Lemma shouldPreserve_existsb cfg path :
  shouldPreserve cfg path = existsb (preserve_matches path) (preserve cfg).
Proof. unfold shouldPreserve. by destruct (preserve cfg). Qed.

Lemma preserve_matches_below (path entry rest : string) :
  preserve_matches path entry = true →
  preserve_matches (path +:+ "/" +:+ rest) entry = true.
Proof.
  unfold preserve_matches. rewrite !replace_backslash_app.
  change (Js.replace_backslash "/") with "/".
  set (c := if Js.endsWith_slash _ then _ else _).
  rewrite !orb_true_iff, !string_eqb_iff, !startsWith_iff.
  intros [->|[r ->]]; right.
  - exists (Js.replace_backslash rest). by rewrite append_assoc.
  - exists (r +:+ "/" +:+ Js.replace_backslash rest). by rewrite !append_assoc.
Qed.

(** X5. Whatever is below a preserved path is preserved: when
    [shouldPreserve] accepts a path, it accepts every path made of it, a
    slash and anything else. *)
Theorem shouldPreserve_descendants (cfg : FtpDeployConfig) (path rest : string) :
  shouldPreserve cfg path = true →
  shouldPreserve cfg (path +:+ "/" +:+ rest) = true.
Proof.
  rewrite !shouldPreserve_existsb, !existsb_exists.
  intros (e & Hin & Hm). exists e. split; [done|]. by apply preserve_matches_below.
Qed.

Lemma shouldPreserve_descendants_witness :
  shouldPreserve (with_preserve ["uploads/"] sample_config) "uploads/2024" = true ∧
  shouldPreserve (with_preserve ["uploads/"] sample_config)
    ("uploads/2024" +:+ "/" +:+ "photo.jpg") = true.
Proof.
  split; [reflexivity|].
  by apply (shouldPreserve_descendants (with_preserve ["uploads/"] sample_config)).
Defined.

(** X6. The matcher does not see the difference between the two path
    separators: replacing every backslash by a slash, in the path or in the
    preserve entries, changes no answer. *)
Theorem shouldPreserve_separators (cfg : FtpDeployConfig) (path : string) :
  shouldPreserve cfg (Js.replace_backslash path) = shouldPreserve cfg path ∧
  shouldPreserve (with_preserve (Js.replace_backslash <$> preserve cfg) cfg) path
    = shouldPreserve cfg path.
Proof.
  rewrite !shouldPreserve_existsb. cbn [preserve with_preserve]. split.
  - induction (preserve cfg) as [|e l IH]; [done|]. cbn [existsb]. rewrite IH. f_equal.
    unfold preserve_matches. by rewrite replace_backslash_idem.
  - induction (preserve cfg) as [|e l IH]; [done|]. rewrite fmap_cons. cbn [existsb].
    rewrite IH. f_equal. unfold preserve_matches. by rewrite replace_backslash_idem.
Qed.

(** X7. One trailing slash of a preserve entry is not significant: an entry
    that does not end with a separator and the same entry followed by a
    slash preserve the same paths. *)
Theorem shouldPreserve_trailing_slash (cfg : FtpDeployConfig) (entry path : string) :
  Js.endsWith_slash (Js.replace_backslash entry) = false →
  shouldPreserve (with_preserve [entry +:+ "/"] cfg) path
    = shouldPreserve (with_preserve [entry] cfg) path.
Proof.
  intros Hend. rewrite !shouldPreserve_existsb. cbn [preserve with_preserve existsb].
  f_equal. unfold preserve_matches. rewrite replace_backslash_app, Hend.
  change (Js.replace_backslash "/") with "/".
  assert (Js.endsWith_slash (Js.replace_backslash entry +:+ "/") = true) as ->
    by (apply endsWith_slash_iff; eauto).
  by rewrite slice_0_m1_snoc.
Qed.

Lemma shouldPreserve_trailing_slash_witness :
  shouldPreserve (with_preserve ["logs" +:+ "/"] sample_config) "logs/app.log"
    = shouldPreserve (with_preserve ["logs"] sample_config) "logs/app.log".
Proof. by apply (shouldPreserve_trailing_slash sample_config "logs" "logs/app.log"). Defined.

(** X8. An empty preserve entry, or one that is a lone separator, preserves
    only the empty path and the paths that start with a separator: it does
    not stand for "everything". *)
Theorem shouldPreserve_empty_entry (cfg : FtpDeployConfig) (entry path : string) :
  entry = "" ∨ entry = "/" ∨ entry = "\" →
  (shouldPreserve (with_preserve [entry] cfg) path = true ↔
   path = "" ∨ ∃ rest, Js.replace_backslash path = "/" +:+ rest).
Proof.
  intros Hentry. rewrite shouldPreserve_existsb. cbn [preserve with_preserve existsb].
  rewrite orb_false_r.
  assert (preserve_matches path entry
          = String.eqb (Js.replace_backslash path) ""
            || Js.startsWith "/" (Js.replace_backslash path)) as ->
    by (by destruct Hentry as [->|[->| ->]]).
  rewrite orb_true_iff, string_eqb_iff, startsWith_iff. split.
  - intros [H|H]; [left|by right]. by destruct path.
  - intros [->|H]; [by left|by right].
Qed.

Lemma shouldPreserve_empty_entry_witness :
  (shouldPreserve (with_preserve ["/"] sample_config) "index.html" = true ↔
   "index.html" = "" ∨ ∃ rest, Js.replace_backslash "index.html" = "/" +:+ rest) ∧
  shouldPreserve (with_preserve ["/"] sample_config) "index.html" = false.
Proof.
  split; [|reflexivity].
  apply (shouldPreserve_empty_entry sample_config "/" "index.html"). right. by left.
Defined.

(** ** The listing of a well-formed tree *)

Lemma lookup_entry_elem (es : rdir) (name : string) (x : rnode) :
  NoDup (fst <$> es) → (name, x) ∈ es → lookup_entry name es = Some x.
Proof.
  induction es as [|[n y] es IH]; intros Hnd Hin; [by apply elem_of_nil in Hin|].
  rewrite fmap_cons in Hnd. apply NoDup_cons in Hnd as [Hn Hnd]. cbn [fst] in Hn.
  cbn [lookup_entry]. apply elem_of_cons in Hin as [[= -> ->]|Hin].
  - by rewrite String.eqb_refl.
  - destruct (String.eqb_spec n name) as [->|?]; [|by apply IH].
    exfalso. apply Hn. by apply (list_elem_of_fmap_2 fst) in Hin.
Qed.

(** Every path of the listing leads to a regular file. *)
Lemma all_paths_node_at (n : rnode) :
  wf_node n → ∀ es, n = RDir es →
    ∀ x, x ∈ all_paths n → ∃ c, node_at x es = Some (RFile c).
Proof.
  induction n as [c|es0 IH|] using rnode_nested_ind; intros Hwf es Heq; [done| |done].
  injection Heq as ->. intros x (e & He & Hin)%elem_of_all_paths_dir.
  apply wf_node_dir in Hwf as [Hnd Hall].
  destruct e as [name item]. rewrite Forall_forall in IH, Hall.
  specialize (IH _ He). destruct (Hall _ He) as [_ Hwitem]. cbn [snd] in IH, Hwitem.
  pose proof (lookup_entry_elem es name item Hnd He) as Hl.
  destruct item as [c|sub|].
  - apply entry_paths_file_sub in Hin as ->. cbn [node_at]. rewrite Hl. by exists c.
  - apply entry_paths_dir in Hin as (_ & rest & -> & Hrest).
    destruct (IH Hwitem sub eq_refl rest Hrest) as [c Hc].
    destruct (all_paths_names _ Hwitem rest Hrest) as [Hne _].
    cbn [node_at]. rewrite Hl. destruct rest; [done|]. by exists c.
  - unfold entry_paths in Hin. cbn in Hin. destruct (is_dot name); by apply elem_of_nil in Hin.
Qed.

(** A regular file can be deleted. *)
Lemma node_at_tree_remove (segs : list string) :
  ∀ es c, node_at segs es = Some (RFile c) → is_Some (tree_remove segs es).
Proof.
  assert (Hupd : ∀ name f es x, lookup_entry name es = Some x → is_Some (f x) →
            is_Some (update_entry name f es)).
  { intros name f es x. induction es as [|[n y] es IH]; [done|]. cbn.
    destruct (String.eqb n name).
    - intros [= ->] [[r|] Hr]; rewrite Hr; by eexists.
    - intros Hl Hf. destruct (IH Hl Hf) as [r ->]. by eexists. }
  induction segs as [|name rest IH]; intros es c; [done|].
  destruct rest as [|name' rest'].
  - cbn [node_at]. destruct (lookup_entry name es) as [x|] eqn:Hl; [|done].
    destruct x as [c'|sub|]; intros [=]; subst.
    cbn [tree_remove]. eapply Hupd; [done|]. by eexists.
  - cbn [node_at]. destruct (lookup_entry name es) as [x|] eqn:Hl; [|done].
    destruct x as [c'|sub|]; [done| |done]. intros Hsub.
    change (tree_remove (name :: name' :: rest') es)
      with (update_entry name
              (fun x => match x with
                        | RDir sub => (fun sub' => Some (RDir sub')) <$> tree_remove (name' :: rest') sub
                        | _ => None
                        end) es).
    eapply Hupd; [done|]. cbv beta iota. destruct (IH sub c Hsub) as [r Hr].
    rewrite Hr. by eexists.
Qed.

(** Deleting a file leaves every other path of the listing in place. *)
Lemma tree_remove_keeps (segs : list string) :
  ∀ es es', wf_node (RDir es) → tree_remove segs es = Some es' →
    ∀ x, x ∈ all_paths (RDir es) → x ≠ segs → x ∈ all_paths (RDir es').
Proof.
  induction segs as [|name rest IH]; intros es es' Hwf Hrm; [done|].
  destruct rest as [|name' rest'].
  - cbn [tree_remove] in Hrm.
    apply update_entry_split in Hrm as (pre & x & post & -> & Hpre & Hcase).
    destruct Hcase as [[Hf ->]|(x' & Hf & _)]; [|by destruct x].
    destruct x as [c| |]; [|done..].
    intros y (e & He & Hin)%elem_of_all_paths_dir Hne. apply elem_of_all_paths_dir.
    exists e. split; [|done].
    apply elem_of_app in He as [?|He]; apply elem_of_app; [by left|right].
    apply elem_of_cons in He as [->|?]; [|done].
    by apply entry_paths_file_sub in Hin.
  - change (tree_remove (name :: name' :: rest') es)
      with (update_entry name
              (fun x => match x with
                        | RDir sub => (fun sub' => Some (RDir sub')) <$> tree_remove (name' :: rest') sub
                        | _ => None
                        end) es) in Hrm.
    apply update_entry_split in Hrm as (pre & x & post & -> & Hpre & Hcase).
    destruct x as [c|sub|]; [by destruct Hcase as [[? _]|(? & ? & _)]| |
                             by destruct Hcase as [[? _]|(? & ? & _)]].
    destruct (tree_remove (name' :: rest') sub) as [sub'|] eqn:Hsub;
      [|by destruct Hcase as [[? _]|(? & ? & _)]].
    destruct Hcase as [[[=] _]|(x' & [= <-] & ->)].
    destruct (wf_dir_entry _ _ _ _ Hwf) as [Hname Hwsub].
    intros y (e & He & Hin)%elem_of_all_paths_dir Hne. apply elem_of_all_paths_dir.
    apply elem_of_app in He as [He|He].
    { exists e. split; [apply elem_of_app; by left|done]. }
    apply elem_of_cons in He as [->|He].
    + exists (name, RDir sub'). split; [apply elem_of_app; right; left|].
      apply entry_paths_dir in Hin as (Hdot & r' & -> & Hr).
      apply entry_paths_dir. split; [done|]. exists r'. split; [done|].
      eapply IH; [done..|]. congruence.
    + exists e. split; [apply elem_of_app; right; by right|done].
Qed.

(** No path occurs twice in the listing. *)
Lemma all_paths_NoDup (n : rnode) : wf_node n → NoDup (all_paths n).
Proof.
  induction n as [c|es IH|] using rnode_nested_ind; intros Hwf; [constructor| |constructor].
  apply wf_node_dir in Hwf as [Hnd Hall]. rewrite all_paths_dir.
  induction es as [|[name item] es IHes]; [constructor|].
  apply Forall_cons in IH as [Hitem IH]. apply Forall_cons in Hall as [[_ Hwitem] Hall].
  rewrite fmap_cons in Hnd. apply NoDup_cons in Hnd as [Hname Hnd]. cbn [fst snd] in *.
  rewrite fmap_cons. cbn [mjoin list_join]. apply NoDup_app. split; [|split].
  - unfold entry_paths. cbn [fst snd]. destruct (is_dot name); [constructor|].
    destruct item as [c|sub|]; [|apply (NoDup_fmap_2 _); by apply Hitem|constructor].
    destruct (negb _); [apply NoDup_singleton|constructor].
  - intros x Hx (l & Hl & Hin)%list_elem_of_join.
    apply list_elem_of_fmap in Hin as (e & -> & He).
    apply entry_paths_head in Hx as (r & ->). apply entry_paths_head in Hl as (r' & [= Hfst _]).
    apply Hname. cbn [fst] in Hfst. rewrite Hfst. by apply (list_elem_of_fmap_2 fst).
  - by apply IHes.
Qed.

Lemma join_path_inj (x y : list string) :
  x ≠ [] → Forall name_ok x → y ≠ [] → Forall name_ok y →
  join_path "" x = join_path "" y → x = y.
Proof.
  intros Hx Hxo Hy Hyo Heq.
  rewrite <- (split_join_path x Hx Hxo), <- (split_join_path y Hy Hyo). by rewrite Heq.
Qed.

Lemma files_of_NoDup (t : rdir) : wf_tree t → NoDup (files_of t).
Proof.
  intros Hwf. unfold files_of. apply NoDup_fmap_2_strong; [|by apply all_paths_NoDup].
  intros x y Hx Hy. destruct (all_paths_names _ Hwf x Hx), (all_paths_names _ Hwf y Hy).
  by apply join_path_inj.
Qed.

(** A listed path is the text of the names that lead to the file. *)
Lemma files_of_split (t : rdir) (p : string) :
  wf_tree t → p ∈ files_of t → split_slash p ∈ all_paths (RDir t) ∧ wf_local_path p.
Proof.
  intros Hwf (x & Hx & ->)%files_of_elem.
  destruct (all_paths_names _ Hwf x Hx) as [Hne Hok].
  rewrite split_join_path by done. split; [done|].
  unfold wf_local_path. rewrite split_join_path by done.
  eapply Forall_impl; [exact Hok|]. by intros ? [? _].
Qed.

Lemma files_of_node_at (t : rdir) (p : string) :
  wf_tree t → p ∈ files_of t → ∃ c, node_at (split_slash p) t = Some (RFile c).
Proof.
  intros Hwf Hp. destruct (files_of_split t p Hwf Hp) as [Hin _].
  by eapply (all_paths_node_at (RDir t)).
Qed.

(** Deleting the listed file [f] takes exactly [f] out of the listing. *)
Lemma tree_remove_listing (f : string) (t t' : rdir) :
  wf_tree t → f ∈ files_of t → tree_remove (split_slash f) t = Some t' →
  wf_tree t' ∧ ∀ r, r ∈ files_of t' ↔ r ∈ files_of t ∧ r ≠ f.
Proof.
  intros Hwf Hf Hrm. destruct (tree_remove_files f t t' Hwf Hrm) as (Hwf' & Hnot & Hsub).
  split; [done|]. intros r. split.
  - intros Hr. split; [by apply Hsub|]. by intros ->.
  - intros [Hr Hne]. destruct (files_of_split t r Hwf Hr) as [Hin Hwr].
    apply files_of_elem. exists (split_slash r). split; [|by rewrite join_split_path].
    apply (tree_remove_keeps (split_slash f) t t' Hwf Hrm _ Hin). intros Heq. apply Hne.
    destruct (files_of_split t f Hwf Hf) as [_ Hwfp].
    by rewrite <- (join_split_path r Hwr), <- (join_split_path f Hwfp), Heq.
Qed.

(** ** Frames on the trace alone *)

Lemma trace_extends_issue (P : event → Prop) ev s :
  P ev → trace_extends P s (tick (log_event ev s)).
Proof. intros H. exists [ev]. split; [done|]. by constructor. Qed.

Lemma trace_extends_log (P : event → Prop) ev s :
  P ev → trace_extends P s (log_event ev s).
Proof. intros H. exists [ev]. split; [done|]. by constructor. Qed.

Lemma trace_extends_same (P : event → Prop) s s' :
  trace s' = trace s → trace_extends P s s'.
Proof. intros H. exists []. by rewrite app_nil_r. Qed.

Global Instance trace_extends_frame (P : event → Prop) : Frame (trace_extends P) :=
  Build_Frame (trace_extends P) P (trace_extends_preorder P)
    (trace_extends_issue P) (trace_extends_log P)
    (fun _ _ => trace_extends_same P _ _ eq_refl).
Global Instance trace_extends_remote P : AllowsRemote (trace_extends P).
Proof. intros ??. by apply trace_extends_same. Qed.
Global Instance trace_extends_uploaded P : AllowsUploaded (trace_extends P).
Proof. intros ??. by apply trace_extends_same. Qed.
Global Instance trace_extends_removed P : AllowsRemoved (trace_extends P).
Proof. intros ??. by apply trace_extends_same. Qed.
Global Instance trace_extends_unchanged P : AllowsUnchanged (trace_extends P).
Proof. intros ??. by apply trace_extends_same. Qed.
Global Instance trace_extends_error P : AllowsError (trace_extends P).
Proof. intros ??. by apply trace_extends_same. Qed.

Lemma trace_extends_weaken (P Q : event → Prop) s s' :
  (∀ ev, P ev → Q ev) → trace_extends P s s' → trace_extends Q s s'.
Proof.
  intros HPQ (evs & Heq & Hall). exists evs. split; [done|].
  eapply Forall_impl; [exact Hall|done].
Qed.

(** ** The remote listing, whatever the network does *)

(** A listing that meets failures reports part of the deployable files, in
    their order. *)
Lemma getRemoteFiles_sublist (n : rnode) :
  ∀ remoteDir s, ∃ fs,
    fst (getRemoteFiles remoteDir n s) = Ok fs ∧
    fs `sublist_of` (join_path remoteDir <$> all_paths n).
Proof.
  induction n as [c|es IH|] using rnode_nested_ind; intros remoteDir s;
    cbn [getRemoteFiles]; unfold try_catch, bind.
  - destruct (query _ s) as [[[]|?] s1]; by exists [].
  - destruct (query _ s) as [[[]|?] s1]; [|exists []; split; [done|apply sublist_nil_l]].
    clear s. revert s1.
    set (scan := fix scan (items : rdir) : M (list string) := _).
    assert (Hscan : ∀ s, ∃ fs, fst (scan es s) = Ok fs ∧
              fs `sublist_of` (join_path remoteDir <$> all_paths (RDir es))).
    { induction es as [|[name item] es IHes]; intros s; [by exists []|].
      apply Forall_cons in IH as [Hitem Hes]. specialize (IHes Hes).
      change (all_paths (RDir ((name, item) :: es)))
        with (entry_paths (name, item) ++ all_paths (RDir es)).
      rewrite fmap_app. unfold entry_paths. cbn [fst snd scan].
      destruct (is_dot name); [by apply IHes|].
      destruct item as [c|sub|]; [| |by apply IHes].
      - destruct (negb _); [|by apply IHes].
        unfold bind. destruct (IHes s) as (fs & Hfs & Hsub).
        destruct (scan es s) as [[fs'|?] s1]; [|done]. cbn in Hfs. injection Hfs as ->.
        exists (rel_join remoteDir name :: fs). split; [done|]. by constructor.
      - unfold bind. cbn [snd] in Hitem.
        destruct (Hitem (rel_join remoteDir name) s) as (sf & Hsf & Hsubf).
        destruct (getRemoteFiles (rel_join remoteDir name) (RDir sub) s) as [[sf'|?] s1];
          [|done]. cbn in Hsf. injection Hsf as ->.
        destruct (IHes s1) as (fs & Hfs & Hsub).
        destruct (scan es s1) as [[fs'|?] s2]; [|done]. cbn in Hfs. injection Hfs as ->.
        exists (sf ++ fs). split; [done|]. apply sublist_app; [|done].
        by rewrite <- list_fmap_compose. }
    intros s. destruct (Hscan s) as (fs & Hfs & Hsub). exists fs.
    by destruct (scan es s) as [[fs'|?] s1].
  - destruct (query _ s) as [[[]|?] s1]; by exists [].
Qed.

(** X9. The recursive remote listing never raises and changes nothing:
    whatever the network does, it only issues [list] calls, leaves the remote
    tree and the statistics as they are, and reports a part of the deployable
    files of the tree, in their order - all of them when no call fails. On a
    well-formed tree no path is reported twice and every reported path
    denotes a regular file of the server. *)
Theorem getRemoteFiles_sound (s : state) :
  ∃ fs, fst (getRemoteFiles_root s) = Ok fs ∧
    fs `sublist_of` files_of (remote s) ∧
    remote (snd (getRemoteFiles_root s)) = remote s ∧
    stats (snd (getRemoteFiles_root s)) = stats s ∧
    trace_extends (fun ev => ∃ d, ev = EvList d) s (snd (getRemoteFiles_root s)) ∧
    (reliable_net s → fs = files_of (remote s)) ∧
    (wf_tree (remote s) →
     NoDup fs ∧ ∀ p, p ∈ fs → ∃ c, node_at (split_slash p) (remote s) = Some (RFile c)).
Proof.
  destruct (getRemoteFiles_sublist (RDir (remote s)) "" s) as (fs & Hfs & Hsub).
  exists fs. split; [done|]. split; [done|]. split.
  { by apply (pr_getRemoteFiles_root same_remote). }
  split; [by apply getRemoteFiles_root_stats|]. split.
  { apply (pr_getRemoteFiles_root (trace_extends (fun ev => ∃ d, ev = EvList d))).
    intros d. by exists d. }
  split.
  - intros Hrel. pose proof (getRemoteFiles_root_reliable s Hrel) as Heq.
    unfold getRemoteFiles_root in Heq. congruence.
  - intros Hwf. split; [eapply sublist_NoDup; [by apply files_of_NoDup|done]|].
    intros p Hp. apply files_of_node_at; [done|]. by eapply elem_of_sublist.
Qed.

(** ** Pruning empty directories *)

Lemma no_manifest_dir_dir (es : rdir) :
  no_manifest_dir (RDir es) ↔
  Forall (fun e => (isDirectory (snd e) = true → fst e ≠ HASH_FILE_NAME)
                   ∧ no_manifest_dir (snd e)) es.
Proof.
  cbn [no_manifest_dir].
  induction es as [|[name item] es IH]; [by split; [constructor|]|].
  rewrite Forall_cons, <- IH. cbn [fst snd]. tauto.
Qed.

(** A directory without content, in the sense of the source, holds no
    deployable file. *)
Lemma hasContent_false_paths (es : rdir) :
  hasContent es = false → no_manifest_dir (RDir es) → all_paths (RDir es) = [].
Proof.
  rewrite no_manifest_dir_dir. unfold hasContent.
  induction es as [|[name item] es IH]; [done|].
  cbn [existsb fst]. intros [Hhead Hrest]%orb_false_iff [[Hdir _] Hall]%Forall_cons.
  change (all_paths (RDir ((name, item) :: es)))
    with (entry_paths (name, item) ++ all_paths (RDir es)).
  rewrite (IH Hrest Hall), app_nil_r.
  unfold entry_paths. cbn [fst snd] in *.
  destruct (is_dot name); [done|]. cbn [negb andb] in Hhead.
  apply negb_false_iff, String.eqb_eq in Hhead.
  destruct item as [c|sub|]; [|by destruct (Hdir eq_refl)|done].
  by rewrite Hhead.
Qed.

Lemma entry_paths_same_dir (name : string) (item item' : rnode) :
  isDirectory item = true → isDirectory item' = true →
  all_paths item' = all_paths item →
  entry_paths (name, item') = entry_paths (name, item).
Proof.
  destruct item, item'; try done. unfold entry_paths. cbn [fst snd]. by intros _ _ ->.
Qed.

(** What has become of a directory after [removeEmptyDirectories]: it holds
    the same deployable files, and if it was removed it held none. *)
Lemma removeEmptyDirectories_keeps cfg (n : rnode) :
  no_manifest_dir n →
  ∀ remoteDir preserveRoot s,
    match fst (removeEmptyDirectories cfg remoteDir preserveRoot n s) with
    | Ok (Some n') =>
        no_manifest_dir n' ∧ isDirectory n' = isDirectory n ∧ all_paths n' = all_paths n
    | Ok None => all_paths n = []
    | Throw _ => False
    end.
Proof.
  induction n as [c|es IH|] using rnode_nested_ind; intros Hnm remoteDir preserveRoot s;
    [done| |done].
  cbn [removeEmptyDirectories]. unfold bind at 1.
  destruct (try_catch _ _ s) as [[listed|e] s1] eqn:Hl.
  2: { revert Hl. unfold try_catch, bind. by destruct (query _ s) as [[[]|?] ?]. }
  destruct listed; cbn [negb]; [|done].
  set (each := fix each (items : rdir) : M rdir := _).
  assert (Heach : ∀ s, ∃ es', fst (each es s) = Ok es' ∧
            no_manifest_dir (RDir es') ∧ all_paths (RDir es') = all_paths (RDir es)).
  { clear s s1 Hl. apply no_manifest_dir_dir in Hnm.
    induction es as [|[name item] es IHes]; intros s; [by exists []|].
    apply Forall_cons in IH as [Hitem Hes]. apply Forall_cons in Hnm as [[Hdir Hnitem] Hnm].
    specialize (IHes Hes Hnm). cbn [fst snd] in *.
    assert (Hkeep : ∃ es', fst ((let! rest' := each es in ret ((name, item) :: rest')) s)
                           = Ok es' ∧
              no_manifest_dir (RDir es') ∧
              all_paths (RDir es') = all_paths (RDir ((name, item) :: es))).
    { unfold bind. destruct (IHes s) as (r & Hr & Hnr & Hpr).
      destruct (each es s) as [[r'|?] s']; [|done]. cbn in Hr. injection Hr as ->.
      exists ((name, item) :: r). split; [done|]. split.
      - apply no_manifest_dir_dir. constructor; [by split|by apply no_manifest_dir_dir].
      - change (all_paths (RDir ((name, item) :: r)))
          with (entry_paths (name, item) ++ all_paths (RDir r)).
        by rewrite Hpr. }
    cbn [each]. destruct item as [c|sub|]; [done| |done].
    destruct (is_dot name) eqn:Hdot; [done|].
    destruct (shouldPreserve cfg (rel_join remoteDir name)); [done|].
    unfold bind at 1.
    specialize (Hitem Hnitem (rel_join remoteDir name) false s).
    destruct (removeEmptyDirectories _ _ _ _ s) as [[r|?] s'] eqn:Hsub; [|done].
    cbn [fst] in Hitem.
    unfold bind. destruct (IHes s') as (rest' & Hr & Hnr & Hpr).
    destruct (each es s') as [[r'|?] s'']; [|done]. cbn in Hr. injection Hr as ->.
    change (all_paths (RDir ((name, RDir sub) :: es)))
      with (entry_paths (name, RDir sub) ++ all_paths (RDir es)).
    destruct r as [item'|]; cbn [fst ret].
    - destruct Hitem as (Hnitem' & Hisdir & Hpaths).
      exists ((name, item') :: rest'). split; [done|]. split.
      + apply no_manifest_dir_dir. constructor; [|by apply no_manifest_dir_dir].
        cbn [fst snd]. split; [|done]. intros _. by apply Hdir.
      + change (all_paths (RDir ((name, item') :: rest')))
          with (entry_paths (name, item') ++ all_paths (RDir rest')).
        rewrite Hpr. f_equal. apply entry_paths_same_dir; [done| |done].
        by rewrite Hisdir.
    - exists rest'. split; [done|]. split; [done|]. rewrite Hpr.
      unfold entry_paths. cbn [fst snd]. by rewrite Hdot, Hitem. }
  unfold bind at 1. destruct (Heach s1) as (es' & He & Hnes' & Hpaths).
  destruct (each es s1) as [[es''|?] s2]; [|done]. cbn in He. injection He as ->.
  unfold bind at 1. destruct (try_catch _ _ s2) as [[relisted|e] s3] eqn:Hl2.
  2: { revert Hl2. unfold try_catch, bind. by destruct (query _ s2) as [[[]|?] ?]. }
  destruct relisted; cbn [negb]; [|done].
  destruct (hasContent es') eqn:Hcontent; cbn [negb andb]; [done|].
  destruct preserveRoot; cbn [negb]; [done|].
  destruct (shouldPreserve cfg remoteDir); cbn [negb]; [done|].
  destruct (dry_run cfg); [done|].
  unfold try_catch, bind. destruct (query _ s3) as [[[]|?] ?]; cbn; [|done].
  rewrite <- Hpaths. by apply hasContent_false_paths.
Qed.

(** X10. Pruning never removes or adds a deployable file: on a tree in
    which no directory bears the name of the manifest file, whatever the
    network does and in every mode, the listing of the tree after
    [removeEmptyDirectories] is its listing before, and the call returns
    without raising and without touching the statistics. *)
Theorem removeEmptyDirectories_keeps_files (cfg : FtpDeployConfig) (s : state) :
  no_manifest_dir (RDir (remote s)) →
  fst (removeEmptyDirectories_root cfg s) = Ok tt ∧
  files_of (remote (snd (removeEmptyDirectories_root cfg s))) = files_of (remote s) ∧
  stats (snd (removeEmptyDirectories_root cfg s)) = stats s.
Proof.
  intros Hnm. split; [|split; [|apply removeEmptyDirectories_root_stats]].
  - destruct (nt_removeEmptyDirectories_root cfg s) as [[] H]. done.
  - pose proof (removeEmptyDirectories_keeps cfg (RDir (remote s)) Hnm "" true s) as Hk.
    pose proof (pr_removeEmptyDirectories same_remote cfg (RDir (remote s))
                  (fun _ => I) (fun _ _ => I) "" true s) as Hfr.
    unfold removeEmptyDirectories_root, files_of.
    destruct (removeEmptyDirectories cfg "" true (RDir (remote s)) s) as [[r|?] s'];
      cbn [fst snd] in *; [|done].
    destruct r as [[c|es'|]|]; cbn [snd]; try by rewrite Hfr.
    cbn [remote set_remote]. destruct Hk as (_ & _ & Hk). by rewrite Hk.
Qed.

Lemma removeEmptyDirectories_keeps_files_witness :
  let t := [("empty", RDir [("deeper", RDir [])]);
            ("docs", RDir [("a.txt", RFile (Blob "h1"))])] in
  let s := initial t reliable in
  remote (snd (removeEmptyDirectories_root sample_config s))
    = [("docs", RDir [("a.txt", RFile (Blob "h1"))])] ∧
  fst (removeEmptyDirectories_root sample_config s) = Ok tt ∧
  files_of (remote (snd (removeEmptyDirectories_root sample_config s))) = files_of t ∧
  stats (snd (removeEmptyDirectories_root sample_config s)) = stats s.
Proof.
  cbv zeta. split; [reflexivity|].
  apply (removeEmptyDirectories_keeps_files sample_config
           (initial [("empty", RDir [("deeper", RDir [])]);
                     ("docs", RDir [("a.txt", RFile (Blob "h1"))])] reliable)).
  cbn. repeat split; intros _; discriminate.
Defined.

(** The calls of [removeEmptyDirectories], directory by directory. *)
Lemma removeEmptyDirectories_trace cfg (n : rnode) :
  ∀ remoteDir preserveRoot,
    preserves (trace_extends (prune_event cfg))
      (removeEmptyDirectories cfg remoteDir preserveRoot n).
Proof.
  set (R := trace_extends (prune_event cfg)).
  induction n as [c|es IH|] using rnode_nested_ind; intros remoteDir preserveRoot;
    [apply (pr_ret R)| |apply (pr_ret R)].
  cbn [removeEmptyDirectories].
  assert (Hlist : preserves R
            (try_catch (query (EvList remoteDir) >> ret true) (fun _ => ret false))).
  { apply (pr_try_catch R); [|intros _; apply (pr_ret R)].
    apply (pr_bind R); [by apply (pr_query R) | intros _; apply (pr_ret R)]. }
  apply (pr_bind R); [done|]. intros listed.
  apply (pr_if R); [apply (pr_ret R)|].
  apply (pr_bind R).
  - induction es as [|[name item] es IHes]; [apply (pr_ret R)|].
    apply Forall_cons in IH as [Hitem Hes]. specialize (IHes Hes).
    destruct item; try (apply (pr_bind R); [apply IHes | intros ?; apply (pr_ret R)]).
    repeat (apply (pr_if R));
      try (apply (pr_bind R); [apply IHes | intros ?; apply (pr_ret R)]).
    apply (pr_bind R); [apply Hitem|]. intros r.
    apply (pr_bind R); [apply IHes | intros ?; apply (pr_ret R)].
  - intros es'. apply (pr_bind R); [done|]. intros relisted.
    apply (pr_if R); [apply (pr_ret R)|].
    apply (pr_if R); [|apply (pr_ret R)].
    destruct (shouldPreserve cfg remoteDir) eqn:Hpres; [apply (pr_ret R)|]. cbn [negb].
    destruct (dry_run cfg) eqn:Hdry; [apply (pr_ret R)|].
    apply (pr_try_catch R); [|intros _; apply (pr_ret R)].
    apply (pr_bind R); [apply (pr_query R); by split | intros _; apply (pr_ret R)].
Qed.

(** X11. What pruning may do on the server: besides listing directories,
    [removeEmptyDirectories] only ever calls [removeDir], never in a dry run
    and never on a directory that the preserve list protects; in a dry run
    the remote tree is left as it is. *)
Theorem removeEmptyDirectories_discipline (cfg : FtpDeployConfig) (s : state) :
  trace_extends (prune_event cfg) s (snd (removeEmptyDirectories_root cfg s)) ∧
  (dry_run cfg = true → remote (snd (removeEmptyDirectories_root cfg s)) = remote s).
Proof.
  split.
  - pose proof (removeEmptyDirectories_trace cfg (RDir (remote s)) "" true s) as Htr.
    unfold removeEmptyDirectories_root.
    destruct (removeEmptyDirectories cfg "" true (RDir (remote s)) s) as [[[[c|es'|]|]|?] s'];
      cbn [snd] in *; done.
  - intros Hdry. by destruct (pr_removeEmptyDirectories_root_dry cfg Hdry s).
Qed.

(** ** Clearing the destination on a network that does not fail *)

Lemma client_remove_listed (f : string) (s : state) :
  reliable_net s → wf_tree (remote s) → f ∈ files_of (remote s) →
  ∃ t', tree_remove (split_slash f) (remote s) = Some t' ∧
        client_remove f s = (Ok tt, set_remote t' (tick (log_event (EvRemove f) s))).
Proof.
  intros Hnet Hwf Hf. destruct (files_of_node_at _ _ Hwf Hf) as [c Hc].
  destruct (node_at_tree_remove _ _ _ Hc) as [t' Ht']. exists t'. split; [done|].
  unfold client_remove, call. by rewrite Hnet, Ht'.
Qed.

Lemma clear_loop_reliable cfg (fs : list string) :
  dry_run cfg = false → NoDup fs →
  ∀ s, reliable_net s → wf_tree (remote s) →
    (∀ f, f ∈ fs → f ∈ files_of (remote s)) →
    ∃ s', for_each fs (clear_one cfg) s = (Ok tt, s') ∧
      reliable_net s' ∧ wf_tree (remote s') ∧
      removed (stats s') = removed (stats s) ++ fs ∧
      errors (stats s') = errors (stats s) ∧
      (∀ r, r ∈ files_of (remote s') ↔ r ∈ files_of (remote s) ∧ r ∉ fs).
Proof.
  intros Hdry. induction fs as [|f fs IH]; intros Hnd s Hnet Hwf Hin.
  - exists s. rewrite app_nil_r. do 5 (split; [done|]). intros r.
    split; [intros ?; split; [done|apply not_elem_of_nil] | by intros [? _]].
  - apply NoDup_cons in Hnd as [Hf Hnd].
    destruct (client_remove_listed f s Hnet Hwf (Hin f ltac:(left))) as (t' & Hrm & Hcall).
    destruct (tree_remove_listing f _ _ Hwf (Hin f ltac:(left)) Hrm) as [Hwf' Hlist].
    set (s1 := snd (push_removed f (set_remote t' (tick (log_event (EvRemove f) s))))).
    destruct (IH Hnd s1) as (s' & Hloop & Hnet' & Hwf'' & Hrem & Herr & Hlist').
    { exact Hnet. }
    { exact Hwf'. }
    { intros g Hg. apply Hlist. split; [apply Hin; by right|]. by intros ->. }
    exists s'. split.
    { cbn [for_each]. unfold bind.
      destruct (clear_one_cases cfg f s)
        as [[? _]|[(_ & e & s0 & H0 & _)|(_ & s0 & H0 & ->)]]; [congruence|congruence|].
      rewrite Hcall in H0. injection H0 as <-. exact Hloop. }
    split; [done|]. split; [done|]. split.
    { rewrite Hrem. cbn. by rewrite <- app_assoc. }
    split; [by rewrite Herr|].
    intros r. rewrite Hlist'. change (remote s1) with t'. rewrite Hlist, not_elem_of_cons.
    tauto.
Qed.

(** X12. On a network that does not fail, clearing a well-formed
    destination in a real run deletes every listed file: afterwards the
    listing of the server is empty, [removed] has gained exactly the listing
    taken at the start, in its order, and no error is recorded. *)
Theorem clearDestination_empties (cfg : FtpDeployConfig) (s : state) :
  dry_run cfg = false → reliable_net s → wf_tree (remote s) →
  fst (clearDestination cfg s) = Ok tt ∧
  files_of (remote (snd (clearDestination cfg s))) = [] ∧
  removed (stats (snd (clearDestination cfg s)))
    = removed (stats s) ++ files_of (remote s) ∧
  errors (stats (snd (clearDestination cfg s))) = errors (stats s).
Proof.
  intros Hdry Hnet Hwf.
  pose proof (getRemoteFiles_root_reliable s Hnet) as Hlist.
  pose proof (pr_getRemoteFiles_root same_remote (fun _ => I) s) as Hrem0.
  pose proof (getRemoteFiles_root_stats s) as Hst0.
  pose proof (reliable_net_preserved _ s
                (pr_getRemoteFiles_root same_net (fun _ => I)) Hnet) as Hnet0.
  destruct (getRemoteFiles_root s) as [[fs|?] s0] eqn:Hscan; [|done].
  cbn in Hlist, Hrem0, Hst0, Hnet0. injection Hlist as ->. unfold same_remote in Hrem0.
  destruct (clear_loop_reliable cfg (files_of (remote s)) Hdry (files_of_NoDup _ Hwf) s0)
    as (s1 & Hloop & Hnet1 & Hwf1 & Hremoved & Herr & Hgone); [done|by rewrite Hrem0..|].
  assert (Hempty : all_paths (RDir (remote s1)) = []).
  { apply elem_of_nil_inv. intros x Hx.
    assert (Hin : join_path "" x ∈ files_of (remote s1))
      by (apply files_of_elem; by exists x).
    apply Hgone in Hin as [Hin Hnot]. rewrite Hrem0 in Hin. done. }
  pose proof (removeEmptyDirectories_root_stats cfg s1) as Hst2.
  pose proof (removeEmptyDirectories_root_paths cfg s1) as Hsub.
  destruct (nt_removeEmptyDirectories_root cfg s1) as [[] Hok].
  destruct (removeEmptyDirectories_root cfg s1) as [[[]|?] s2] eqn:Hprune; [|done].
  cbn [snd] in Hst2, Hsub.
  assert (Hcd : clearDestination cfg s = (Ok tt, s2)).
  { unfold clearDestination, bind. by rewrite Hscan, Hloop, Hprune. }
  rewrite Hcd. cbn [fst snd]. split; [done|]. split.
  - unfold files_of. replace (all_paths (RDir (remote s2))) with (@nil (list string)); [done|].
    symmetry. apply elem_of_nil_inv. intros x Hx. apply Hsub in Hx.
    rewrite Hempty in Hx. by apply elem_of_nil in Hx.
  - rewrite Hst2. split; [by rewrite Hremoved, Hst0 | by rewrite Herr, Hst0].
Qed.

Lemma clearDestination_empties_witness :
  let s := initial sample_tree reliable in
  fst (clearDestination sample_config s) = Ok tt ∧
  files_of (remote (snd (clearDestination sample_config s))) = [] ∧
  removed (stats (snd (clearDestination sample_config s)))
    = removed (stats s) ++ files_of (remote s) ∧
  errors (stats (snd (clearDestination sample_config s))) = errors (stats s).
Proof.
  cbv zeta.
  apply (clearDestination_empties sample_config (initial sample_tree reliable)).
  - reflexivity.
  - by intros k.
  - exact sample_tree_wf.
Defined.

(** ** The manifest file survives the clearing *)

Lemma update_entry_lookup_other (k name : string) (f : rnode → option (option rnode))
    (es es' : rdir) :
  k ≠ name → update_entry name f es = Some es' → lookup_entry k es' = lookup_entry k es.
Proof.
  intros Hne. revert es'. induction es as [|[n x] es IH]; intros es'; simpl; [done|].
  destruct (String.eqb_spec n name) as [->|Hn].
  - destruct (f x) as [[x'|]|]; [| |done]; intros [= <-]; simpl.
    + by destruct (String.eqb_spec name k) as [->|?].
    + by destruct (String.eqb_spec name k) as [->|?].
  - destruct (update_entry name f es) as [es0|]; [|done]. intros [= <-]. simpl.
    destruct (String.eqb n k); [done|]. by apply IH.
Qed.

Lemma update_entry_defined (name : string) (f : rnode → option (option rnode))
    (es es' : rdir) (x : rnode) :
  lookup_entry name es = Some x → update_entry name f es = Some es' → is_Some (f x).
Proof.
  revert es'. induction es as [|[n y] es IH]; intros es'; simpl; [done|].
  destruct (String.eqb n name).
  - intros [= ->]. destruct (f x); [by eexists|done].
  - intros Hl. destruct (update_entry name f es) as [es0|]; [|done]. intros _.
    by eapply IH.
Qed.

(** Deleting a file leaves the regular files of the root in place, except
    the one that is deleted. *)
Lemma tree_remove_keeps_root_file (k : string) (c : fcontent) (segs : list string)
    (es es' : rdir) :
  lookup_entry k es = Some (RFile c) → segs ≠ [k] →
  tree_remove segs es = Some es' → lookup_entry k es' = Some (RFile c).
Proof.
  intros Hl Hne. destruct segs as [|name [|name' rest]]; [done| |].
  - cbn [tree_remove]. intros Hup. rewrite <- Hl.
    eapply update_entry_lookup_other; [|exact Hup]. congruence.
  - change (tree_remove (name :: name' :: rest) es)
      with (update_entry name
              (fun x => match x with
                        | RDir sub => (fun sub' => Some (RDir sub')) <$> tree_remove (name' :: rest) sub
                        | _ => None
                        end) es).
    intros Hup. destruct (decide (k = name)) as [->|Hk].
    + by destruct (update_entry_defined _ _ _ _ _ Hl Hup).
    + rewrite <- Hl. by eapply update_entry_lookup_other.
Qed.

Lemma split_slash_single (f k : string) : split_slash f = [k] → f = k.
Proof. intros H. rewrite <- (concat_split_slash f), H. done. Qed.

Lemma clear_one_keeps_manifest cfg (f : string) (c : fcontent) (s : state) :
  f ≠ HASH_FILE_NAME →
  lookup_entry HASH_FILE_NAME (remote s) = Some (RFile c) →
  lookup_entry HASH_FILE_NAME (remote (snd (clear_one cfg f s))) = Some (RFile c).
Proof.
  intros Hf Hl.
  pose proof (call_tree (EvRemove f) "No such file" (tree_remove (split_slash f)) s) as Hcall.
  fold (client_remove f) in Hcall. cbv zeta in Hcall.
  destruct (clear_one_cases cfg f s)
    as [[_ ->]|[(_ & e & s1 & H1 & ->)|(_ & s1 & H1 & ->)]]; [done|..];
    rewrite H1 in Hcall; cbn [fst snd] in Hcall; cbn [snd push_error push_removed modify];
    change (remote (set_stats _ s1)) with (remote s1).
  - destruct Hcall as [(e' & _ & ->)|[[=] _]]. done.
  - destruct Hcall as [(e' & [=] & _)|[_ Hrm]].
    eapply tree_remove_keeps_root_file; [exact Hl| |exact Hrm].
    intros Heq. by apply split_slash_single in Heq.
Qed.

Lemma clear_loop_keeps_manifest cfg (fs : list string) (c : fcontent) :
  (HASH_FILE_NAME ∉ fs) →
  ∀ s, lookup_entry HASH_FILE_NAME (remote s) = Some (RFile c) →
    lookup_entry HASH_FILE_NAME (remote (snd (for_each fs (clear_one cfg) s)))
    = Some (RFile c).
Proof.
  induction fs as [|f fs IH]; intros Hnot s Hl; [done|].
  apply not_elem_of_cons in Hnot as [Hf Hnot].
  pose proof (clear_one_keeps_manifest cfg f c s ltac:(congruence) Hl) as H1.
  cbn [for_each]. unfold bind.
  destruct (clear_one cfg f s) as [[[]|?] s1]; [|done]. by apply IH.
Qed.

(** Pruning leaves the regular files of the directory it is called on where
    they are. *)
Lemma removeEmptyDirectories_keeps_root_file cfg (es : rdir) (k : string) (c : fcontent) :
  lookup_entry k es = Some (RFile c) →
  ∀ remoteDir s es',
    fst (removeEmptyDirectories cfg remoteDir true (RDir es) s) = Ok (Some (RDir es')) →
    lookup_entry k es' = Some (RFile c).
Proof.
  intros Hl remoteDir s es'. cbn [removeEmptyDirectories]. unfold bind at 1.
  destruct (try_catch _ _ s) as [[listed|e] s1]; [|done].
  destruct listed; cbn [negb]; [|by intros [= <-]].
  set (each := fix each (items : rdir) : M rdir := _).
  assert (Heach : ∀ s r, fst (each es s) = Ok r → lookup_entry k r = Some (RFile c)).
  { clear s s1. revert Hl. induction es as [|[name item] es IHes]; intros Hl s r; [done|].
    assert (Hkeep : fst ((let! rest' := each es in ret ((name, item) :: rest')) s) = Ok r →
              lookup_entry k r = Some (RFile c)).
    { unfold bind. destruct (each es s) as [[r'|?] s'] eqn:Hr; [|done].
      intros [= <-]. revert Hl. cbn [lookup_entry]. destruct (String.eqb name k); [done|].
      intros Hl. eapply IHes; [done|]. by rewrite Hr. }
    cbn [each]. destruct item as [c'|sub|]; [done| |done].
    destruct (is_dot name); [done|].
    destruct (shouldPreserve cfg (rel_join remoteDir name)); [done|].
    cbn [lookup_entry] in Hl. destruct (String.eqb name k) eqn:Hname; [done|].
    unfold bind at 1. destruct (removeEmptyDirectories _ _ _ _ s) as [[r0|?] s']; [|done].
    unfold bind. destruct (each es s') as [[rest'|?] s''] eqn:Hr; [|done].
    intros [= <-].
    assert (Hrest : lookup_entry k rest' = Some (RFile c))
      by (eapply IHes; [done|]; by rewrite Hr).
    destruct r0; [|done]. cbn [lookup_entry]. by rewrite Hname. }
  unfold bind at 1. destruct (each es s1) as [[r|?] s2] eqn:He; [|done].
  assert (Hr : lookup_entry k r = Some (RFile c)) by (eapply Heach; by rewrite He).
  unfold bind at 1. destruct (try_catch _ _ s2) as [[relisted|e] s3]; [|done].
  destruct relisted; cbn [negb]; [|by intros [= <-]].
  rewrite andb_false_r. by intros [= <-].
Qed.

(** X13. Clearing the destination never deletes the manifest: in every mode
    and whatever the network does, a regular file stored at the remote root
    under the manifest's name is still there, with its content, when
    [clearDestination] returns. *)
Theorem clearDestination_keeps_manifest (cfg : FtpDeployConfig) (s : state)
    (c : fcontent) :
  lookup_entry HASH_FILE_NAME (remote s) = Some (RFile c) →
  lookup_entry HASH_FILE_NAME (remote (snd (clearDestination cfg s))) = Some (RFile c).
Proof.
  intros Hl. unfold clearDestination, bind.
  pose proof (pr_getRemoteFiles_root same_remote (fun _ => I) s) as Hrem0.
  destruct (getRemoteFiles_root s) as [[fs|?] s0] eqn:Hscan; cbn [snd] in Hrem0;
    unfold same_remote in Hrem0; [|cbn [snd]; by rewrite Hrem0].
  assert (Hnot : HASH_FILE_NAME ∉ fs).
  { unfold getRemoteFiles_root in Hscan. by eapply getRemoteFiles_not_manifest. }
  pose proof (clear_loop_keeps_manifest cfg fs c Hnot s0 ltac:(by rewrite Hrem0)) as H1.
  destruct (for_each fs (clear_one cfg) s0) as [[[]|?] s1]; cbn [snd] in H1; [|done].
  pose proof (removeEmptyDirectories_keeps_root_file cfg (remote s1) _ c H1 "" s1) as Hp.
  unfold removeEmptyDirectories_root.
  destruct (removeEmptyDirectories cfg "" true (RDir (remote s1)) s1)
    as [[[[c'|es'|]|]|?] s2] eqn:Hprune; cbn [snd fst] in *; try done.
  - pose proof (pr_removeEmptyDirectories same_remote cfg (RDir (remote s1))
                  (fun _ => I) (fun _ _ => I) "" true s1) as Hfr.
    rewrite Hprune in Hfr. cbn in Hfr. by rewrite Hfr.
  - by apply Hp.
  - pose proof (pr_removeEmptyDirectories same_remote cfg (RDir (remote s1))
                  (fun _ => I) (fun _ _ => I) "" true s1) as Hfr.
    rewrite Hprune in Hfr. cbn in Hfr. by rewrite Hfr.
  - pose proof (pr_removeEmptyDirectories same_remote cfg (RDir (remote s1))
                  (fun _ => I) (fun _ _ => I) "" true s1) as Hfr.
    rewrite Hprune in Hfr. cbn in Hfr. by rewrite Hfr.
  - pose proof (pr_removeEmptyDirectories same_remote cfg (RDir (remote s1))
                  (fun _ => I) (fun _ _ => I) "" true s1) as Hfr.
    rewrite Hprune in Hfr. cbn in Hfr. by rewrite Hfr.
Qed.

Lemma clearDestination_keeps_manifest_witness :
  lookup_entry HASH_FILE_NAME
    (remote (snd (clearDestination sample_config (initial sample_tree reliable))))
  = Some (RFile (Json sample_manifest)).
Proof.
  by apply (clearDestination_keeps_manifest sample_config (initial sample_tree reliable)).
Defined.

(** ** The manifest store *)

Lemma remoteFileExists_frame (p : string) (s : state) :
  ∃ b, fst (remoteFileExists p s) = Ok b ∧ remote (snd (remoteFileExists p s)) = remote s.
Proof.
  pose proof (pr_remoteFileExists same_remote p I s) as Hrem.
  destruct (nt_remoteFileExists p s) as [b Hb]. by exists b.
Qed.

(** X14. [loadRemoteHashes] yields the manifest stored on the server or the
    empty manifest, and nothing else: whatever the network does it returns
    without raising, a result that is not empty is the JSON object stored at
    the remote root under the manifest's name - its members assigned onto an
    empty object, which drops a member called [__proto__] and nothing else -
    and the call changes neither the remote tree nor the statistics and
    issues no call that modifies remote content. *)
Theorem loadRemoteHashes_total (cfg : FtpDeployConfig) (s : state) :
  ∃ m, fst (loadRemoteHashes cfg s) = Ok m ∧
    (m = ∅ ∨
     ∃ m0, lookup_entry HASH_FILE_NAME (remote s) = Some (RFile (Json m0)) ∧
           m = Js.assign ∅ m0 ∧ m = delete "__proto__" m0) ∧
    remote (snd (loadRemoteHashes cfg s)) = remote s ∧
    stats (snd (loadRemoteHashes cfg s)) = stats s ∧
    trace_extends (fun ev => mutating ev = false) s (snd (loadRemoteHashes cfg s)).
Proof.
  destruct (nt_loadRemoteHashes cfg s) as [m Hm]. exists m. split; [done|].
  split; [|split; [|split]].
  - revert Hm. unfold loadRemoteHashes, bind.
    destruct (remoteFileExists_frame HASH_FILE_NAME s) as (b & Hb & Hrem).
    destruct (remoteFileExists HASH_FILE_NAME s) as [[b'|?] s1]; [|done].
    cbn [fst snd] in Hb, Hrem. injection Hb as ->.
    destruct b; [|intros [= <-]; by left].
    unfold try_catch, bind.
    pose proof (executeWithRetry_call cfg (EvDownloadTo HASH_FILE_NAME)
                  (fun t => match node_at (split_slash HASH_FILE_NAME) t with
                            | Some (RFile c) => inr (c, t)
                            | _ => inl (ftp_error "No such file")
                            end) s1) as Hcall.
    fold (client_downloadTo HASH_FILE_NAME) in Hcall.
    destruct (executeWithRetry cfg (client_downloadTo HASH_FILE_NAME) s1)
      as [[c|?] s2]; [|intros [= <-]; by left].
    destruct Hcall as (t' & Hop & _).
    change (split_slash HASH_FILE_NAME) with [HASH_FILE_NAME] in Hop.
    rewrite node_at_root, Hrem in Hop.
    destruct (lookup_entry HASH_FILE_NAME (remote s)) as [[c0| |]|] eqn:Hl; try done.
    injection Hop as -> _.
    destruct c as [d|m0]; cbn; intros [= <-]; [by left|right].
    exists m0. split; [done|]. split; [done|]. apply Js_assign_empty.
  - exact (pr_loadRemoteHashes same_remote cfg (fun _ _ => I) s).
  - apply loadRemoteHashes_stats.
  - by apply (pr_loadRemoteHashes (trace_extends (fun ev => mutating ev = false)) cfg).
Qed.

Lemma tree_upload_root_other (name k : string) (c : fcontent) (t t' : rdir) :
  k ≠ name → tree_upload [name] c t = Some t' → lookup_entry k t' = lookup_entry k t.
Proof.
  intros Hne. cbn [tree_upload]. destruct (lookup_entry name t) eqn:Hl.
  - by apply update_entry_lookup_other.
  - intros [= <-]. clear Hl. induction t as [|[n y] t IH]; cbn.
    + by destruct (String.eqb_spec name k) as [->|?].
    + by rewrite IH.
Qed.

(** X15. [saveRemoteHashes] writes the manifest and nothing else. When it
    returns, the manifest file at the remote root holds the JSON text of the
    manifest it was given, every other entry of the root and the listing of
    deployable files are what they were, and the statistics are untouched;
    when it raises, the remote tree is what it was. *)
Theorem saveRemoteHashes_only_manifest (cfg : FtpDeployConfig)
    (m : gmap string string) (s : state) :
  stats (snd (saveRemoteHashes cfg m s)) = stats s ∧
  match fst (saveRemoteHashes cfg m s) with
  | Ok _ =>
      lookup_entry HASH_FILE_NAME (remote (snd (saveRemoteHashes cfg m s)))
        = Some (RFile (Json m)) ∧
      (∀ k, k ≠ HASH_FILE_NAME →
         lookup_entry k (remote (snd (saveRemoteHashes cfg m s)))
         = lookup_entry k (remote s)) ∧
      files_of (remote (snd (saveRemoteHashes cfg m s))) = files_of (remote s)
  | Throw _ => remote (snd (saveRemoteHashes cfg m s)) = remote s
  end.
Proof.
  split.
  { apply executeWithRetry_stats. intros s0. apply client_uploadFrom_stats. }
  pose proof (executeWithRetry_call cfg (EvUploadFrom (Json m) HASH_FILE_NAME)
                (fun t => of_option "Cannot store file"
                   (pair tt <$> tree_upload (split_slash HASH_FILE_NAME) (Json m) t)) s)
    as Hcall.
  fold (client_uploadFrom (Json m) HASH_FILE_NAME) in Hcall.
  unfold saveRemoteHashes.
  destruct (executeWithRetry cfg (client_uploadFrom (Json m) HASH_FILE_NAME) s)
    as [[[]|?] s']; cbn [fst snd]; [|done].
  destruct Hcall as (t' & Hop & ->).
  change (split_slash HASH_FILE_NAME) with [HASH_FILE_NAME] in Hop.
  destruct (tree_upload [HASH_FILE_NAME] (Json m) (remote s)) as [t0|] eqn:Hup; [|done].
  cbn in Hop. injection Hop as ->.
  split; [by eapply tree_upload_root_lookup|]. split.
  - intros k Hk. by eapply tree_upload_root_other.
  - unfold files_of. by rewrite (tree_upload_manifest_paths _ _ _ Hup).
Qed.

(** ** The orchestrator: bookkeeping and edge cases *)

(** What one iteration of the upload loop records. *)
Lemma upload_one_record cfg lh (p h : string) (m : gmap string string) (s : state) :
  ∃ m1 s1, upload_one cfg lh (p, h) m s = (Ok m1, s1) ∧
    removed (stats s1) = removed (stats s) ∧
    ((uploaded (stats s1) = uploaded (stats s) ++ [p] ∧
      unchanged (stats s1) = unchanged (stats s) ∧ errors (stats s1) = errors (stats s)) ∨
     (uploaded (stats s1) = uploaded (stats s) ∧
      unchanged (stats s1) = unchanged (stats s) ++ [p] ∧
      errors (stats s1) = errors (stats s)) ∨
     (∃ e, uploaded (stats s1) = uploaded (stats s) ∧
      unchanged (stats s1) = unchanged (stats s) ∧
      errors (stats s1) = errors (stats s) ++ [upload_message p e] ∧
      dry_run cfg = false)).
Proof.
  destruct (upload_one_cases cfg lh p h m s)
    as [[_ ->]|[(_ & _ & ->)|[(_ & Hd & e & s1 & H1 & ->)|
        [(_ & Hd & s1 & e & s2 & H1 & H2 & ->)|(_ & _ & s1 & s2 & H1 & H2 & ->)]]]];
    eexists _, _; (split; [reflexivity|]).
  - split; [done|]. right. by left.
  - split; [done|]. by left.
  - assert (Hs1 : stats s1 = stats s).
    { replace s1 with (snd (client_ensureDir p s)) by (by rewrite H1).
      apply client_ensureDir_stats. }
    cbn. rewrite Hs1. split; [done|]. right. right. by exists e.
  - assert (Hs2 : stats s2 = stats s).
    { replace s2 with (snd (client_uploadFrom (Blob h) p s1)) by (by rewrite H2).
      rewrite client_uploadFrom_stats.
      replace s1 with (snd (client_ensureDir p s)) by (by rewrite H1).
      apply client_ensureDir_stats. }
    cbn. rewrite Hs2. split; [done|]. right. right. by exists e.
  - assert (Hs2 : stats s2 = stats s).
    { replace s2 with (snd (client_uploadFrom (Blob h) p s1)) by (by rewrite H2).
      rewrite client_uploadFrom_stats.
      replace s1 with (snd (client_ensureDir p s)) by (by rewrite H1).
      apply client_ensureDir_stats. }
    cbn. rewrite Hs2. split; [done|]. by left.
Qed.

(** X16. The upload loop accounts for every local file exactly once: each
    local path is appended to [uploaded], or to [unchanged], or has its
    failure appended to [errors] as a "Failed to upload" message - the three
    groups together are a rearrangement of the local paths - and the loop
    itself never raises and never touches [removed]. In a dry run no file
    fails. *)
Theorem upload_phase_accounts (cfg : FtpDeployConfig) (lh : gmap string string)
    (files : list (string * string)) (m : gmap string string) (s : state) :
  ∃ m' lu lc lf le,
    let s' := snd (upload_phase cfg lh files m s) in
    fst (upload_phase cfg lh files m s) = Ok m' ∧
    uploaded (stats s') = uploaded (stats s) ++ lu ∧
    unchanged (stats s') = unchanged (stats s) ++ lc ∧
    errors (stats s') = errors (stats s) ++ le ∧
    removed (stats s') = removed (stats s) ∧
    (fst <$> files) ≡ₚ lu ++ lc ++ lf ∧
    Forall2 (fun msg p => ∃ e, msg = upload_message p e) le lf ∧
    (dry_run cfg = true → lf = []).
Proof.
  cbv zeta. revert m s. induction files as [|[p h] files IH]; intros m s.
  - exists m, [], [], [], []. rewrite !app_nil_r. by repeat split.
  - destruct (upload_one_record cfg lh p h m s) as (m1 & s1 & H1 & Hrem & Hcase).
    destruct (IH m1 s1) as (m' & lu & lc & lf & le & Hok & Hu & Hc & He & Hr & Hperm & Hmsg & Hdry).
    assert (Hstep : upload_phase cfg lh ((p, h) :: files) m s = upload_phase cfg lh files m1 s1).
    { unfold upload_phase. cbn [fold_M]. unfold bind. by rewrite H1. }
    rewrite Hstep. rewrite fmap_cons. cbn [fst].
    destruct Hcase as [(Hu1 & Hc1 & He1)|[(Hu1 & Hc1 & He1)|(e & Hu1 & Hc1 & He1 & Hd1)]].
    + exists m', (p :: lu), lc, lf, le. rewrite Hu, Hc, He, Hr, Hu1, Hc1, He1, Hrem.
      rewrite <- !app_assoc. repeat split; try done. cbn. by constructor.
    + exists m', lu, (p :: lc), lf, le. rewrite Hu, Hc, He, Hr, Hu1, Hc1, He1, Hrem.
      rewrite <- !app_assoc. repeat split; try done.
      rewrite Hperm. apply Permutation_middle.
    + exists m', lu, lc, (p :: lf), (upload_message p e :: le).
      rewrite Hu, Hc, He, Hr, Hu1, Hc1, He1, Hrem.
      rewrite <- !app_assoc. repeat split; try done.
      * rewrite Hperm, !app_assoc. apply Permutation_middle.
      * constructor; [by exists e|done].
      * intros ?. congruence.
Qed.

Lemma same_transfers_preorder : PreOrder same_transfers.
Proof.
  split; [by intros ?|]. intros ??? [H1 H2] [H3 H4]. unfold same_transfers.
  split; congruence.
Qed.

Global Instance same_transfers_frame : Frame same_transfers :=
  Build_Frame same_transfers (fun _ => True) same_transfers_preorder
    (fun _ _ _ => conj eq_refl eq_refl) (fun _ _ _ => conj eq_refl eq_refl)
    (fun _ _ => conj eq_refl eq_refl).
Global Instance same_transfers_remote : AllowsRemote same_transfers.
Proof. by intros ??. Qed.
Global Instance same_transfers_removed : AllowsRemoved same_transfers.
Proof. by intros ??. Qed.
Global Instance same_transfers_error : AllowsError same_transfers.
Proof. by intros ??. Qed.

(** How [deploy] ends when the plan raises. *)
Lemma deploy_after_throw cfg l s e s1 :
  deploy_plan cfg l s = (Throw e, s1) →
  deploy cfg l s
  = (Ok (with_error (critical_message e) (stats s1)),
     client_close (snd (push_error (critical_message e) s1))).
Proof.
  intros Hplan. unfold deploy, try_finally, try_catch, deploy_body, bind.
  by rewrite Hplan.
Qed.

Section NoClean.
Context (cfg : FtpDeployConfig).
Hypothesis no_clean : clean_remote_files cfg = false.
Hypothesis no_clear : clear_destination cfg = false.

Lemma pr_deploy_no_clean (R : relation state) `{!Frame R} `{!AllowsRemote R}
    `{!AllowsUploaded R} `{!AllowsUnchanged R} `{!AllowsError R} l :
  (∀ ev, deletion ev = false → quiet ev) →
  preserves R (deploy cfg l).
Proof.
  intros Hq.
  assert (Hreads : ∀ ev, mutating ev = false → quiet ev).
  { intros ev Hev. apply Hq. by destruct ev. }
  apply (pr_deploy R cfg Hreads).
  - apply (pr_gather R cfg Hreads). congruence.
  - intros lh fs m. apply (pr_fold_M R). intros [p h] m0 _.
    apply (pr_upload_one R cfg). intros _. split; by apply Hq.
  - intros lh rf m. unfold clean_phase. destruct rf; [|apply (pr_ret R)].
    rewrite no_clean. apply (pr_ret R).
  - intros m. apply (pr_persist R cfg Hreads). intros _. by apply Hq.
Qed.

End NoClean.

(** X17. Without clean mode and without clear-destination [deploy] deletes
    nothing: it issues no [remove] and no [removeDir] call, for every local
    tree and whatever the network does, and [removed] is left as it was. *)
Theorem deploy_without_clean_never_deletes (cfg : FtpDeployConfig)
    (l : local_snapshot) (s : state) :
  clean_remote_files cfg = false → clear_destination cfg = false →
  removed (stats (snd (deploy cfg l s))) = removed (stats s) ∧
  trace_extends (fun ev => deletion ev = false) s (snd (deploy cfg l s)).
Proof.
  intros Hclean Hclear. split.
  - by apply (pr_deploy_no_clean cfg Hclean Hclear same_removed).
  - by apply (pr_deploy_no_clean cfg Hclean Hclear
                (trace_extends (fun ev => deletion ev = false))).
Qed.

Lemma deploy_without_clean_never_deletes_witness :
  let s := initial sample_tree reliable in
  removed (stats (snd (deploy sample_config (inr sample_files) s))) = removed (stats s) ∧
  trace_extends (fun ev => deletion ev = false) s
    (snd (deploy sample_config (inr sample_files) s)).
Proof.
  by apply (deploy_without_clean_never_deletes sample_config (inr sample_files)
              (initial sample_tree reliable)).
Defined.

(** X18. When the connection cannot be opened, [deploy] does nothing else:
    the only calls are the failed [access] and the final [close], the remote
    tree is untouched, and the returned record is the one the run started
    with plus one "Critical error" message that carries the connection
    error. *)
Theorem deploy_connect_failure (cfg : FtpDeployConfig) (l : local_snapshot)
    (s : state) (e : error) :
  net s (calls s) = Some e →
  fst (deploy cfg l s) = Ok (with_error (critical_message e) (stats s)) ∧
  stats (snd (deploy cfg l s)) = with_error (critical_message e) (stats s) ∧
  remote (snd (deploy cfg l s)) = remote s ∧
  trace (snd (deploy cfg l s)) = trace s ++ [EvAccess; EvClose] ∧
  connected (snd (deploy cfg l s)) = false.
Proof.
  intros Hnet.
  assert (Hplan : deploy_plan cfg l s = (Throw e, tick (log_event EvAccess s))).
  { unfold deploy_plan, gather, bind, client_access, bind, query, call. by rewrite Hnet. }
  rewrite (deploy_after_throw _ _ _ _ _ Hplan). cbn. by rewrite <- app_assoc.
Qed.

Lemma deploy_connect_failure_witness :
  let s := initial sample_tree unreachable in
  fst (deploy sample_config (inr sample_files) s)
    = Ok (with_error (critical_message econnreset) (stats s)) ∧
  stats (snd (deploy sample_config (inr sample_files) s))
    = with_error (critical_message econnreset) (stats s) ∧
  remote (snd (deploy sample_config (inr sample_files) s)) = remote s ∧
  trace (snd (deploy sample_config (inr sample_files) s)) = trace s ++ [EvAccess; EvClose] ∧
  connected (snd (deploy sample_config (inr sample_files) s)) = false.
Proof.
  by apply (deploy_connect_failure sample_config (inr sample_files)
              (initial sample_tree unreachable) econnreset).
Defined.

(** The first half of the run when the local scan raises. *)
Lemma gather_scan_failure cfg (e : error) (s : state) :
  ∃ e' s1, gather cfg (inl e) s = (Throw e', s1) ∧ (net s (calls s) = None → e' = e).
Proof.
  unfold gather, bind at 1.
  destruct (client_access s) as [[[]|e0] s0] eqn:Hacc.
  2: { exists e0, s0. split; [done|]. intros Hnet. revert Hacc.
       unfold client_access, bind, query, call. rewrite Hnet. done. }
  unfold bind at 1.
  assert (Hclear : ∃ s1, (if clear_destination cfg then clearDestination cfg else ret tt) s0
                         = (Ok tt, s1)).
  { destruct (clear_destination cfg); [|by exists s0].
    destruct (nt_clearDestination cfg s0) as [[] H].
    destruct (clearDestination cfg s0) as [[[]|?] s1]; [by exists s1|done]. }
  destruct Hclear as [s1 ->]. unfold bind at 1.
  destruct (nt_loadRemoteHashes cfg s1) as [m Hm].
  destruct (loadRemoteHashes cfg s1) as [[m'|?] s2]; [|done].
  exists e, s2. by split.
Qed.

(** X19. When the local scan raises, nothing is uploaded and the manifest
    is not saved: [deploy] issues no [ensureDir] and no [uploadFrom] call,
    leaves [uploaded] and [unchanged] as they were, and ends its [errors]
    with a "Critical error" message - the one of the scan error when the
    connection could be opened. (The clearing of the destination, when it is
    enabled, has taken place by then.) *)
Theorem deploy_scan_failure (cfg : FtpDeployConfig) (e : error) (s : state) :
  (∃ e', last (errors (stats (snd (deploy cfg (inl e) s)))) = Some (critical_message e') ∧
         (net s (calls s) = None → e' = e)) ∧
  uploaded (stats (snd (deploy cfg (inl e) s))) = uploaded (stats s) ∧
  unchanged (stats (snd (deploy cfg (inl e) s))) = unchanged (stats s) ∧
  trace_extends (fun ev => storing ev = false) s (snd (deploy cfg (inl e) s)).
Proof.
  destruct (gather_scan_failure cfg e s) as (e' & s1 & Hg & He').
  assert (Hplan : deploy_plan cfg (inl e) s = (Throw e', s1)).
  { unfold deploy_plan, bind. by rewrite Hg. }
  assert (Hgather : ∀ (R : relation state) `{!Frame R} `{!AllowsRemote R}
            `{!AllowsRemoved R} `{!AllowsError R},
            (∀ ev, storing ev = false → quiet ev) → R s s1).
  { intros R ? ? ? ? Hq.
    assert (Hreads : ∀ ev, mutating ev = false → quiet ev).
    { intros ev Hev. apply Hq. by destruct ev. }
    replace s1 with (snd (gather cfg (inl e) s)) by (by rewrite Hg).
    apply (pr_gather R cfg Hreads). intros _.
    apply (pr_clearDestination R cfg Hreads).
    - intros f. apply (pr_clear_one R cfg). intros _. by apply Hq.
    - apply (pr_removeEmptyDirectories_root R cfg Hreads). intros _ d. by apply Hq. }
  rewrite (deploy_after_throw _ _ _ _ _ Hplan). cbn [snd fst].
  change (stats (client_close ?x)) with (stats x). cbn [push_error modify snd stats set_stats].
  split; [|split; [|split]].
  - exists e'. split; [|done]. cbn. by rewrite last_snoc.
  - cbn. by apply (Hgather same_transfers _ _ _ _).
  - cbn. by apply (Hgather same_transfers _ _ _ _).
  - etrans; [apply (Hgather (trace_extends (fun ev => storing ev = false)) _ _ _ _); done|].
    exists [EvClose]. split; [done|]. by constructor.
Qed.

(** X20. The hand-over of the manifest between two real runs. Once the
    plan of a real run has been carried out, either the manifest working
    copy is stored on the server - then no "Critical error" is added, and on
    a network that does not fail the next run loads exactly that working
    copy - or the saving raised: then a "Critical error" message is added and
    the remote tree is as the plan left it. *)
Theorem deploy_hands_over_manifest (cfg : FtpDeployConfig) (l : local_snapshot)
    (s s1 : state) (M : gmap string string) :
  dry_run cfg = false →
  deploy_plan cfg l s = (Ok M, s1) →
  (errors (stats (snd (deploy cfg l s))) = errors (stats s1) ∧
   lookup_entry HASH_FILE_NAME (remote (snd (deploy cfg l s))) = Some (RFile (Json M)) ∧
   fst (loadRemoteHashes cfg (initial (remote (snd (deploy cfg l s))) reliable)) = Ok M) ∨
  (∃ e, errors (stats (snd (deploy cfg l s))) = errors (stats s1) ++ [critical_message e] ∧
        remote (snd (deploy cfg l s)) = remote s1).
Proof.
  intros Hdry Hplan.
  pose proof (persist_stats cfg M s1) as Hst.
  pose proof (executeWithRetry_call cfg (EvUploadFrom (Json M) HASH_FILE_NAME)
                (fun t => of_option "Cannot store file"
                   (pair tt <$> tree_upload (split_slash HASH_FILE_NAME) (Json M) t)) s1)
    as Hcall.
  fold (client_uploadFrom (Json M) HASH_FILE_NAME) in Hcall.
  fold (saveRemoteHashes cfg M) in Hcall.
  assert (Hpersist : persist cfg M = saveRemoteHashes cfg M)
    by (unfold persist; by rewrite Hdry).
  unfold deploy, try_finally, try_catch, deploy_body, bind. rewrite Hplan, Hpersist.
  rewrite Hpersist in Hst.
  destruct (saveRemoteHashes cfg M s1) as [[[]|e] s2] eqn:Hsave;
    unfold get_stats; cbn [fst snd] in *.
  - left. change (stats (client_close s2)) with (stats s2).
    change (remote (client_close s2)) with (remote s2).
    pose proof (saveRemoteHashes_stores cfg M s1 s2 Hsave) as Hstored.
    split; [by rewrite Hst|]. split; [done|].
    rewrite (loadRemoteHashes_reads cfg M (initial (remote s2) reliable) Hstored
               (fun _ => eq_refl) (executeWithRetry_positive _ _ _ _ _ Hsave)).
    f_equal. apply Js_assign_empty_id. by eapply deploy_plan_no_proto.
  - right. exists e. cbn. by rewrite Hst.
Qed.

Lemma deploy_hands_over_manifest_witness :
  let cfg := with_clean true sample_config in
  let s := initial sample_tree reliable in
  ∃ M s1, deploy_plan cfg (inr sample_files) s = (Ok M, s1) ∧
    ((errors (stats (snd (deploy cfg (inr sample_files) s))) = errors (stats s1) ∧
      lookup_entry HASH_FILE_NAME (remote (snd (deploy cfg (inr sample_files) s)))
        = Some (RFile (Json M)) ∧
      fst (loadRemoteHashes cfg
             (initial (remote (snd (deploy cfg (inr sample_files) s))) reliable)) = Ok M) ∨
     (∃ e, errors (stats (snd (deploy cfg (inr sample_files) s)))
             = errors (stats s1) ++ [critical_message e] ∧
           remote (snd (deploy cfg (inr sample_files) s)) = remote s1)).
Proof.
  cbv zeta. eexists _, _. split; [by vm_compute|].
  apply (deploy_hands_over_manifest (with_clean true sample_config) (inr sample_files)
           (initial sample_tree reliable)); [reflexivity|by vm_compute].
Defined.

(** X21. A negative [max_retries] makes every real run fail at its end: the
    manifest can never be saved (the retry loop runs no attempt), so [deploy]
    always ends its [errors] with a "Critical error" message, whatever was
    uploaded before. *)
Theorem deploy_negative_retries (cfg : FtpDeployConfig) (l : local_snapshot) (s : state) :
  dry_run cfg = false → (max_retries cfg < 0)%Z →
  ∃ e, last (errors (stats (snd (deploy cfg l s)))) = Some (critical_message e).
Proof.
  intros Hdry Hneg.
  destruct (deploy_plan cfg l s) as [[M|e] s1] eqn:Hplan.
  - assert (Hsave : persist cfg M s1
                    = (Throw (exhausted_error (max_retries cfg)), s1)).
    { unfold persist. rewrite Hdry.
      unfold saveRemoteHashes, executeWithRetry, or_default.
      replace (max_retries cfg =? 0)%Z with false by (symmetry; apply Z.eqb_neq; lia).
      unfold executeWithRetry_n. by replace (Z.to_nat (max_retries cfg)) with 0 by lia. }
    exists (exhausted_error (max_retries cfg)).
    unfold deploy, try_finally, try_catch, deploy_body, bind. rewrite Hplan, Hsave.
    cbn. by rewrite last_snoc.
  - exists e. rewrite (deploy_after_throw _ _ _ _ _ Hplan). cbn. by rewrite last_snoc.
Qed.

Lemma deploy_negative_retries_witness :
  ∃ e, last (errors (stats (snd (deploy (with_max_retries (-1) sample_config)
                                   (inr sample_files) (initial sample_tree reliable)))))
       = Some (critical_message e).
Proof.
  by apply (deploy_negative_retries (with_max_retries (-1) sample_config)).
Defined.

(** ** The command line *)

(** X22. On the command line the mode flags always win over the
    configuration file: whenever the options object defines [clean],
    [clearDestination], [dryRun] and [reconnect] - the argument parser always
    does, with the defaults [false], [false], [false] and [true] - the
    deployer is constructed with exactly those values, whatever the file
    says; so a file that asks for clean mode or for a dry run only is not
    obeyed unless the flag is repeated on the command line. *)
Theorem finalConfig_flags (resolve trim : string → string) (config : PartialConfig)
    (options : CLIConfig) (clean clear dry rec : bool) :
  opt_clean options = Some clean →
  opt_clearDestination options = Some clear →
  opt_dryRun options = Some dry →
  opt_reconnect options = Some rec →
  clean_remote_files (construct (finalConfig resolve trim config options)) = clean ∧
  clear_destination (construct (finalConfig resolve trim config options)) = clear ∧
  dry_run (construct (finalConfig resolve trim config options)) = dry ∧
  reconnect (construct (finalConfig resolve trim config options)) = rec.
Proof.
  intros H1 H2 H3 H4. unfold construct, finalConfig.
  cbn [pc_clean_remote_files pc_clear_destination pc_dry_run pc_reconnect
       clean_remote_files clear_destination dry_run reconnect].
  by rewrite H1, H2, H3, H4.
Qed.

Lemma finalConfig_flags_witness :
  pc_dry_run documented_config = Some true ∧
  pc_clean_remote_files documented_config = Some true ∧
  let cfg := construct (finalConfig id id documented_config
                          (only_config_option "deploy-ftp.json")) in
  clean_remote_files cfg = false ∧ clear_destination cfg = false ∧
  dry_run cfg = false ∧ reconnect cfg = true.
Proof.
  split; [reflexivity|]. split; [reflexivity|].
  by apply (finalConfig_flags id id documented_config
              (only_config_option "deploy-ftp.json")).
Defined.

Section ExitCode.
Context (resolve trim : string → string) (existsSync : string → bool)
  (readConfig : string → option PartialConfig) (scan : string → local_snapshot)
  (server : rdir) (failures : nat → option error).

Lemma prepare_run (options : CLIConfig) (final : PartialConfig) :
  prepare resolve trim existsSync readConfig options = Run final →
  Js.truthy (pc_host final) = true ∧ Js.truthy (pc_user final) = true ∧
  Js.truthy (pc_password final) = true ∧ Js.truthy (pc_local_dir final) = true ∧
  Js.truthy (pc_remote_dir final) = true ∧
  existsSync (default "" (pc_local_dir final)) = true.
Proof.
  unfold prepare. destruct (if Js.truthy (opt_config options) then _ else _) as [config|];
    [|done].
  cbv zeta. set (f := finalConfig resolve trim config options).
  destruct (Js.truthy (pc_host f)) eqn:H1; [|done].
  destruct (Js.truthy (pc_user f)) eqn:H2; [|done].
  destruct (Js.truthy (pc_password f)) eqn:H3; [|done].
  destruct (Js.truthy (pc_local_dir f)) eqn:H4; [|done].
  destruct (Js.truthy (pc_remote_dir f)) eqn:H5; [|done].
  destruct (existsSync (default "" (pc_local_dir f))) eqn:H6; [|done].
  cbn [negb]. intros [= <-]. by rewrite H1, H2, H3, H4, H5, H6.
Qed.

(** X23. The exit code of the command line is 0 or 1, and it is 0 only
    when the five required settings were present, the local directory
    existed, and the run recorded no error; a run whose connection cannot be
    opened exits with 1. *)
Theorem main_exit_code (options : CLIConfig) :
  (main resolve trim existsSync readConfig scan server failures options = 0%Z ∨
   main resolve trim existsSync readConfig scan server failures options = 1%Z) ∧
  (main resolve trim existsSync readConfig scan server failures options = 0%Z →
   ∃ final st,
     prepare resolve trim existsSync readConfig options = Run final ∧
     Js.truthy (pc_host final) = true ∧ Js.truthy (pc_user final) = true ∧
     Js.truthy (pc_password final) = true ∧ Js.truthy (pc_local_dir final) = true ∧
     Js.truthy (pc_remote_dir final) = true ∧
     existsSync (default "" (pc_local_dir final)) = true ∧
     fst (deploy (construct final) (scan (default "" (pc_local_dir final)))
            (initial server failures)) = Ok st ∧
     errors st = []) ∧
  (∀ e, failures 0 = Some e →
        main resolve trim existsSync readConfig scan server failures options = 1%Z).
Proof.
  unfold main. destruct (prepare resolve trim existsSync readConfig options) as [why|final] eqn:Hprep.
  { split; [by right|]. split; [done|done]. }
  set (r := deploy (construct final) (scan (default "" (pc_local_dir final)))
              (initial server failures)).
  split; [|split].
  - destruct (fst r) as [st|?]; [|by right]. unfold exit_code.
    destruct (0 <? _)%nat; [by right|by left].
  - intros H0. exists final.
    destruct (fst r) as [st|?] eqn:Hr; [|done]. exists st. split; [done|].
    destruct (prepare_run options final Hprep) as (? & ? & ? & ? & ? & ?).
    do 6 (split; [done|]). split; [done|].
    unfold exit_code in H0. by destruct (errors st).
  - intros e He.
    assert (Hplan : deploy_plan (construct final) (scan (default "" (pc_local_dir final)))
                      (initial server failures)
                    = (Throw e, tick (log_event EvAccess (initial server failures)))).
    { unfold deploy_plan, gather, bind, client_access, bind, query, call.
      cbn [net calls initial]. by rewrite He. }
    subst r. rewrite (deploy_after_throw _ _ _ _ _ Hplan). reflexivity.
Qed.

End ExitCode.

(** ** What a run without clear-destination spares *)

Lemma removeEmptyDirectories_root_trace cfg s :
  trace_extends (prune_event cfg) s (snd (removeEmptyDirectories_root cfg s)).
Proof.
  pose proof (removeEmptyDirectories_trace cfg (RDir (remote s)) "" true s) as Htr.
  unfold removeEmptyDirectories_root.
  by destruct (removeEmptyDirectories cfg "" true (RDir (remote s)) s) as [[[[c|es'|]|]|?] s'].
Qed.

Lemma pr_clean_phase_spares cfg lh rf m :
  preserves (trace_extends (spares_preserved cfg)) (clean_phase cfg lh rf m).
Proof.
  set (R := trace_extends (spares_preserved cfg)).
  assert (Hreads : ∀ ev, mutating ev = false → @quiet R _ ev) by (by intros []).
  unfold clean_phase. destruct rf as [rf|]; [|apply (pr_ret R)].
  apply (pr_if R); [|apply (pr_ret R)]. cbv zeta.
  apply (pr_bind R).
  - apply (pr_fold_M R). intros f m0 [_ Hf]%filesToRemove_spec.
    by apply (pr_remove_one R cfg Hreads).
  - intros m'. apply (pr_bind R); [|intros ?; apply (pr_ret R)].
    apply (pr_if R); [|apply (pr_ret R)]. intros s.
    eapply trace_extends_weaken; [|apply removeEmptyDirectories_root_trace].
    intros [] Hev; try done. by destruct Hev.
Qed.

(** ** The record only grows *)

Global Instance stats_grow_frame : Frame stats_grow :=
  Build_Frame stats_grow (fun _ => True) stats_grow_preorder
    (fun _ _ _ => stats_grow_same _ _ eq_refl) (fun _ _ _ => stats_grow_same _ _ eq_refl)
    (fun _ _ => stats_grow_same _ _ eq_refl).
Global Instance stats_grow_allows_remote : AllowsRemote stats_grow.
Proof. intros ??. by apply stats_grow_same. Qed.
Global Instance stats_grow_allows_uploaded : AllowsUploaded stats_grow.
Proof. intros q s. repeat split; cbn; first [by eexists | exists []; by rewrite app_nil_r]. Qed.
Global Instance stats_grow_allows_removed : AllowsRemoved stats_grow.
Proof. intros q s. repeat split; cbn; first [by eexists | exists []; by rewrite app_nil_r]. Qed.
Global Instance stats_grow_allows_unchanged : AllowsUnchanged stats_grow.
Proof. intros q s. repeat split; cbn; first [by eexists | exists []; by rewrite app_nil_r]. Qed.
Global Instance stats_grow_allows_error : AllowsError stats_grow.
Proof. intros q s. repeat split; cbn; first [by eexists | exists []; by rewrite app_nil_r]. Qed.

(** X25. [deploy] only ever appends to the four lists of the record it
    returns: what [uploaded], [removed], [unchanged] and [errors] held when
    the call started is still there, in front, when it returns - so a second
    [deploy] on the same object adds its entries to those of the first. *)
Theorem deploy_accumulates (cfg : FtpDeployConfig) (l : local_snapshot) (s : state) :
  stats_grow s (snd (deploy cfg l s)) ∧
  fst (deploy cfg l s) = Ok (stats (snd (deploy cfg l s))).
Proof.
  split.
  - assert (Hreads : ∀ ev, mutating ev = false → @quiet stats_grow _ ev) by done.
    apply (pr_deploy stats_grow cfg Hreads).
    + apply (pr_gather stats_grow cfg Hreads). intros _.
      apply (pr_clearDestination stats_grow cfg Hreads).
      * intros f. by apply (pr_clear_one stats_grow cfg).
      * by apply (pr_removeEmptyDirectories_root stats_grow cfg Hreads).
    + intros lh fs m. apply (pr_fold_M stats_grow). intros [p h] m0 _.
      by apply (pr_upload_one stats_grow cfg).
    + intros lh rf m. apply (pr_clean_phase stats_grow cfg).
      * intros f m0. by apply (pr_remove_one stats_grow cfg Hreads).
      * by apply (pr_removeEmptyDirectories_root stats_grow cfg Hreads).
    + intros m. by apply (pr_persist stats_grow cfg Hreads).
  - unfold deploy, try_finally, try_catch, deploy_body, bind.
    destruct (deploy_plan cfg l s) as [[M|e] s1]; [|done].
    by destruct (persist cfg M s1) as [[[]|e] s2].
Qed.

(** ** Pruning does its work *)

Lemma pruned_dir (es : rdir) :
  pruned (RDir es) ↔
  Forall (fun e => match snd e with
                   | RDir sub => is_dot (fst e) = false → hasContent sub = true ∧ pruned (snd e)
                   | _ => True
                   end) es.
Proof.
  cbn [pruned].
  induction es as [|[name item] es IH]; [by split; [constructor|]|].
  rewrite Forall_cons, <- IH. cbn [fst snd]. by destruct item.
Qed.

Lemma removeEmptyDirectories_reliable cfg (n : rnode) :
  dry_run cfg = false → preserve cfg = [] →
  ∀ remoteDir preserveRoot s, reliable_net s →
    match fst (removeEmptyDirectories cfg remoteDir preserveRoot n s) with
    | Ok (Some n') =>
        pruned n' ∧
        (preserveRoot = false → ∀ es', n' = RDir es' → hasContent es' = true)
    | Ok None => preserveRoot = false
    | Throw _ => False
    end.
Proof.
  intros Hdry Hpres.
  assert (Hnone : ∀ p, shouldPreserve cfg p = false)
    by (intros p; unfold shouldPreserve; by rewrite Hpres).
  induction n as [c|es IH|] using rnode_nested_ind; intros remoteDir preserveRoot s Hs;
    [done| |done].
  cbn [removeEmptyDirectories]. unfold bind at 1, try_catch at 1, bind at 1.
  rewrite (query_reliable _ _ Hs). cbn [ret negb].
  assert (Hs1 : reliable_net (tick (log_event (EvList remoteDir) s))) by exact Hs.
  revert Hs1. generalize (tick (log_event (EvList remoteDir) s)). clear s Hs. intros s1 Hs1.
  set (each := fix each (items : rdir) : M rdir := _).
  assert (Heach : ∀ s, reliable_net s →
            ∃ es' s', each es s = (Ok es', s') ∧ reliable_net s' ∧ pruned (RDir es')).
  { clear s1 Hs1. induction es as [|[name item] es IHes]; intros s Hs.
    { exists [], s. by repeat split. }
    apply Forall_cons in IH as [Hitem Hes]. specialize (IHes Hes).
    assert (Hkeep : (∀ sub, item = RDir sub → is_dot name = true) →
              ∃ es' s', (let! rest' := each es in ret ((name, item) :: rest')) s
                        = (Ok es', s') ∧ reliable_net s' ∧ pruned (RDir es')).
    { intros Hdot. unfold bind. destruct (IHes s Hs) as (r & s' & -> & Hs' & Hr).
      exists ((name, item) :: r), s'. split; [done|]. split; [done|].
      apply pruned_dir. constructor; [|by apply pruned_dir].
      cbn [fst snd]. destruct item as [|sub|]; [done| |done].
      intros Hd. by rewrite (Hdot sub eq_refl) in Hd. }
    cbn [each]. destruct item as [c|sub|]; [by apply Hkeep|..|by apply Hkeep].
    destruct (is_dot name) eqn:Hdot; [by apply Hkeep|].
    rewrite Hnone. unfold bind at 1. cbn [snd] in Hitem.
    pose proof (Hitem (rel_join remoteDir name) false s Hs) as Hsub.
    pose proof (reliable_net_preserved _ s
                  (pr_removeEmptyDirectories same_net cfg (RDir sub)
                     (fun _ => I) (fun _ _ => I) (rel_join remoteDir name) false) Hs) as Hs'.
    pose proof (removeEmptyDirectories_dir cfg (rel_join remoteDir name) false sub s) as Hd.
    destruct (removeEmptyDirectories cfg (rel_join remoteDir name) false (RDir sub) s)
      as [[r|?] s'] eqn:Hrec; [|done].
    cbn [fst snd] in Hsub, Hs'. unfold bind.
    destruct (IHes s' Hs') as (rest' & s'' & -> & Hs'' & Hr).
    destruct r as [item'|].
    - exists ((name, item') :: rest'), s''. split; [done|]. split; [done|].
      destruct (Hd item' s' eq_refl) as [sub' ->]. destruct Hsub as [Hp Hc].
      apply pruned_dir. constructor; [|by apply pruned_dir].
      cbn [fst snd]. intros _. split; [by apply Hc|done].
    - by exists rest', s''. }
  unfold bind at 1. destruct (Heach s1 Hs1) as (es' & s2 & -> & Hs2 & Hp).
  unfold bind at 1, try_catch at 1, bind at 1.
  rewrite (query_reliable _ _ Hs2). cbn [ret negb].
  destruct (hasContent es') eqn:Hcontent; cbn [negb andb].
  { unfold ret. cbn [fst]. split; [done|]. by intros _ ? [= <-]. }
  destruct preserveRoot; cbn [negb].
  { unfold ret. cbn [fst]. by split. }
  rewrite Hnone, Hdry. cbn [negb]. unfold try_catch, bind.
  by rewrite query_reliable.
Qed.

(** X26. Pruning does its work: on a network that does not fail, in a real
    run without preserve list, [removeEmptyDirectories] leaves no directory
    without content below the remote root - every directory that is left
    (and whose name is not [.] or [..]) holds an entry that counts as
    content, at every depth. *)
Theorem removeEmptyDirectories_prunes (cfg : FtpDeployConfig) (s : state) :
  dry_run cfg = false → preserve cfg = [] → reliable_net s →
  pruned (RDir (remote (snd (removeEmptyDirectories_root cfg s)))).
Proof.
  intros Hdry Hpres Hs.
  pose proof (removeEmptyDirectories_reliable cfg (RDir (remote s)) Hdry Hpres "" true s Hs)
    as Hr.
  pose proof (removeEmptyDirectories_dir cfg "" true (remote s) s) as Hd.
  unfold removeEmptyDirectories_root.
  destruct (removeEmptyDirectories cfg "" true (RDir (remote s)) s) as [[[n'|]|?] s'];
    cbn [fst snd] in *; [| |done].
  - destruct (Hd n' s' eq_refl) as [es' ->]. cbn [remote set_remote]. by destruct Hr.
  - done.
Qed.

Lemma removeEmptyDirectories_prunes_witness :
  let t := [("empty", RDir [("deeper", RDir [])]);
            ("docs", RDir [("a.txt", RFile (Blob "h1"))])] in
  remote (snd (removeEmptyDirectories_root sample_config (initial t reliable)))
    = [("docs", RDir [("a.txt", RFile (Blob "h1"))])] ∧
  pruned (RDir (remote (snd (removeEmptyDirectories_root sample_config (initial t reliable))))).
Proof.
  cbv zeta. split; [reflexivity|].
  apply (removeEmptyDirectories_prunes sample_config
           (initial [("empty", RDir [("deeper", RDir [])]);
                     ("docs", RDir [("a.txt", RFile (Blob "h1"))])] reliable)).
  - reflexivity.
  - reflexivity.
  - by intros k.
Defined.

(** ** What the server operations keep *)

Lemma node_at_cons (name : string) (rest : list string) (es : rdir) (c : fcontent) :
  node_at (name :: rest) es = Some (RFile c) ↔
  (rest = [] ∧ lookup_entry name es = Some (RFile c)) ∨
  (rest ≠ [] ∧ ∃ sub, lookup_entry name es = Some (RDir sub) ∧
                      node_at rest sub = Some (RFile c)).
Proof.
  cbn [node_at]. destruct (lookup_entry name es) as [[c'|sub|]|], rest as [|r rest'];
    (split; [intros H|intros [[Hr H]|(Hr & sub0 & H & Hq)]]);
    first [done | by left | by injection H as <- | idtac].
  right. split; [done|]. by exists sub.
Qed.

Lemma lookup_entry_snoc (k name : string) (x : rnode) (es : rdir) :
  lookup_entry k (es ++ [(name, x)])
  = match lookup_entry k es with
    | Some y => Some y
    | None => if String.eqb name k then Some x else None
    end.
Proof. induction es as [|[n y] es IH]; cbn; [done|]. by destruct (String.eqb n k). Qed.

Lemma update_entry_lookup_same (name : string) (f : rnode → option (option rnode))
    (es es' : rdir) :
  update_entry name f es = Some es' →
  ∃ x, lookup_entry name es = Some x ∧
       (f x = Some None ∨ ∃ x', f x = Some (Some x') ∧ lookup_entry name es' = Some x').
Proof.
  revert es'. induction es as [|[n y] es IH]; intros es'; simpl; [done|].
  destruct (String.eqb n name) eqn:Hn.
  - exists y. split; [done|]. destruct (f y) as [[x'|]|]; [| |done].
    + right. exists x'. split; [done|]. injection H as <-. simpl. by rewrite Hn.
    + by left.
  - destruct (update_entry name f es) as [es0|]; [|done]. intros [= <-].
    destruct (IH es0 eq_refl) as (x & Hl & Hcase). exists x. split; [done|].
    destruct Hcase as [?|(x' & ? & ?)]; [by left|right]. exists x'. split; [done|].
    simpl. by rewrite Hn.
Qed.

(** An operation that works inside the directory [name] keeps, around that
    directory, what it keeps inside. *)
Lemma update_dir_keeps (P : list string → Prop) (name : string)
    (g : rdir → option rdir) (es es' : rdir) :
  (∀ sub sub', g sub = Some sub' → keeps (fun q => P (name :: q)) sub sub') →
  update_entry name
    (fun x => match x with
              | RDir sub => (fun sub' => Some (RDir sub')) <$> g sub
              | _ => None
              end) es = Some es' →
  keeps P es es'.
Proof.
  intros Hg Hup [|k qrest] c HP; [done|]. rewrite !node_at_cons.
  destruct (decide (k = name)) as [->|Hk].
  2: { by rewrite (update_entry_lookup_other k name _ _ _ Hk Hup). }
  destruct (update_entry_lookup_same _ _ _ _ Hup) as (x & Hl & Hcase). rewrite Hl.
  destruct x as [c0|sub|]; [by destruct Hcase as [?|(? & ? & _)]| |
                            by destruct Hcase as [?|(? & ? & _)]].
  destruct (g sub) as [sub'|] eqn:Hsub; [|by destruct Hcase as [?|(? & ? & _)]].
  destruct Hcase as [[=]|(x' & [= <-] & ->)].
  intros [[_ [=]]|(Hne & sub0 & [= <-] & Hq)]. right. split; [done|].
  exists sub'. split; [done|]. by apply (Hg sub sub' Hsub).
Qed.

(** Deleting a file keeps every other file. *)
Lemma tree_remove_keeps_others (segs : list string) :
  ∀ es es', tree_remove segs es = Some es' → keeps (fun q => q ≠ segs) es es'.
Proof.
  induction segs as [|name rest IH]; intros es es' Hrm; [done|].
  destruct rest as [|name' rest'].
  - cbn [tree_remove] in Hrm. intros [|k qrest] c Hne; [done|]. rewrite !node_at_cons.
    destruct (decide (k = name)) as [->|Hk].
    2: { by rewrite (update_entry_lookup_other k name _ _ _ Hk Hrm). }
    destruct (update_entry_lookup_same _ _ _ _ Hrm) as (x & Hl & Hcase). rewrite Hl.
    destruct x as [c0|sub|]; [|by destruct Hcase as [?|(? & ? & _)]..].
    intros [[-> _]|(_ & sub & [=] & _)]. done.
  - change (tree_remove (name :: name' :: rest') es)
      with (update_entry name
              (fun x => match x with
                        | RDir sub => (fun sub' => Some (RDir sub')) <$> tree_remove (name' :: rest') sub
                        | _ => None
                        end) es) in Hrm.
    eapply update_dir_keeps; [|exact Hrm]. intros sub sub' Hsub q c Hq.
    apply (IH sub sub' Hsub). congruence.
Qed.

(** Creating directories keeps every file. *)
Lemma tree_ensureDir_keeps (segs : list string) :
  ∀ es es', tree_ensureDir segs es = Some es' → keeps (fun _ => True) es es'.
Proof.
  induction segs as [|name rest IH]; intros es es'; [by intros [= <-] q c _|].
  cbn [tree_ensureDir]. destruct (lookup_entry name es) as [x|] eqn:Hl.
  - intros Hup. eapply update_dir_keeps; [|exact Hup]. intros sub sub' Hsub q c _.
    by apply (IH sub sub' Hsub).
  - intros [= <-] [|k qrest] c _; [done|]. rewrite !node_at_cons, lookup_entry_snoc.
    destruct (lookup_entry k es) as [y|] eqn:Hk; [done|].
    intros [[_ [=]]|(_ & sub & [=] & _)].
Qed.

(** Storing a file keeps every other file, and puts the content at the
    path. *)
Lemma tree_upload_keeps_others (segs : list string) (c0 : fcontent) :
  ∀ es es', tree_upload segs c0 es = Some es' → keeps (fun q => q ≠ segs) es es'.
Proof.
  induction segs as [|name rest IH]; intros es es' Hup; [done|].
  destruct rest as [|name' rest'].
  - cbn [tree_upload] in Hup. intros [|k qrest] c Hne; [done|]. rewrite !node_at_cons.
    destruct (lookup_entry name es) as [x|] eqn:Hl.
    + destruct (decide (k = name)) as [->|Hk].
      2: { by rewrite (update_entry_lookup_other k name _ _ _ Hk Hup). }
      destruct (update_entry_lookup_same _ _ _ _ Hup) as (x0 & Hl0 & Hcase). rewrite Hl0.
      destruct x0 as [c1|sub|]; [|by destruct Hcase as [?|(? & ? & _)]..].
      intros [[-> _]|(_ & sub & [=] & _)]. done.
    + injection Hup as <-. rewrite lookup_entry_snoc.
      destruct (lookup_entry k es) as [y|] eqn:Hk; [done|].
      intros [[_ [=]]|(_ & sub & [=] & _)].
  - change (tree_upload (name :: name' :: rest') c0 es)
      with (update_entry name
              (fun x => match x with
                        | RDir sub => (fun sub' => Some (RDir sub')) <$> tree_upload (name' :: rest') c0 sub
                        | _ => None
                        end) es) in Hup.
    eapply update_dir_keeps; [|exact Hup]. intros sub sub' Hsub q c Hq.
    apply (IH sub sub' Hsub). congruence.
Qed.

Lemma tree_upload_stores (segs : list string) (c0 : fcontent) :
  ∀ es es', tree_upload segs c0 es = Some es' → node_at segs es' = Some (RFile c0).
Proof.
  induction segs as [|name rest IH]; intros es es' Hup; [done|].
  destruct rest as [|name' rest'].
  - rewrite node_at_root. by eapply tree_upload_root_lookup.
  - change (tree_upload (name :: name' :: rest') c0 es)
      with (update_entry name
              (fun x => match x with
                        | RDir sub => (fun sub' => Some (RDir sub')) <$> tree_upload (name' :: rest') c0 sub
                        | _ => None
                        end) es) in Hup.
    destruct (update_entry_lookup_same _ _ _ _ Hup) as (x & Hl & Hcase).
    destruct x as [c1|sub|]; [by destruct Hcase as [?|(? & ? & _)]| |
                              by destruct Hcase as [?|(? & ? & _)]].
    destruct (tree_upload (name' :: rest') c0 sub) as [sub'|] eqn:Hsub;
      [|by destruct Hcase as [?|(? & ? & _)]].
    destruct Hcase as [[=]|(x' & [= <-] & Hl')].
    apply node_at_cons. right. split; [done|]. exists sub'. split; [done|].
    by apply (IH sub sub').
Qed.

Lemma split_slash_inj (p q : string) : split_slash p = split_slash q → p = q.
Proof. intros H. by rewrite <- (concat_split_slash p), <- (concat_split_slash q), H. Qed.

(** ** What the pruning keeps *)

Lemma keeps_cons_same (P : list string → Prop) (name : string) (item : rnode)
    (es es' : rdir) :
  keeps P es es' → keeps P ((name, item) :: es) ((name, item) :: es').
Proof.
  intros H [|k qrest] c HP; [done|]. cbn [node_at lookup_entry].
  destruct (String.eqb name k); [done|]. by apply (H (k :: qrest) c HP).
Qed.

Lemma hasContent_lookup (k : string) (x : rnode) (es : rdir) :
  lookup_entry k es = Some x → is_dot k = false → k ≠ HASH_FILE_NAME →
  hasContent es = true.
Proof.
  intros Hl Hdot Hk. unfold hasContent. induction es as [|[n y] es IH]; [done|].
  cbn [lookup_entry] in Hl. cbn [existsb fst].
  destruct (String.eqb n k) eqn:Hn.
  - apply String.eqb_eq in Hn as ->. rewrite Hdot. cbn [negb andb].
    by apply String.eqb_neq in Hk as ->.
  - rewrite (IH Hl). apply orb_true_r.
Qed.

(** What has become of a directory after [removeEmptyDirectories]: every
    file at a plain path is still there, with its content; a directory
    that was removed held none. *)
Lemma removeEmptyDirectories_keeps_plain cfg (n : rnode) :
  ∀ remoteDir preserveRoot s es, n = RDir es →
    match fst (removeEmptyDirectories cfg remoteDir preserveRoot n s) with
    | Ok (Some n') => ∃ es', n' = RDir es' ∧ keeps plain_path es es'
    | Ok None => ∀ q c, plain_path q → node_at q es ≠ Some (RFile c)
    | Throw _ => False
    end.
Proof.
  induction n as [c|es IH|] using rnode_nested_ind;
    intros remoteDir preserveRoot s es0 Hn; [done| |done].
  injection Hn as <-.
  assert (Hrefl : ∃ es', RDir es = RDir es' ∧ keeps plain_path es es').
  { exists es. split; [done|]. by intros q c _. }
  cbn [removeEmptyDirectories]. unfold bind at 1.
  destruct (try_catch _ _ s) as [[listed|e] s1] eqn:Hl.
  2: { revert Hl. unfold try_catch, bind. by destruct (query _ s) as [[[]|?] ?]. }
  destruct listed; cbn [negb]; [|done].
  set (each := fix each (items : rdir) : M rdir := _).
  assert (Heach : ∀ s, ∃ es', fst (each es s) = Ok es' ∧ keeps plain_path es es').
  { clear s s1 Hl Hrefl.
    induction es as [|[name item] es IHes]; intros s;
      [exists []; split; [done|by intros q c _]|].
    apply Forall_cons in IH as [Hitem Hes]. specialize (IHes Hes). cbn [fst snd] in *.
    assert (Hkeep : ∃ es', fst ((let! rest' := each es in ret ((name, item) :: rest')) s)
                           = Ok es' ∧ keeps plain_path ((name, item) :: es) es').
    { unfold bind. destruct (IHes s) as (r & Hr & Hk).
      destruct (each es s) as [[r'|?] s']; [|done]. cbn in Hr. injection Hr as ->.
      exists ((name, item) :: r). split; [done|]. by apply keeps_cons_same. }
    cbn [each]. destruct item as [c|sub|]; [done| |done].
    destruct (is_dot name) eqn:Hdot; [done|].
    destruct (shouldPreserve cfg (rel_join remoteDir name)); [done|].
    unfold bind at 1.
    specialize (Hitem (rel_join remoteDir name) false s sub eq_refl).
    destruct (removeEmptyDirectories _ _ _ _ s) as [[r|?] s'] eqn:Hsub; [|done].
    cbn [fst] in Hitem.
    unfold bind. destruct (IHes s') as (rest' & Hr & Hk).
    destruct (each es s') as [[r'|?] s'']; [|done]. cbn in Hr. injection Hr as ->.
    destruct r as [item'|]; cbn [fst ret].
    - destruct Hitem as (sub' & -> & Hsub').
      exists ((name, RDir sub') :: rest'). split; [done|].
      intros [|k qrest] c HP; [done|]. cbn [node_at lookup_entry].
      destruct (String.eqb name k); [|by apply (Hk (k :: qrest) c HP)].
      destruct qrest as [|k' qrest']; [done|].
      apply Hsub'. by apply Forall_cons in HP as [_ HP].
    - exists rest'. split; [done|].
      intros [|k qrest] c HP; [done|]. cbn [node_at lookup_entry].
      destruct (String.eqb name k); [|by apply (Hk (k :: qrest) c HP)].
      destruct qrest as [|k' qrest']; [done|].
      intros Hq. destruct (Hitem (k' :: qrest') c); [|done].
      by apply Forall_cons in HP as [_ HP]. }
  unfold bind at 1. destruct (Heach s1) as (es' & He & Hkeeps).
  destruct (each es s1) as [[es''|?] s2]; [|done]. cbn in He. injection He as ->.
  assert (Hres : ∃ es0, RDir es' = RDir es0 ∧ keeps plain_path es es0) by by exists es'.
  unfold bind at 1. destruct (try_catch _ _ s2) as [[relisted|e] s3] eqn:Hl2.
  2: { revert Hl2. unfold try_catch, bind. by destruct (query _ s2) as [[[]|?] ?]. }
  destruct relisted; cbn [negb]; [|done].
  destruct (hasContent es') eqn:Hcontent; cbn [negb andb]; [done|].
  destruct preserveRoot; cbn [negb]; [done|].
  destruct (shouldPreserve cfg remoteDir); cbn [negb]; [done|].
  destruct (dry_run cfg); [done|].
  unfold try_catch, bind. destruct (query _ s3) as [[[]|?] ?]; cbn; [|done].
  intros [|k qrest] c HP Hq; [done|].
  apply (Hkeeps _ _ HP) in Hq. apply Forall_cons in HP as [[Hdot Hk] _].
  cbn [node_at] in Hq. destruct (lookup_entry k es') as [x|] eqn:Hx; [|done].
  by rewrite (hasContent_lookup k x es' Hx Hdot Hk) in Hcontent.
Qed.

Lemma removeEmptyDirectories_root_keeps cfg (x : list string) (s : state) :
  plain_path x → keeps_file x s (snd (removeEmptyDirectories_root cfg s)).
Proof.
  intros Hx c Hc.
  pose proof (removeEmptyDirectories_keeps_plain cfg (RDir (remote s)) "" true s
                (remote s) eq_refl) as Hk.
  pose proof (pr_removeEmptyDirectories same_remote cfg (RDir (remote s))
                (fun _ => I) (fun _ _ => I) "" true s) as Hfr.
  unfold removeEmptyDirectories_root.
  destruct (removeEmptyDirectories cfg "" true (RDir (remote s)) s) as [[r|?] s'];
    cbn [fst snd] in *; [|done].
  destruct r as [r|]; cbn [snd].
  - destruct Hk as (es' & -> & Hk). cbn [snd remote set_remote]. by apply Hk.
  - by destruct (Hk x c Hx).
Qed.

(** ** What is uploaded is stored *)

Lemma keeps_file_preorder (x : list string) : PreOrder (keeps_file x).
Proof.
  split; [by intros s c|]. intros s1 s2 s3 H12 H23 c Hc. by apply H23, H12.
Qed.

Global Instance keeps_file_frame (x : list string) : Frame (keeps_file x) :=
  Build_Frame (keeps_file x) (fun _ => True) (keeps_file_preorder x)
    (fun _ _ _ _ H => H) (fun _ _ _ _ H => H) (fun _ _ _ H => H).
Global Instance keeps_file_uploaded (x : list string) : AllowsUploaded (keeps_file x).
Proof. by intros q s c Hc. Qed.
Global Instance keeps_file_removed (x : list string) : AllowsRemoved (keeps_file x).
Proof. by intros q s c Hc. Qed.
Global Instance keeps_file_unchanged (x : list string) : AllowsUnchanged (keeps_file x).
Proof. by intros q s c Hc. Qed.
Global Instance keeps_file_error (x : list string) : AllowsError (keeps_file x).
Proof. by intros q s c Hc. Qed.

(** A call that asks the server for [f] keeps the file at [x] if [f]
    does. *)
Lemma pr_call_keeps (x : list string) (ev : event) (msg : string)
    (f : rdir → option rdir) :
  (∀ t t' c, f t = Some t' → node_at x t = Some (RFile c) → node_at x t' = Some (RFile c)) →
  preserves (keeps_file x) (call ev (fun t => of_option msg (pair tt <$> f t))).
Proof.
  intros Hf s c Hc. destruct (call_tree ev msg f s) as [(e & _ & ->)|[_ Hs]]; [done|].
  by apply (Hf _ _ c Hs).
Qed.

Lemma pr_client_ensureDir_keeps (x : list string) (p : string) :
  preserves (keeps_file x) (client_ensureDir p).
Proof.
  apply pr_call_keeps. intros t t' c Ht. by apply (tree_ensureDir_keeps _ _ _ Ht).
Qed.

Lemma pr_client_uploadFrom_keeps (x : list string) (c0 : fcontent) (p : string) :
  x ≠ split_slash p → preserves (keeps_file x) (client_uploadFrom c0 p).
Proof.
  intros Hx. apply pr_call_keeps. intros t t' c Ht.
  by apply (tree_upload_keeps_others _ _ _ _ Ht).
Qed.

Lemma pr_client_remove_keeps (x : list string) (p : string) :
  x ≠ split_slash p → preserves (keeps_file x) (client_remove p).
Proof.
  intros Hx. apply pr_call_keeps. intros t t' c Ht.
  by apply (tree_remove_keeps_others _ _ _ Ht).
Qed.

Section KeepsOneFile.
Context (cfg : FtpDeployConfig) (p : string).

Lemma keeps_file_session : quiet_session (keeps_file (split_slash p)).
Proof. by repeat split. Qed.

Lemma split_slash_other (q : string) : q ≠ p → split_slash p ≠ split_slash q.
Proof. intros Hq H. by apply split_slash_inj in H. Qed.

Lemma pr_upload_one_keeps lh (q hq : string) m :
  q ≠ p → preserves (keeps_file (split_slash p)) (upload_one cfg lh (q, hq) m).
Proof.
  intros Hq%split_slash_other. unfold upload_one. cbn [fst snd].
  apply (pr_try_catch (keeps_file (split_slash p))).
  - apply (pr_if (keeps_file (split_slash p))).
    { apply (pr_bind (keeps_file (split_slash p))); [intros s; apply allows_unchanged | intros _; apply (pr_ret (keeps_file (split_slash p)))]. }
    apply (pr_if (keeps_file (split_slash p))).
    { apply (pr_bind (keeps_file (split_slash p))); [intros s; apply allows_uploaded | intros _; apply (pr_ret (keeps_file (split_slash p)))]. }
    apply (pr_bind (keeps_file (split_slash p))); [apply pr_client_ensureDir_keeps|]. intros _.
    apply (pr_bind (keeps_file (split_slash p))); [by apply pr_client_uploadFrom_keeps|]. intros _.
    apply (pr_bind (keeps_file (split_slash p))); [intros s; apply allows_uploaded | intros _; apply (pr_ret (keeps_file (split_slash p)))].
  - intros e. apply (pr_bind (keeps_file (split_slash p))); [intros s; apply allows_error | intros _; apply (pr_ret (keeps_file (split_slash p)))].
Qed.

Lemma pr_remove_one_keeps (f : string) m :
  f ≠ p → preserves (keeps_file (split_slash p)) (remove_one cfg f m).
Proof.
  intros Hf%split_slash_other. unfold remove_one.
  apply (pr_try_catch (keeps_file (split_slash p))).
  - apply (pr_if (keeps_file (split_slash p))).
    { apply (pr_bind (keeps_file (split_slash p))); [intros s; apply allows_removed | intros _; apply (pr_ret (keeps_file (split_slash p)))]. }
    apply (pr_bind (keeps_file (split_slash p))).
    + apply (pr_executeWithRetry (keeps_file (split_slash p))); [apply keeps_file_session|].
      by apply pr_client_remove_keeps.
    + intros _. apply (pr_bind (keeps_file (split_slash p))); [intros s; apply allows_removed | intros _; apply (pr_ret (keeps_file (split_slash p)))].
  - intros e. apply (pr_bind (keeps_file (split_slash p))); [intros s; apply allows_error | intros _; apply (pr_ret (keeps_file (split_slash p)))].
Qed.

Lemma plain_path_not_manifest : plain_path (split_slash p) → p ≠ HASH_FILE_NAME.
Proof.
  intros Hp ->. apply Forall_cons in Hp as [[_ Hp] _]. by apply Hp.
Qed.

Lemma pr_clean_phase_keeps lh rf m :
  plain_path (split_slash p) →
  (∀ R, p ∉ filesToRemove cfg (orphanedFiles lh R)) →
  preserves (keeps_file (split_slash p)) (clean_phase cfg lh rf m).
Proof.
  intros Hplain Hkept. unfold clean_phase. destruct rf as [rf|]; [|apply (pr_ret (keeps_file (split_slash p)))].
  apply (pr_if (keeps_file (split_slash p))); [|apply (pr_ret (keeps_file (split_slash p)))]. cbv zeta.
  apply (pr_bind (keeps_file (split_slash p))).
  - apply (pr_fold_M (keeps_file (split_slash p))). intros f m0 Hf.
    apply pr_remove_one_keeps. intros ->. by apply (Hkept rf).
  - intros m'. apply (pr_bind (keeps_file (split_slash p))); [|intros ?; apply (pr_ret (keeps_file (split_slash p)))].
    apply (pr_if (keeps_file (split_slash p))); [|apply (pr_ret (keeps_file (split_slash p)))]. intros s.
    by apply removeEmptyDirectories_root_keeps.
Qed.

Lemma pr_persist_keeps m :
  plain_path (split_slash p) → preserves (keeps_file (split_slash p)) (persist cfg m).
Proof.
  intros Hplain%plain_path_not_manifest. unfold persist.
  apply (pr_if (keeps_file (split_slash p))); [apply (pr_ret (keeps_file (split_slash p)))|]. unfold saveRemoteHashes.
  apply (pr_executeWithRetry (keeps_file (split_slash p))); [apply keeps_file_session|].
  apply pr_client_uploadFrom_keeps. by apply split_slash_other.
Qed.

(** The upload of the other files. *)
Lemma upload_phase_others lh (files : list (string * string)) :
  p ∉ (fst <$> files) →
  ∀ m s, ∃ m' lu,
    fst (upload_phase cfg lh files m s) = Ok m' ∧
    uploaded (stats (snd (upload_phase cfg lh files m s))) = uploaded (stats s) ++ lu ∧
    (p ∉ lu) ∧
    (keeps_file (split_slash p)) s (snd (upload_phase cfg lh files m s)).
Proof.
  induction files as [|[q hq] files IH]; intros Hp m s.
  { exists m, []. rewrite app_nil_r. repeat split; [apply not_elem_of_nil|done]. }
  rewrite fmap_cons in Hp. apply not_elem_of_cons in Hp as [Hq Hp]. cbn [fst] in Hq.
  destruct (upload_one_record cfg lh q hq m s) as (m1 & s1 & H1 & _ & Hcase).
  assert (Hk1 : (keeps_file (split_slash p)) s s1).
  { pose proof (pr_upload_one_keeps lh q hq m (not_eq_sym Hq) s) as Hk. by rewrite H1 in Hk. }
  destruct (IH Hp m1 s1) as (m' & lu & Hok & Hu & Hlu & Hk).
  assert (Hstep : upload_phase cfg lh ((q, hq) :: files) m s = upload_phase cfg lh files m1 s1).
  { unfold upload_phase. cbn [fold_M]. unfold bind. by rewrite H1. }
  rewrite Hstep.
  assert (Hk' : (keeps_file (split_slash p)) s (snd (upload_phase cfg lh files m1 s1))).
  { intros c Hc. by apply Hk, Hk1. }
  destruct Hcase as [(Hu1 & _)|[(Hu1 & _)|(e & Hu1 & _)]].
  - exists m', (q :: lu). rewrite Hu, Hu1, <- app_assoc. repeat split; [done..| |done].
    by apply not_elem_of_cons.
  - exists m', lu. by rewrite Hu, Hu1.
  - exists m', lu. by rewrite Hu, Hu1.
Qed.

(** One real iteration that files the path under [uploaded] has stored
    the file. *)
Lemma upload_one_stores lh (h : string) m s :
  dry_run cfg = false →
  uploaded (stats (snd (upload_one cfg lh (p, h) m s))) = uploaded (stats s) ++ [p] →
  node_at (split_slash p) (remote (snd (upload_one cfg lh (p, h) m s)))
  = Some (RFile (Blob h)).
Proof.
  intros Hdry.
  destruct (upload_one_cases cfg lh p h m s)
    as [[_ ->]|[(_ & Hd & _)|[(_ & _ & e & s1 & H1 & ->)|
        [(_ & _ & s1 & e & s2 & H1 & H2 & ->)|(_ & _ & s1 & s2 & H1 & H2 & ->)]]]].
  - cbn. intros H. by destruct (snoc_ne _ _ (eq_sym H)).
  - congruence.
  - assert (Hs1 : stats s1 = stats s).
    { replace s1 with (snd (client_ensureDir p s)) by (by rewrite H1).
      apply client_ensureDir_stats. }
    cbn. rewrite Hs1. intros H. by destruct (snoc_ne _ _ (eq_sym H)).
  - assert (Hs2 : stats s2 = stats s).
    { replace s2 with (snd (client_uploadFrom (Blob h) p s1)) by (by rewrite H2).
      rewrite client_uploadFrom_stats.
      replace s1 with (snd (client_ensureDir p s)) by (by rewrite H1).
      apply client_ensureDir_stats. }
    cbn. rewrite Hs2. intros H. by destruct (snoc_ne _ _ (eq_sym H)).
  - intros _. cbn [snd]. change (remote (snd (push_uploaded p s2))) with (remote s2).
    destruct (call_tree (EvUploadFrom (Blob h) p) "Cannot store file"
                (tree_upload (split_slash p) (Blob h)) s1) as [(e & He & _)|[_ Hs]].
    { unfold client_uploadFrom in H2. by rewrite H2 in He. }
    unfold client_uploadFrom in H2. rewrite H2 in Hs. cbn [snd] in Hs.
    by apply (tree_upload_stores _ _ _ _ Hs).
Qed.

(** The upload loop: a path it files under [uploaded] is stored when the
    loop ends. *)
Lemma upload_phase_stores lh (files : list (string * string)) (h : string) :
  dry_run cfg = false → NoDup (fst <$> files) → (p, h) ∈ files →
  ∀ m s, ∃ m' lu,
    fst (upload_phase cfg lh files m s) = Ok m' ∧
    uploaded (stats (snd (upload_phase cfg lh files m s))) = uploaded (stats s) ++ lu ∧
    (p ∈ lu →
     node_at (split_slash p) (remote (snd (upload_phase cfg lh files m s)))
     = Some (RFile (Blob h))).
Proof.
  intros Hdry. induction files as [|[q hq] files IH]; intros Hnd Hin m s;
    [by apply elem_of_nil in Hin|].
  rewrite fmap_cons in Hnd. apply NoDup_cons in Hnd as [Hq Hnd]. cbn [fst] in Hq.
  destruct (upload_one_record cfg lh q hq m s) as (m1 & s1 & H1 & _ & Hcase).
  assert (Hstep : upload_phase cfg lh ((q, hq) :: files) m s = upload_phase cfg lh files m1 s1).
  { unfold upload_phase. cbn [fold_M]. unfold bind. by rewrite H1. }
  rewrite Hstep.
  destruct (decide (q = p)) as [->|Hqp].
  - assert (hq = h) as ->.
    { apply elem_of_cons in Hin as [[= ->]|Hin]; [done|].
      destruct Hq. by apply (list_elem_of_fmap_2 fst) in Hin. }
    destruct (upload_phase_others lh files Hq m1 s1) as (m' & lu & Hok & Hu & Hlu & Hk).
    destruct Hcase as [(Hu1 & _)|[(Hu1 & _)|(e & Hu1 & _)]].
    + exists m', (p :: lu). rewrite Hu, Hu1, <- app_assoc. repeat split; [done..|].
      intros _. apply Hk.
      pose proof (upload_one_stores lh h m s Hdry) as Hst. rewrite H1 in Hst.
      by apply Hst.
    + exists m', lu. by rewrite Hu, Hu1.
    + exists m', lu. by rewrite Hu, Hu1.
  - assert (Hin' : (p, h) ∈ files).
    { apply elem_of_cons in Hin as [[= <- _]|Hin]; [done|done]. }
    destruct (IH Hnd Hin' m1 s1) as (m' & lu & Hok & Hu & Hst).
    destruct Hcase as [(Hu1 & _)|[(Hu1 & _)|(e & Hu1 & _)]].
    + exists m', (q :: lu). rewrite Hu, Hu1, <- app_assoc. repeat split; [done..|].
      intros [Heq|Hlu]%elem_of_cons; [by destruct Hqp|by apply Hst].
    + exists m', lu. by rewrite Hu, Hu1.
    + exists m', lu. by rewrite Hu, Hu1.
Qed.

End KeepsOneFile.

Lemma gather_same_uploaded cfg l : preserves same_uploaded (gather cfg l).
Proof.
  assert (Hq : ∀ ev, mutating ev = false → @quiet same_uploaded _ ev) by done.
  apply (pr_gather same_uploaded cfg Hq). intros _.
  apply (pr_clearDestination same_uploaded cfg Hq).
  - intros f. by apply (pr_clear_one same_uploaded cfg).
  - by apply (pr_removeEmptyDirectories_root same_uploaded cfg Hq).
Qed.

Lemma gather_local_files cfg files s rh lf rf s1 :
  gather cfg (inr files) s = (Ok (rh, lf, rf), s1) → lf = files.
Proof.
  unfold gather, bind.
  destruct (client_access s) as [[[]|?] sa]; [|done].
  destruct ((if clear_destination cfg then clearDestination cfg else ret tt) sa)
    as [[[]|?] sb]; [|done].
  destruct (loadRemoteHashes cfg sb) as [[rh0|?] sc]; [|done].
  cbn [scan_local ret].
  destruct (clean_remote_files cfg && negb (clear_destination cfg)).
  - destruct (getRemoteFiles_root sc) as [[fs|?] sd]; [|done]. cbn. by intros [= _ <- _ _].
  - cbn. by intros [= _ <- _ _].
Qed.

(** How [deploy] goes on after the upload loop. *)
Lemma deploy_after_uploads cfg l s rh lf rf s1 m2 s2 :
  gather cfg l s = (Ok (rh, lf, rf), s1) →
  upload_phase cfg (build_localHashes lf) lf rh s1 = (Ok m2, s2) →
  snd (deploy cfg l s)
  = client_close
      (snd (try_catch
              (let! m := clean_phase cfg (build_localHashes lf) rf m2 in
               persist cfg m >> get_stats)
              (fun err => push_error (critical_message err) >> get_stats) s2)).
Proof.
  intros Hg Hu. unfold deploy, try_finally, try_catch, deploy_body, deploy_plan, bind.
  rewrite Hg. cbn [fst snd]. rewrite Hu.
  destruct (clean_phase _ _ _ _ s2) as [[m3|e] s3]; [|done].
  by destruct (persist cfg m3 s3) as [[[]|e] s4].
Qed.

(** X27. What a real run reports as uploaded is on the server when the run
    ends: if the local paths are pairwise distinct, and [deploy] outside of
    a dry run lists in [uploaded] a local file whose hash is not empty and
    whose path has no segment [.], [..] or the name of the manifest file,
    then - whatever the network did during the run, and in every
    combination of clean, clear-destination and preserve - the server holds
    a regular file at that path with the content of the local file. Later
    uploads, the removal of orphans, the pruning of directories and the
    writing of the manifest all leave it in place. *)
Theorem deploy_uploaded_is_stored (cfg : FtpDeployConfig)
    (files : list (string * string)) (p h : string) (s : state) :
  dry_run cfg = false →
  NoDup (fst <$> files) →
  (p, h) ∈ files → h ≠ "" →
  plain_path (split_slash p) →
  p ∉ uploaded (stats s) →
  p ∈ uploaded (stats (snd (deploy cfg (inr files) s))) →
  node_at (split_slash p) (remote (snd (deploy cfg (inr files) s)))
  = Some (RFile (Blob h)).
Proof.
  intros Hdry Hnd Hin Hh Hplain Hnew.
  pose proof (gather_same_uploaded cfg (inr files) s) as Hgu.
  destruct (gather cfg (inr files) s) as [[[[rh lf] rf]|e] s1] eqn:Hg; cbn [snd] in Hgu.
  2: { assert (Hplan : deploy_plan cfg (inr files) s = (Throw e, s1))
         by (unfold deploy_plan, bind; by rewrite Hg).
       rewrite (deploy_after_throw _ _ _ _ _ Hplan). cbn. rewrite Hgu. intros Hp.
       by destruct Hnew. }
  pose proof (gather_local_files _ _ _ _ _ _ _ Hg) as ->.
  set (lh := build_localHashes files).
  destruct (upload_phase_stores cfg p lh files h Hdry Hnd Hin rh s1)
    as (m2 & lu & Hok & Hu & Hst).
  destruct (upload_phase cfg lh files rh s1) as [r2 s2] eqn:Hup.
  cbn [fst snd] in Hok, Hu, Hst. subst r2.
  rewrite (deploy_after_uploads _ _ _ _ _ _ _ _ _ Hg Hup). fold lh.
  set (rest := try_catch _ _).
  assert (Hlocal : ∀ R, p ∉ filesToRemove cfg (orphanedFiles lh R)).
  { intros R [[_ Hf]%orphanedFiles_spec _]%filesToRemove_spec.
    unfold lh in Hf. by rewrite (build_localHashes_truthy files p h) in Hf. }
  assert (Hk : keeps_file (split_slash p) s2 (snd (rest s2))).
  { apply (pr_try_catch (keeps_file (split_slash p))).
    - apply (pr_bind (keeps_file (split_slash p))); [by apply pr_clean_phase_keeps|].
      intros m. apply (pr_bind (keeps_file (split_slash p))); [by apply pr_persist_keeps|].
      by intros _ s0 c.
    - intros e. apply (pr_bind (keeps_file (split_slash p)));
        [intros s0; apply allows_error|by intros _ s0 c]. }
  assert (Hsu : same_uploaded s2 (snd (rest s2))).
  { assert (Hq : ∀ ev, mutating ev = false → @quiet same_uploaded _ ev) by done.
    apply (pr_try_catch same_uploaded).
    - apply (pr_bind same_uploaded).
      + apply (pr_clean_phase same_uploaded cfg).
        * intros f m. by apply (pr_remove_one same_uploaded cfg Hq).
        * by apply (pr_removeEmptyDirectories_root same_uploaded cfg Hq).
      + intros m. apply (pr_bind same_uploaded); [by apply (pr_persist same_uploaded cfg Hq)|].
        by intros _ s0.
    - intros e. apply (pr_bind same_uploaded); [intros s0; apply allows_error|by intros _ s0]. }
  change (remote (client_close (snd (rest s2)))) with (remote (snd (rest s2))).
  change (stats (client_close (snd (rest s2)))) with (stats (snd (rest s2))).
  rewrite Hsu, Hu, Hgu. intros [Hp|Hp]%elem_of_app; [by destruct Hnew|].
  by apply Hk, Hst.
Qed.

Lemma deploy_uploaded_is_stored_witness :
  let cfg := with_clean true sample_config in
  let files := [("a.txt", "h1"); ("css/site.css", "h2")] in
  let s := initial sample_tree (fails_at 1 econnreset) in
  uploaded (stats (snd (deploy cfg (inr files) s))) = ["a.txt"; "css/site.css"] ∧
  removed (stats (snd (deploy cfg (inr files) s))) = ["old.txt"] ∧
  node_at (split_slash "css/site.css") (remote (snd (deploy cfg (inr files) s)))
  = Some (RFile (Blob "h2")).
Proof.
  cbv zeta. split; [by vm_compute|]. split; [by vm_compute|].
  apply (deploy_uploaded_is_stored (with_clean true sample_config)
           [("a.txt", "h1"); ("css/site.css", "h2")] "css/site.css" "h2"
           (initial sample_tree (fails_at 1 econnreset))).
  - reflexivity.
  - apply (bool_decide_unpack _). by vm_compute.
  - apply (bool_decide_unpack _). by vm_compute.
  - discriminate.
  - apply (bool_decide_unpack _). by vm_compute.
  - apply not_elem_of_nil.
  - apply (bool_decide_unpack _). by vm_compute.
Defined.
(** ** Loading the manifest on a network that does not fail *)

Lemma loadRemoteHashes_reliable cfg (s : state) :
  reliable_net s → fst (loadRemoteHashes cfg s) = Ok (stored_manifest cfg (remote s)).
Proof.
  intros Hnet.
  unfold loadRemoteHashes, bind, remoteFileExists, try_catch at 1, bind, client_size, call.
  rewrite Hnet. change (split_slash HASH_FILE_NAME) with [HASH_FILE_NAME].
  rewrite node_at_root. unfold stored_manifest.
  destruct (lookup_entry HASH_FILE_NAME (remote s)) as [[c| |]|] eqn:Hl; try done.
  cbn [ret]. set (s1 := set_remote _ _).
  assert (Hd : client_downloadTo HASH_FILE_NAME s1
               = (Ok c, set_remote (remote s1) (tick (log_event (EvDownloadTo HASH_FILE_NAME) s1)))).
  { unfold client_downloadTo, call. subst s1. cbn [net calls remote set_remote tick log_event].
    rewrite Hnet. change (split_slash HASH_FILE_NAME) with [HASH_FILE_NAME].
    by rewrite node_at_root, Hl. }
  destruct (Z.ltb_spec 0 (or_default (max_retries cfg) 3)) as [Hpos|Hnone].
  - destruct (executeWithRetry_first_try cfg _ _ _ _ Hd) as [Hr|?]; [|lia].
    unfold try_catch, bind. rewrite Hr. by destruct c.
  - unfold try_catch, bind, executeWithRetry.
    rewrite (executeWithRetry_no_attempt cfg _ _ s1 Hnone). by destruct c.
Qed.

Lemma stored_manifest_same cfg (t t' : rdir) :
  same_root_file HASH_FILE_NAME t t' → stored_manifest cfg t = stored_manifest cfg t'.
Proof.
  intros H. unfold stored_manifest.
  destruct (lookup_entry HASH_FILE_NAME t) as [[c| |]|] eqn:Hl.
  - apply H in Hl. by rewrite Hl.
  - destruct (lookup_entry HASH_FILE_NAME t') as [[c'| |]|] eqn:Hl'; try done.
    apply H in Hl'. congruence.
  - destruct (lookup_entry HASH_FILE_NAME t') as [[c'| |]|] eqn:Hl'; try done.
    apply H in Hl'. congruence.
  - destruct (lookup_entry HASH_FILE_NAME t') as [[c'| |]|] eqn:Hl'; try done.
    apply H in Hl'. congruence.
Qed.

Lemma same_root_file_refl k t : same_root_file k t t.
Proof. by intros c. Qed.

Lemma same_root_file_trans k t1 t2 t3 :
  same_root_file k t1 t2 → same_root_file k t2 t3 → same_root_file k t1 t3.
Proof. intros H1 H2 c. by rewrite (H1 c). Qed.

(** Deleting another file changes nothing about the regular file called [k]
    at the root. *)
Lemma tree_remove_same_root_file (k : string) (segs : list string) (es es' : rdir) :
  segs ≠ [k] → tree_remove segs es = Some es' → same_root_file k es es'.
Proof.
  intros Hne Hrm c. split; [intros Hl; by eapply tree_remove_keeps_root_file|].
  destruct segs as [|name [|name' rest]]; [done| |].
  - cbn [tree_remove] in Hrm. intros Hl. rewrite <- Hl. symmetry.
    eapply update_entry_lookup_other; [|exact Hrm]. congruence.
  - change (tree_remove (name :: name' :: rest) es)
      with (update_entry name
              (fun x => match x with
                        | RDir sub => (fun sub' => Some (RDir sub')) <$> tree_remove (name' :: rest) sub
                        | _ => None
                        end) es) in Hrm.
    destruct (decide (k = name)) as [->|Hk].
    + destruct (update_entry_lookup_same _ _ _ _ Hrm) as (x & Hx & [Hf|(x' & Hf & Hl')]).
      * destruct x as [|sub|]; [done| |done]. by destruct (tree_remove _ sub).
      * rewrite Hl'. destruct x as [|sub|]; [done| |done].
        destruct (tree_remove _ sub); cbn in Hf; [|done]. injection Hf as <-. done.
    + intros Hl. rewrite <- Hl. symmetry. by eapply update_entry_lookup_other.
Qed.

Lemma lookup_entry_name (es : rdir) (name : string) (x : rnode) :
  lookup_entry name es = Some x → name ∈ map fst es.
Proof.
  induction es as [|[n y] es IH]; cbn [lookup_entry map fst]; [done|].
  destruct (String.eqb_spec n name) as [->|?]; [intros _; by left|].
  intros Hl. right. by apply IH.
Qed.

(** Pruning adds no regular file to the directory it is called on. *)
Lemma removeEmptyDirectories_no_new_root_file cfg (es : rdir) (k : string) (c : fcontent) :
  NoDup (map fst es) →
  ∀ remoteDir s es',
    fst (removeEmptyDirectories cfg remoteDir true (RDir es) s) = Ok (Some (RDir es')) →
    lookup_entry k es' = Some (RFile c) → lookup_entry k es = Some (RFile c).
Proof.
  intros Hnd remoteDir s es'. cbn [removeEmptyDirectories]. unfold bind at 1.
  destruct (try_catch _ _ s) as [[listed|e] s1]; [|done].
  destruct listed; cbn [negb]; [|by intros [= <-]].
  set (each := fix each (items : rdir) : M rdir := _).
  assert (Heach : ∀ s r, fst (each es s) = Ok r →
            (∀ n, n ∈ map fst r → n ∈ map fst es) ∧
            (lookup_entry k r = Some (RFile c) → lookup_entry k es = Some (RFile c))).
  { clear s s1. induction es as [|[name item] es IHes]; intros s r.
    { cbn. by intros [= <-]. }
    cbn [map fst] in Hnd. apply NoDup_cons in Hnd as [Hname Hnd].
    specialize (IHes Hnd).
    assert (Hkeep : fst ((let! rest' := each es in ret ((name, item) :: rest')) s) = Ok r →
              (∀ n, n ∈ map fst r → n ∈ map fst ((name, item) :: es)) ∧
              (lookup_entry k r = Some (RFile c) →
               lookup_entry k ((name, item) :: es) = Some (RFile c))).
    { unfold bind. destruct (each es s) as [[r'|?] s'] eqn:Hr; [|done].
      intros [= <-]. destruct (IHes s r' ltac:(by rewrite Hr)) as [Hsub Hback]. split.
      - intros n. cbn [map fst]. rewrite !elem_of_cons. intros [->|Hn]; [by left|].
        right. by apply Hsub.
      - cbn [lookup_entry]. destruct (String.eqb name k); [done|]. exact Hback. }
    cbn [each]. destruct item as [c'|sub|]; [done| |done].
    destruct (is_dot name); [done|].
    destruct (shouldPreserve cfg (rel_join remoteDir name)); [done|].
    unfold bind at 1.
    destruct (removeEmptyDirectories _ _ _ _ s) as [[r0|?] s'] eqn:Hrec; [|done].
    unfold bind. destruct (each es s') as [[rest'|?] s''] eqn:Hr; [|done].
    intros [= <-].
    destruct (IHes s' rest' ltac:(by rewrite Hr)) as [Hsub Hback].
    destruct r0 as [item'|].
    - destruct (removeEmptyDirectories_dir _ _ _ _ _ _ _ Hrec) as [sub' ->]. split.
      + intros n. cbn [map fst]. rewrite !elem_of_cons. intros [->|Hn]; [by left|].
        right. by apply Hsub.
      + cbn [lookup_entry]. destruct (String.eqb name k); [done|]. exact Hback.
    - split.
      + intros n Hn. cbn [map fst]. apply elem_of_cons. right. by apply Hsub.
      + intros Hl. cbn [lookup_entry]. destruct (String.eqb_spec name k) as [->|Hk].
        * exfalso. apply Hname, Hsub.
          by apply lookup_entry_name in Hl.
        * by apply Hback. }
  unfold bind at 1. destruct (each es s1) as [[r|?] s2] eqn:He; [|done].
  destruct (Heach s1 r ltac:(by rewrite He)) as [_ Hback].
  unfold bind at 1. destruct (try_catch _ _ s2) as [[relisted|e] s3]; [|done].
  destruct relisted; cbn [negb]; [|by intros [= <-]].
  rewrite andb_false_r. by intros [= <-].
Qed.

(** ** Clearing the destination, dry and real *)

Lemma clear_loop_same_manifest cfg (fs : list string) :
  (HASH_FILE_NAME ∉ fs) →
  ∀ s, same_root_file HASH_FILE_NAME (remote s)
         (remote (snd (for_each fs (clear_one cfg) s))).
Proof.
  induction fs as [|f fs IH]; intros Hnot s; [apply same_root_file_refl|].
  apply not_elem_of_cons in Hnot as [Hf Hnot].
  assert (H1 : same_root_file HASH_FILE_NAME (remote s) (remote (snd (clear_one cfg f s)))).
  { pose proof (call_tree (EvRemove f) "No such file" (tree_remove (split_slash f)) s) as Hcall.
    fold (client_remove f) in Hcall. cbv zeta in Hcall.
    destruct (clear_one_cases cfg f s)
      as [[_ ->]|[(_ & e & s1 & H1 & ->)|(_ & s1 & H1 & ->)]];
      [apply same_root_file_refl|..];
      rewrite H1 in Hcall; cbn [fst snd] in Hcall; cbn [snd push_error push_removed modify];
      change (remote (set_stats _ s1)) with (remote s1).
    - destruct Hcall as [(e' & _ & ->)|[[=] _]]. apply same_root_file_refl.
    - destruct Hcall as [(e' & [=] & _)|[_ Hrm]].
      eapply tree_remove_same_root_file; [|exact Hrm].
      intros Heq. apply split_slash_single in Heq. congruence. }
  cbn [for_each]. unfold bind.
  destruct (clear_one cfg f s) as [[[]|?] s1]; [|done].
  eapply same_root_file_trans; [exact H1 | by apply IH].
Qed.

Lemma clear_loop_dry cfg (fs : list string) :
  dry_run cfg = true →
  ∀ s, errors (stats (snd (for_each fs (clear_one cfg) s))) = errors (stats s).
Proof.
  intros Hdry. induction fs as [|f fs IH]; intros s; [done|].
  cbn [for_each]. unfold bind.
  destruct (clear_one_cases cfg f s) as [[_ ->]|[[? _]|[? _]]]; [|congruence..].
  by rewrite IH.
Qed.

Lemma stats_ext (a b : DeployStats) :
  uploaded a = uploaded b → removed a = removed b → unchanged a = unchanged b →
  errors a = errors b → a = b.
Proof. destruct a, b. cbn. by intros -> -> -> ->. Qed.

Lemma removeEmptyDirectories_root_same_file cfg (k : string) (s : state) :
  wf_tree (remote s) →
  same_root_file k (remote s) (remote (snd (removeEmptyDirectories_root cfg s))).
Proof.
  intros [Hnd _]. unfold removeEmptyDirectories_root.
  pose proof (pr_removeEmptyDirectories same_remote cfg (RDir (remote s))
                (fun _ => I) (fun _ _ => I) "" true s) as Hfr.
  destruct (removeEmptyDirectories cfg "" true (RDir (remote s)) s)
    as [[[[c'|es'|]|]|?] s2] eqn:Hprune; cbn [snd fst] in *; unfold same_remote in Hfr;
    try (rewrite Hfr; apply same_root_file_refl).
  intros c. cbn. split.
  - intros Hl. eapply removeEmptyDirectories_keeps_root_file; [exact Hl|]. by rewrite Hprune.
  - intros Hl. eapply removeEmptyDirectories_no_new_root_file; [exact Hnd| |exact Hl].
    by rewrite Hprune.
Qed.

(** On a network that does not fail, clearing a well-formed destination in
    a dry run and in a real run records the same, and both leave the same
    manifest file to be read. *)
Lemma clearDestination_dry_real cfg (s : state) :
  dry_run cfg = true → reliable_net s → wf_tree (remote s) →
  ∃ sd sr,
    clearDestination cfg s = (Ok tt, sd) ∧
    clearDestination (with_dry_run false cfg) s = (Ok tt, sr) ∧
    stats sd = stats sr ∧ errors (stats sr) = errors (stats s) ∧
    reliable_net sd ∧ reliable_net sr ∧
    same_root_file HASH_FILE_NAME (remote sd) (remote sr).
Proof.
  intros Hdry Hnet Hwf. set (real := with_dry_run false cfg).
  (* the dry run *)
  destruct (clearDestination_spec cfg s)
    as (listing & sd & new & Hlist & _ & Hcd & Hrem & Hupl & Hunch & _ & _ & Hnew & _ & _).
  rewrite (getRemoteFiles_root_reliable s Hnet) in Hlist. injection Hlist as <-.
  specialize (Hnew Hdry). subst new.
  assert (Hfrd : dry_frame s sd).
  { replace sd with (snd (clearDestination cfg s)) by (by rewrite Hcd).
    assert (Hq : ∀ ev, mutating ev = false → @quiet dry_frame _ ev) by done.
    apply (pr_clearDestination dry_frame cfg Hq);
      [intros f; by apply pr_clear_one_dry | by apply pr_removeEmptyDirectories_root_dry]. }
  assert (Hnetd : reliable_net sd).
  { replace sd with (snd (clearDestination cfg s)) by (by rewrite Hcd).
    apply reliable_net_preserved; [|done].
    assert (Hq : ∀ ev, mutating ev = false → @quiet same_net _ ev) by done.
    apply (pr_clearDestination same_net cfg Hq);
      [intros f; by apply (pr_clear_one same_net cfg)
      |by apply (pr_removeEmptyDirectories_root same_net cfg Hq)]. }
  assert (Herrd : errors (stats sd) = errors (stats s)).
  { revert Hcd. unfold clearDestination, bind.
    pose proof (getRemoteFiles_root_stats s) as Hst0.
    destruct (getRemoteFiles_root s) as [[fs|?] s0]; [|done]. cbn in Hst0.
    pose proof (clear_loop_dry cfg fs Hdry s0) as Hl.
    destruct (for_each fs (clear_one cfg) s0) as [[[]|?] s1]; [|done]. cbn in Hl.
    pose proof (removeEmptyDirectories_root_stats cfg s1) as Hp.
    intros Hcd. rewrite Hcd in Hp. cbn in Hp. by rewrite Hp, Hl, Hst0. }
  (* the real run *)
  pose proof (getRemoteFiles_root_reliable s Hnet) as Hlist.
  pose proof (pr_getRemoteFiles_root same_remote (fun _ => I) s) as Hrem0.
  pose proof (getRemoteFiles_root_stats s) as Hst0.
  pose proof (reliable_net_preserved _ s
                (pr_getRemoteFiles_root same_net (fun _ => I)) Hnet) as Hnet0.
  destruct (getRemoteFiles_root s) as [[fs|?] s0] eqn:Hscan; [|done].
  cbn [fst snd] in Hlist, Hrem0, Hst0, Hnet0. injection Hlist as ->. unfold same_remote in Hrem0.
  assert (Hnot : HASH_FILE_NAME ∉ files_of (remote s)).
  { unfold getRemoteFiles_root in Hscan. by eapply getRemoteFiles_not_manifest. }
  destruct (clear_loop_reliable real (files_of (remote s)) eq_refl (files_of_NoDup _ Hwf) s0)
    as (s1 & Hloop & Hnet1 & Hwf1 & Hremoved & Herr & _); [done|by rewrite Hrem0..|].
  destruct (clear_loop_spec real (files_of (remote s)) s0)
    as (s1' & new & Hloop' & _ & Hupl1 & Hunch1 & _).
  rewrite Hloop in Hloop'. injection Hloop' as <-.
  pose proof (clear_loop_same_manifest real _ Hnot s0) as Hsame1.
  rewrite Hloop in Hsame1. cbn [snd] in Hsame1. rewrite Hrem0 in Hsame1.
  pose proof (removeEmptyDirectories_root_stats real s1) as Hst2.
  pose proof (removeEmptyDirectories_root_same_file real HASH_FILE_NAME s1 Hwf1) as Hsame2.
  pose proof (reliable_net_preserved _ s1
                (pr_removeEmptyDirectories_root same_net real (fun _ _ => I : @quiet same_net _ _)
                   (fun _ _ => I)) Hnet1) as Hnet2.
  destruct (nt_removeEmptyDirectories_root real s1) as [[] Hok].
  destruct (removeEmptyDirectories_root real s1) as [[[]|?] s2] eqn:Hprune; [|done].
  cbn [snd] in Hst2, Hsame2, Hnet2.
  exists sd, s2. split; [done|]. split.
  { fold real. unfold clearDestination, bind. by rewrite Hscan, Hloop, Hprune. }
  split.
  { apply stats_ext.
    - by rewrite Hupl, Hst2, Hupl1, Hst0.
    - by rewrite Hrem, Hst2, Hremoved, Hst0.
    - by rewrite Hunch, Hst2, Hunch1, Hst0.
    - by rewrite Herrd, Hst2, Herr, Hst0. }
  split; [by rewrite Hst2, Herr, Hst0|]. split; [done|]. split; [done|].
  destruct Hfrd as [-> _]. eapply same_root_file_trans; [exact Hsame1 | exact Hsame2].
Qed.

(** With clear-destination both runs gather the same inputs on a network
    that does not fail. *)
Lemma gather_clear_dry_real cfg (l : local_snapshot) (s : state) :
  dry_run cfg = true → clear_destination cfg = true →
  reliable_net s → wf_tree (remote s) →
  ∃ r sd sr,
    gather cfg l s = (r, sd) ∧ gather (with_dry_run false cfg) l s = (r, sr) ∧
    stats sd = stats sr ∧ errors_grow s sr.
Proof.
  intros Hdry Hclear Hnet Hwf. unfold gather.
  change (clear_destination (with_dry_run false cfg)) with (clear_destination cfg).
  change (clean_remote_files (with_dry_run false cfg)) with (clean_remote_files cfg).
  rewrite Hclear, andb_false_r. unfold bind.
  pose proof (client_access_stats s) as Hsta.
  pose proof (pr_client_access same_remote I s) as Hrema.
  pose proof (reliable_net_preserved _ s (pr_client_access same_net I) Hnet) as Hneta.
  destruct (client_access s) as [[[]|e] sa].
  2: { exists (Throw e), sa, sa. repeat split; try done. by apply errors_grow_same. }
  cbn [snd] in Hsta, Hrema, Hneta. unfold same_remote in Hrema.
  destruct (clearDestination_dry_real cfg sa Hdry Hneta ltac:(by rewrite Hrema))
    as (sd & sr & -> & -> & Hst & Herr & Hnetd & Hnetr & Hsame).
  pose proof (loadRemoteHashes_reliable cfg sd Hnetd) as Hld.
  pose proof (loadRemoteHashes_reliable (with_dry_run false cfg) sr Hnetr) as Hlr.
  rewrite <- (stored_manifest_same (with_dry_run false cfg) _ _ Hsame) in Hlr.
  change (stored_manifest (with_dry_run false cfg)) with (stored_manifest cfg) in Hlr.
  pose proof (loadRemoteHashes_stats cfg sd) as Hstd.
  pose proof (loadRemoteHashes_stats (with_dry_run false cfg) sr) as Hstr.
  destruct (loadRemoteHashes cfg sd) as [rd sd1].
  destruct (loadRemoteHashes (with_dry_run false cfg) sr) as [rr sr1].
  cbn [fst snd] in *. subst rd rr.
  assert (Hgrow : errors_grow s sr1).
  { exists []. by rewrite app_nil_r, Hstr, Herr, Hsta. }
  destruct l as [e|files]; cbn [scan_local throw ret].
  - exists (Throw e), sd1, sr1. repeat split; [congruence|done].
  - eexists (Ok _), sd1, sr1. repeat split; [congruence|done].
Qed.

(** On a network that does not fail and a well-formed destination, the
    manifest working copy and the record of a dry run are those of the real
    run that reports no error, in every configuration. *)
Lemma deploy_dry_real_reliable cfg (l : local_snapshot) (s : state) :
  dry_run cfg = true → reliable_net s → wf_tree (remote s) →
  errors (stats (snd (deploy (with_dry_run false cfg) l s))) = errors (stats s) →
  fst (deploy_plan cfg l s) = fst (deploy_plan (with_dry_run false cfg) l s) ∧
  fst (deploy cfg l s) = fst (deploy (with_dry_run false cfg) l s).
Proof.
  intros Hdry Hnet Hwf Herr. destruct (clear_destination cfg) eqn:Hclear.
  - destruct (gather_clear_dry_real cfg l s Hdry Hclear Hnet Hwf)
      as (r & sd & sr & Hgd & Hgr & Hst & Hgrow).
    by apply (plan_dry_real cfg Hdry l s r sd sr).
  - by apply deploy_dry_real.
Qed.

(** ** The plan that a dry run records *)

(** The upload loop of a dry run: a path is recorded unchanged when the
    manifest answers for it what [localHashes] answers, as uploaded
    otherwise, and the working copy ends up answering like [localHashes] for
    every local path. *)
Lemma upload_phase_dry cfg (lh : gmap string string) :
  dry_run cfg = true → lh !! "__proto__" = None →
  ∀ files m s, NoDup (fst <$> files) →
    ∃ m' s', upload_phase cfg lh files m s = (Ok m', s') ∧
      uploaded (stats s') = uploaded (stats s)
        ++ List.filter (fun p => negb (bool_decide (Js.get m p = Js.get lh p))) (fst <$> files) ∧
      unchanged (stats s') = unchanged (stats s)
        ++ List.filter (fun p => bool_decide (Js.get m p = Js.get lh p)) (fst <$> files) ∧
      removed (stats s') = removed (stats s) ∧
      errors (stats s') = errors (stats s) ∧
      (∀ p, p ∈ (fst <$> files) → Js.get m' p = Js.get lh p) ∧
      (∀ q, q ∉ (fst <$> files) → m' !! q = m !! q).
Proof.
  intros Hdry Hlh. unfold upload_phase.
  induction files as [|[p h] files IH]; intros m s Hnd.
  { exists m, s. cbn. rewrite !app_nil_r. repeat split; try done.
    intros p Hp. by apply elem_of_nil in Hp. }
  rewrite fmap_cons in Hnd. cbn [fst] in Hnd. apply NoDup_cons in Hnd as [Hp Hnd].
  cbn [fold_M]. unfold bind. rewrite fmap_cons. cbn [fst List.filter].
  destruct (upload_one_cases cfg lh p h m s)
    as [[Heq ->]|[(Hne & _ & ->)|[(_ & ? & _)|[(_ & ? & _)|(_ & ? & _)]]]];
    [| |congruence..].
  - destruct (IH m (snd (push_unchanged p s)) Hnd)
      as (m' & s' & -> & Hu & Hc & Hr & He & Hin & Hout).
    exists m', s'. rewrite bool_decide_eq_true_2 by done. cbn [negb].
    split; [done|]. split; [by rewrite Hu|]. split.
    { rewrite Hc. cbn. by rewrite <- app_assoc. }
    split; [by rewrite Hr|]. split; [by rewrite He|]. split.
    + intros q. rewrite elem_of_cons. intros [->|Hq]; [|by apply Hin].
      rewrite <- Heq. apply Js_get_same. by apply Hout.
    + intros q. rewrite not_elem_of_cons. intros [_ Hq]. by apply Hout.
  - destruct (IH (assign_hash lh p m) (snd (push_uploaded p s)) Hnd)
      as (m' & s' & -> & Hu & Hc & Hr & He & Hin & Hout).
    assert (Hsame : ∀ q, In q (fst <$> files) →
              Js.get (assign_hash lh p m) q = Js.get m q).
    { intros q Hq. apply assign_hash_get_ne. intros ->. by apply list_elem_of_In in Hq. }
    exists m', s'. rewrite bool_decide_eq_false_2 by done. cbn [negb].
    split; [done|]. split.
    { rewrite Hu. cbn. rewrite <- app_assoc. cbn. do 2 f_equal.
      apply filter_ext_in. intros q Hq. by rewrite (Hsame q Hq). }
    split.
    { rewrite Hc. cbn. f_equal. apply filter_ext_in. intros q Hq. by rewrite (Hsame q Hq). }
    split; [by rewrite Hr|]. split; [by rewrite He|]. split.
    + intros q. rewrite elem_of_cons. intros [->|Hq]; [|by apply Hin].
      rewrite <- (assign_hash_get lh p m Hlh). apply Js_get_same. by apply Hout.
    + intros q. rewrite not_elem_of_cons. intros [Hne' Hq].
      rewrite (Hout q Hq). by apply assign_hash_lookup_ne.
Qed.

Lemma gather_remote_files cfg l s rh lf R s1 :
  gather cfg l s = (Ok (rh, lf, Some R), s1) →
  clean_remote_files cfg && negb (clear_destination cfg) = true.
Proof.
  unfold gather, bind.
  destruct (client_access s) as [[[]|?] sa]; [|done].
  destruct ((if clear_destination cfg then clearDestination cfg else ret tt) sa)
    as [[[]|?] sb]; [|done].
  destruct (loadRemoteHashes cfg sb) as [[rh0|?] sc]; [|done].
  destruct (scan_local l sc) as [[lf0|?] sl]; [|done].
  destruct (clean_remote_files cfg && negb (clear_destination cfg)); [done|].
  cbn. by intros [=].
Qed.

(** What a dry run records from the inputs it has gathered. *)
Lemma deploy_dry_plan cfg (files : list (string * string)) (s : state)
    (M0 : gmap string string) (R : option (list string)) (s1 : state) :
  dry_run cfg = true →
  gather cfg (inr files) s = (Ok (M0, files, R), s1) →
  NoDup (fst <$> files) →
  let lh := build_localHashes files in
  let gone := match R with
              | Some R => filesToRemove cfg (orphanedFiles lh R)
              | None => []
              end in
  fst (deploy cfg (inr files) s)
  = Ok {| uploaded := uploaded (stats s1)
            ++ List.filter (fun p => negb (bool_decide (Js.get M0 p = Js.get lh p)))
                 (fst <$> files);
          removed := removed (stats s1) ++ gone;
          unchanged := unchanged (stats s1)
            ++ List.filter (fun p => bool_decide (Js.get M0 p = Js.get lh p)) (fst <$> files);
          errors := errors (stats s1) |} ∧
  ∃ M', fst (deploy_plan cfg (inr files) s) = Ok M' ∧
    (∀ p, p ∈ (fst <$> files) → Js.is_truthy (Js.get lh p) = true →
          Js.get M' p = Js.get lh p) ∧
    (∀ q, q ∈ gone → M' !! q = None).
Proof.
  intros Hdry Hg Hnd lh gone.
  destruct (upload_phase_dry cfg lh Hdry (build_localHashes_no_proto files) files M0 s1 Hnd)
    as (M1 & s2 & Hup & Hu & Hc & Hr & He & Hin & _).
  assert (Hclean : ∃ M2 s3, clean_phase cfg lh R M1 s2 = (Ok M2, s3) ∧
            uploaded (stats s3) = uploaded (stats s2) ∧
            unchanged (stats s3) = unchanged (stats s2) ∧
            errors (stats s3) = errors (stats s2) ∧
            removed (stats s3) = removed (stats s2) ++ gone ∧
            (∀ q, q ∈ gone → M2 !! q = None)).
  { unfold clean_phase. destruct R as [R|].
    2: { exists M1, s2. subst gone. rewrite app_nil_r. repeat split; try done.
         intros q Hq. by apply elem_of_nil in Hq. }
    rewrite (gather_remote_files _ _ _ _ _ _ _ Hg). cbv zeta. fold gone.
    destruct (remove_loop_spec cfg gone
                (keep_preserved (preservedFiles cfg (orphanedFiles lh R)) M1) s2)
      as (M2 & s3 & new & Hloop & Hrem & Hupl & Hunch & Hnone & _ & _ & _ & Hnew & _ & Hgrow).
    specialize (Hnew Hdry). subst new.
    assert (Herr : errors (stats s3) = errors (stats s2)).
    { replace s3 with (snd (fold_M (remove_one cfg) gone
                 (keep_preserved (preservedFiles cfg (orphanedFiles lh R)) M1) s2))
        by (by rewrite Hloop).
      clear -Hdry. generalize (keep_preserved (preservedFiles cfg (orphanedFiles lh R)) M1).
      revert s2. induction gone as [|f fs IH]; intros s m; [done|].
      cbn [fold_M]. unfold bind.
      destruct (remove_one_cases cfg f m s) as [[_ ->]|[[? _]|[? _]]]; [|congruence..].
      by rewrite IH. }
    unfold bind. rewrite Hloop.
    pose proof (removeEmptyDirectories_root_stats cfg s3) as Hp.
    destruct (nt_removeEmptyDirectories_root cfg s3) as [[] Hok].
    destruct (0 <? length gone)%nat.
    - destruct (removeEmptyDirectories_root cfg s3) as [[[]|?] s4]; [|done].
      cbn [snd] in Hp. exists M2, s4. rewrite Hp. repeat split; try done.
      intros q Hq. by apply Hnone.
    - exists M2, s3. repeat split; try done. intros q Hq. by apply Hnone. }
  destruct Hclean as (M2 & s3 & Hcl & Hu3 & Hc3 & He3 & Hr3 & Hnone).
  assert (Hplan : deploy_plan cfg (inr files) s = (Ok M2, s3)).
  { unfold deploy_plan, bind. rewrite Hg. cbn [fst snd]. fold lh. by rewrite Hup. }
  split.
  - destruct (deploy_after_plan cfg _ _ _ _ Hplan)
      as [(s4 & Hp & Hst4 & ->)|(e & s4 & st & Hp & _)].
    + cbn [fst]. f_equal. rewrite Hst4.
      apply stats_ext; cbn; [by rewrite Hu3, Hu|by rewrite Hr3, Hr|by rewrite Hc3, Hc|
                             by rewrite He3, He].
    + exfalso. revert Hp. unfold persist. by rewrite Hdry.
  - exists M2. rewrite Hplan. split; [done|]. split; [|done].
    intros p Hp Htr. rewrite <- (Hin p Hp). apply Js_get_same.
    destruct (clean_phase_other cfg lh R M1 s2 p Htr) as (m' & s' & Hcl' & Hsame & _).
    rewrite Hcl in Hcl'. by injection Hcl' as <- <-.
Qed.

(** ** The dry run *)

(** C6. In a dry run [deploy] issues no call that changes remote content -
    no upload (so the manifest is never persisted), no deletion, no directory
    creation or removal - and leaves the remote tree as it was; each upload,
    removal or clearing step updates the manifest working copy and
    [this.stats] exactly as the corresponding step of a real run does when its
    transport calls succeed. The manifest working copy and the record that
    the dry run returns are those of the real run from the same state,
    whenever that real run reports no error: without clear-destination on
    every network, and in every configuration - clear-destination included -
    on a network that does not fail and a well-formed remote tree. And the
    record is the plan: from the manifest, the local files and the listing
    that the run has gathered, [uploaded] gains the local paths for which the
    manifest does not answer what [localHashes] answers, [unchanged] the
    other local paths, [removed] the orphans that the preserve list does not
    protect, [errors] nothing; the working copy ends up answering like
    [localHashes] for every local path with a truthy answer there, and
    without an entry for every planned removal. *)
Theorem dry_run_changes_nothing (cfg : FtpDeployConfig) (l : local_snapshot) (s : state) :
  dry_run cfg = true →
  let s' := snd (deploy cfg l s) in
  remote s' = remote s ∧
  (∃ evs, trace s' = trace s ++ evs ∧ Forall (fun ev => mutating ev = false) evs) ∧
  (∀ lh p h m s0,
     let real := upload_one (with_dry_run false cfg) lh (p, h) m s0 in
     let dry := upload_one cfg lh (p, h) m s0 in
     fst (client_ensureDir p s0) = Ok tt →
     fst (client_uploadFrom (Blob h) p (snd (client_ensureDir p s0))) = Ok tt →
     fst real = fst dry ∧ stats (snd real) = stats (snd dry)) ∧
  (∀ f m s0,
     let real := remove_one (with_dry_run false cfg) f m s0 in
     let dry := remove_one cfg f m s0 in
     fst (executeWithRetry (with_dry_run false cfg) (client_remove f) s0) = Ok tt →
     fst real = fst dry ∧ stats (snd real) = stats (snd dry)) ∧
  (∀ f s0,
     let real := clear_one (with_dry_run false cfg) f s0 in
     let dry := clear_one cfg f s0 in
     fst (client_remove f s0) = Ok tt →
     fst real = fst dry ∧ stats (snd real) = stats (snd dry)) ∧
  (clear_destination cfg = false →
   errors (stats (snd (deploy (with_dry_run false cfg) l s))) = errors (stats s) →
   fst (deploy_plan cfg l s) = fst (deploy_plan (with_dry_run false cfg) l s) ∧
   fst (deploy cfg l s) = fst (deploy (with_dry_run false cfg) l s)) ∧
  (reliable_net s → wf_tree (remote s) →
   errors (stats (snd (deploy (with_dry_run false cfg) l s))) = errors (stats s) →
   fst (deploy_plan cfg l s) = fst (deploy_plan (with_dry_run false cfg) l s) ∧
   fst (deploy cfg l s) = fst (deploy (with_dry_run false cfg) l s)) ∧
  (∀ files s0 M0 R s1,
     gather cfg (inr files) s0 = (Ok (M0, files, R), s1) →
     NoDup (fst <$> files) →
     let lh := build_localHashes files in
     let gone := match R with
                 | Some R => filesToRemove cfg (orphanedFiles lh R)
                 | None => []
                 end in
     fst (deploy cfg (inr files) s0)
     = Ok {| uploaded := uploaded (stats s1)
               ++ List.filter (fun p => negb (bool_decide (Js.get M0 p = Js.get lh p)))
                    (fst <$> files);
             removed := removed (stats s1) ++ gone;
             unchanged := unchanged (stats s1)
               ++ List.filter (fun p => bool_decide (Js.get M0 p = Js.get lh p))
                    (fst <$> files);
             errors := errors (stats s1) |} ∧
     ∃ M', fst (deploy_plan cfg (inr files) s0) = Ok M' ∧
       (∀ p, p ∈ (fst <$> files) → Js.is_truthy (Js.get lh p) = true →
             Js.get M' p = Js.get lh p) ∧
       (∀ q, q ∈ gone → M' !! q = None)).
Proof.
  intros Hdry. cbv zeta.
  destruct (pr_deploy_dry cfg Hdry l s) as [Hrem Htr].
  split; [done|]. split; [done|]. split; [|split; [|split; [|split; [|split]]]];
    [| | |by apply deploy_dry_real|by apply deploy_dry_real_reliable|
     intros files s0 M0 R s1 Hg Hnd; by apply deploy_dry_plan].
  - intros lh p h m s0 H1 H2.
    destruct (upload_one_cases cfg lh p h m s0)
      as [[Heq ->]|[(Hne & _ & ->)|[(_ & ? & _)|[(_ & ? & _)|(_ & ? & _)]]]];
      [| |congruence..].
    + destruct (upload_one_cases (with_dry_run false cfg) lh p h m s0)
        as [[_ ->]|[(? & _)|[(? & _)|[(? & _)|(? & _)]]]]; done.
    + destruct (upload_one_cases (with_dry_run false cfg) lh p h m s0)
        as [[? _]|[(_ & ? & _)|[(_ & _ & e & s1 & E1 & _)|
            [(_ & _ & s1 & e & s2 & E1 & E2 & _)|(_ & _ & s1 & s2 & E1 & E2 & ->)]]]];
        try done.
      * by rewrite E1 in H1.
      * rewrite E1 in H2. cbn in H2. by rewrite E2 in H2.
      * split; [done|]. cbn. 
        assert (stats s2 = stats s0) as ->; [|done].
        replace s2 with (snd (client_uploadFrom (Blob h) p s1)) by (by rewrite E2).
        unfold client_uploadFrom. rewrite call_stats.
        replace s1 with (snd (client_ensureDir p s0)) by (by rewrite E1).
        unfold client_ensureDir. by rewrite call_stats.
  - intros f m s0 H1.
    destruct (remove_one_cases cfg f m s0) as [[_ ->]|[[? _]|[? _]]]; [|congruence..].
    destruct (remove_one_cases (with_dry_run false cfg) f m s0)
      as [[? _]|[(_ & e & s1 & E1 & _)|(_ & s1 & E1 & ->)]]; [done| |].
    + by rewrite E1 in H1.
    + split; [done|]. cbn.
      assert (stats s1 = stats s0) as ->; [|done].
      replace s1 with (snd (executeWithRetry (with_dry_run false cfg) (client_remove f) s0))
        by (by rewrite E1).
      apply executeWithRetry_stats. intros s2. unfold client_remove. apply call_stats.
  - intros f s0 H1.
    destruct (clear_one_cases cfg f s0) as [[_ ->]|[[? _]|[? _]]]; [|congruence..].
    destruct (clear_one_cases (with_dry_run false cfg) f s0)
      as [[? _]|[(_ & e & s1 & E1 & _)|(_ & s1 & E1 & ->)]]; [done| |].
    + by rewrite E1 in H1.
    + split; [done|]. cbn.
      assert (stats s1 = stats s0) as ->; [|done].
      replace s1 with (snd (client_remove f s0)) by (by rewrite E1).
      unfold client_remove. by rewrite call_stats.
Qed.

Lemma dry_run_changes_nothing_witness :
  let cfg := with_dry_run true (with_clear true sample_config) in
  let s := initial sample_tree reliable in
  let s' := snd (deploy cfg (inr sample_files) s) in
  remote s' = remote s ∧
  (∃ evs, trace s' = trace s ++ evs ∧ Forall (fun ev => mutating ev = false) evs) ∧
  fst (deploy cfg (inr sample_files) s)
    = fst (deploy (with_dry_run false cfg) (inr sample_files) s) ∧
  fst (deploy cfg (inr sample_files) s)
    = Ok {| uploaded := ["b.txt"]; removed := ["a.txt"; "old.txt"];
            unchanged := ["a.txt"]; errors := [] |}.
Proof.
  cbv zeta.
  pose proof (dry_run_changes_nothing (with_dry_run true (with_clear true sample_config))
                (inr sample_files) (initial sample_tree reliable) eq_refl) as H.
  cbv zeta in H. destruct H as (H1 & H2 & _ & _ & _ & _ & H7 & H8).
  split; [done|]. split; [done|]. split.
  - apply H7; [by intros k | exact sample_tree_wf | by vm_compute].
  - destruct (H8 sample_files (initial sample_tree reliable) sample_manifest None
                (snd (gather (with_dry_run true (with_clear true sample_config))
                        (inr sample_files) (initial sample_tree reliable))))
      as [Hrec _].
    + by vm_compute.
    + apply (bool_decide_unpack _). by vm_compute.
    + rewrite Hrec. by vm_compute.
Defined.

(** ** A size query that fails *)

(** Against a working copy without an entry for any of them, the upload
    loop finds no local file unchanged, except a file called [__proto__]:
    for that name both objects answer with [Object.prototype]. *)
Lemma upload_phase_fresh cfg (lh : gmap string string) (files : list (string * string)) :
  lh !! "__proto__" = None →
  ∀ m s, NoDup (fst <$> files) →
    (∀ p, p ∈ (fst <$> files) → p ≠ "__proto__" → is_Some (lh !! p)) →
    (∀ p, p ∈ (fst <$> files) → m !! p = None) →
    unchanged (stats (snd (upload_phase cfg lh files m s)))
    = unchanged (stats s) ++ List.filter (String.eqb "__proto__") (fst <$> files).
Proof.
  intros Hlh. unfold upload_phase.
  induction files as [|[p h] files IH]; intros m s Hnd Hloc Hm.
  { cbn. by rewrite app_nil_r. }
  rewrite fmap_cons in Hnd, Hloc, Hm |- *. cbn [fst] in *.
  apply NoDup_cons in Hnd as [Hp Hnd].
  assert (Hmp : m !! p = None) by (apply Hm; by left).
  assert (Hloc' : ∀ q, q ∈ (fst <$> files) → q ≠ "__proto__" → is_Some (lh !! q))
    by (intros q Hq; apply Hloc; by right).
  cbn [fold_M List.filter]. unfold bind.
  destruct (String.eqb_spec "__proto__" p) as [<-|Hne].
  - assert (Heq : Js.get m "__proto__" = Js.get lh "__proto__")
      by (by rewrite !Js_get_proto).
    destruct (upload_one_cases cfg lh "__proto__" h m s)
      as [[_ ->]|[(? & _)|[(? & _)|[(? & _)|(? & _)]]]]; [|done..].
    rewrite IH; [|done|done|intros q Hq; apply Hm; by right].
    cbn. by rewrite <- app_assoc.
  - destruct (Hloc p) as [h' Hh']; [by left|congruence|].
    assert (Hdiff : Js.get m p ≠ Js.get lh p).
    { rewrite (Js_get_own _ _ _ Hh'). unfold Js.get. rewrite Hmp.
      by destruct (bool_decide _). }
    assert (Hrest : ∀ q, q ∈ (fst <$> files) → assign_hash lh p m !! q = None).
    { intros q Hq. rewrite assign_hash_lookup_ne; [apply Hm; by right|]. by intros ->. }
    assert (Hm' : ∀ q, q ∈ (fst <$> files) → m !! q = None)
      by (intros q Hq; apply Hm; by right).
    destruct (upload_one_cases cfg lh p h m s)
      as [[? _]|[(_ & _ & ->)|[(_ & _ & e & s1 & H1 & ->)|
          [(_ & _ & s1 & e & s2 & H1 & H2 & ->)|(_ & _ & s1 & s2 & H1 & H2 & ->)]]]];
      [done|..]; (rewrite IH; [|done|done|done]); cbn; f_equal.
    + replace s1 with (snd (client_ensureDir p s)) by (by rewrite H1).
      by rewrite client_ensureDir_stats.
    + replace s2 with (snd (client_uploadFrom (Blob h) p s1)) by (by rewrite H2).
      rewrite client_uploadFrom_stats.
      replace s1 with (snd (client_ensureDir p s)) by (by rewrite H1).
      by rewrite client_ensureDir_stats.
    + replace s2 with (snd (client_uploadFrom (Blob h) p s1)) by (by rewrite H2).
      rewrite client_uploadFrom_stats.
      replace s1 with (snd (client_ensureDir p s)) by (by rewrite H1).
      by rewrite client_ensureDir_stats.
Qed.

(** C10. A size query for the manifest that fails with a connection error
    makes [loadRemoteHashes] return the empty manifest, but the run that
    follows is not a full re-upload when a local file is called
    [__proto__]: that file is recorded unchanged and is not transferred. *)
Lemma size_failure_skips_proto_file :
  let files := [("__proto__", "h0"); ("a.txt", "h1")] in
  let s := initial [] (fails_at 1 econnreset) in
  let r := deploy sample_config (inr files) s in
  fst (client_size HASH_FILE_NAME (snd (client_access s))) = Throw econnreset ∧
  fst (loadRemoteHashes sample_config (snd (client_access s))) = Ok ∅ ∧
  fst r = Ok {| uploaded := ["a.txt"]; removed := []; unchanged := ["__proto__"];
                errors := [] |} ∧
  node_at ["__proto__"] (remote (snd r)) = None ∧
  node_at ["a.txt"] (remote (snd r)) = Some (RFile (Blob "h1")) ∧
  lookup_entry HASH_FILE_NAME (remote (snd r)) = Some (RFile (Json {["a.txt" := "h1"]})).
Proof. cbv zeta. repeat split; by vm_compute. Qed.

(** X30. Whatever error the size query raises - a connection error
    included - the existence check answers "absent" after that single call;
    when this happens for the manifest, [loadRemoteHashes] returns the empty
    manifest, having issued nothing but the size query (no retry, no
    reconnection) and recorded no error. Against that empty manifest the
    upload loop records no local file as unchanged except one called
    [__proto__], and every other local file is recorded as uploaded or,
    when its transfer fails, with an error. *)
Theorem size_failure_means_absent (cfg : FtpDeployConfig) (remotePath : string)
    (s : state) (e e' : error) :
  fst (client_size remotePath s) = Throw e →
  fst (client_size HASH_FILE_NAME s) = Throw e' →
  remoteFileExists remotePath s
    = (Ok false, tick (log_event (EvSize remotePath) s)) ∧
  loadRemoteHashes cfg s
    = (Ok ∅, tick (log_event (EvSize HASH_FILE_NAME) s)) ∧
  ∀ files s', NoDup (fst <$> files) →
    let s'' := snd (upload_phase cfg (build_localHashes files) files ∅ s') in
    unchanged (stats s'')
      = unchanged (stats s') ++ List.filter (String.eqb "__proto__") (fst <$> files) ∧
    ∀ p, p ∈ (fst <$> files) → p ≠ "__proto__" →
      p ∈ uploaded (stats s'') ∨ ∃ err, upload_message p err ∈ errors (stats s'').
Proof.
  assert (Hsize : ∀ p e0, fst (client_size p s) = Throw e0 →
            remoteFileExists p s = (Ok false, tick (log_event (EvSize p) s))).
  { intros p e0. unfold remoteFileExists, try_catch, bind, client_size, call.
    destruct (net s (calls s)); [done|].
    by destruct (node_at _ _) as [[| |]|]. }
  intros He He'. split; [by eapply Hsize|]. split.
  - unfold loadRemoteHashes, bind. by rewrite (Hsize _ _ He').
  - intros files s' Hnd. cbv zeta. split.
    + apply upload_phase_fresh; [apply build_localHashes_no_proto|done| |done].
      intros p Hp Hne. by apply build_localHashes_is_Some.
    + intros p Hp Hne. apply list_elem_of_fmap in Hp as [[p' h] [Heq Hin]].
      cbn in Heq. subst p'.
      destruct (upload_phase_at cfg (build_localHashes files) files p h Hnd Hin
                  (build_localHashes_in files p h Hnd Hin Hne) Hne ∅ s')
        as (m' & s'' & -> & _ & Hout).
      destruct (Hout ltac:(done)) as [[Hu _]|(_ & Herr & _)]; [by left|by right].
Qed.

Lemma size_failure_means_absent_witness :
  remoteFileExists "index.html" (initial [] unreachable)
    = (Ok false, tick (log_event (EvSize "index.html") (initial [] unreachable))) ∧
  loadRemoteHashes sample_config (initial [] unreachable)
    = (Ok ∅, tick (log_event (EvSize HASH_FILE_NAME) (initial [] unreachable))) ∧
  ∀ files s', NoDup (fst <$> files) →
    let s'' := snd (upload_phase sample_config (build_localHashes files) files ∅ s') in
    unchanged (stats s'')
      = unchanged (stats s') ++ List.filter (String.eqb "__proto__") (fst <$> files) ∧
    ∀ p, p ∈ (fst <$> files) → p ≠ "__proto__" →
      p ∈ uploaded (stats s'') ∨ ∃ err, upload_message p err ∈ errors (stats s'').
Proof.
  apply (size_failure_means_absent sample_config "index.html"
           (initial [] unreachable) econnreset econnreset); reflexivity.
Defined.

(** ** The clean phase, orphan by orphan *)





(** ** What a run without clear-destination spares *)

(** A regular file that the preserve list protects, at an ordinary path
    that no local file has, is kept with its content by the whole run. *)
Lemma deploy_keeps_preserved_file cfg (files : list (string * string)) (f : string) :
  clear_destination cfg = false →
  shouldPreserve cfg f = true → plain_path (split_slash f) →
  (f ∉ (fst <$> files)) →
  preserves (keeps_file (split_slash f)) (deploy cfg (inr files)).
Proof.
  intros Hclear Hpres Hplain Hlocal s. set (K := keeps_file (split_slash f)).
  assert (Hq : ∀ ev, mutating ev = false → @quiet K _ ev) by done.
  assert (Hkept : ∀ lh R, f ∉ filesToRemove cfg (orphanedFiles lh R)).
  { intros lh R [_ ?]%filesToRemove_spec. congruence. }
  assert (Hfail : ∀ e s0, K s0 (snd ((push_error (critical_message e) >> get_stats) s0))).
  { intros e s0. apply allows_error. }
  unfold deploy, try_finally.
  assert (Hbody : K s (snd (try_catch (deploy_body cfg (inr files))
                         (fun err => push_error (critical_message err) >> get_stats) s))).
  { unfold try_catch, deploy_body, deploy_plan. unfold bind at 1 2.
    pose proof (pr_gather K cfg Hq (inr files) ltac:(congruence) s) as Hg.
    destruct (gather cfg (inr files) s) as [[[[M0 lf] rf]|e] s1] eqn:Hgather;
      cbn [snd fst] in *; [|etrans; [exact Hg | apply Hfail]].
    rewrite (gather_local_files _ _ _ _ _ _ _ Hgather).
    destruct (upload_phase_others cfg f (build_localHashes files) files Hlocal M0 s1)
      as (M1 & lu & Hfst & _ & _ & Hup).
    unfold bind at 1.
    destruct (upload_phase cfg (build_localHashes files) files M0 s1) as [[M1'|e] s2];
      cbn [fst snd] in *; [|etrans; [exact Hg|]; etrans; [exact Hup | apply Hfail]].
    pose proof (pr_clean_phase_keeps cfg f (build_localHashes files) rf M1' Hplain
                  (Hkept _) s2) as Hcl.
    destruct (clean_phase cfg (build_localHashes files) rf M1' s2) as [[M2|e] s3];
      cbn [fst snd] in *;
      [|etrans; [exact Hg|]; etrans; [exact Hup|]; etrans; [exact Hcl | apply Hfail]].
    pose proof (pr_persist_keeps cfg f M2 Hplain s3) as Hp. unfold bind.
    destruct (persist cfg M2 s3) as [[[]|e] s4]; cbn [fst snd] in *.
    - etrans; [exact Hg|]. etrans; [exact Hup|]. etrans; [exact Hcl | exact Hp].
    - etrans; [exact Hg|]. etrans; [exact Hup|]. etrans; [exact Hcl|].
      etrans; [exact Hp | apply Hfail]. }
  destruct (try_catch _ _ s) as [r s1]. cbn [fst snd] in *.
  etrans; [exact Hbody|]. by apply (pr_client_close K).
Qed.

(** A preserved file that carries the name of the manifest inside a
    directory does not count as content of that directory: pruning removes
    the directory, and the file with it. *)
Lemma preserved_manifest_name_is_pruned :
  let cfg := with_preserve ["a/.deploy_ftp_hash.json"] (with_clean true sample_config) in
  let t := [("a", RDir [(HASH_FILE_NAME, RFile (Blob "x"))]);
            ("old.txt", RFile (Blob "h0"))] in
  let s' := snd (deploy cfg (inr sample_files) (initial t reliable)) in
  shouldPreserve cfg "a/.deploy_ftp_hash.json" = true ∧
  node_at ["a"; HASH_FILE_NAME] t = Some (RFile (Blob "x")) ∧
  EvRemoveDir "a" ∈ trace s' ∧
  shouldPreserve cfg "a" = false ∧
  node_at ["a"; HASH_FILE_NAME] (remote s') = None.
Proof.
  cbv zeta. repeat split; try (by vm_compute).
  apply list_elem_of_In. vm_compute. repeat (first [left; reflexivity | right]).
Qed.

(** X24. Without clear-destination, for every local tree, in every mode and
    whatever the network does: every [remove] and every [removeDir] call
    that [deploy] issues is for a path that [shouldPreserve] rejects; and a
    regular file that the preserve list protects is still on the server,
    with its content, when the run returns, provided no local file has its
    path and no segment of the path is [.], [..] or the name of the manifest
    file. (A file named like the manifest does not count as content of its
    directory, so it may go with the directory even when it is
    preserved.) *)
Theorem deploy_spares_preserved (cfg : FtpDeployConfig) (l : local_snapshot) (s : state) :
  clear_destination cfg = false →
  trace_extends (spares_preserved cfg) s (snd (deploy cfg l s)) ∧
  (∀ files f c,
     l = inr files → shouldPreserve cfg f = true → plain_path (split_slash f) →
     (f ∉ (fst <$> files)) →
     node_at (split_slash f) (remote s) = Some (RFile c) →
     node_at (split_slash f) (remote (snd (deploy cfg l s))) = Some (RFile c)).
Proof.
  intros Hclear. split.
  - set (R := trace_extends (spares_preserved cfg)).
    assert (Hreads : ∀ ev, mutating ev = false → @quiet R _ ev) by (by intros []).
    apply (pr_deploy R cfg Hreads).
    + apply (pr_gather R cfg Hreads). congruence.
    + intros lh fs m. apply (pr_fold_M R). intros [p h] m0 _.
      by apply (pr_upload_one R cfg).
    + intros lh rf m. apply pr_clean_phase_spares.
    + intros m. by apply (pr_persist R cfg Hreads).
  - intros files f c -> Hpres Hplain Hlocal Hc.
    by apply (deploy_keeps_preserved_file cfg files f Hclear Hpres Hplain Hlocal s).
Qed.

Lemma deploy_spares_preserved_witness :
  let cfg := with_preserve ["keep.txt"] (with_clean true sample_config) in
  let t := ("keep.txt", RFile (Blob "hk")) :: sample_tree in
  let s' := snd (deploy cfg (inr sample_files) (initial t reliable)) in
  trace_extends (spares_preserved cfg) (initial t reliable) s' ∧
  EvRemove "old.txt" ∈ trace s' ∧
  node_at ["keep.txt"] (remote s') = Some (RFile (Blob "hk")).
Proof.
  cbv zeta.
  destruct (deploy_spares_preserved
              (with_preserve ["keep.txt"] (with_clean true sample_config))
              (inr sample_files)
              (initial (("keep.txt", RFile (Blob "hk")) :: sample_tree) reliable) eq_refl)
    as [Htr Hkeep].
  split; [exact Htr|]. split.
  { apply list_elem_of_In. vm_compute. repeat (first [left; reflexivity | right]). }
  apply (Hkeep sample_files "keep.txt" (Blob "hk") eq_refl);
    [by vm_compute | repeat constructor; by vm_compute | | by vm_compute].
  apply (bool_decide_unpack _). by vm_compute.
Defined.
